(* ===== verification/_CoqProject ===== *)
-Q . S2P
Prelude.v
Json.v
JsonText.v
JsonFacts.v
PyLib.v
Sha256.v
StateMachine.v
StateMachineFacts.v
Models.v
ModelsFacts.v
Redact.v
RedactFacts.v
Envelope.v
EnvelopeFacts.v
Adapter.v
Wavelength.v
WavelengthFacts.v
WavelengthThms.v
Storage.v
Policy.v
StorageFacts.v
StorageThms.v
PolicyFacts.v
PolicyInv.v
PolicyRecords.v
PolicyThms.v
Progress.v
PeerTransport.v
Transport.v
Peer.v
Process.v
Erasure.v
ProcessFacts.v
ProcessInv.v
ProcessRecords.v
ProcessDisk.v
ProcessProps.v
ProcessThms.v
ProcessRestart.v
ProcessClock.v
EndToEnd.v
Health.v
Runner.v
RunnerThms.v
SupervisorThms.v
HealthThms.v
TransportThms.v
DeliveryThms.v
ProcessTyped.v
OutflowThms.v
MainThms.v
