(* ===== verification/Prelude.v ===== *)
(** * Hermes Payments: a verification development (root file)

    Hermes Payments lets two agents agree on a Lightning payment through an
    untrusted message channel and lets a human approve it before a settlement
    adapter moves funds.  This development models the Python package
    [src/src/hermes_payments] and the two-process example built on it,
    [src/examples/two_hermes_regtest], and proves what makes them safe.

    ** The program and its model

    - [models.py]: the messages (intent, quote, approval, receipt), their
      field constraints, canonical JSON and SHA-256 identifiers.  [Models.v];
      JSON values in [Json.v], JSON text in [JsonText.v], the hash in
      [Sha256.v].  Facts in [JsonFacts.v], [ModelsFacts.v].
    - [state_machine.py]: the table of payment states and triggers.
      [StateMachine.v], [StateMachineFacts.v].
    - [envelope.py]: the JSON envelope of a message.  [Envelope.v],
      [EnvelopeFacts.v].
    - [adapter.py]: redaction ([Redact.v], [RedactFacts.v]); the adapter
      interface, command lines, executors and parsers of the wavecli tool
      ([Adapter.v]); the Wavelength adapter ([Wavelength.v], facts in
      [WavelengthFacts.v], properties in [WavelengthThms.v]).
    - [policy.py]: the idempotency store and the audit log ([Storage.v],
      [StorageFacts.v], [StorageThms.v]); the policy engine
      [PaymentOrchestrator] ([Policy.v], symbolic execution and the invariant
      in [PolicyFacts.v], its preservation in [PolicyInv.v], properties of
      every tracked record in [PolicyRecords.v], properties of runs in
      [PolicyThms.v], the payment that succeeds in [Progress.v]).
    - [peer_transport.py], [transport.py], [peer.py]: the transport interface
      with its in-memory hub ([PeerTransport.v]), the Buzz transport
      ([Transport.v]), the peer endpoint ([Peer.v]); properties of the three
      in [TransportThms.v], of what arrives over Buzz, restarts included, in
      [DeliveryThms.v].
    - [two_hermes_regtest/process.py]: a process that runs a peer by JSON
      commands and keeps its records and inbox in a snapshot file
      ([Process.v], with base64, [float()] and paths in [PyLib.v]).  That a
      process over an observed world is the process over the world itself in
      [Erasure.v]; facts about its parts in [ProcessFacts.v]; what its
      commands keep, a small logic of preserved properties, and recovery in
      [ProcessInv.v], of every record in [ProcessRecords.v]; runs in which no
      write fails in [ProcessDisk.v]; properties of single commands in
      [ProcessProps.v], of runs with restarts in [ProcessThms.v], of recovery
      in [ProcessRestart.v], of a process without a clock in
      [ProcessClock.v], of the field constraints of its records and the
      restarts they allow in [ProcessTyped.v], of the process over the
      Wavelength adapter in [EndToEnd.v] and [OutflowThms.v].
    - [two_hermes_regtest/run_hermes.py], the runner of one process
      ([Runner.v]; properties in [RunnerThms.v], of one run of [main] after
      the other in [MainThms.v]), and [run.py], the supervisor of two
      ([Runner.v], its health probe of the relay in [Health.v]; properties in
      [SupervisorThms.v] and [HealthThms.v]).

    They interact as in the code: a peer calls its transport and its policy
    engine; the engine calls the state machine, the store, the audit log and
    an adapter; the Wavelength adapter calls an executor; a transport encodes
    and decodes envelopes of models.  Each boundary is a class:
    [SettlementAdapter] between the engine and an adapter, [WavecliExecutor],
    [WallClock] and [Subprocess] below the adapter, [PeerTransport] between
    peers and transports, [BuzzExecutor] below the Buzz transport,
    [BaseModel] for the message classes, [ChildProcesses] and [Network]
    below the supervisor.  A process calls its peer, and through it the engine and the
    transport; the runner builds it over [BuzzTransport] and
    [WavelengthAdapter].  Theorems about a client hold for
    every instance.

    ** Effects

    A call is a function of type [PyM S A = S -> outcome A * S]: it returns or
    raises, and in both cases leaves a state, so effects made before an
    exception stay.  [try_except] gives the handlers of the code in their
    order, with the class hierarchy of [superclass].  The engine's state
    ([Policy.Orchestrator]) holds the adapter's world, the environment
    ([Storage.Env]: the two files, an oracle that makes any write fail, clock
    readings), the store, the audit log and the tracked intents, a dictionary
    in insertion order.  A record of the code is mutated in place; here
    [mutate] updates it under its key.  A restart is [orchestrator_init] on
    the files as they are.

    ** What the theorems show

    - Dispatch ([PolicyThms], [WavelengthThms]): over all runs with any
      adapter, any operations, exceptions, failing writes and restarts, a
      payment is dispatched at most once, and only a prepared payment that
      was approved, durably, before; the Wavelength adapter sends exactly the
      intent that was prepared, after checking hash and expiry, and only on
      test networks.
    - Progress ([Progress]): a payment in order settles, with one PrepareSend
      and one Send, when the daemon previews and completes it.
    - Outcome: errors after the dispatch fail closed, success must match the
      approved preview, reconciliation never dispatches, and receipts are
      accepted only when verified on the right side of the wallet.
    - The engine refines the state machine; replay protection survives
      restarts; the store is saved atomically and the audit log appends.
    - Messages: envelopes round-trip, decoding accepts exactly the documented
      shape, identifiers are injective up to SHA-256 collisions, untrusted
      events are validated, what is published is what is received, deliveries
      happen once, also across restarts while the cursor is within its limit
      ([DeliveryThms]), approvals never leave the process, peers act in their
      roles.
    - Processes: dispatch at most once across restarts that read the records
      back from current files, and over the Wavelength adapter every Send
      given to the wallet's tool was approved and is the only one of its
      intent ([EndToEnd.sends_were_approved], where all components meet); all
      that is sent is at most the amounts and fee limits of the intents
      ([OutflowThms]); both hold of the runner itself, over any number of
      runs of its [main] on the files left ([MainThms]), where observing the
      tool is shown to change nothing.
    - Records: whatever happens, tracked records, inbox and snapshot satisfy
      the field constraints of their classes; so a process restarts from the
      files of any run that left them current, unless a message of the inbox
      came with a time that is no integer ([ProcessTyped]).  The files are
      current after every command when no write fails; a snapshot restores
      what it was written from; the inbox holds every message once; [recover]
      stops polling; a recipient publishes only receipts its wallet
      confirmed; commands survive their text.
    - Drivers: every line gets one printable answer, answers are printed
      without long identifiers, and the supervisor writes to its children
      only what the operator asked, and starts nothing before its checks and
      the probe of the relay's health have passed ([HealthThms]).
    - Behaviour that differs from what the code or its documents intend is
      stated as theorems of its own ([refused_quote_replaces_quote],
      [poison_event_loses_batch], [expired_intent_is_executed],
      [decode_unhashable_type], [reachable_states_correct],
      [failed_snapshot_dispatches_twice], [malformed_time_blocks_restart],
      [deliveries_survive_restarts],
      [unclocked_never_expires]).

    ** Choices and bounds

    - Python [int] is unbounded: [Z].  [float] is [spec_float] (binary64);
      [int(x)] and decimal literals follow it.  Text is a [string] of UTF-8
      bytes; [lower], [upper], [strip] and the character classes of patterns
      cover ASCII, which is what the program meets there.
    - [dict] is an association list in insertion order, because the code
      iterates over it; sets of strings are [gset string].
    - Fuel: the JSON parser gets twice the length of the text plus one (each
      step consumes a character or descends one level; [loads_dumps] shows it
      is enough for every printed value); substitution and removal get the
      length of the text (each step consumes a character); decimal printing
      gets the number of bits ([show_nonneg_spec]); [reachable_states] gets
      157 steps ([reachable_states_correct]); exception classes are at most
      three deep; the polling of [recover] gets any number of passes and says
      [None] when they are used up, and [recover_polling_bounded] says how
      many are enough for a given clock.
    - A file is the document it holds; a write succeeds or raises [OSError]
      and changes nothing, the promise of the temporary file and [os.replace].
    - Code outside the repository is a parameter: pydantic's coercions and
      serializer, texts of library errors and [repr] (class [Host], with the
      laws [HostLaws] where a theorem needs them, and a concrete instance),
      subprocesses, relays and clocks (the classes above).
    - Message objects are values: the engine keeps references to messages and
      never mutates them, and neither does anything it calls.
    - The streams of the drivers are the lists of lines that are read and
      written; the children of the supervisor are a parameter.

    Not modelled: [argparse] (a run begins with the arguments it returns) and
    the ends it makes of a run; an interrupt that arrives while a command is
    running (one at the prompt is modelled in both drivers); which hosts
    [urlsplit] accepts (a parameter) and the request that [urlopen] sends; the
    parameter [input_lines] of [_start_process], which no caller gives; the
    text of the command line in the log; and the tests. *)

From Stdlib Require Export ZArith Ascii String List Lia.
From stdpp Require Export base tactics option list gmap strings.

#[export] Set Default Goal Selector "!".

Open Scope string_scope.
Open Scope list_scope.
Open Scope Z_scope.

(** ** Python exceptions

    An exception value is its class and its message.  [superclass] is the
    inheritance of the classes the program raises or catches: the ones it
    declares itself and the built-in ones they meet in [except] clauses. *)

Inductive exn_class :=
  | CException | CValueError | CTypeError | CKeyError | CAttributeError
  | COverflowError | COSError | CRuntimeError
  | CJSONDecodeError | CUnicodeDecodeError | CValidationError
  | CPolicyError | CSubmissionRejected | CRecipientRejected
  | CApprovalRejected | CStateError | CUnknownIntent
  | CAdapterError | CAmbiguousResult
  | CPeerTransportError | CPeerProtocolError
  | CBuzzTransportError | CEnvelopeValidationError
  | CProcessProtocolError.

#[export] Instance exn_class_eq_dec : EqDecision exn_class.
Proof. solve_decision. Defined.

Definition superclass (c : exn_class) : option exn_class :=
  match c with
  | CException => None
  | CJSONDecodeError | CUnicodeDecodeError | CValidationError
  | CProcessProtocolError => Some CValueError
  | CSubmissionRejected | CRecipientRejected | CApprovalRejected
  | CStateError | CUnknownIntent => Some CPolicyError
  | CAmbiguousResult => Some CAdapterError
  | CPeerProtocolError => Some CPeerTransportError
  | CEnvelopeValidationError => Some CBuzzTransportError
  | _ => Some CException
  end.

Fixpoint subclass_fuel (n : nat) (c d : exn_class) : bool :=
  bool_decide (c = d) ||
  match n, superclass c with
  | S n', Some c' => subclass_fuel n' c' d
  | _, _ => false
  end.

(** The longest chain is three classes, so a fuel of three is enough. *)
Definition issubclass (c d : exn_class) : bool := subclass_fuel 3%nat c d.

Record exn := Exn { exn_cls : exn_class; exn_msg : string }.

(** [except C as e] catches [e] when its class is below [C]. *)
Definition isinstance_exn (e : exn) (c : exn_class) : bool :=
  issubclass (exn_cls e) c.

(** ** Outcomes and the state-and-exception monad

    A Python call returns or raises; what it did to the state before raising
    stays done, so the state is threaded through both outcomes. *)

Inductive outcome (A : Type) := Ok (a : A) | Raise (e : exn).
Arguments Ok {A} a.
Arguments Raise {A} e.

#[export] Instance outcome_ret : MRet outcome := λ A a, Ok a.
#[export] Instance outcome_bind : MBind outcome := λ A B f o,
  match o with Ok a => f a | Raise e => Raise e end.
#[export] Instance outcome_fmap : FMap outcome := λ A B f o,
  match o with Ok a => Ok (f a) | Raise e => Raise e end.

Definition fail {A} (c : exn_class) (msg : string) : outcome A := Raise (Exn c msg).

(** [of_opt c msg o] raises when [o] has no value. *)
Definition of_opt {A} (c : exn_class) (msg : string) (o : option A) : outcome A :=
  match o with Some a => Ok a | None => fail c msg end.

Lemma bind_Ok {A B} (m : outcome A) (f : A → outcome B) b :
  (m ≫= f) = Ok b ↔ ∃ a, m = Ok a ∧ f a = Ok b.
Proof.
  destruct m as [a|e]; cbn; split; [by exists a|by intros (? & [= ->] & ?)|done|by intros (? & ? & _)].
Qed.

(** Invert a chain of binds that returned. *)
Ltac bind_inv H :=
  repeat match type of H with
  | mbind _ _ = Ok _ => let x := fresh "x" in apply bind_Ok in H as (x & ? & H)
  end.

Lemma of_opt_Ok {A} c msg (x : option A) a : of_opt c msg x = Ok a → x = Some a.
Proof. destruct x; [by intros [= ->]|done]. Qed.

Lemma of_opt_Raise {A} c msg (x : option A) e : of_opt c msg x = Raise e → x = None.
Proof. by destruct x. Qed.

Definition is_ok {A} (o : outcome A) : bool :=
  match o with Ok _ => true | Raise _ => false end.

Definition PyM (S A : Type) : Type := S → outcome A * S.

#[export] Instance py_ret {S} : MRet (PyM S) := λ A a s, (Ok a, s).
#[export] Instance py_bind {S} : MBind (PyM S) := λ A B f m s,
  match m s with
  | (Ok a, s') => f a s'
  | (Raise e, s') => (Raise e, s')
  end.

Definition raise {S A} (c : exn_class) (msg : string) : PyM S A :=
  λ s, (fail c msg, s).
Definition reraise {S A} (e : exn) : PyM S A := λ s, (Raise e, s).
Definition lift {S A} (o : outcome A) : PyM S A := λ s, (o, s).
Definition gets {S A} (f : S → A) : PyM S A := λ s, (Ok (f s), s).
Definition modify {S} (f : S → S) : PyM S unit := λ s, (Ok tt, f s).

(** [if b: raise C(msg)] *)
Definition raise_if {S} (b : bool) (c : exn_class) (msg : string) : PyM S unit :=
  λ s, if b then (fail c msg, s) else (Ok tt, s).

(** [try: m except e: h e], where [h] gives no handler when no clause matches. *)
Definition try_except {S A} (m : PyM S A) (h : exn → option (PyM S A)) : PyM S A :=
  λ s, match m s with
       | (Raise e, s') =>
           match h e with Some k => k s' | None => (Raise e, s') end
       | r => r
       end.

(** [try: m finally: f]: an exception of [f] replaces the outcome of [m]. *)
Definition try_finally {S A} (m : PyM S A) (f : PyM S unit) : PyM S A :=
  λ s, let '(o, s') := m s in
       match f s' with
       | (Ok _, s'') => (o, s'')
       | (Raise e, s'') => (Raise e, s'')
       end.

(** A method of a field runs on that field's state. *)
Definition zoom {S T A} (get : S → T) (set : T → S → S) (m : PyM T A) : PyM S A :=
  λ s, let '(o, t) := m (get s) in (o, set t s).

(** The program's [for x in xs:] with a body that may raise. *)
Fixpoint py_for {S A} (xs : list A) (body : A → PyM S unit) : PyM S unit :=
  match xs with
  | [] => mret tt
  | x :: xs' => body x ;; py_for xs' body
  end.

(** ** A program logic for the monad

    [wp m Q s]: running [m] from [s] ends in an outcome and a state that
    satisfy [Q].  The calls of the program are total, so this is total
    correctness.  The rules are equations or equivalences; [wp_step] applies the
    one for the head of the program. *)

Definition wp {S A} (m : PyM S A) (Q : outcome A → S → Prop) (s : S) : Prop :=
  Q (m s).1 (m s).2.

Lemma wp_mono {S A} (m : PyM S A) (Q R : outcome A → S → Prop) s :
  wp m Q s → (∀ o s', Q o s' → R o s') → wp m R s.
Proof. unfold wp. auto. Qed.

Lemma wp_elim {S A} (m : PyM S A) Q s o s' :
  m s = (o, s') → wp m Q s → Q o s'.
Proof. unfold wp. by intros ->. Qed.

Lemma wp_ret {S A} (a : A) Q (s : S) : wp (mret a) Q s = Q (Ok a) s.
Proof. done. Qed.

Lemma wp_raise {S A} c msg Q (s : S) :
  wp (@raise S A c msg) Q s = Q (Raise (Exn c msg)) s.
Proof. done. Qed.

Lemma wp_reraise {S A} e Q (s : S) : wp (@reraise S A e) Q s = Q (Raise e) s.
Proof. done. Qed.

Lemma wp_gets {S A} (f : S → A) Q s : wp (gets f) Q s = Q (Ok (f s)) s.
Proof. done. Qed.

Lemma wp_modify {S} (f : S → S) Q s : wp (modify f) Q s = Q (Ok tt) (f s).
Proof. done. Qed.

Lemma wp_lift {S A} (o : outcome A) Q (s : S) : wp (lift o) Q s = Q o s.
Proof. done. Qed.

Lemma wp_raise_if {S} b c msg Q (s : S) :
  wp (raise_if b c msg) Q s =
  (if b then Q (Raise (Exn c msg)) s else Q (Ok tt) s).
Proof. by destruct b. Qed.

Lemma wp_bind {S A B} (m : PyM S A) (k : A → PyM S B) Q s :
  wp (x ← m; k x) Q s ↔
  wp m (λ o s', match o with Ok a => wp (k a) Q s' | Raise e => Q (Raise e) s' end) s.
Proof. unfold wp, mbind, py_bind. by destruct (m s) as [[a|e] s']. Qed.

Lemma wp_zoom {S T A} (g : S → T) p (m : PyM T A) Q s :
  wp (zoom g p m) Q s ↔ wp m (λ o t, Q o (p t s)) (g s).
Proof. unfold wp, zoom. by destruct (m (g s)). Qed.

Lemma wp_try_except {S A} (m : PyM S A) h Q s :
  wp (try_except m h) Q s ↔
  wp m (λ o s', match o with
                | Ok a => Q (Ok a) s'
                | Raise e => match h e with
                             | Some k => wp k Q s'
                             | None => Q (Raise e) s'
                             end
                end) s.
Proof.
  unfold wp, try_except. destruct (m s) as [[a|e] s']; simpl; [reflexivity|].
  by destruct (h e).
Qed.

Lemma wp_try_finally {S A} (m : PyM S A) f Q s :
  wp (try_finally m f) Q s ↔
  wp m (λ o s', wp f (λ o' s'', match o' with
                                | Ok _ => Q o s''
                                | Raise e => Q (Raise e) s''
                                end) s') s.
Proof.
  unfold wp, try_finally. destruct (m s) as [o s']. simpl.
  by destruct (f s') as [[[]|e] s''].
Qed.

Lemma wp_conj {S A} (m : PyM S A) (Q R : outcome A → S → Prop) s :
  wp m Q s → wp m R s → wp m (λ o s', Q o s' ∧ R o s') s.
Proof. done. Qed.

(** A loop whose body keeps an invariant, with or without raising. *)
Lemma wp_py_for {S A} (body : A → PyM S unit) (I : S → Prop) (E : exn → S → Prop) xs s :
  I s →
  (∀ x s, x ∈ xs → I s → wp (body x) (λ o s', match o with Ok _ => I s' | Raise e => E e s' end) s) →
  wp (py_for xs body) (λ o s', match o with Ok _ => I s' | Raise e => E e s' end) s.
Proof.
  revert s. induction xs as [|x xs IH]; intros s Hs Hbody; [done|].
  simpl. apply wp_bind. eapply wp_mono; [apply Hbody; [set_solver|done]|].
  intros [[]|e] s' H; [|done]. apply IH; [done|]. intros y s'' Hy; apply Hbody. set_solver.
Qed.

(** One step of symbolic execution, chosen by the head of the program. *)
Ltac wp_step :=
  lazymatch goal with
  | |- wp (mbind _ _) _ _ => apply wp_bind
  | |- wp (zoom _ _ _) _ _ => apply wp_zoom
  | |- wp (try_except _ _) _ _ => apply wp_try_except
  | |- wp (try_finally _ _) _ _ => apply wp_try_finally
  | |- wp (mret _) _ _ => rewrite wp_ret
  | |- wp (raise _ _) _ _ => rewrite wp_raise
  | |- wp (reraise _) _ _ => rewrite wp_reraise
  | |- wp (gets _) _ _ => rewrite wp_gets
  | |- wp (modify _) _ _ => rewrite wp_modify
  | |- wp (lift _) _ _ => rewrite wp_lift
  | |- wp (raise_if _ _ _) _ _ => rewrite wp_raise_if
  end.
(** A closed decidable proposition. *)
Ltac decide_now := apply (bool_decide_unpack _); vm_compute; exact I.

(** Boolean guards in the context, as propositions. *)
Ltac bool_facts :=
  repeat match goal with
  | Hx : negb _ = true |- _ => apply negb_true_iff in Hx
  | Hx : negb _ = false |- _ => apply negb_false_iff in Hx
  | Hx : _ && _ = true |- _ => apply andb_true_iff in Hx as [? ?]
  | Hx : _ || _ = false |- _ => apply orb_false_iff in Hx as [? ?]
  | Hx : String.eqb _ _ = true |- _ => apply String.eqb_eq in Hx
  | Hx : String.eqb _ _ = false |- _ => apply String.eqb_neq in Hx
  | Hx : (_ <=? _) = false |- _ => apply Z.leb_gt in Hx
  | Hx : (_ <=? _) = true |- _ => apply Z.leb_le in Hx
  | Hx : (_ <? _) = false |- _ => apply Z.ltb_ge in Hx
  | Hx : (_ <? _) = true |- _ => apply Z.ltb_lt in Hx
  | Hx : (_ =? _) = false |- _ => apply Z.eqb_neq in Hx
  | Hx : (_ =? _) = true |- _ => apply Z.eqb_eq in Hx
  | Hx : bool_decide _ = true |- _ => apply bool_decide_eq_true in Hx
  | Hx : bool_decide _ = false |- _ => apply bool_decide_eq_false in Hx
  end.

Ltac wp_steps := repeat wp_step.

(** ** Dictionaries

    A Python [dict] keeps its insertion order, and the program iterates over
    its dicts, so a dict is an association list with at most one entry per
    key: assignment replaces in place or appends. *)

Section Dict.
Context {A : Type}.
Implicit Types (d : list (string * A)) (k : string) (v : A).

Fixpoint dget d k : option A :=
  match d with
  | [] => None
  | (k', v) :: d' => if String.eqb k k' then Some v else dget d' k
  end.

Fixpoint dset d k v : list (string * A) :=
  match d with
  | [] => [(k, v)]
  | (k', v') :: d' =>
      if String.eqb k k' then (k', v) :: d' else (k', v') :: dset d' k v
  end.

Definition dkeys d : list string := d.*1.
Definition dvalues d : list A := d.*2.
Definition dmem d k : bool := match dget d k with Some _ => true | None => false end.

(** [d.pop(k, None)] *)
Fixpoint dpop d k : list (string * A) :=
  match d with
  | [] => []
  | (k', v) :: d' => if String.eqb k k' then d' else (k', v) :: dpop d' k
  end.

Lemma dget_dset d k k' v :
  dget (dset d k v) k' = if decide (k = k') then Some v else dget d k'.
Proof.
  induction d as [|[k1 v1] d IH]; simpl.
  - destruct (String.eqb_spec k' k); case_decide; congruence.
  - destruct (String.eqb_spec k k1) as [->|Hne]; simpl.
    + destruct (String.eqb_spec k' k1); case_decide; congruence.
    + rewrite IH. destruct (String.eqb_spec k' k1); case_decide; congruence.
Qed.

Lemma dget_dset_eq d k v : dget (dset d k v) k = Some v.
Proof. rewrite dget_dset. by case_decide. Qed.

Lemma dget_dset_ne d k k' v : k ≠ k' → dget (dset d k v) k' = dget d k'.
Proof. intros. rewrite dget_dset. by case_decide. Qed.

Lemma dget_Some_elem d k v : dget d k = Some v → (k, v) ∈ d.
Proof.
  induction d as [|[k1 v1] d IH]; simpl; [done|].
  destruct (String.eqb_spec k k1); intros; simplify_eq; [left|right; auto].
Qed.

Lemma dget_None d k : dget d k = None ↔ k ∉ dkeys d.
Proof.
  unfold dkeys. induction d as [|[k1 v1] d IH]; simpl.
  - split; [intros _; apply not_elem_of_nil|done].
  - rewrite not_elem_of_cons, <- IH.
    destruct (String.eqb_spec k k1); [split; [done|by intros []]|by split; [|intros []]].
Qed.

Lemma elem_dget d k v : NoDup (dkeys d) → (k, v) ∈ d → dget d k = Some v.
Proof.
  unfold dkeys. induction d as [|[k1 v1] d IH]; simpl; [by intros _ ?%elem_of_nil|].
  intros [Hni Hnd]%NoDup_cons [Heq|Hin]%elem_of_cons; simplify_eq.
  - by rewrite String.eqb_refl.
  - destruct (String.eqb_spec k k1) as [->|]; [|by apply IH]. destruct Hni.
    by apply (list_elem_of_fmap_2 fst) in Hin.
Qed.

Lemma dkeys_dset d k v :
  dkeys (dset d k v) = if decide (k ∈ dkeys d) then dkeys d else dkeys d ++ [k].
Proof.
  unfold dkeys. induction d as [|[k1 v1] d IH]; csimpl.
  - done.
  - destruct (String.eqb_spec k k1) as [->|Hne]; csimpl.
    + by rewrite decide_True by (left; done).
    + rewrite IH. destruct (decide (k ∈ d.*1)) as [Hin|Hni].
      * by rewrite decide_True by (right; done).
      * by rewrite decide_False by (rewrite not_elem_of_cons; done).
Qed.

Lemma dset_NoDup d k v : NoDup (dkeys d) → NoDup (dkeys (dset d k v)).
Proof.
  intros Hnd. rewrite dkeys_dset. case_decide; [done|].
  apply NoDup_app. split; [done|]. split; [|apply NoDup_singleton].
  by intros x Hx ->%list_elem_of_singleton.
Qed.

Lemma dset_fresh d k v : k ∉ dkeys d → dset d k v = d ++ [(k, v)].
Proof.
  unfold dkeys. induction d as [|[k1 v1] d IH]; csimpl; [done|].
  intros [Hne Hni]%not_elem_of_cons. destruct (String.eqb_spec k k1); [done|].
  f_equal. by apply IH.
Qed.

(** Overwriting a key with the value it has changes nothing. *)
Lemma dset_id d k v : dget d k = Some v → dset d k v = d.
Proof.
  induction d as [|[k1 v1] d IH]; simpl; [done|].
  destruct (String.eqb_spec k k1); intros; simplify_eq; [done|]. by rewrite IH.
Qed.

Lemma dget_dpop_ne d k k' : k ≠ k' → dget (dpop d k) k' = dget d k'.
Proof.
  intros Hne. induction d as [|[k1 v1] d IH]; simpl; [done|].
  destruct (String.eqb_spec k k1) as [->|]; simpl; [|by rewrite IH].
  by destruct (String.eqb_spec k' k1).
Qed.

Lemma elem_dkeys_dpop d k k' : k' ∈ dkeys (dpop d k) → k' ∈ dkeys d.
Proof.
  unfold dkeys. induction d as [|[k1 v1] d IH]; csimpl; [done|].
  destruct (String.eqb_spec k k1); csimpl; [by right|].
  intros [->|Hin]%elem_of_cons; [by left|right; by apply IH].
Qed.

Lemma dpop_NoDup d k : NoDup (dkeys d) → NoDup (dkeys (dpop d k)).
Proof.
  unfold dkeys. induction d as [|[k1 v1] d IH]; csimpl; [done|].
  intros [Hni Hnd]%NoDup_cons. destruct (String.eqb_spec k k1); csimpl; [done|].
  constructor; [|by apply IH]. intros Hin. by apply Hni, (elem_dkeys_dpop d k).
Qed.
End Dict.

(** ** Strings

    A Python [str] is its UTF-8 encoding: equality, concatenation and prefixes
    agree with Python's, [.encode("utf-8")] is the identity, and where the
    program counts or slices code points the definitions below skip
    continuation bytes.  Case mapping, white space and digit classes are the
    ASCII ones. *)

Abbreviation chars := list_ascii_of_string.
Abbreviation of_chars := string_of_list_ascii.

Lemma chars_of_chars l : chars (of_chars l) = l.
Proof. apply list_ascii_of_string_of_list_ascii. Qed.

Lemma of_chars_chars s : of_chars (chars s) = s.
Proof. apply string_of_list_ascii_of_string. Qed.

Lemma chars_app s t : chars (s +:+ t) = chars s ++ chars t.
Proof. induction s as [|c s IH]; simpl; [done|]. by f_equal. Qed.

Lemma chars_length s : List.length (chars s) = String.length s.
Proof. induction s; simpl; auto. Qed.

Lemma chars_inj s t : chars s = chars t → s = t.
Proof. intros Heq. by rewrite <- (of_chars_chars s), Heq, of_chars_chars. Qed.

Definition code (c : ascii) : N := N_of_ascii c.

Definition is_cont (c : ascii) : bool := (128 <=? code c)%N && (code c <? 192)%N.

(** [len(s)], in code points. *)
Definition py_len (s : string) : Z :=
  Z.of_nat (List.length (List.filter (λ c, negb (is_cont c)) (chars s))).

(** [s[:n]]: the first [n] code points, with their continuation bytes. *)
Fixpoint take_points (n : nat) (l : list ascii) : list ascii :=
  match l with
  | [] => []
  | c :: l' =>
      if is_cont c then c :: take_points n l'
      else match n with 0%nat => [] | S n' => c :: take_points n' l' end
  end.
Definition py_take (n : nat) (s : string) : string := of_chars (take_points n (chars s)).

Definition is_digit (c : ascii) : bool := (48 <=? code c)%N && (code c <=? 57)%N.
Definition is_lower (c : ascii) : bool := (97 <=? code c)%N && (code c <=? 122)%N.
Definition is_upper (c : ascii) : bool := (65 <=? code c)%N && (code c <=? 90)%N.
Definition is_alnum (c : ascii) : bool := is_digit c || is_lower c || is_upper c.
Definition is_space (c : ascii) : bool :=
  bool_decide (code c ∈ [32; 9; 10; 11; 12; 13; 28; 29; 30; 31]%N).

Definition upper_char (c : ascii) : ascii :=
  if is_lower c then ascii_of_N (code c - 32) else c.
Definition lower_char (c : ascii) : ascii :=
  if is_upper c then ascii_of_N (code c + 32) else c.
Definition py_upper (s : string) : string := of_chars (upper_char <$> chars s).

Fixpoint lstrip (l : list ascii) : list ascii :=
  match l with c :: l' => if is_space c then lstrip l' else l | [] => [] end.
Definition py_strip (s : string) : string :=
  of_chars (rev (lstrip (rev (lstrip (chars s))))).

(** [l] without the prefix [p], when it has it. *)
Fixpoint strip_prefix (p l : list ascii) : option (list ascii) :=
  match p, l with
  | [], _ => Some l
  | a :: p', b :: l' => if Ascii.eqb a b then strip_prefix p' l' else None
  | _ :: _, [] => None
  end.

(** [s.replace(old, "")] for a non-empty [old]: scan left to right. *)
Fixpoint remove_all_fuel (n : nat) (old l : list ascii) : list ascii :=
  match n, l with
  | S n', c :: l' =>
      match strip_prefix old l with
      | Some r => remove_all_fuel n' old r
      | None => c :: remove_all_fuel n' old l'
      end
  | _, _ => l
  end.
Definition py_remove (old s : string) : string :=
  of_chars (remove_all_fuel (String.length s) (chars old) (chars s)).

(** [str(n)] for an integer: its decimal digits, most significant first.  The
    fuel bounds the number of digits by the number of bits. *)
Definition digit_char (z : Z) : ascii := ascii_of_N (48 + Z.to_N z).
Definition digit_val (c : ascii) : Z := Z.of_N (code c) - 48.

Fixpoint show_fuel (n : nat) (z : Z) (acc : list ascii) : list ascii :=
  match n with
  | 0%nat => acc
  | S n' =>
      let acc' := digit_char (z mod 10) :: acc in
      if z <? 10 then acc' else show_fuel n' (z / 10) acc'
  end.
Definition show_nonneg (z : Z) : list ascii := show_fuel (S (Z.to_nat (Z.log2 z))) z [].
Definition show_digits (z : Z) : list ascii :=
  if z <? 0 then "-"%char :: show_nonneg (- z) else show_nonneg z.
Definition show_Z (z : Z) : string := of_chars (show_digits z).

(** The value of a run of decimal digits. *)
Definition digits_val (l : list ascii) : Z :=
  List.fold_left (λ acc c, acc * 10 + digit_val c) l 0.

(** [bytes] are strings of bytes. *)
Abbreviation bytes := string.
