(* ===== verification/Json.v ===== *)
(** * JSON values as Python objects

    The values [json.loads] produces, the parts of Python's object protocol
    the program uses on them (truth, equality, [int()], [str()], [.get]),
    [json.dumps] and [json.loads].  [Host] collects the behaviour of code that
    is not part of the repository: pydantic's coercions and serialiser and the
    texts of library errors. *)

From S2P Require Import Prelude.
From Stdlib Require Import Floats.SpecFloat.

(** ** Values *)

#[warnings="-register-all"]
Inductive json :=
  | JNull
  | JBool (b : bool)
  | JInt (z : Z)
  | JFloat (f : spec_float)
  | JStr (s : string)
  | JList (l : list json)
  | JObj (d : list (string * json)).

Section JsonInd.
Context (P : json → Prop).
Context (HNull : P JNull) (HBool : ∀ b, P (JBool b)) (HInt : ∀ z, P (JInt z)).
Context (HFloat : ∀ f, P (JFloat f)) (HStr : ∀ s, P (JStr s)).
Context (HList : ∀ l, Forall P l → P (JList l)).
Context (HObj : ∀ d, Forall (λ p, P p.2) d → P (JObj d)).

(** Induction with hypotheses for the members of lists and objects. *)
Fixpoint json_rect' (j : json) : P j :=
  match j with
  | JNull => HNull
  | JBool b => HBool b
  | JInt z => HInt z
  | JFloat f => HFloat f
  | JStr s => HStr s
  | JList l =>
      HList l ((fix go l : Forall P l :=
                  match l with
                  | [] => List.Forall_nil _
                  | x :: l' => List.Forall_cons _ _ _ (json_rect' x) (go l')
                  end) l)
  | JObj d =>
      HObj d ((fix go d : Forall (λ p : string * json, P p.2) d :=
                 match d with
                 | [] => List.Forall_nil _
                 | x :: d' => List.Forall_cons _ x _ (json_rect' x.2) (go d')
                 end) d)
  end.
End JsonInd.

(** ** The object protocol *)

(** [type(x).__name__] *)
Definition type_name (j : json) : string :=
  match j with
  | JNull => "NoneType" | JBool _ => "bool" | JInt _ => "int" | JFloat _ => "float"
  | JStr _ => "str" | JList _ => "list" | JObj _ => "dict"
  end.

(** [bool(x)] *)
Definition truthy (j : json) : bool :=
  match j with
  | JNull => false
  | JBool b => b
  | JInt z => negb (z =? 0)
  | JFloat (S754_zero _) => false
  | JFloat _ => true
  | JStr s => negb (String.eqb s "")
  | JList l => match l with [] => false | _ => true end
  | JObj d => match d with [] => false | _ => true end
  end.

(** Lists and dicts are not hashable: looking one up in a dict raises. *)
Definition hashable (j : json) : bool :=
  match j with JList _ | JObj _ => false | _ => true end.

(** The exact value of a finite float as [num * 2^exp]. *)
Definition float_eq_Z (f : spec_float) (z : Z) : bool :=
  match f with
  | S754_zero _ => z =? 0
  | S754_finite s m e =>
      let v := if s then Z.neg m else Z.pos m in
      if 0 <=? e then v * 2 ^ e =? z else v =? z * 2 ^ (- e)
  | _ => false
  end.

Definition as_int (j : json) : option Z :=
  match j with JBool b => Some (Z.b2z b) | JInt z => Some z | _ => None end.

(** [a == b]: numbers compare by value across their types, dicts as maps. *)
Fixpoint py_eq (a b : json) {struct a} : bool :=
  match a, b with
  | JNull, JNull => true
  | JStr s, JStr t => String.eqb s t
  | JList l, JList l' =>
      (fix go l l' :=
         match l, l' with
         | [], [] => true
         | x :: l1, y :: l1' => py_eq x y && go l1 l1'
         | _, _ => false
         end) l l'
  | JObj d, JObj d' =>
      Nat.eqb (List.length d) (List.length d') &&
      (fix go d :=
         match d with
         | [] => true
         | p :: d1 =>
             match dget d' p.1 with Some y => py_eq p.2 y | None => false end && go d1
         end) d
  | JFloat f, JFloat g => SFeqb f g
  | JFloat f, _ => match as_int b with Some z => float_eq_Z f z | None => false end
  | _, JFloat g => match as_int a with Some z => float_eq_Z g z | None => false end
  | _, _ => match as_int a, as_int b with Some x, Some y => x =? y | _, _ => false end
  end.

(** [int(f)]: truncation toward zero. *)
Definition float_trunc (f : spec_float) : outcome Z :=
  match f with
  | S754_zero _ => Ok 0
  | S754_finite s m e =>
      let v := if 0 <=? e then Z.pos m * 2 ^ e else Z.pos m / 2 ^ (- e) in
      Ok (if s then - v else v)
  | S754_infinity _ => fail COverflowError "cannot convert float infinity to integer"
  | S754_nan => fail CValueError "cannot convert float NaN to integer"
  end.

(** Decimal digits with single underscores between them, as [int()] reads. *)
Fixpoint int_digits (acc : Z) (l : list ascii) : option Z :=
  match l with
  | [] => Some acc
  | c :: l' =>
      if is_digit c then int_digits (acc * 10 + digit_val c) l'
      else if Ascii.eqb c "_" then
        match l' with
        | c' :: l'' => if is_digit c' then int_digits (acc * 10 + digit_val c') l'' else None
        | [] => None
        end
      else None
  end.

Definition int_unsigned (l : list ascii) : option Z :=
  match l with
  | c :: l' => if is_digit c then int_digits (digit_val c) l' else None
  | [] => None
  end.

Definition int_of_str (s : string) : option Z :=
  match chars (py_strip s) with
  | c :: l => if Ascii.eqb c "-" then Z.opp <$> int_unsigned l
              else if Ascii.eqb c "+" then int_unsigned l
              else int_unsigned (c :: l)
  | [] => None
  end.

(** [int(x)] *)
Definition py_int (j : json) : outcome Z :=
  match j with
  | JBool b => Ok (Z.b2z b)
  | JInt z => Ok z
  | JFloat f => float_trunc f
  | JStr s => of_opt CValueError "invalid literal for int() with base 10" (int_of_str s)
  | _ => fail CTypeError
           ("int() argument must be a string, a bytes-like object or a real number, not '"
              +:+ type_name j +:+ "'")
  end.

(** [d.get(k, dflt)] *)
Definition jget (d : list (string * json)) (k : string) (dflt : json) : json :=
  default dflt (dget d k).

(** The code points of a string, as strings. *)
Fixpoint group_points (l : list ascii) : list (list ascii) :=
  match l with
  | [] => []
  | c :: l' =>
      match group_points l' with
      | (d :: g) :: gs => if is_cont d then (c :: d :: g) :: gs else [c] :: (d :: g) :: gs
      | gs => [c] :: gs
      end
  end.
Definition str_points (s : string) : list json :=
  (λ g, JStr (of_chars g)) <$> group_points (chars s).

(** [list(x)]: what iterating over a value gives. *)
Definition iter_json (j : json) : outcome (list json) :=
  match j with
  | JList l => Ok l
  | JStr s => Ok (str_points s)
  | JObj d => Ok (JStr <$> dkeys d)
  | _ => fail CTypeError ("'" +:+ type_name j +:+ "' object is not iterable")
  end.

(** A decimal literal [(-1)^neg * m * 10^e10], rounded to the nearest binary64
    value: the quotient is computed to at least 56 bits with a sticky bit. *)
Definition float_of_dec (neg : bool) (m e10 : Z) : spec_float :=
  let sgn v := if neg then - v else v in
  if m =? 0 then S754_zero neg
  else if 0 <=? e10 then binary_normalize 53 1024 (sgn (m * 10 ^ e10)) 0 neg
  else
    let d := 10 ^ (- e10) in
    let k := Z.max 0 (Z.log2 d + 57 - Z.log2 m) in
    let q := m * 2 ^ k / d in
    let r := (m * 2 ^ k) mod d in
    binary_normalize 53 1024 (sgn (2 * q + (if r =? 0 then 0 else 1))) (- (k + 1)) neg.

(** ** The host: code outside the repository *)

Class Host := {
  (** [float.__repr__] and [repr] of containers, used in texts *)
  float_repr : spec_float → string;
  py_repr : json → string;
  (** texts of [JSONDecodeError] and of pydantic's [ValidationError] *)
  json_error_text : string → string;
  validation_text : string → json → string;
  (** pydantic's lax coercions to [int] and [str] *)
  coerce_int : json → option Z;
  coerce_str : json → option string;
  (** [BaseModel.model_dump_json] on an already dumped model *)
  model_dump_json : json → string
}.

(** [str(x)] *)
Definition py_str `{Host} (j : json) : string :=
  match j with
  | JNull => "None"
  | JBool b => if b then "True" else "False"
  | JInt z => show_Z z
  | JFloat f => float_repr f
  | JStr s => s
  | JList _ | JObj _ => py_repr j
  end.
