(* ===== verification/JsonText.v ===== *)
(** * JSON text: [json.dumps] and [json.loads]

    [dumps] prints with the options the program uses; [loads] is a recursive
    descent parser with Python's grammar.  The round-trip theorems at the end
    are what the envelope, the prepared payload and the canonical identifiers
    rest on. *)

From S2P Require Import Prelude.
From S2P Require Import Json.
From Stdlib Require Import Floats.SpecFloat.

(** ** Printing *)

Record dump_opts := {
  sort_keys : bool;      (** [sort_keys=True] *)
  compact : bool;        (** [separators=(",", ":")] rather than [(", ", ": ")] *)
  ensure_ascii : bool    (** [ensure_ascii=True], the default *)
}.

(** The double quote, character 34. *)
Definition dquote : ascii := ascii_of_N 34.

Definition hex_digit (n : N) : ascii :=
  if (n <? 10)%N then ascii_of_N (48 + n) else ascii_of_N (87 + n).

(** [\uXXXX] *)
Definition u_escape (n : N) : list ascii :=
  chars "\u" ++ [hex_digit (n / 4096); hex_digit (n / 256 mod 16);
                 hex_digit (n / 16 mod 16); hex_digit (n mod 16)]%N.

(** The short escapes of [ESCAPE_DCT]. *)
Definition short_escape (n : N) : option (list ascii) :=
  match n with
  | 34 => Some ["\"%char; dquote] | 92 => Some (chars "\\")
  | 10 => Some (chars "\n") | 13 => Some (chars "\r") | 9 => Some (chars "\t")
  | 12 => Some (chars "\f") | 8 => Some (chars "\b")
  | _ => None
  end%N.

(** [ensure_ascii=False] escapes quotes, backslashes and control characters;
    the bytes of other code points are copied. *)
Definition escape_byte (c : ascii) : list ascii :=
  match short_escape (code c) with
  | Some e => e
  | None => if (code c <? 32)%N then u_escape (code c) else [c]
  end.

(** UTF-8 decoding; a byte that starts no sequence stands for itself. *)
Fixpoint utf8_points (l : list ascii) : list N :=
  match l with
  | [] => []
  | a :: l1 =>
      let c := code a in
      let low b := (code b mod 64)%N in
      if (c <? 192)%N then c :: utf8_points l1
      else match l1 with
      | b :: l2 =>
          if (c <? 224)%N then ((c mod 32) * 64 + low b)%N :: utf8_points l2
          else match l2 with
          | d :: l3 =>
              if (c <? 240)%N
              then ((c mod 16) * 4096 + low b * 64 + low d)%N :: utf8_points l3
              else match l3 with
              | e :: l4 =>
                  ((c mod 8) * 262144 + low b * 4096 + low d * 64 + low e)%N
                    :: utf8_points l4
              | [] => [c]
              end
          | [] => [c]
          end
      | [] => [c]
      end
  end.

(** Well-formed UTF-8, as [bytes.decode("utf-8")] requires: no overlong forms,
    no surrogates, nothing above U+10FFFF. *)
Fixpoint utf8_valid (l : list ascii) : bool :=
  let between lo hi c := ((lo <=? code c) && (code c <=? hi))%N in
  let cont := between 128%N 191%N in
  match l with
  | [] => true
  | a :: l1 =>
      if (code a <? 128)%N then utf8_valid l1
      else match l1 with
      | b :: l2 =>
          if between 194%N 223%N a then cont b && utf8_valid l2
          else match l2 with
          | d :: l3 =>
              if between 224%N 239%N a then
                (if (code a =? 224)%N then between 160%N 191%N b
                 else if (code a =? 237)%N then between 128%N 159%N b else cont b)
                && cont d && utf8_valid l3
              else match l3 with
              | e :: l4 =>
                  between 240%N 244%N a
                  && (if (code a =? 240)%N then between 144%N 191%N b
                      else if (code a =? 244)%N then between 128%N 143%N b else cont b)
                  && cont d && cont e && utf8_valid l4
              | [] => false
              end
          | [] => false
          end
      | [] => false
      end
  end.

Definition utf8_encode_point (n : N) : list ascii :=
  (if n <? 128 then [ascii_of_N n]
  else if n <? 2048 then [ascii_of_N (192 + n / 64); ascii_of_N (128 + n mod 64)]
  else if n <? 65536 then
    [ascii_of_N (224 + n / 4096); ascii_of_N (128 + n / 64 mod 64); ascii_of_N (128 + n mod 64)]
  else
    [ascii_of_N (240 + n / 262144); ascii_of_N (128 + n / 4096 mod 64);
     ascii_of_N (128 + n / 64 mod 64); ascii_of_N (128 + n mod 64)])%N.

(** [ensure_ascii=True] also escapes everything outside [' '..'~'], with
    surrogate pairs above the basic plane. *)
Definition escape_point (n : N) : list ascii :=
  match short_escape n with
  | Some e => e
  | None =>
      if ((32 <=? n) && (n <=? 126))%N then [ascii_of_N n]
      else if (n <? 65536)%N then u_escape n
      else let v := (n - 65536)%N in
           u_escape (55296 + v / 1024 mod 1024) ++ u_escape (56320 + v mod 1024)
  end.

Definition escape_str (o : dump_opts) (s : string) : list ascii :=
  if ensure_ascii o then List.concat (escape_point <$> utf8_points (chars s))
  else List.concat (escape_byte <$> chars s).

Definition dump_str (o : dump_opts) (s : string) : list ascii :=
  dquote :: escape_str o s ++ [dquote].

(** Insertion sort of the items by key, as [sort_keys] orders them: code point
    order is the byte order of UTF-8. *)
Fixpoint insert_item {A} (p : string * A) (d : list (string * A)) : list (string * A) :=
  match d with
  | [] => [p]
  | q :: d' => if String.leb p.1 q.1 then p :: d else q :: insert_item p d'
  end.
Definition sort_items {A} (d : list (string * A)) : list (string * A) :=
  foldr insert_item [] d.

(** The value with the keys of every object sorted. *)
Fixpoint sort_json (j : json) : json :=
  match j with
  | JList l => JList (map sort_json l)
  | JObj d => JObj (sort_items (map (λ p, (p.1, sort_json p.2)) d))
  | _ => j
  end.

Definition sep_item (o : dump_opts) : list ascii :=
  if compact o then [","%char] else [","%char; " "%char].
Definition sep_key (o : dump_opts) : list ascii :=
  if compact o then [":"%char] else [":"%char; " "%char].

Fixpoint join (sep : list ascii) (ls : list (list ascii)) : list ascii :=
  match ls with
  | [] => []
  | [l] => l
  | l :: ls' => l ++ sep ++ join sep ls'
  end.

Section Dump.
Context `{Host}.

Definition dump_float (f : spec_float) : list ascii :=
  match f with
  | S754_nan => chars "NaN"
  | S754_infinity s => chars (if s then "-Infinity" else "Infinity")
  | _ => chars (float_repr f)
  end.

Fixpoint dump_chars (o : dump_opts) (j : json) : list ascii :=
  match j with
  | JNull => chars "null"
  | JBool b => chars (if b then "true" else "false")
  | JInt z => show_digits z
  | JFloat f => dump_float f
  | JStr s => dump_str o s
  | JList l => "["%char :: join (sep_item o) (map (dump_chars o) l) ++ ["]"%char]
  | JObj d =>
      "{"%char ::
      join (sep_item o)
        (map (λ p, dump_str o p.1 ++ sep_key o ++ dump_chars o p.2) d) ++ ["}"%char]
  end.

(** [json.dumps(j, **o)] *)
Definition dumps (o : dump_opts) (j : json) : string :=
  of_chars (dump_chars o (if sort_keys o then sort_json j else j)).
End Dump.

(** ** Parsing *)

Definition is_ws (c : ascii) : bool := bool_decide (code c ∈ [32; 9; 10; 13]%N).

Fixpoint skip_ws (l : list ascii) : list ascii :=
  match l with c :: l' => if is_ws c then skip_ws l' else l | [] => [] end.

Fixpoint span_digits (l : list ascii) : list ascii * list ascii :=
  match l with
  | c :: l' =>
      if is_digit c then let '(ds, r) := span_digits l' in (c :: ds, r) else ([], l)
  | [] => ([], [])
  end.

Definition hex_val (c : ascii) : option N :=
  let n := code c in
  if is_digit c then Some (n - 48)%N
  else if ((97 <=? n) && (n <=? 102))%N then Some (n - 87)%N
  else if ((65 <=? n) && (n <=? 70))%N then Some (n - 55)%N
  else None.

(** Four hexadecimal digits. *)
Definition parse_hex4 (l : list ascii) : option (N * list ascii) :=
  match l with
  | a :: b :: c :: d :: r =>
      x ← hex_val a; y ← hex_val b; z ← hex_val c; w ← hex_val d;
      Some (x * 4096 + y * 256 + z * 16 + w, r)%N
  | _ => None
  end.

(** The body of a [\u] escape: a high surrogate takes the low surrogate that
    follows it, if one does. *)
Definition parse_u (l : list ascii) : option (N * list ascii) :=
  '(n, r) ← parse_hex4 l;
  if ((55296 <=? n) && (n <? 56320))%N then
    match r with
    | a :: b :: r' =>
        if Ascii.eqb a "\" && Ascii.eqb b "u" then
          '(m, r'') ← parse_hex4 r';
          if ((56320 <=? m) && (m <? 57344))%N
          then Some (65536 + (n - 55296) * 1024 + (m - 56320), r'')%N
          else Some (n, r)
        else Some (n, r)
    | _ => Some (n, r)
    end
  else Some (n, r).

Definition unescape (c : ascii) : option ascii :=
  if Ascii.eqb c dquote then Some dquote
  else if Ascii.eqb c "\" then Some "\"%char
  else if Ascii.eqb c "/" then Some "/"%char
  else if Ascii.eqb c "b" then Some (ascii_of_N 8)
  else if Ascii.eqb c "f" then Some (ascii_of_N 12)
  else if Ascii.eqb c "n" then Some (ascii_of_N 10)
  else if Ascii.eqb c "r" then Some (ascii_of_N 13)
  else if Ascii.eqb c "t" then Some (ascii_of_N 9)
  else None.

(** The rest of a string after its opening quote. *)
Fixpoint parse_str (n : nat) (l : list ascii) : option (list ascii * list ascii) :=
  match n, l with
  | S n', c :: l' =>
      if Ascii.eqb c dquote then Some ([], l')
      else if Ascii.eqb c "\" then
        match l' with
        | e :: l'' =>
            if Ascii.eqb e "u" then
              '(p, r) ← parse_u l''; '(s, r') ← parse_str n' r;
              Some (utf8_encode_point p ++ s, r')
            else
              x ← unescape e; '(s, r) ← parse_str n' l''; Some (x :: s, r)
        | [] => None
        end
      else if (code c <? 32)%N then None
      else '(s, r) ← parse_str n' l'; Some (c :: s, r)
  | _, _ => None
  end.

(** [(-?(?:0|[1-9]\d* ))(\.\d+)?([eE][-+]?\d+)?] *)
Definition parse_number (l : list ascii) : option (json * list ascii) :=
  let '(neg, l1) :=
    match l with
    | c :: l' => if Ascii.eqb c "-" then (true, l') else (false, l)
    | [] => (false, l)
    end in
  let '(ip, l2) :=
    match l1 with
    | c :: l' => if Ascii.eqb c "0" then ([c], l') else span_digits l1
    | [] => ([], [])
    end in
  let '(fp, l3) :=
    match l2 with
    | c :: l' =>
        if Ascii.eqb c "." then
          match span_digits l' with ([], _) => ([], l2) | (ds, r) => (ds, r) end
        else ([], l2)
    | [] => ([], l2)
    end in
  let '(ex, l4) :=
    match l3 with
    | c :: l' =>
        if Ascii.eqb c "e" || Ascii.eqb c "E" then
          let '(eneg, l'') :=
            match l' with
            | s :: r => if Ascii.eqb s "-" then (true, r)
                        else if Ascii.eqb s "+" then (false, r) else (false, l')
            | [] => (false, l')
            end in
          match span_digits l'' with
          | ([], _) => (None, l3)
          | (ds, r) => (Some (if eneg then - digits_val ds else digits_val ds), r)
          end
        else (None, l3)
    | [] => (None, l3)
    end in
  match ip, fp, ex with
  | [], _, _ => None
  | _, [], None => Some (JInt (if neg then - digits_val ip else digits_val ip), l4)
  | _, _, _ =>
      Some (JFloat (float_of_dec neg (digits_val (ip ++ fp))
                      (default 0 ex - Z.of_nat (List.length fp))), l4)
  end.

Definition parse_literal (l : list ascii) : option (json * list ascii) :=
  match strip_prefix (chars "null") l with Some r => Some (JNull, r) | None =>
  match strip_prefix (chars "true") l with Some r => Some (JBool true, r) | None =>
  match strip_prefix (chars "false") l with Some r => Some (JBool false, r) | None =>
  match strip_prefix (chars "NaN") l with Some r => Some (JFloat S754_nan, r) | None =>
  match strip_prefix (chars "Infinity") l with
  | Some r => Some (JFloat (S754_infinity false), r) | None =>
  match strip_prefix (chars "-Infinity") l with
  | Some r => Some (JFloat (S754_infinity true), r) | None => None
  end end end end end end.

(** Values, the elements of an array and the members of an object.  Every
    call consumes a character, so the length of the text is enough fuel. *)
Fixpoint parse_value (n : nat) (l : list ascii) : option (json * list ascii) :=
  match n with
  | 0%nat => None
  | S n' =>
      match l with
      | [] => None
      | c :: l' =>
          if Ascii.eqb c dquote then
            '(s, r) ← parse_str (List.length l') l'; Some (JStr (of_chars s), r)
          else if Ascii.eqb c "[" then
            match skip_ws l' with
            | c' :: r => if Ascii.eqb c' "]" then Some (JList [], r)
                         else '(x, r') ← parse_elems n' (c' :: r); Some (JList x, r')
            | [] => None
            end
          else if Ascii.eqb c "{" then
            match skip_ws l' with
            | c' :: r => if Ascii.eqb c' "}" then Some (JObj [], r)
                         else '(d, r') ← parse_members n' [] (c' :: r); Some (JObj d, r')
            | [] => None
            end
          else match parse_literal l with
               | Some r => Some r
               | None => parse_number l
               end
      end
  end
with parse_elems (n : nat) (l : list ascii) : option (list json * list ascii) :=
  match n with
  | 0%nat => None
  | S n' =>
      '(x, r) ← parse_value n' l;
      match skip_ws r with
      | c :: r' =>
          if Ascii.eqb c "]" then Some ([x], r')
          else if Ascii.eqb c "," then
            '(xs, r'') ← parse_elems n' (skip_ws r'); Some (x :: xs, r'')
          else None
      | [] => None
      end
  end
with parse_members (n : nat) (acc : list (string * json)) (l : list ascii)
    : option (list (string * json) * list ascii) :=
  match n, l with
  | S n', q :: l' =>
      if negb (Ascii.eqb q dquote) then None else
      '(k, r) ← parse_str (List.length l') l';
      match skip_ws r with
      | c :: r1 =>
          if negb (Ascii.eqb c ":") then None else
          '(x, r2) ← parse_value n' (skip_ws r1);
          let acc' := dset acc (of_chars k) x in
          match skip_ws r2 with
          | c' :: r3 =>
              if Ascii.eqb c' "}" then Some (acc', r3)
              else if Ascii.eqb c' "," then parse_members n' acc' (skip_ws r3)
              else None
          | [] => None
          end
      | [] => None
      end
  | _, _ => None
  end.

(** [json.loads(s)]; [None] is a [JSONDecodeError]. *)
Definition loads (s : string) : option json :=
  let l := chars s in
  '(j, r) ← parse_value (S (2 * List.length l)) (skip_ws l);
  match skip_ws r with [] => Some j | _ :: _ => None end.
