(* ===== verification/JsonFacts.v ===== *)
(** * Facts about JSON text

    Decimal numerals, strings and whole values are read back by the parser
    as they were printed, so printing is injective. *)

From S2P Require Import Prelude.
From S2P Require Import Json.
From S2P Require Import JsonText.

(** ** Decimal numerals *)

Definition all_digits (l : list ascii) : bool := forallb is_digit l.

Lemma digit_char_spec z :
  0 ≤ z < 10 → is_digit (digit_char z) = true ∧ digit_val (digit_char z) = z.
Proof.
  intros Hz.
  assert (z = 0 ∨ z = 1 ∨ z = 2 ∨ z = 3 ∨ z = 4 ∨ z = 5 ∨ z = 6 ∨ z = 7 ∨ z = 8 ∨ z = 9)
    as Hc by lia.
  by destruct_or! Hc; subst.
Qed.

Lemma fold_digits_app acc l1 l2 :
  fold_left (λ a c, a * 10 + digit_val c) (l1 ++ l2) acc =
  fold_left (λ a c, a * 10 + digit_val c) l2
    (fold_left (λ a c, a * 10 + digit_val c) l1 acc).
Proof. apply List.fold_left_app. Qed.

(** What [show_fuel] puts in front of its accumulator. *)
Lemma show_fuel_spec n z acc :
  (0 < n)%nat → 0 ≤ z < 2 ^ Z.of_nat n →
  ∃ ds c ds', show_fuel n z acc = ds ++ acc ∧ ds = c :: ds' ∧
    all_digits ds = true ∧ digits_val ds = z ∧ (c = "0"%char → z = 0 ∧ ds' = []).
Proof.
  revert z acc. induction n as [|n IH]; intros z acc Hn Hz; [lia|].
  pose proof (Z.mod_pos_bound z 10 ltac:(lia)) as Hm.
  destruct (digit_char_spec (z mod 10) Hm) as [Hd Hv].
  cbn [show_fuel]. destruct (Z.ltb_spec z 10) as [Hlt|Hge].
  - rewrite Z.mod_small in * by lia.
    exists [digit_char z], (digit_char z), []. split_and!; try done.
    + by cbn; rewrite Hd.
    + intros Hc. by rewrite Hc in Hv.
  - rewrite Nat2Z.inj_succ, Z.pow_succ_r in Hz by lia.
    assert (0 < n)%nat as Hn'.
    { destruct n; [|lia]. simpl in Hz. lia. }
    assert (0 < z / 10) by (apply Z.div_str_pos; lia).
    destruct (IH (z / 10) (digit_char (z mod 10) :: acc) Hn') as (ds & c & ds' & Heq & -> & Had & Hval & Hc).
    { split; [lia|]. apply Z.div_lt_upper_bound; lia. }
    exists ((c :: ds') ++ [digit_char (z mod 10)]), c, (ds' ++ [digit_char (z mod 10)]).
    split_and!.
    + rewrite Heq. by rewrite <- app_assoc.
    + done.
    + unfold all_digits in *. rewrite List.forallb_app, Had. cbn. by rewrite Hd.
    + unfold digits_val in *. rewrite fold_digits_app, Hval. cbn [fold_left].
      rewrite Hv. rewrite (Z.div_mod z 10) at 3 by lia. lia.
    + intros H0. apply Hc in H0. lia.
Qed.

Lemma show_nonneg_spec z :
  0 ≤ z → ∃ c ds, show_nonneg z = c :: ds ∧ all_digits (c :: ds) = true ∧
    digits_val (c :: ds) = z ∧ (c = "0"%char → z = 0 ∧ ds = []).
Proof.
  intros Hz. unfold show_nonneg.
  destruct (show_fuel_spec (S (Z.to_nat (Z.log2 z))) z []) as (ds & c & ds' & Heq & -> & H); [lia| |].
  - split; [done|]. rewrite Nat2Z.inj_succ, Z2Nat.id by apply Z.log2_nonneg.
    destruct (decide (z = 0)) as [->|]; [done|]. apply Z.log2_spec; lia.
  - rewrite app_nil_r in Heq. eauto.
Qed.

(** What may follow a printed integer. *)
Definition num_end (l : list ascii) : bool :=
  match l with
  | [] => true
  | c :: _ => negb (is_digit c || Ascii.eqb c "." || Ascii.eqb c "e" || Ascii.eqb c "E")
  end.

Lemma span_digits_app ds r :
  all_digits ds = true → num_end r = true → span_digits (ds ++ r) = (ds, r).
Proof.
  intros Hds Hr. induction ds as [|d ds IH]; simpl in *.
  - destruct r as [|c r]; [done|]. simpl in *. by destruct (is_digit c).
  - apply andb_true_iff in Hds as [-> Hds]. by rewrite IH.
Qed.

Lemma parse_number_digits z r :
  num_end r = true → parse_number (show_digits z ++ r) = Some (JInt z, r).
Proof.
  intros Hr.
  assert (∀ c ds l4, all_digits (c :: ds) = true → (c = "0"%char → ds = []) → num_end l4 = true →
    (if Ascii.eqb c "0" then ([c], ds ++ l4) else span_digits (c :: ds ++ l4)) = (c :: ds, l4)) as Hspan.
  { intros c ds l4 Hall H0 Hl4. destruct (Ascii.eqb_spec c "0") as [->|Hne].
    - by rewrite H0.
    - by apply (span_digits_app (c :: ds)). }
  assert (∀ c r', num_end (c :: r') = true →
    Ascii.eqb c "." = false ∧ (Ascii.eqb c "e" || Ascii.eqb c "E") = false) as Hend.
  { intros c r' Hn. simpl in Hn. apply negb_true_iff in Hn.
    apply orb_false_iff in Hn as [Hn HE]. apply orb_false_iff in Hn as [Hn He].
    apply orb_false_iff in Hn as [_ Hdot]. by rewrite Hdot, He, HE. }
  unfold show_digits, parse_number. destruct (Z.ltb_spec z 0) as [Hneg|Hpos].
  - destruct (show_nonneg_spec (- z)) as (c & ds & -> & Hall & Hval & H0); [lia|]. simpl.
    rewrite Hspan; [|done|by intros ?; apply H0|done].
    destruct r as [|c' r]; simpl; [|destruct (Hend c' r Hr) as [-> ->]];
      by rewrite Hval, Z.opp_involutive.
  - destruct (show_nonneg_spec z) as (c & ds & -> & Hall & Hval & H0); [lia|]. simpl.
    assert (Ascii.eqb c "-" = false) as ->.
    { apply andb_true_iff in Hall as [Hc _]. by destruct (Ascii.eqb_spec c "-") as [->|]. }
    rewrite Hspan; [|done|by intros ?; apply H0|done].
    destruct r as [|c' r]; simpl; [|destruct (Hend c' r Hr) as [-> ->]]; by rewrite Hval.
Qed.

(** ** Strings *)

Lemma parse_str_byte n c l :
  parse_str (S n) (escape_byte c ++ l) =
  ('(s, r) ← parse_str n l; Some (c :: s, r)).
Proof. destruct c as [[] [] [] [] [] [] [] []]; reflexivity. Qed.

Definition is_ascii (c : ascii) : bool := (code c <? 128)%N.

Lemma parse_str_point n c l :
  is_ascii c = true →
  parse_str (S n) (escape_point (code c) ++ l) =
  ('(s, r) ← parse_str n l; Some (c :: s, r)).
Proof. destruct c as [[] [] [] [] [] [] [] []]; first [reflexivity | discriminate]. Qed.

#[local] Arguments parse_str : simpl never.
#[local] Arguments escape_byte : simpl never.
#[local] Arguments escape_point : simpl never.

Lemma utf8_points_ascii l : forallb is_ascii l = true → utf8_points l = map code l.
Proof.
  induction l as [|c l IH]; simpl; [done|]. intros [Hc Hl]%andb_true_iff.
  unfold is_ascii in Hc. apply N.ltb_lt in Hc.
  destruct (N.ltb_spec (code c) 192); [by rewrite IH|lia].
Qed.

(** The strings an encoding reads back: all of them when bytes are copied, the
    ASCII ones when everything else is written as an escape. *)
Definition str_ok (o : dump_opts) (s : string) : bool :=
  if ensure_ascii o then forallb is_ascii (chars s) else true.

Lemma parse_dump_str o s n r :
  str_ok o s = true → (String.length s < n)%nat →
  parse_str n (escape_str o s ++ dquote :: r) = Some (chars s, r).
Proof.
  unfold str_ok, escape_str. intros Hok Hn.
  rewrite <- chars_length in Hn. destruct (ensure_ascii o).
  - rewrite utf8_points_ascii by done. revert n Hn Hok.
    induction (chars s) as [|c l IH]; intros [|n] Hn Hok; simpl in *; try lia; [done|].
    apply andb_true_iff in Hok as [Hc Hok]. rewrite <- app_assoc, parse_str_point by done.
    by rewrite IH by (lia || done).
  - clear Hok. revert n Hn.
    induction (chars s) as [|c l IH]; intros [|n] Hn; simpl in *; try lia; [done|].
    rewrite <- app_assoc, parse_str_byte. by rewrite IH by lia.
Qed.

Lemma escape_byte_length c : (1 ≤ List.length (escape_byte c))%nat.
Proof. destruct c as [[] [] [] [] [] [] [] []]; simpl; lia. Qed.

Lemma escape_point_length n : (1 ≤ List.length (escape_point n))%nat.
Proof.
  unfold escape_point. destruct (short_escape n) as [e|] eqn:He.
  - unfold short_escape in He. repeat (case_match; simplify_eq/=; try lia).
  - repeat case_match; simpl; lia.
Qed.

Lemma escape_str_length o s :
  str_ok o s = true → (String.length s ≤ List.length (escape_str o s))%nat.
Proof.
  unfold str_ok, escape_str. intros Hok.
  rewrite <- chars_length. destruct (ensure_ascii o).
  - rewrite utf8_points_ascii by done. clear Hok. induction (chars s) as [|c l IH]; csimpl; [lia|].
    rewrite length_app. pose proof (escape_point_length (code c)). lia.
  - clear Hok. induction (chars s) as [|c l IH]; csimpl; [lia|].
    rewrite length_app. pose proof (escape_byte_length c). lia.
Qed.

(** ** Values *)

(** Values without floats, with distinct keys in every object and strings the
    encoding reads back. *)
Fixpoint wf_json (o : dump_opts) (j : json) : bool :=
  match j with
  | JFloat _ => false
  | JStr s => str_ok o s
  | JList l => forallb (wf_json o) l
  | JObj d =>
      bool_decide (NoDup (dkeys d)) && forallb (λ p, str_ok o p.1 && wf_json o p.2) d
  | _ => true
  end.

(** The fuel a value needs. *)
Fixpoint jsize (j : json) : nat :=
  match j with
  | JList l => S (list_sum (map (λ x, S (jsize x)) l))
  | JObj d => S (list_sum (map (λ p, S (jsize p.2)) d))
  | _ => 1
  end.

Section Roundtrip.
Context `{Host} (o : dump_opts).

Lemma skip_ws_gap c l :
  is_ws c = false → skip_ws ((if compact o then [] else [" "%char]) ++ c :: l) = c :: l.
Proof. intros Hc. destruct (compact o); simpl; by rewrite Hc. Qed.

(** A printed value starts with a character that is not white space. *)
Lemma dump_head j : wf_json o j = true → ∃ c l, dump_chars o j = c :: l ∧ is_ws c = false ∧
  Ascii.eqb c "]" = false.
Proof.
  destruct j as [|[]|z|f|s|l|d]; intros Hwf; try (eexists _, _; split; [reflexivity|done]); try done.
  simpl. unfold show_digits. destruct (Z.ltb_spec z 0); [eexists _, _; split; [reflexivity|done]|].
  destruct (show_nonneg_spec z) as (c & ds & -> & Hall & _); [lia|].
  exists c, ds. simpl in Hall. apply andb_true_iff in Hall as [Hc _]. split; [done|].
  clear - Hc. destruct c as [[] [] [] [] [] [] [] []]; try discriminate; done.
Qed.

Lemma parse_atom_digits n z r :
  num_end r = true → parse_value (S n) (show_digits z ++ r) = Some (JInt z, r).
Proof.
  intros Hr. pose proof (parse_number_digits z r Hr) as Hp.
  assert (∃ c l, show_digits z ++ r = c :: l ∧
    (is_digit c = true ∨ c = "-"%char ∧ ∃ d l', l = d :: l' ∧ is_digit d = true))
    as (c & l & Heq & Hc).
  { unfold show_digits. destruct (Z.ltb_spec z 0).
    - destruct (show_nonneg_spec (- z)) as (c & ds & -> & Hall & _); [lia|].
      simpl in *. apply andb_true_iff in Hall as [Hc _]. eauto 10.
    - destruct (show_nonneg_spec z) as (c & ds & -> & Hall & _); [lia|].
      simpl in *. apply andb_true_iff in Hall as [Hc _]. eauto 10. }
  rewrite Heq in *. simpl. destruct Hc as [Hc|[-> (d & l' & -> & Hd)]].
  - destruct c as [[] [] [] [] [] [] [] []]; try discriminate Hc; exact Hp.
  - destruct d as [[] [] [] [] [] [] [] []]; try discriminate Hd; exact Hp.
Qed.

Lemma num_end_sep l : num_end (sep_item o ++ l) = true.
Proof. unfold sep_item. by destruct (compact o). Qed.

Lemma skip_ws_stop c l : is_ws c = false → skip_ws (c :: l) = c :: l.
Proof. simpl. by intros ->. Qed.

(** Elements and members of non-empty containers, given that their values
    are read back. *)
Definition reads (j : json) : Prop := ∀ n r,
  wf_json o j = true → (jsize j ≤ n)%nat → num_end r = true →
  parse_value n (dump_chars o j ++ r) = Some (j, r).

Lemma parse_elems_join x l n r :
  Forall reads (x :: l) → forallb (wf_json o) (x :: l) = true →
  (list_sum (map (λ x, S (jsize x)) (x :: l)) ≤ n)%nat →
  parse_elems n (join (sep_item o) (map (dump_chars o) (x :: l)) ++ "]"%char :: r) =
  Some (x :: l, r).
Proof.
  revert x n. induction l as [|y l IH]; intros x n Hall Hwf Hn;
    (destruct n as [|n]; [simpl in Hn; lia|]);
    apply Forall_cons in Hall as [Hx Hall];
    apply andb_true_iff in Hwf as [Hwx Hwf]; cbn [list_sum map foldr] in Hn.
  - cbn [map join parse_elems]. rewrite Hx by (done || lia). reflexivity.
  - change (join (sep_item o) (map (dump_chars o) (x :: y :: l)))
      with (dump_chars o x ++ sep_item o ++ join (sep_item o) (map (dump_chars o) (y :: l))).
    rewrite <- !app_assoc. cbn [parse_elems].
    rewrite Hx; [|done|lia|by apply num_end_sep]. cbn [mbind option_bind].
    pose proof Hwf as Hwf'. apply andb_true_iff in Hwf' as [Hwy _].
    destruct (dump_head y Hwy) as (c & t & Hd & Hws & _).
    assert (∃ t', join (sep_item o) (map (dump_chars o) (y :: l)) ++ "]"%char :: r = c :: t')
      as [t' Ht'].
    { destruct l; cbn [map join]; rewrite Hd; eexists; reflexivity. }
    specialize (IH y n Hall Hwf). rewrite Ht' in *.
    assert (skip_ws (sep_item o ++ c :: t') =
      ","%char :: (if compact o then [] else [" "%char]) ++ c :: t') as ->.
    { unfold sep_item. by destruct (compact o). }
    cbn -[skip_ws parse_elems]. rewrite skip_ws_gap by done.
    rewrite IH; [done|]. cbn [list_sum map foldr] in *. lia.
Qed.

Definition dump_member (p : string * json) : list ascii :=
  dump_str o p.1 ++ sep_key o ++ dump_chars o p.2.

Definition wf_member (p : string * json) : bool := str_ok o p.1 && wf_json o p.2.

(** One member: its key, its colon and its value. *)
Lemma parse_member k x n acc l :
  reads x → wf_member (k, x) = true → (jsize x ≤ n)%nat → num_end l = true →
  parse_members (S n) acc (dump_member (k, x) ++ l) =
  match skip_ws l with
  | c' :: r3 =>
      if Ascii.eqb c' "}" then Some (dset acc k x, r3)
      else if Ascii.eqb c' "," then parse_members n (dset acc k x) (skip_ws r3)
      else None
  | [] => None
  end.
Proof.
  intros Hx [Hk Hwx]%andb_true_iff Hn Hl. simpl in Hk, Hwx.
  unfold dump_member, dump_str. cbn [fst snd]. rewrite <- !app_comm_cons, <- !app_assoc.
  cbn [parse_members app]. rewrite Ascii.eqb_refl. cbn [negb].
  rewrite parse_dump_str; [|done|].
  2:{ rewrite length_app. pose proof (escape_str_length o k Hk). simpl. lia. }
  cbn [mbind option_bind]. destruct (dump_head x Hwx) as (c & t & Hd & Hws & _).
  assert (skip_ws (sep_key o ++ dump_chars o x ++ l) =
    ":"%char :: (if compact o then [] else [" "%char]) ++ dump_chars o x ++ l) as ->.
  { unfold sep_key. by destruct (compact o). }
  cbn -[skip_ws parse_members parse_value dump_chars].
  rewrite Hd. rewrite <- app_comm_cons, skip_ws_gap, app_comm_cons, <- Hd by done.
  rewrite Hx by done. cbn [mbind option_bind]. by rewrite of_chars_chars.
Qed.

Lemma parse_members_join p d n acc r :
  Forall (λ p, reads p.2) (p :: d) → forallb wf_member (p :: d) = true →
  NoDup (dkeys acc ++ dkeys (p :: d)) →
  (list_sum (map (λ p, S (jsize p.2)) (p :: d)) ≤ n)%nat →
  parse_members n acc (join (sep_item o) (map dump_member (p :: d)) ++ "}"%char :: r) =
  Some (acc ++ p :: d, r).
Proof.
  revert p n acc. induction d as [|q d IH]; intros [k x] n acc Hall Hwf Hnd Hn;
    (destruct n as [|n]; [simpl in Hn; lia|]);
    apply Forall_cons in Hall as [Hx Hall];
    apply andb_true_iff in Hwf as [Hwx Hwf]; cbn [list_sum map foldr fst snd] in Hn, Hx;
    assert (k ∉ dkeys acc) as Hk by
      (apply NoDup_app in Hnd as (_ & Hnd & _); intros Hk; apply (Hnd k Hk); by left).
  - cbn [map join]. rewrite parse_member by (done || lia). cbn.
    by rewrite dset_fresh.
  - change (join (sep_item o) (map dump_member ((k, x) :: q :: d)))
      with (dump_member (k, x) ++ sep_item o ++ join (sep_item o) (map dump_member (q :: d))).
    rewrite <- !app_assoc. rewrite parse_member; [|done|done|lia|apply num_end_sep].
    assert (∃ t', join (sep_item o) (map dump_member (q :: d)) ++ "}"%char :: r = dquote :: t')
      as [t' Ht'] by (destruct d; cbn [map join]; eexists; reflexivity).
    assert (NoDup (dkeys (dset acc k x) ++ dkeys (q :: d))) as Hnd'.
    { rewrite dset_fresh by done. unfold dkeys in *. rewrite fmap_app, <- app_assoc. done. }
    specialize (IH q n (dset acc k x) Hall Hwf Hnd'). rewrite Ht' in *.
    assert (skip_ws (sep_item o ++ dquote :: t') =
      ","%char :: (if compact o then [] else [" "%char]) ++ dquote :: t') as ->.
    { unfold sep_item. by destruct (compact o). }
    cbn -[skip_ws parse_members dset dquote]. rewrite skip_ws_gap by done.
    rewrite IH by (cbn [list_sum map foldr] in *; lia).
    rewrite dset_fresh by done. by rewrite <- app_assoc.
Qed.

(** Every well-formed value is read back, whatever follows it. *)
Lemma parse_dump_value j : reads j.
Proof.
  induction j as [|b|z|f|s|l IH|d IH] using json_rect'; intros n r Hwf Hn Hr;
    (destruct n as [|n]; [simpl in Hn; lia|]).
  - done.
  - by destruct b.
  - by apply parse_atom_digits.
  - done.
  - cbn [dump_chars]. unfold dump_str. rewrite <- app_comm_cons, <- app_assoc.
    cbn [parse_value app]. rewrite Ascii.eqb_refl.
    rewrite parse_dump_str; [|done|].
    2:{ rewrite length_app. pose proof (escape_str_length o s Hwf). simpl. lia. }
    cbn [mbind option_bind]. by rewrite of_chars_chars.
  - destruct l as [|x l]; [done|]. cbn [wf_json] in Hwf. cbn [jsize] in Hn.
    cbn [dump_chars]. rewrite <- app_comm_cons, <- app_assoc. cbn [app].
    assert (∃ c t, join (sep_item o) (map (dump_chars o) (x :: l)) ++ "]"%char :: r = c :: t ∧
      is_ws c = false ∧ Ascii.eqb c "]" = false) as (c & t & Ht & Hws & Hc).
    { pose proof Hwf as Hw. apply andb_true_iff in Hw as [Hw _].
      destruct (dump_head x Hw) as (c & t & Hd & ? & ?).
      destruct l; cbn [map join]; rewrite Hd; do 2 eexists; (split; [reflexivity|done]). }
    pose proof (parse_elems_join x l n r IH Hwf ltac:(lia)) as Hp.
    rewrite Ht in *. cbn -[skip_ws parse_elems].
    rewrite skip_ws_stop by done. by rewrite Hc, Hp.
  - destruct d as [|p d]; [done|]. cbn [wf_json] in Hwf. cbn [jsize] in Hn.
    apply andb_true_iff in Hwf as [Hnd Hwf]. apply bool_decide_eq_true in Hnd.
    change (dump_chars o (JObj (p :: d))) with
      ("{"%char :: join (sep_item o) (map dump_member (p :: d)) ++ ["}"%char]).
    rewrite <- app_comm_cons, <- app_assoc. cbn [app].
    assert (∃ t', join (sep_item o) (map dump_member (p :: d)) ++ "}"%char :: r = dquote :: t')
      as [t' Ht'] by (destruct d; cbn [map join]; eexists; reflexivity).
    pose proof (parse_members_join p d n [] r IH Hwf Hnd ltac:(lia)) as Hp.
    rewrite Ht' in *. cbn -[skip_ws parse_members dquote].
    rewrite skip_ws_stop by done. by rewrite Hp.
Qed.
End Roundtrip.

(** ** Sorting the keys *)

Lemma insert_item_perm {A} (p : string * A) d : insert_item p d ≡ₚ p :: d.
Proof.
  induction d as [|q d IH]; simpl; [done|]. case_match; [done|].
  rewrite IH. apply Permutation_swap.
Qed.

Lemma sort_items_perm {A} (d : list (string * A)) : sort_items d ≡ₚ d.
Proof. induction d as [|p d IH]; simpl; [done|]. by rewrite insert_item_perm, IH. Qed.

Lemma dget_perm {A} (d d' : list (string * A)) k :
  NoDup (dkeys d) → d ≡ₚ d' → dget d k = dget d' k.
Proof.
  intros Hnd Hp. assert (NoDup (dkeys d')) by (unfold dkeys in *; by rewrite <- Hp).
  destruct (dget d k) as [v|] eqn:E.
  - symmetry. apply elem_dget; [done|]. rewrite <- Hp. by apply dget_Some_elem.
  - symmetry. apply dget_None. apply dget_None in E. unfold dkeys in *. by rewrite <- Hp.
Qed.

Lemma dget_map {A B} (f : A → B) d k :
  dget (map (λ p, (p.1, f p.2)) d) k = f <$> dget d k.
Proof. induction d as [|[k' v] d IH]; simpl; [done|]. by destruct (String.eqb k k'). Qed.

Lemma dkeys_map {A B} (f : A → B) (d : list (string * A)) :
  dkeys (map (λ p, (p.1, f p.2)) d) = dkeys d.
Proof. unfold dkeys. induction d as [|p d IH]; csimpl; [done|]. by f_equal. Qed.

(** Looking a key up in the sorted object. *)
Lemma dget_sorted d k :
  NoDup (dkeys d) →
  dget (sort_items (map (λ p, (p.1, sort_json p.2)) d)) k = sort_json <$> dget d k.
Proof.
  intros Hnd. rewrite <- dget_map. symmetry. apply dget_perm; [by rewrite dkeys_map|].
  by rewrite sort_items_perm.
Qed.

Lemma forallb_perm {A} (f : A → bool) l l' : l ≡ₚ l' → forallb f l = forallb f l'.
Proof.
  induction 1; simpl; [done|congruence| |congruence].
  by rewrite !andb_assoc, (andb_comm (f y)).
Qed.

Lemma wf_sort_json o j : wf_json o j = true → wf_json o (sort_json j) = true.
Proof.
  induction j as [|b|z|f|s|l IH|d IH] using json_rect'; try done; cbn [sort_json wf_json].
  - intros Hwf. induction IH as [|x l Hx IH IHl]; simpl in *; [done|].
    apply andb_true_iff in Hwf as [? ?]. by rewrite Hx, IHl.
  - intros [Hnd Hwf]%andb_true_iff. apply bool_decide_eq_true in Hnd.
    apply andb_true_iff; split.
    + apply bool_decide_eq_true. unfold dkeys. rewrite sort_items_perm.
      by rewrite <- (dkeys_map sort_json) in Hnd.
    + rewrite (forallb_perm _ _ _ (sort_items_perm _)).
      clear Hnd. induction IH as [|p d Hp IH IHd]; simpl in *; [done|].
      apply andb_true_iff in Hwf as [[-> ?]%andb_true_iff ?]. by rewrite Hp, IHd.
Qed.

(** ** The round trip *)

Section RoundtripText.
Context `{Host} (o : dump_opts).

Lemma length_join ls :
  (list_sum (map (@List.length ascii) ls) + (List.length ls - 1) ≤
   List.length (join (sep_item o) ls))%nat.
Proof.
  assert (1 ≤ List.length (sep_item o))%nat by (unfold sep_item; destruct (compact o); simpl; lia).
  induction ls as [|l [|l' ls] IH]; [simpl; lia|simpl; lia|].
  change (join (sep_item o) (l :: l' :: ls)) with (l ++ sep_item o ++ join (sep_item o) (l' :: ls)).
  rewrite !length_app. cbn [map list_sum foldr List.length] in *. lia.
Qed.

Lemma list_sum_cons x l : list_sum (x :: l) = (x + list_sum l)%nat.
Proof. done. Qed.

Lemma list_sum_bound {A} (f g : A → nat) l :
  Forall (λ x, f x ≤ 2 * g x)%nat l →
  (list_sum (map (λ x, S (f x)) l) ≤ List.length l + 2 * list_sum (map g l))%nat.
Proof.
  induction 1; cbn [map List.length]; [simpl; lia|]. rewrite !list_sum_cons. lia.
Qed.

Lemma jsize_bound j :
  wf_json o j = true → (jsize j ≤ 2 * List.length (dump_chars o j))%nat.
Proof.
  induction j as [|b|z|f|s|l IH|d IH] using json_rect'; intros Hwf.
  - simpl. lia.
  - destruct b; simpl; lia.
  - destruct (dump_head o (JInt z) Hwf) as (c & t & -> & _). simpl. lia.
  - done.
  - simpl. lia.
  - cbn [wf_json] in Hwf. cbn [jsize dump_chars List.length].
    rewrite length_app. cbn [List.length].
    pose proof (length_join (map (dump_chars o) l)) as Hj.
    rewrite map_map, length_map in Hj.
    assert (Forall (λ x, jsize x ≤ 2 * List.length (dump_chars o x))%nat l) as Hf.
    { clear Hj. induction IH as [|x l Hx IH IHl]; [constructor|].
      apply andb_true_iff in Hwf as [? ?]. constructor; auto. }
    apply list_sum_bound in Hf. lia.
  - cbn [wf_json] in Hwf. cbn [jsize dump_chars List.length].
    rewrite length_app. cbn [List.length].
    pose proof (length_join (map (dump_member o) d)) as Hj.
    rewrite map_map, length_map in Hj.
    assert (Forall (λ p, jsize p.2 ≤ 2 * List.length (dump_member o p))%nat d) as Hf.
    { clear Hj. apply andb_true_iff in Hwf as [_ Hwf].
      induction IH as [|p d Hp IH IHd]; [constructor|].
      apply andb_true_iff in Hwf as [[_ Hw]%andb_true_iff ?]. constructor; [|auto].
      unfold dump_member. rewrite !length_app. specialize (Hp Hw). lia. }
    apply list_sum_bound in Hf. unfold dump_member in *. lia.
Qed.

Definition sorted_if (j : json) : json := if sort_keys o then sort_json j else j.

Lemma wf_sorted_if j : wf_json o j = true → wf_json o (sorted_if j) = true.
Proof. unfold sorted_if. destruct (sort_keys o); [apply wf_sort_json|done]. Qed.

Lemma loads_dumps j : wf_json o j = true → loads (dumps o j) = Some (sorted_if j).
Proof.
  intros Hwf%wf_sorted_if. unfold loads, dumps. fold (sorted_if j).
  rewrite chars_of_chars.
  destruct (dump_head o _ Hwf) as (c & t & Hd & Hws & _).
  pose proof (parse_dump_value o (sorted_if j) (S (2 * List.length (dump_chars o (sorted_if j))))
    [] Hwf) as Hp.
  rewrite app_nil_r in Hp. rewrite Hd, skip_ws_stop, <- Hd by done.
  rewrite Hp; [done| |done]. pose proof (jsize_bound _ Hwf). lia.
Qed.
End RoundtripText.

(** ** The escaped encoding writes ASCII only *)

Section AsciiText.
Context `{Host}.

Abbreviation asciis l := (forallb is_ascii l = true).

Lemma asciis_app l1 l2 : asciis l1 → asciis l2 → asciis (l1 ++ l2).
Proof. intros H1 H2. by rewrite forallb_app, H1, H2. Qed.

Lemma asciis_join sep ls : asciis sep → Forall (λ l, asciis l) ls → asciis (join sep ls).
Proof.
  intros Hsep. induction 1 as [|l [|l' ls] Hl Hls IH]; [done|done|].
  change (asciis (l ++ sep ++ join sep (l' :: ls))). by repeat apply asciis_app.
Qed.

Lemma digits_ascii l : all_digits l = true → asciis l.
Proof.
  unfold all_digits. induction l as [|c l IH]; cbn; [done|].
  intros [Hc Hl]%andb_true_iff. rewrite IH by done.
  revert Hc. unfold is_digit, is_ascii. intros [_ Hc%N.leb_le]%andb_true_iff.
  apply andb_true_iff; split; [|done]. apply N.ltb_lt. lia.
Qed.

Lemma escape_point_ascii c : is_ascii c = true → asciis (escape_point (code c)).
Proof. destruct c as [[] [] [] [] [] [] [] []]; done. Qed.

Lemma dump_str_ascii o s : ensure_ascii o = true → str_ok o s = true → asciis (dump_str o s).
Proof.
  unfold dump_str, str_ok, escape_str. intros -> Hs. rewrite utf8_points_ascii by done.
  apply asciis_app; [|done]. change (asciis (List.concat (escape_point <$> map code (chars s)))).
  induction (chars s) as [|c l IH]; [done|]. cbn in Hs. apply andb_true_iff in Hs as [Hc Hl].
  csimpl. apply asciis_app; [by apply escape_point_ascii|by apply IH].
Qed.

Lemma show_digits_ascii z : asciis (show_digits z).
Proof.
  unfold show_digits. destruct (Z.ltb_spec z 0).
  - destruct (show_nonneg_spec (- z)) as (c & ds & -> & Hd & _); [lia|].
    change (asciis (c :: ds)). by apply digits_ascii.
  - destruct (show_nonneg_spec z) as (c & ds & -> & Hd & _); [lia|]. by apply digits_ascii.
Qed.

Lemma dump_chars_ascii o j :
  ensure_ascii o = true → wf_json o j = true → asciis (dump_chars o j).
Proof.
  intros Ho. induction j as [|b|z|f|s|l IH|d IH] using json_rect'; intros Hwf; try done.
  - by destruct b.
  - apply show_digits_ascii.
  - by apply dump_str_ascii.
  - cbn [wf_json dump_chars] in *. rewrite app_comm_cons. apply asciis_app; [|done].
    cbn. apply asciis_join; [unfold sep_item; by destruct (compact o)|].
    induction IH as [|x l Hx IH IHl]; cbn in *; [constructor|].
    apply andb_true_iff in Hwf as [? ?]. constructor; auto.
  - cbn [wf_json dump_chars] in *. rewrite app_comm_cons. apply asciis_app; [|done].
    apply andb_true_iff in Hwf as [_ Hwf].
    apply (asciis_app ["{"%char]); [done|]. apply asciis_join; [unfold sep_item; by destruct (compact o)|].
    induction IH as [|p d Hp IH IHd]; cbn [forallb map] in *; [constructor|].
    apply andb_true_iff in Hwf as [[? ?]%andb_true_iff ?]. constructor; [|auto].
    apply asciis_app; [by apply dump_str_ascii|].
    apply asciis_app; [unfold sep_key; by destruct (compact o)|auto].
Qed.

Lemma utf8_valid_ascii l : asciis l → utf8_valid l = true.
Proof.
  induction l as [|c l IH]; [done|]. cbn [forallb utf8_valid]. unfold is_ascii at 1.
  intros [-> Hl]%andb_true_iff. by apply IH.
Qed.

(** Escaped text is a [bytes] value that decodes and parses to its value. *)
Lemma dumps_utf8 o j :
  ensure_ascii o = true → wf_json o j = true → utf8_valid (chars (dumps o j)) = true.
Proof.
  intros Ho Hwf%(wf_sorted_if o). unfold dumps. rewrite chars_of_chars.
  apply utf8_valid_ascii, dump_chars_ascii; done.
Qed.
End AsciiText.
