(* ===== verification/PyLib.v ===== *)
(** * Library functions of the process boundary

    The functions of Python's standard library that only the example processes
    use: [base64], [float()], [round(x, 3)] and the text of a [pathlib] path,
    with the round trip of [base64]. *)

From S2P Require Import Prelude.
From S2P Require Import Json.
From S2P Require Import JsonText.
From Stdlib Require Import Floats.SpecFloat.

(** ** [base64.b64encode] and [base64.b64decode(s, validate=True)] *)

Section Base64.
Local Open Scope N_scope.

Definition b64_char (n : N) : ascii :=
  ascii_of_N (if n <? 26 then 65 + n else if n <? 52 then 71 + n
              else if n <? 62 then n - 4 else if n =? 62 then 43 else 47).

Definition b64_val (a : ascii) : option N :=
  let c := code a in
  if (65 <=? c) && (c <=? 90) then Some (c - 65)
  else if (97 <=? c) && (c <=? 122) then Some (c - 71)
  else if (48 <=? c) && (c <=? 57) then Some (c + 4)
  else if c =? 43 then Some 62 else if c =? 47 then Some 63 else None.

(** Three bytes are four digits of six bits. *)
Definition sextets (n : N) : list ascii :=
  b64_char <$> [n / 262144; n / 4096 mod 64; n / 64 mod 64; n mod 64].
Definition octets (n : N) : list ascii :=
  ascii_of_N <$> [n / 65536; n / 256 mod 256; n mod 256].
Definition triple (a b c : N) : N := a * 65536 + b * 256 + c.
Definition quad (a b c d : N) : N := a * 262144 + b * 4096 + c * 64 + d.

Fixpoint b64_encode (l : list ascii) : list ascii :=
  match l with
  | [] => []
  | [a] => take 2 (sextets (triple (code a) 0 0)) ++ ["="; "="]%char
  | [a; b] => take 3 (sextets (triple (code a) (code b) 0)) ++ ["="%char]
  | a :: b :: c :: l' => sextets (triple (code a) (code b) (code c)) ++ b64_encode l'
  end.

(** Padding is accepted at the end only; the bits it covers are dropped. *)
Fixpoint b64_decode (l : list ascii) : option (list ascii) :=
  match l with
  | [] => Some []
  | a :: b :: c :: d :: l' =>
      va ← b64_val a; vb ← b64_val b;
      if Ascii.eqb d "=" then
        match l' with
        | [] => if Ascii.eqb c "=" then Some (take 1 (octets (quad va vb 0 0)))
                else vc ← b64_val c; Some (take 2 (octets (quad va vb vc 0)))
        | _ => None
        end
      else
        vc ← b64_val c; vd ← b64_val d; rest ← b64_decode l';
        Some (octets (quad va vb vc vd) ++ rest)
  | _ => None
  end.
End Base64.

Definition py_b64encode (b : bytes) : string := of_chars (b64_encode (chars b)).

(** A string that is not base64 raises [binascii.Error], a [ValueError]. *)
Definition py_b64decode (j : json) : outcome bytes :=
  match j with
  | JStr s => of_opt CValueError "invalid base64-encoded string" (of_chars <$> b64_decode (chars s))
  | _ => fail CTypeError ("argument should be a bytes-like object or ASCII string, not '"
                            +:+ type_name j +:+ "'")
  end.

(** ** [float(x)] *)

Definition float_of_int (z : Z) : outcome spec_float :=
  match binary_normalize 53 1024 z 0 false with
  | S754_infinity _ => fail COverflowError "int too large to convert to float"
  | f => Ok f
  end.

(** Digits, single underscores between them allowed. *)
Fixpoint digit_part (l : list ascii) : list ascii * list ascii :=
  match l with
  | c :: l' =>
      if is_digit c then
        let '(ds, r) :=
          match l' with
          | u :: l'' =>
              if Ascii.eqb u "_" && match l'' with c2 :: _ => is_digit c2 | [] => false end
              then digit_part l'' else digit_part l'
          | [] => ([], [])
          end in (c :: ds, r)
      else ([], l)
  | [] => ([], [])
  end.

Definition take_sign (l : list ascii) : bool * list ascii :=
  match l with
  | c :: l' => if Ascii.eqb c "-" then (true, l') else if Ascii.eqb c "+" then (false, l') else (false, l)
  | [] => (false, [])
  end.

Definition float_of_str (s : string) : option spec_float :=
  let '(neg, body) := take_sign (chars (py_strip s)) in
  let word := of_chars (lower_char <$> body) in
  if bool_decide (word ∈ ["inf"; "infinity"]) then Some (S754_infinity neg)
  else if String.eqb word "nan" then Some S754_nan
  else
    let '(ip, r) := digit_part body in
    let '(fp, r) := match r with
                    | c :: r' => if Ascii.eqb c "." then digit_part r' else ([], r)
                    | [] => ([], [])
                    end in
    let value e := float_of_dec neg (digits_val (ip ++ fp)) (e - Z.of_nat (List.length fp)) in
    match ip ++ fp, r with
    | [], _ => None
    | _, [] => Some (value 0)
    | _, c :: r' =>
        if Ascii.eqb (lower_char c) "e" then
          let '(eneg, r'') := take_sign r' in
          match digit_part r'' with
          | ((_ :: _) as ds, []) => Some (value (if eneg then - digits_val ds else digits_val ds))
          | _ => None
          end
        else None
    end.

Definition py_float (j : json) : outcome spec_float :=
  match j with
  | JBool b => float_of_int (Z.b2z b)
  | JInt z => float_of_int z
  | JFloat f => Ok f
  | JStr s => of_opt CValueError "could not convert string to float" (float_of_str s)
  | _ => fail CTypeError ("float() argument must be a string or a real number, not '"
                            +:+ type_name j +:+ "'")
  end.

(** ** Float arithmetic and [round(x, 3)] *)

Definition fsub : spec_float → spec_float → spec_float := SFsub 53 1024.
(** [min(a, b)] *)
Definition fmin (a b : spec_float) : spec_float := if SFltb b a then b else a.

(** [n / d] rounded to the nearest integer, ties to even. *)
Definition round_half_even (n d : Z) : Z :=
  let q := n / d in
  match Z.compare (2 * (n mod d)) d with
  | Lt => q
  | Gt => q + 1
  | Eq => if Z.even q then q else q + 1
  end.

Definition py_round3 (f : spec_float) : spec_float :=
  match f with
  | S754_finite s m e =>
      let n := if 0 <=? e then 1000 * Zpos m * 2 ^ e
               else round_half_even (1000 * Zpos m) (2 ^ (- e)) in
      float_of_dec s n (-3)
  | _ => f
  end.

(** ** [str(Path(p))] on a POSIX system *)

Fixpoint split_on (sep : ascii) (l : list ascii) : list (list ascii) :=
  match l with
  | [] => [[]]
  | c :: l' =>
      if Ascii.eqb c sep then [] :: split_on sep l'
      else match split_on sep l' with
           | w :: ws => (c :: w) :: ws
           | [] => [[c]]
           end
  end.

Fixpoint leading (c : ascii) (l : list ascii) : nat :=
  match l with c' :: l' => if Ascii.eqb c c' then S (leading c l') else 0 | [] => 0 end.

Definition path_parts (p : string) : list (list ascii) :=
  List.filter (λ w, match w with [] => false | _ => negb (String.eqb (of_chars w) ".") end)
    (split_on "/" (chars p)).

(** Two leading slashes are kept, any other number is one. *)
Definition path_root (p : string) : list ascii :=
  match leading "/" (chars p) with
  | 0%nat => []
  | 2%nat => ["/"; "/"]%char
  | _ => ["/"%char]
  end.

Definition path_str (p : string) : string :=
  match (path_root p ++ join ["/"%char] (path_parts p))%list with
  | [] => "."
  | l => of_chars l
  end.

(** [Path(p) / name] for a plain file name. *)
Definition path_join (p name : string) : string :=
  let root := path_str p in
  if bool_decide (root ∈ ["/"; "//"]) then root +:+ name else path_str (root +:+ "/" +:+ name).

(** ** Facts *)

#[local] Ltac Zify.zify_post_hook ::= Z.to_euclidean_division_equations.

Lemma b64_val_char n : (n < 64)%N → b64_val (b64_char n) = Some n ∧ b64_char n ≠ "="%char.
Proof.
  intros Hn. assert (Forall (λ n, b64_val (b64_char n) = Some n ∧ b64_char n ≠ "="%char)
    (N.of_nat <$> seq 0 64)) as Hall.
  { repeat (constructor; [by split; [vm_compute; reflexivity|vm_compute; discriminate]|]). constructor. }
  rewrite Forall_forall in Hall. apply Hall. apply list_elem_of_fmap. exists (N.to_nat n).
  split; [lia|]. apply elem_of_seq. lia.
Qed.

Lemma octets_bytes (a b c : ascii) :
  octets (triple (code a) (code b) (code c)) = [a; b; c].
Proof.
  unfold octets, triple, code. pose proof (N_ascii_bounded a). pose proof (N_ascii_bounded b).
  pose proof (N_ascii_bounded c).
  set (x := N_of_ascii a) in *; set (y := N_of_ascii b) in *; set (z := N_of_ascii c) in *.
  assert ((x * 65536 + y * 256 + z) / 65536 = x)%N as E1 by lia.
  assert ((x * 65536 + y * 256 + z) / 256 mod 256 = y)%N as E2 by lia.
  assert ((x * 65536 + y * 256 + z) mod 256 = z)%N as E3 by lia.
  cbn [fmap list_fmap]. rewrite E1, E2, E3. unfold x, y, z. by rewrite !ascii_N_embedding.
Qed.

Lemma quad_sextets n :
  (n < 16777216)%N → quad (n / 262144) (n / 4096 mod 64) (n / 64 mod 64) (n mod 64) = n.
Proof. unfold quad. lia. Qed.

Lemma b64_decode_quad n l rest :
  (n < 16777216)%N → b64_decode l = Some rest → b64_decode (sextets n ++ l) = Some (octets n ++ rest).
Proof.
  intros Hn Hl. unfold sextets. cbn [fmap list_fmap app b64_decode].
  destruct (b64_val_char (n / 262144)) as [-> _]; [lia|].
  destruct (b64_val_char (n / 4096 mod 64)) as [-> _]; [lia|].
  destruct (b64_val_char (n / 64 mod 64)) as [-> _]; [lia|].
  destruct (b64_val_char (n mod 64)) as [-> Hne]; [lia|].
  apply Ascii.eqb_neq in Hne. rewrite Hne, Hl. cbn. by rewrite quad_sextets.
Qed.

Lemma list3_ind {A} (P : list A → Prop) :
  P [] → (∀ a, P [a]) → (∀ a b, P [a; b]) → (∀ a b c l, P l → P (a :: b :: c :: l)) → ∀ l, P l.
Proof.
  intros H0 H1 H2 H3. assert (∀ l, P l ∧ (∀ a, P (a :: l)) ∧ ∀ a b, P (a :: b :: l)) as H; [|apply H].
  induction l as [|c l (? & IH1 & IH2)]; split_and!; auto.
Qed.

(** Decoding gives back what was encoded. *)
Lemma b64_roundtrip l : b64_decode (b64_encode l) = Some l.
Proof.
  assert (∀ a, (code a < 256)%N) as Hb by (intros a; apply N_ascii_bounded).
  induction l as [|a|a b|a b c l IH] using list3_ind; [done|..].
  - pose proof (Hb a). unfold b64_encode, sextets, triple. cbn [fmap list_fmap take app b64_decode].
    destruct (b64_val_char ((code a * 65536 + 0 * 256 + 0) / 262144)) as [-> _]; [lia|].
    destruct (b64_val_char ((code a * 65536 + 0 * 256 + 0) / 4096 mod 64)) as [-> _]; [lia|].
    cbn -[octets]. f_equal. pose proof (octets_bytes a zero zero) as Ho. unfold triple in Ho.
    cbn [code N_of_ascii] in Ho. unfold octets, quad. cbn [fmap list_fmap take]. f_equal.
    replace (_ / 65536)%N with (code a) by lia. unfold code. apply ascii_N_embedding.
  - pose proof (Hb a). pose proof (Hb b). unfold b64_encode, sextets, triple.
    cbn [fmap list_fmap take app b64_decode].
    destruct (b64_val_char ((code a * 65536 + code b * 256 + 0) / 262144)) as [-> _]; [lia|].
    destruct (b64_val_char ((code a * 65536 + code b * 256 + 0) / 4096 mod 64)) as [-> _]; [lia|].
    destruct (b64_val_char ((code a * 65536 + code b * 256 + 0) / 64 mod 64)) as [-> Hne]; [lia|].
    apply Ascii.eqb_neq in Hne. cbn -[octets]. rewrite Hne. cbn -[octets]. f_equal.
    unfold octets, quad. cbn [fmap list_fmap take]. f_equal; [|f_equal].
    + replace (_ / 65536)%N with (code a) by lia. unfold code. apply ascii_N_embedding.
    + replace (_ / 256 mod 256)%N with (code b) by lia. unfold code. apply ascii_N_embedding.
  - pose proof (Hb a). pose proof (Hb b). pose proof (Hb c). cbn [b64_encode].
    rewrite (b64_decode_quad _ _ l); [by rewrite octets_bytes|unfold triple; lia|done].
Qed.

Lemma py_b64_roundtrip b : py_b64decode (JStr (py_b64encode b)) = Ok b.
Proof.
  unfold py_b64decode, py_b64encode. rewrite chars_of_chars, b64_roundtrip. cbn.
  by rewrite of_chars_chars.
Qed.

(** ** Tests *)

Example b64_hello : py_b64encode "hello" = "aGVsbG8=".
Proof. reflexivity. Qed.

Example float_texts :
  (float_of_str " +1_0.5e-1 ", float_of_str "1__0", float_of_str "-Infinity", float_of_str ".", float_of_str "720")
  = (Some (float_of_dec false 105 (-2)), None, Some (S754_infinity true), None, Some (float_of_dec false 720 0)).
Proof. vm_compute. reflexivity. Qed.

Example round3_texts :
  (py_round3 (float_of_dec false 12345 (-4)), py_round3 (float_of_dec true 4 (-4)))
  = (float_of_dec false 1234 (-3), S754_zero true).
Proof. vm_compute. reflexivity. Qed.

Example path_texts :
  (path_str "", path_str "./a//b/.", path_join "/tmp/x/" "audit.jsonl", path_join "/" "a", path_str "//a/..")
  = (".", "a/b", "/tmp/x/audit.jsonl", "/a", "//a/..").
Proof. reflexivity. Qed.
