(* ===== verification/Sha256.v ===== *)
(** * SHA-256

    [hashlib.sha256(b).hexdigest()] as an executable function on byte strings
    (FIPS 180-4), so that identifiers and payload hashes can be computed. *)

From S2P Require Import Prelude.

Section Sha256.
Local Open Scope N_scope.

Definition w32 (x : N) : N := N.land x (N.ones 32).
Definition add32 (x y : N) : N := w32 (x + y).
Definition rotr (n x : N) : N := N.lor (N.shiftr x n) (w32 (N.shiftl x (32 - n))).
Definition not32 (x : N) : N := N.lxor x (N.ones 32).

(** The constants of the standard are the first 32 bits of the fractional
    parts of the cube roots (round constants) and square roots (initial state)
    of the first primes; they are computed from that definition. *)
Definition primes (below : nat) : list N :=
  List.filter (λ p, forallb (λ d, negb (p mod d =? 0)) (N.of_nat <$> seq 2 (N.to_nat p - 2)))
    (N.of_nat <$> seq 2 (below - 2)).

(** The largest [r] below [2 ^ bits] with [r ^ k <= n], bit by bit. *)
Fixpoint root (k n : N) (bits : nat) (r : N) : N :=
  match bits with
  | O => r
  | S b => let r' := N.setbit r (N.of_nat b) in root k n b (if r' ^ k <=? n then r' else r)
  end.

(** All primes below 312, of which there are 64, have roots below 32. *)
Definition root_fraction (k p : N) : N := w32 (root k (p * 2 ^ (32 * k)) 37 0).

Definition round_constants : list N :=
  Eval vm_compute in root_fraction 3 <$> primes 312.

Definition initial_hash : list N :=
  Eval vm_compute in root_fraction 2 <$> take 8 (primes 312).

(** The message schedule is kept as its last sixteen words, oldest first. *)
Definition next_word (ws : list N) : N :=
  match ws with
  | [w16; w15; _; _; _; _; _; _; _; w7; _; _; _; _; w2; _] =>
      let s0 := N.lxor (N.lxor (rotr 7 w15) (rotr 18 w15)) (N.shiftr w15 3) in
      let s1 := N.lxor (N.lxor (rotr 17 w2) (rotr 19 w2)) (N.shiftr w2 10) in
      add32 (add32 w16 s0) (add32 w7 s1)
  | _ => 0
  end.

Definition round (st : list N) (kw : N) : list N :=
  match st with
  | [a; b; c; d; e; f; g; h] =>
      let s1 := N.lxor (N.lxor (rotr 6 e) (rotr 11 e)) (rotr 25 e) in
      let ch := N.lxor (N.land e f) (N.land (not32 e) g) in
      let t1 := add32 (add32 (add32 h s1) ch) kw in
      let s0 := N.lxor (N.lxor (rotr 2 a) (rotr 13 a)) (rotr 22 a) in
      let maj := N.lxor (N.lxor (N.land a b) (N.land a c)) (N.land b c) in
      [add32 t1 (add32 s0 maj); a; b; c; add32 d t1; e; f; g]
  | _ => st
  end.

(** One round per constant; each takes the oldest word of the window. *)
Fixpoint rounds (ks ws st : list N) : list N :=
  match ks, ws with
  | k :: ks', w :: ws' => rounds ks' (ws' ++ [next_word ws]) (round st (add32 k w))
  | _, _ => st
  end.

Definition compress (st block : list N) : list N :=
  zip_with add32 st (rounds round_constants block st).

Fixpoint words (l : list ascii) : list N :=
  match l with
  | a :: b :: c :: d :: l' =>
      (code a * 16777216 + code b * 65536 + code c * 256 + code d) :: words l'
  | _ => []
  end.

Definition byte_of (n : N) : ascii := ascii_of_N (n mod 256).

(** The padding: 0x80, zeros up to 56 mod 64, the bit length in 8 bytes. *)
Definition pad (l : list ascii) : list ascii :=
  let n := List.length l in
  let zeros := ((119 - n mod 64) mod 64)%nat in
  let bits := 8 * N.of_nat n in
  l ++ ascii_of_N 128 :: repeat (ascii_of_N 0) zeros
    ++ map (λ i, byte_of (N.shiftr bits i)) [56; 48; 40; 32; 24; 16; 8; 0].

Fixpoint compress_all (n : nat) (ws st : list N) : list N :=
  match n with
  | O => st
  | S n' =>
      match ws with
      | [] => st
      | _ => compress_all n' (drop 16 ws) (compress st (take 16 ws))
      end
  end.

Definition hex_word (n : N) : list ascii :=
  map (λ i, let d := N.land (N.shiftr n i) 15 in
            ascii_of_N (if d <? 10 then 48 + d else 87 + d))
    [28; 24; 20; 16; 12; 8; 4; 0].

(** The number of words bounds the number of blocks. *)
Definition sha256_words (l : list ascii) : list N :=
  let ws := words (pad l) in compress_all (List.length ws) ws initial_hash.
End Sha256.

Definition sha256_hex (b : bytes) : string :=
  of_chars (List.concat (map hex_word (sha256_words (chars b)))).

(** The test vectors of the standard. *)
Example sha256_abc :
  sha256_hex "abc" = "ba7816bf8f01cfea414140de5dae2223b00361a396177a9cb410ff61f20015ad".
Proof. vm_compute. reflexivity. Qed.

Example sha256_two_blocks :
  sha256_hex "abcdbcdecdefdefgefghfghighijhijkijkljklmklmnlmnomnopnopq" =
  "248d6a61d20638b8e5c026930c3e6039a33ce45964ff2167f6ecedd419db06c1".
Proof. vm_compute. reflexivity. Qed.
