(* ===== verification/StateMachine.v ===== *)
(** * The payment state machine ([state_machine.py])

    The lifecycle states, the transition table, [can_transition],
    [transition] and the closure [reachable_states]. *)

From S2P Require Import Prelude.

Module StateMachine.

(** ** Definitions *)

Inductive PaymentState :=
  | DRAFT | SUBMITTED | QUOTED | PREPARED | APPROVED | EXECUTING | SETTLED
  | FAILED | REJECTED | EXPIRED | CANCELLED | RECONCILIATION_REQUIRED.

#[export] Instance PaymentState_eq_dec : EqDecision PaymentState.
Proof. solve_decision. Defined.

(** [PaymentState.value] *)
Definition state_value (s : PaymentState) : string :=
  match s with
  | DRAFT => "draft" | SUBMITTED => "submitted" | QUOTED => "quoted"
  | PREPARED => "prepared" | APPROVED => "approved" | EXECUTING => "executing"
  | SETTLED => "settled" | FAILED => "failed" | REJECTED => "rejected"
  | EXPIRED => "expired" | CANCELLED => "cancelled"
  | RECONCILIATION_REQUIRED => "reconciliation_required"
  end.

(** [PaymentState.name] *)
Definition state_name (s : PaymentState) : string :=
  match s with
  | DRAFT => "DRAFT" | SUBMITTED => "SUBMITTED" | QUOTED => "QUOTED"
  | PREPARED => "PREPARED" | APPROVED => "APPROVED" | EXECUTING => "EXECUTING"
  | SETTLED => "SETTLED" | FAILED => "FAILED" | REJECTED => "REJECTED"
  | EXPIRED => "EXPIRED" | CANCELLED => "CANCELLED"
  | RECONCILIATION_REQUIRED => "RECONCILIATION_REQUIRED"
  end.

Definition all_states : list PaymentState :=
  [DRAFT; SUBMITTED; QUOTED; PREPARED; APPROVED; EXECUTING; SETTLED; FAILED;
   REJECTED; EXPIRED; CANCELLED; RECONCILIATION_REQUIRED].

(** [PaymentState(value)] *)
Definition state_of_value (v : string) : option PaymentState :=
  List.find (λ s, String.eqb (state_value s) v) all_states.

Definition TRANSITIONS : list ((PaymentState * string) * PaymentState) :=
  [ ((DRAFT, "submit"), SUBMITTED);
    ((SUBMITTED, "quote_received"), QUOTED);
    ((QUOTED, "prepared"), PREPARED);
    ((PREPARED, "approved"), APPROVED);
    ((APPROVED, "executing"), EXECUTING);
    ((EXECUTING, "settled"), SETTLED);
    ((DRAFT, "cancel"), CANCELLED);
    ((SUBMITTED, "cancel"), CANCELLED);
    ((QUOTED, "cancel"), CANCELLED);
    ((PREPARED, "cancel"), CANCELLED);
    ((SUBMITTED, "rejected"), REJECTED);
    ((QUOTED, "rejected"), REJECTED);
    ((PREPARED, "rejected"), REJECTED);
    ((APPROVED, "rejected"), REJECTED);
    ((SUBMITTED, "expired"), EXPIRED);
    ((QUOTED, "expired"), EXPIRED);
    ((PREPARED, "expired"), EXPIRED);
    ((APPROVED, "expired"), EXPIRED);
    ((EXECUTING, "expired"), RECONCILIATION_REQUIRED);
    ((QUOTED, "adapter_error"), FAILED);
    ((PREPARED, "adapter_error"), FAILED);
    ((APPROVED, "adapter_error"), FAILED);
    ((EXECUTING, "adapter_error"), RECONCILIATION_REQUIRED);
    ((EXECUTING, "receipt_received"), SETTLED);
    ((RECONCILIATION_REQUIRED, "receipt_received"), SETTLED);
    ((RECONCILIATION_REQUIRED, "confirm_settled"), SETTLED) ].

(** [TRANSITIONS.get((s, trigger))] *)
Definition lookup_transition (s : PaymentState) (trigger : string) : option PaymentState :=
  snd <$> List.find (λ e, bool_decide (e.1 = (s, trigger))) TRANSITIONS.

Definition TERMINAL_STATES : list PaymentState :=
  [SETTLED; FAILED; REJECTED; EXPIRED; CANCELLED].

Record TransitionResult := {
  tr_ok : bool;
  tr_new_state : PaymentState;
  tr_error : option string
}.

Definition can_transition (current : PaymentState) (trigger : string) : bool :=
  bool_decide (is_Some (lookup_transition current trigger)).

Definition transition (current : PaymentState) (trigger : string) : TransitionResult :=
  if bool_decide (current ∈ TERMINAL_STATES) then
    {| tr_ok := false; tr_new_state := current;
       tr_error := Some ("state " +:+ state_value current
                           +:+ " is terminal; no transitions allowed") |}
  else
    match lookup_transition current trigger with
    | None =>
        {| tr_ok := false; tr_new_state := current;
           tr_error := Some ("no transition from " +:+ state_value current
                               +:+ " on trigger '" +:+ trigger +:+ "'") |}
    | Some next => {| tr_ok := true; tr_new_state := next; tr_error := None |}
    end.

(** [reachable_states()]: the frontier is a Python [set], whose [pop] takes an
    arbitrary member; [pick] chooses it (an index, modulo the size).  Sets are
    lists without duplicates. *)
Definition set_add (s : PaymentState) (l : list PaymentState) : list PaymentState :=
  if decide (s ∈ l) then l else s :: l.

Definition successors (s : PaymentState) : list PaymentState :=
  snd <$> List.filter (λ e, bool_decide (e.1.1 = s)) TRANSITIONS.

Fixpoint reach_loop (n : nat) (pick : list PaymentState → nat)
    (visited frontier : list PaymentState) : option (list PaymentState) :=
  match frontier with
  | [] => Some visited
  | _ =>
      match n with
      | 0%nat => None
      | S n' =>
          let i := (pick frontier mod List.length frontier)%nat in
          let s := nth i frontier DRAFT in
          let rest := List.filter (λ t, negb (bool_decide (t = s))) frontier in
          if decide (s ∈ visited) then reach_loop n' pick visited rest
          else reach_loop n' pick (s :: visited) (foldr set_add rest (successors s))
      end
  end.

(** Twelve states can be visited, and the frontier never exceeds twelve. *)
Definition reach_fuel : nat := 157.
Definition reachable_states (pick : list PaymentState → nat) : option (list PaymentState) :=
  reach_loop reach_fuel pick [] [DRAFT].

(** ** The automaton as a relation *)

(** One edge of the table. *)
Definition edge (s t : PaymentState) : Prop :=
  ∃ trigger, lookup_transition s trigger = Some t.

(** The state after a sequence of triggers; a refused trigger leaves it. *)
Fixpoint run_triggers (s : PaymentState) (ts : list string) : PaymentState :=
  match ts with
  | [] => s
  | t :: ts' => run_triggers (tr_new_state (transition s t)) ts'
  end.

End StateMachine.
