(* ===== verification/StateMachineFacts.v ===== *)
(** * Theorems about the payment state machine *)

From S2P Require Import Prelude.
From S2P Require Import StateMachine.
From stdpp Require Import relations.
Import StateMachine.

(** ** The transition function against the table *)

Lemma elem_of_all_states s : s ∈ all_states.
Proof. unfold all_states. destruct s; set_solver. Qed.

Lemma lookup_transition_Some s tr t :
  lookup_transition s tr = Some t ↔ ((s, tr), t) ∈ TRANSITIONS.
Proof.
  split.
  - unfold lookup_transition.
    destruct (List.find _ _) as [[k t']|] eqn:Hf; [|done]. simpl. intros [= ->].
    apply List.find_some in Hf as [Hin Hk]. apply bool_decide_eq_true in Hk. simpl in Hk.
    subst. by apply list_elem_of_In.
  - unfold TRANSITIONS. intros Hin.
    repeat (apply elem_of_cons in Hin as [Hin|Hin]; [simplify_eq; vm_compute; reflexivity|]).
    by apply elem_of_nil in Hin.
Qed.

(** A decidable property of the edges is checked on the table. *)
Lemma edge_check (f : PaymentState → string → PaymentState → bool) s tr t :
  forallb (λ e, f e.1.1 e.1.2 e.2) TRANSITIONS = true →
  lookup_transition s tr = Some t → f s tr t = true.
Proof.
  intros Hall Hin%lookup_transition_Some.
  rewrite List.forallb_forall in Hall. by apply (Hall (s, tr, t)), list_elem_of_In.
Qed.

Lemma terminal_no_edge s tr : s ∈ TERMINAL_STATES → lookup_transition s tr = None.
Proof.
  intros Hs. destruct (lookup_transition s tr) as [t|] eqn:E; [|done].
  apply (edge_check (λ s _ _, bool_decide (s ∉ TERMINAL_STATES))) in E; [|by vm_compute].
  by apply bool_decide_eq_true in E.
Qed.

Lemma transition_ok s tr : tr_ok (transition s tr) = true ↔
  lookup_transition s tr = Some (tr_new_state (transition s tr)).
Proof.
  unfold transition. case_bool_decide as Hs; simpl.
  - by rewrite terminal_no_edge.
  - by destruct (lookup_transition s tr).
Qed.

Lemma transition_not_ok s tr :
  tr_ok (transition s tr) = false → tr_new_state (transition s tr) = s.
Proof. unfold transition. by repeat case_match. Qed.

Lemma transition_eq s tr t :
  lookup_transition s tr = Some t →
  transition s tr = {| tr_ok := true; tr_new_state := t; tr_error := None |}.
Proof.
  intros E. unfold transition. rewrite E. case_bool_decide as Hs; [|done].
  by rewrite terminal_no_edge in E.
Qed.

#[export] Hint Resolve elem_of_all_states : core.

(** [transition] implements the table: it succeeds exactly on the entries
    of [TRANSITIONS], then moves to the entry's target with no error, and
    otherwise keeps the state and reports an error; [can_transition] is its
    success, and no entry leaves a terminal state. *)
Theorem transition_implements_table (s : PaymentState) (tr : string) :
  can_transition s tr = tr_ok (transition s tr) ∧
  (∀ t, ((s, tr), t) ∈ TRANSITIONS ↔
        transition s tr = {| tr_ok := true; tr_new_state := t; tr_error := None |}) ∧
  (tr_ok (transition s tr) = false →
     tr_new_state (transition s tr) = s ∧ is_Some (tr_error (transition s tr))) ∧
  (s ∈ TERMINAL_STATES ↔ ∀ tr', can_transition s tr' = false).
Proof.
  assert (can_transition s tr = tr_ok (transition s tr)) as Hc.
  { unfold can_transition. case_bool_decide as Hl; symmetry.
    - apply transition_ok. destruct Hl as [t E]. by rewrite (transition_eq _ _ _ E).
    - apply not_true_iff_false. intros Hok%transition_ok. rewrite Hok in Hl. by destruct Hl. }
  split_and!; [done|..].
  - intros t. rewrite <- lookup_transition_Some. split; [apply transition_eq|].
    intros Ht. pose proof (proj1 (transition_ok s tr)) as H. rewrite Ht in H. auto.
  - unfold transition. repeat case_match; naive_solver.
  - unfold can_transition. split.
    + intros Hs tr'. by rewrite terminal_no_edge.
    + intros H. destruct (decide (s ∈ TERMINAL_STATES)) as [|Hs]; [done|].
      specialize (H (match s with DRAFT => "submit" | SUBMITTED | QUOTED | PREPARED => "cancel"
                     | APPROVED | EXECUTING => "expired" | _ => "confirm_settled" end)).
      by destruct s; try discriminate H; destruct Hs; apply (bool_decide_unpack _).
Qed.

(** ** Runs *)

Lemma run_triggers_app s ts ts' :
  run_triggers s (ts ++ ts') = run_triggers (run_triggers s ts) ts'.
Proof. revert s. induction ts; simpl; auto. Qed.

(** A set of states that no edge leaves is never left. *)
Lemma run_triggers_closed (P : PaymentState → Prop) s ts :
  (∀ s tr t, P s → lookup_transition s tr = Some t → P t) → P s → P (run_triggers s ts).
Proof.
  intros Hclosed. revert s. induction ts as [|tr ts IH]; intros s Hs; [done|]. simpl. apply IH.
  destruct (tr_ok (transition s tr)) eqn:Hok.
  - apply transition_ok in Hok. by eapply Hclosed.
  - by rewrite transition_not_ok.
Qed.

(** Once a payment is executing it is never terminally expired or failed,
    whatever triggers arrive: it stays executing, waits for reconciliation or
    is settled; and a terminal state, settled included, is never left. *)
Theorem execution_fails_closed (ts : list string) :
  run_triggers EXECUTING ts ∈ [EXECUTING; RECONCILIATION_REQUIRED; SETTLED] ∧
  (∀ s, s ∈ TERMINAL_STATES → run_triggers s ts = s).
Proof.
  split.
  - apply run_triggers_closed; [|by left].
    intros s tr t Hs E.
    apply (edge_check (λ s _ t,
      implb (bool_decide (s ∈ [EXECUTING; RECONCILIATION_REQUIRED; SETTLED]))
            (bool_decide (t ∈ [EXECUTING; RECONCILIATION_REQUIRED; SETTLED])))) in E;
      [|by vm_compute].
    rewrite bool_decide_eq_true_2 in E by done. by apply bool_decide_eq_true in E.
  - intros s Hs. apply (run_triggers_closed (λ t, t = s)); [|done].
    intros ? tr t -> E. by rewrite terminal_no_edge in E.
Qed.

(** The triggers every run to a state contains, in order. *)
Definition needed (s : PaymentState) : list string :=
  match s with
  | SUBMITTED => ["submit"]
  | QUOTED => ["submit"; "quote_received"]
  | PREPARED => ["submit"; "quote_received"; "prepared"]
  | APPROVED => ["submit"; "quote_received"; "prepared"; "approved"]
  | EXECUTING | RECONCILIATION_REQUIRED | SETTLED =>
      ["submit"; "quote_received"; "prepared"; "approved"; "executing"]
  | _ => []
  end.

(** An executable test for being a subsequence of the strings of [k]. *)
Fixpoint subseq (l k : list string) : bool :=
  match l, k with
  | [], _ => true
  | _, [] => false
  | x :: l', y :: k' => if decide (x = y) then subseq l' k' else subseq l k'
  end.

Lemma subseq_sound l k : subseq l k = true → l `sublist_of` k.
Proof.
  revert l. induction k as [|y k IH]; intros [|x l]; simpl; try done.
  - intros _. apply sublist_nil_l.
  - intros H. case_decide; subst; constructor; auto.
Qed.

Lemma needed_edge s tr t :
  lookup_transition s tr = Some t → needed t `sublist_of` needed s ++ [tr].
Proof.
  intros E. apply subseq_sound. revert E.
  by apply (edge_check (λ s tr t, subseq (needed t) (needed s ++ [tr]))).
Qed.

Lemma needed_run ts : needed (run_triggers DRAFT ts) `sublist_of` ts.
Proof.
  induction ts as [|tr ts IH] using rev_ind; [apply sublist_nil_l|].
  rewrite run_triggers_app. simpl. set (s := run_triggers DRAFT ts) in *.
  destruct (tr_ok (transition s tr)) eqn:Hok.
  - apply transition_ok, needed_edge in Hok. etrans; [done|]. by apply sublist_app.
  - rewrite transition_not_ok by done. apply sublist_inserts_r, IH.
Qed.

(** No payment reaches settlement, or even execution, without having been
    submitted, quoted, prepared, approved and set executing, in that order. *)
Theorem settlement_needs_approval (ts : list string) :
  run_triggers DRAFT ts ∈ [EXECUTING; RECONCILIATION_REQUIRED; SETTLED] →
  ["submit"; "quote_received"; "prepared"; "approved"; "executing"] `sublist_of` ts.
Proof.
  pose proof (needed_run ts) as Hn. intros Hin.
  repeat (apply elem_of_cons in Hin as [Hin|Hin]; [by rewrite Hin in Hn|]).
  by apply elem_of_nil in Hin.
Qed.

Lemma settlement_needs_approval_witness :
  run_triggers DRAFT ["submit"; "quote_received"; "expire"; "prepared"; "approved";
                      "executing"; "adapter_error"; "confirm_settled"] = SETTLED ∧
  ["submit"; "quote_received"; "prepared"; "approved"; "executing"] `sublist_of`
  ["submit"; "quote_received"; "expire"; "prepared"; "approved"; "executing";
   "adapter_error"; "confirm_settled"].
Proof.
  split; [vm_compute; reflexivity|].
  apply settlement_needs_approval. vm_compute.
  apply elem_of_cons; right. apply elem_of_cons; right. apply elem_of_cons; left. reflexivity.
Defined.

(** ** The closure computed by [reachable_states] *)

Lemma elem_of_set_add s t l : t ∈ set_add s l ↔ t = s ∨ t ∈ l.
Proof. unfold set_add. case_decide; set_solver. Qed.

Lemma elem_of_successors s t : t ∈ successors s ↔ edge s t.
Proof.
  unfold successors, edge. rewrite list_elem_of_fmap. split.
  - intros ([[s' tr] t'] & -> & Hin%list_elem_of_In). apply List.filter_In in Hin as [Hin Hs].
    apply bool_decide_eq_true in Hs. simpl in Hs. subst. exists tr.
    by apply lookup_transition_Some, list_elem_of_In.
  - intros [tr Hin%lookup_transition_Some]. exists ((s, tr), t). split; [done|].
    apply list_elem_of_In, List.filter_In. split; [by apply list_elem_of_In|].
    by apply bool_decide_eq_true.
Qed.

Lemma states_bound (l : list PaymentState) : NoDup l → (List.length l ≤ 12)%nat.
Proof.
  intros Hnd. change 12%nat with (List.length all_states).
  apply submseteq_length, NoDup_submseteq; [done|]. by intros s _.
Qed.

(** What the loop keeps true of the visited states and the frontier. *)
Record reach_inv (v f : list PaymentState) : Prop := {
  ri_nodup_v : NoDup v;
  ri_nodup_f : NoDup f;
  ri_start : DRAFT ∈ v ++ f;
  ri_sound : ∀ s, s ∈ v ++ f → rtc edge DRAFT s;
  ri_closed : ∀ s t, s ∈ v → edge s t → t ∈ v ++ f
}.

Lemma NoDup_set_add s l : NoDup l → NoDup (set_add s l).
Proof. unfold set_add. case_decide; [done|]. by constructor. Qed.

Lemma add_all_spec l rest :
  NoDup rest → NoDup (foldr set_add rest l) ∧
  ∀ t, t ∈ foldr set_add rest l ↔ t ∈ l ∨ t ∈ rest.
Proof.
  intros Hnd. induction l as [|s l [IHn IHe]]; simpl.
  - split; [done|]. intros t. rewrite elem_of_nil. tauto.
  - split; [by apply NoDup_set_add|]. intros t.
    rewrite elem_of_set_add, elem_of_cons, IHe. tauto.
Qed.

Definition without (s : PaymentState) (f : list PaymentState) : list PaymentState :=
  List.filter (λ t, negb (bool_decide (t = s))) f.

Lemma elem_of_without s f t : t ∈ without s f ↔ t ∈ f ∧ t ≠ s.
Proof.
  unfold without. rewrite !list_elem_of_In, List.filter_In, negb_true_iff, bool_decide_eq_false.
  done.
Qed.

Lemma without_spec s f :
  NoDup f → s ∈ f → NoDup (without s f) ∧ (List.length (without s f) < List.length f)%nat.
Proof.
  intros Hnd Hs. split.
  - apply NoDup_ListNoDup, List.NoDup_filter. by apply NoDup_ListNoDup.
  - apply (submseteq_length (s :: without s f) f), NoDup_submseteq.
    + constructor; [rewrite elem_of_without; by intros []|].
      apply NoDup_ListNoDup, List.NoDup_filter. by apply NoDup_ListNoDup.
    + intros t [->|[Ht _]%elem_of_without]%elem_of_cons; done.
Qed.

Lemma nth_pick (f : list PaymentState) i : f ≠ [] → nth (i mod List.length f) f DRAFT ∈ f.
Proof.
  intros Hf. apply list_elem_of_In, nth_In, Nat.mod_upper_bound. by destruct f.
Qed.

Lemma elem_split s f t : s ∈ f → t ∈ f ↔ t = s ∨ t ∈ without s f.
Proof.
  intros Hs. rewrite elem_of_without. destruct (decide (t = s)); naive_solver.
Qed.

(** Popping a state that was visited before. *)
Lemma reach_inv_skip v f s :
  reach_inv v f → s ∈ f → s ∈ v → reach_inv v (without s f).
Proof.
  intros [Hv Hf Hst Hso Hcl] Hs Hsv.
  assert (∀ t, t ∈ v ++ f ↔ t ∈ v ++ without s f) as Heq.
  { intros t. rewrite !elem_of_app, (elem_split s f t Hs). naive_solver. }
  constructor; [done|by apply without_spec|by apply Heq|..].
  - intros t Ht. by apply Hso, Heq.
  - intros t u Ht Hu. by apply Heq, (Hcl t).
Qed.

(** Popping a new state. *)
Lemma reach_inv_visit v f s :
  reach_inv v f → s ∈ f → s ∉ v →
  reach_inv (s :: v) (foldr set_add (without s f) (successors s)).
Proof.
  intros [Hv Hf Hst Hso Hcl] Hs Hsv.
  destruct (add_all_spec (successors s) (without s f)) as [Hnd Hin]; [by apply without_spec|].
  assert (∀ t, t ∈ v ++ f → t ∈ (s :: v) ++ foldr set_add (without s f) (successors s)) as Hsub.
  { intros t. rewrite !elem_of_app, elem_of_cons, Hin, (elem_split s f t Hs). tauto. }
  constructor; [by constructor|done|by apply Hsub|..].
  - intros t. rewrite elem_of_app, elem_of_cons, Hin. intros [[->|Ht]|[Ht|Ht]].
    + apply Hso, elem_of_app. auto.
    + apply Hso, elem_of_app. auto.
    + apply elem_of_successors in Ht. eapply rtc_r; [|done]. apply Hso, elem_of_app. auto.
    + apply Hso, elem_of_app. right. apply elem_of_without in Ht. tauto.
  - intros t u [->|Ht]%elem_of_cons Hu.
    + apply elem_of_app. right. apply Hin. left. by apply elem_of_successors.
    + by apply Hsub, (Hcl t).
Qed.

Lemma reach_loop_correct pick n v f :
  reach_inv v f → (13 * (12 - List.length v) + List.length f ≤ n)%nat →
  ∃ vs, reach_loop n pick v f = Some vs ∧ reach_inv vs [].
Proof.
  revert v f. induction n as [|n IH]; intros v f Hinv Hn.
  - destruct f as [|s f]; [by exists v|]. simpl in Hn. lia.
  - destruct f as [|s0 f0]; [by exists v|]. cbn [reach_loop]. set (f := s0 :: f0) in *.
    set (s := nth (pick f mod List.length f) f DRAFT).
    assert (s ∈ f) as Hs by (by apply nth_pick).
    destruct (without_spec s f (ri_nodup_f _ _ Hinv) Hs) as [_ Hlen].
    fold (without s f). case_decide as Hsv.
    + apply IH; [by apply reach_inv_skip|lia].
    + pose proof (reach_inv_visit v f s Hinv Hs Hsv) as Hinv'.
      apply IH; [done|]. pose proof (states_bound _ (ri_nodup_v _ _ Hinv')) as Hv.
      pose proof (states_bound _ (ri_nodup_f _ _ Hinv')) as Hf. cbn [List.length] in *. lia.
Qed.

(** A run to each state. *)
Definition path_to (s : PaymentState) : list string :=
  match s with
  | FAILED => ["submit"; "quote_received"; "adapter_error"]
  | REJECTED => ["submit"; "rejected"]
  | EXPIRED => ["submit"; "expired"]
  | CANCELLED => ["cancel"]
  | SETTLED => needed EXECUTING ++ ["settled"]
  | RECONCILIATION_REQUIRED => needed EXECUTING ++ ["expired"]
  | _ => needed s
  end.

Lemma run_path_to s : run_triggers DRAFT (path_to s) = s.
Proof. by destruct s. Qed.

(** [reachable_states] terminates whichever members the set's [pop]
    takes, within the fuel given, and returns, without repetition, exactly the
    states some sequence of table entries leads to from [DRAFT]; these are
    all twelve states, not only those of the happy path. *)
Theorem reachable_states_correct (pick : list PaymentState → nat) :
  ∃ vs, reachable_states pick = Some vs ∧ NoDup vs ∧
    (∀ s, s ∈ vs ↔ rtc edge DRAFT s) ∧ (∀ s, s ∈ vs).
Proof.
  destruct (reach_loop_correct pick reach_fuel [] [DRAFT]) as (vs & Hvs & [Hnd _ Hst Hso Hcl]).
  - constructor; [constructor|apply NoDup_singleton|by left| |by intros ? ? ?%elem_of_nil].
    intros s ->%list_elem_of_singleton. done.
  - vm_compute. lia.
  - rewrite app_nil_r in *. exists vs.
    assert (∀ s t, rtc edge s t → s ∈ vs → t ∈ vs) as Hrtc.
    { induction 1 as [|s t u He _ IH]; [done|]. intros Hs. apply IH.
      exact (Hcl s t Hs He). }
    assert (∀ s t tr, lookup_transition s tr = Some t → s ∈ vs → t ∈ vs) as Hstep.
    { intros s t tr E. apply Hrtc, rtc_once. by exists tr. }
    split_and!; [done|done| |].
    + intros s. split; [apply Hso|]. intros Hs. by apply (Hrtc DRAFT).
    + intros s. rewrite <- (run_path_to s).
      apply run_triggers_closed; [|done]. intros ? tr t Hin E. by eapply Hstep.
Qed.
