(* ===== verification/Models.v ===== *)
(** * Domain models ([models.py])

    The value objects and messages with their pydantic constraints, dumping
    and validation, the canonical bytes and the identifiers computed from
    them.  [BaseModel] is the interface the rest of the program uses. *)

From S2P Require Import Prelude.
From S2P Require Import Json.
From S2P Require Import JsonText.
From S2P Require Import Sha256.

Module Models.

(** ** Enums and constants *)

Definition PROTOCOL_VERSION : string := "1".

Inductive MessageKind := INTENT | QUOTE | RECEIPT.

Definition kind_value (k : MessageKind) : string :=
  match k with
  | INTENT => "payment_intent" | QUOTE => "payment_quote" | RECEIPT => "payment_receipt"
  end.

Inductive Rail := LIGHTNING.
#[export] Instance Rail_eq_dec : EqDecision Rail.
Proof. solve_decision. Defined.

Definition rail_value (r : Rail) : string := match r with LIGHTNING => "lightning" end.
Definition rail_of_value (v : string) : option Rail :=
  if String.eqb v "lightning" then Some LIGHTNING else None.

Inductive FeeConstraint := FeeExact | FeeMax.
Definition fee_constraint_value (f : FeeConstraint) : string :=
  match f with FeeExact => "exact" | FeeMax => "max" end.
Definition fee_constraint_of_value (v : string) : option FeeConstraint :=
  if String.eqb v "exact" then Some FeeExact
  else if String.eqb v "max" then Some FeeMax else None.

(** ** Records

    [protocol_version] is a [Literal["1"]], so it is no field here: it is
    checked on validation and written on dumping. *)

Record AgentIdentity := { pubkey : string; relay_url : option string }.

Record RailReceiveInstruction := { ri_rail : Rail; ri_invoice : option string }.

Record PaymentIntent := {
  pi_id : string;
  pi_idempotency_key : string;
  pi_sender : AgentIdentity;
  pi_recipient : AgentIdentity;
  pi_amount_sat : Z;
  pi_purpose : string;
  pi_max_fee_sat : Z;
  pi_expires_at : Z;
  pi_created_at : Z
}.

Record PaymentQuote := {
  pq_id : string;
  pq_intent_id : string;
  pq_quote_id : string;
  pq_recipient : AgentIdentity;
  pq_receive_instruction : RailReceiveInstruction;
  pq_fee_sat : Z;
  pq_fee_constraint : FeeConstraint;
  pq_expires_at : Z;
  pq_created_at : Z
}.

Record PaymentApproval := {
  pa_id : string;
  pa_intent_id : string;
  pa_quote_id : string;
  pa_prepared_hash : string;
  pa_approver : AgentIdentity;
  pa_created_at : Z
}.

Record PaymentReceipt := {
  pr_id : string;
  pr_intent_id : string;
  pr_quote_id : string;
  pr_recipient : AgentIdentity;
  pr_settlement_ref : string;
  pr_amount_sat : Z;
  pr_fee_sat : Z;
  pr_rail : Rail;
  pr_settled_at : Z;
  pr_created_at : Z
}.

(** [PaymentMessage = Union[PaymentIntent, PaymentQuote, PaymentReceipt]] *)
Inductive PaymentMessage :=
  | MIntent (i : PaymentIntent)
  | MQuote (q : PaymentQuote)
  | MReceipt (r : PaymentReceipt).

(** The objects callers may pass where a message is expected: messages,
    approvals and values of other classes, known by their class name. *)
Inductive py_object :=
  | OMessage (m : PaymentMessage)
  | OApproval (a : PaymentApproval)
  | OOther (class_name : string).

(** ** The field constraints *)

Definition len_between (lo hi : Z) (s : string) : bool :=
  (lo <=? py_len s) && (py_len s <=? hi).

Definition identity_ok (a : AgentIdentity) : bool := len_between 64 64 (pubkey a).

Definition intent_ok (i : PaymentIntent) : bool :=
  len_between 1 128 (pi_idempotency_key i) && identity_ok (pi_sender i) &&
  identity_ok (pi_recipient i) && (0 <? pi_amount_sat i) &&
  len_between 1 512 (pi_purpose i) && (0 <=? pi_max_fee_sat i).

Definition quote_ok (q : PaymentQuote) : bool :=
  len_between 1 128 (pq_quote_id q) && identity_ok (pq_recipient q) && (0 <=? pq_fee_sat q).

Definition approval_ok (a : PaymentApproval) : bool := identity_ok (pa_approver a).

Definition receipt_ok (r : PaymentReceipt) : bool :=
  identity_ok (pr_recipient r) && (0 <? pr_amount_sat r) && (0 <=? pr_fee_sat r).

(** ** [model_dump(exclude_none=True)] *)

Definition opt_field (k : string) (o : option string) : list (string * json) :=
  match o with Some s => [(k, JStr s)] | None => [] end.

Definition dump_identity (a : AgentIdentity) : json :=
  JObj (("pubkey", JStr (pubkey a)) :: opt_field "relay_url" (relay_url a)).

Definition dump_instruction (r : RailReceiveInstruction) : json :=
  JObj (("rail", JStr (rail_value (ri_rail r))) :: opt_field "invoice" (ri_invoice r)).

Definition dump_intent (i : PaymentIntent) : list (string * json) :=
  [ ("protocol_version", JStr PROTOCOL_VERSION); ("id", JStr (pi_id i));
    ("idempotency_key", JStr (pi_idempotency_key i));
    ("sender", dump_identity (pi_sender i)); ("recipient", dump_identity (pi_recipient i));
    ("amount_sat", JInt (pi_amount_sat i)); ("purpose", JStr (pi_purpose i));
    ("max_fee_sat", JInt (pi_max_fee_sat i)); ("expires_at", JInt (pi_expires_at i));
    ("created_at", JInt (pi_created_at i)) ].

Definition dump_quote (q : PaymentQuote) : list (string * json) :=
  [ ("protocol_version", JStr PROTOCOL_VERSION); ("id", JStr (pq_id q));
    ("intent_id", JStr (pq_intent_id q)); ("quote_id", JStr (pq_quote_id q));
    ("recipient", dump_identity (pq_recipient q));
    ("receive_instruction", dump_instruction (pq_receive_instruction q));
    ("fee_sat", JInt (pq_fee_sat q));
    ("fee_constraint", JStr (fee_constraint_value (pq_fee_constraint q)));
    ("expires_at", JInt (pq_expires_at q)); ("created_at", JInt (pq_created_at q)) ].

Definition dump_approval (a : PaymentApproval) : list (string * json) :=
  [ ("protocol_version", JStr PROTOCOL_VERSION); ("id", JStr (pa_id a));
    ("intent_id", JStr (pa_intent_id a)); ("quote_id", JStr (pa_quote_id a));
    ("prepared_hash", JStr (pa_prepared_hash a)); ("approver", dump_identity (pa_approver a));
    ("created_at", JInt (pa_created_at a)) ].

Definition dump_receipt (r : PaymentReceipt) : list (string * json) :=
  [ ("protocol_version", JStr PROTOCOL_VERSION); ("id", JStr (pr_id r));
    ("intent_id", JStr (pr_intent_id r)); ("quote_id", JStr (pr_quote_id r));
    ("recipient", dump_identity (pr_recipient r));
    ("settlement_ref", JStr (pr_settlement_ref r)); ("amount_sat", JInt (pr_amount_sat r));
    ("fee_sat", JInt (pr_fee_sat r)); ("rail", JStr (rail_value (pr_rail r)));
    ("settled_at", JInt (pr_settled_at r)); ("created_at", JInt (pr_created_at r)) ].

(** ** [model_validate] *)

Section Validate.
Context `{Host}.

Definition as_dict (j : json) : option (list (string * json)) :=
  match j with JObj d => Some d | _ => None end.

Definition req_str (d : list (string * json)) (k : string) : option string :=
  dget d k ≫= coerce_str.
Definition req_int (d : list (string * json)) (k : string) : option Z :=
  dget d k ≫= coerce_int.

(** [Optional[str]] with default [None]. *)
Definition optional_str (d : list (string * json)) (k : string) : option (option string) :=
  match dget d k with
  | None | Some JNull => Some None
  | Some j => Some <$> coerce_str j
  end.

(** A string [Literal], with its default. *)
Definition literal {A} (of_value : string → option A) (dflt : option A)
    (d : list (string * json)) (k : string) : option A :=
  match dget d k with
  | None => dflt
  | Some (JStr s) => of_value s
  | Some _ => None
  end.

Definition version_literal (d : list (string * json)) : option unit :=
  literal (λ s, if String.eqb s PROTOCOL_VERSION then Some tt else None)
    (Some tt) d "protocol_version".

Definition guard_ok {A} (ok : A → bool) (a : A) : option A := if ok a then Some a else None.

Definition validate_identity (j : json) : option AgentIdentity :=
  d ← as_dict j; p ← req_str d "pubkey"; r ← optional_str d "relay_url";
  guard_ok identity_ok {| pubkey := p; relay_url := r |}.

Definition validate_instruction (j : json) : option RailReceiveInstruction :=
  d ← as_dict j; r ← literal rail_of_value None d "rail"; i ← optional_str d "invoice";
  Some {| ri_rail := r; ri_invoice := i |}.

Definition req_identity (d : list (string * json)) (k : string) : option AgentIdentity :=
  dget d k ≫= validate_identity.

Definition validate_intent (j : json) : option PaymentIntent :=
  d ← as_dict j; _ ← version_literal d; id ← req_str d "id";
  key ← req_str d "idempotency_key"; sender ← req_identity d "sender";
  recipient ← req_identity d "recipient"; amount ← req_int d "amount_sat";
  purpose ← req_str d "purpose"; max_fee ← req_int d "max_fee_sat";
  expires ← req_int d "expires_at"; created ← req_int d "created_at";
  guard_ok intent_ok
    {| pi_id := id; pi_idempotency_key := key; pi_sender := sender;
       pi_recipient := recipient; pi_amount_sat := amount; pi_purpose := purpose;
       pi_max_fee_sat := max_fee; pi_expires_at := expires; pi_created_at := created |}.

Definition validate_quote (j : json) : option PaymentQuote :=
  d ← as_dict j; _ ← version_literal d; id ← req_str d "id";
  intent_id ← req_str d "intent_id"; quote_id ← req_str d "quote_id";
  recipient ← req_identity d "recipient";
  instruction ← dget d "receive_instruction" ≫= validate_instruction;
  fee ← req_int d "fee_sat";
  fc ← literal fee_constraint_of_value (Some FeeMax) d "fee_constraint";
  expires ← req_int d "expires_at"; created ← req_int d "created_at";
  guard_ok quote_ok
    {| pq_id := id; pq_intent_id := intent_id; pq_quote_id := quote_id;
       pq_recipient := recipient; pq_receive_instruction := instruction;
       pq_fee_sat := fee; pq_fee_constraint := fc; pq_expires_at := expires;
       pq_created_at := created |}.

Definition validate_approval (j : json) : option PaymentApproval :=
  d ← as_dict j; _ ← version_literal d; id ← req_str d "id";
  intent_id ← req_str d "intent_id"; quote_id ← req_str d "quote_id";
  hash ← req_str d "prepared_hash"; approver ← req_identity d "approver";
  created ← req_int d "created_at";
  guard_ok approval_ok
    {| pa_id := id; pa_intent_id := intent_id; pa_quote_id := quote_id;
       pa_prepared_hash := hash; pa_approver := approver; pa_created_at := created |}.

Definition validate_receipt (j : json) : option PaymentReceipt :=
  d ← as_dict j; _ ← version_literal d; id ← req_str d "id";
  intent_id ← req_str d "intent_id"; quote_id ← req_str d "quote_id";
  recipient ← req_identity d "recipient"; sref ← req_str d "settlement_ref";
  amount ← req_int d "amount_sat"; fee ← req_int d "fee_sat";
  rail ← literal rail_of_value None d "rail";
  settled ← req_int d "settled_at"; created ← req_int d "created_at";
  guard_ok receipt_ok
    {| pr_id := id; pr_intent_id := intent_id; pr_quote_id := quote_id;
       pr_recipient := recipient; pr_settlement_ref := sref; pr_amount_sat := amount;
       pr_fee_sat := fee; pr_rail := rail; pr_settled_at := settled;
       pr_created_at := created |}.
End Validate.

(** ** The interface of the message classes *)

Class BaseModel (M : Type) := {
  model_name : string;
  model_dump : M → list (string * json);
  get_id : M → string;
  set_id : string → M → M;
  model_ok : M → bool
}.

#[export] Instance intent_model : BaseModel PaymentIntent := {|
  model_name := "PaymentIntent"; model_dump := dump_intent; get_id := pi_id;
  set_id v i :=
    {| pi_id := v; pi_idempotency_key := pi_idempotency_key i; pi_sender := pi_sender i;
       pi_recipient := pi_recipient i; pi_amount_sat := pi_amount_sat i;
       pi_purpose := pi_purpose i; pi_max_fee_sat := pi_max_fee_sat i;
       pi_expires_at := pi_expires_at i; pi_created_at := pi_created_at i |};
  model_ok := intent_ok |}.

#[export] Instance quote_model : BaseModel PaymentQuote := {|
  model_name := "PaymentQuote"; model_dump := dump_quote; get_id := pq_id;
  set_id v q :=
    {| pq_id := v; pq_intent_id := pq_intent_id q; pq_quote_id := pq_quote_id q;
       pq_recipient := pq_recipient q; pq_receive_instruction := pq_receive_instruction q;
       pq_fee_sat := pq_fee_sat q; pq_fee_constraint := pq_fee_constraint q;
       pq_expires_at := pq_expires_at q; pq_created_at := pq_created_at q |};
  model_ok := quote_ok |}.

#[export] Instance approval_model : BaseModel PaymentApproval := {|
  model_name := "PaymentApproval"; model_dump := dump_approval; get_id := pa_id;
  set_id v a :=
    {| pa_id := v; pa_intent_id := pa_intent_id a; pa_quote_id := pa_quote_id a;
       pa_prepared_hash := pa_prepared_hash a; pa_approver := pa_approver a;
       pa_created_at := pa_created_at a |};
  model_ok := approval_ok |}.

#[export] Instance receipt_model : BaseModel PaymentReceipt := {|
  model_name := "PaymentReceipt"; model_dump := dump_receipt; get_id := pr_id;
  set_id v r :=
    {| pr_id := v; pr_intent_id := pr_intent_id r; pr_quote_id := pr_quote_id r;
       pr_recipient := pr_recipient r; pr_settlement_ref := pr_settlement_ref r;
       pr_amount_sat := pr_amount_sat r; pr_fee_sat := pr_fee_sat r; pr_rail := pr_rail r;
       pr_settled_at := pr_settled_at r; pr_created_at := pr_created_at r |};
  model_ok := receipt_ok |}.

(** ** Canonical serialization *)

Definition canonical_opts : dump_opts :=
  {| sort_keys := true; compact := true; ensure_ascii := false |}.

Section Canonical.
Context `{Host} {M : Type} `{BaseModel M}.

Definition canonical_bytes (include_id : bool) (m : M) : bytes :=
  let raw := model_dump m in
  dumps canonical_opts (JObj (if include_id then raw else dpop raw "id")).

Definition compute_id (m : M) : string := sha256_hex (canonical_bytes false m).
End Canonical.

Definition compute_prepared_hash (prepared_payload : bytes) : string :=
  sha256_hex prepared_payload.

(** Calling the class with already typed values validates the constraints. *)
Definition construct `{Host} {M} `{BaseModel M} (m : M) : outcome M :=
  if model_ok m then Ok m
  else fail CValidationError (validation_text model_name (JObj (model_dump m))).

End Models.
