(* ===== verification/ModelsFacts.v ===== *)
(** * Theorems about the domain models

    Validation reads back what dumping wrote, also after the keys were sorted,
    and the canonical bytes determine a message up to its identifier. *)

From S2P Require Import Prelude.
From S2P Require Import Json.
From S2P Require Import JsonText.
From S2P Require Import JsonFacts.
From S2P Require Import Sha256.
From S2P Require Import Models.
Import Models.

(** ** What the program relies on in pydantic *)

Class HostLaws (h : Host) := {
  (** values of the field's own type are kept *)
  coerce_int_JInt z : coerce_int (JInt z) = Some z;
  coerce_str_JStr s : coerce_str (JStr s) = Some s;
  (** the serialised text is JSON text of the dumped value *)
  model_dump_json_loads j :
    wf_json {| sort_keys := false; compact := true; ensure_ascii := false |} j = true →
    loads (model_dump_json j) = Some j
}.

(** A host with strict coercions, to evaluate the definitions with. *)
Definition ref_host : Host := {|
  float_repr _ := "0.0";
  py_repr _ := "...";
  json_error_text _ := "Expecting value";
  validation_text name _ := name +:+ " is invalid";
  coerce_int j := match j with JInt z => Some z | _ => None end;
  coerce_str j := match j with JStr s => Some s | _ => None end;
  model_dump_json j :=
    dumps (H := {| float_repr _ := "0.0"; py_repr _ := ""; json_error_text _ := "";
                   validation_text _ _ := ""; coerce_int _ := None; coerce_str _ := None;
                   model_dump_json _ := "" |})
      {| sort_keys := false; compact := true; ensure_ascii := false |} j |}.

#[export] Instance ref_host_laws : HostLaws ref_host.
Proof.
  constructor; [done|done|]. intros j Hwf. unfold ref_host, model_dump_json at 1.
  by rewrite loads_dumps.
Qed.

(** ** Validation of a dumped model *)

(** [dict_like f d m]: [d] looks up like the dump of [m] with [f] applied to
    the values; [f] is the identity or the sorting of nested keys. *)
Definition keeps (f : json → json) : Prop := f = id ∨ f = sort_json.

Definition dict_like {M} `{BaseModel M} (f : json → json) (d : list (string * json)) (m : M) :=
  ∀ k, dget d k = f <$> dget (model_dump m) k.

Lemma keeps_str f s : keeps f → f (JStr s) = JStr s.
Proof. by intros [->| ->]. Qed.
Lemma keeps_int f z : keeps f → f (JInt z) = JInt z.
Proof. by intros [->| ->]. Qed.

Section Validation.
Context {h : Host} {hl : HostLaws h}.

Lemma req_str_keeps f d k s :
  keeps f → dget d k = f <$> Some (JStr s) → req_str d k = Some s.
Proof.
  intros Hf Hd. unfold req_str. rewrite Hd. simpl. rewrite keeps_str by done.
  apply coerce_str_JStr.
Qed.

Lemma req_int_keeps f d k z :
  keeps f → dget d k = f <$> Some (JInt z) → req_int d k = Some z.
Proof.
  intros Hf Hd. unfold req_int. rewrite Hd. simpl. rewrite keeps_int by done.
  apply coerce_int_JInt.
Qed.

Lemma literal_keeps {A} (of_value : string → option A) dflt f d k s :
  keeps f → dget d k = f <$> Some (JStr s) → literal of_value dflt d k = of_value s.
Proof. intros Hf Hd. unfold literal. rewrite Hd. simpl. by rewrite keeps_str. Qed.

Lemma identity_keeps f a :
  keeps f → identity_ok a = true → validate_identity (f (dump_identity a)) = Some a.
Proof.
  intros Hf Hok. assert (f (dump_identity a) = dump_identity a) as ->.
  { destruct Hf as [->| ->]; [done|]. by destruct a as [p [r|]]. }
  destruct a as [p [r|]]; cbn; unfold req_str, optional_str; cbn;
    rewrite !coerce_str_JStr; cbn; unfold guard_ok; by rewrite Hok.
Qed.

(** Without the constraint: what is read back is what was written. *)
Lemma identity_inv f a a' : keeps f → validate_identity (f (dump_identity a)) = Some a' → a' = a.
Proof.
  intros Hf. assert (f (dump_identity a) = dump_identity a) as ->.
  { destruct Hf as [->| ->]; [done|]. by destruct a as [p [r|]]. }
  destruct a as [p [r|]]; cbn; unfold req_str, optional_str; cbn;
    rewrite !coerce_str_JStr; cbn; unfold guard_ok; case_match; by intros [= <-].
Qed.

Lemma req_identity_inv f d k a a' :
  keeps f → dget d k = f <$> Some (dump_identity a) → req_identity d k = Some a' → a' = a.
Proof. intros Hf Hd. unfold req_identity. rewrite Hd. by apply identity_inv. Qed.

Lemma req_identity_keeps f d k a :
  keeps f → identity_ok a = true → dget d k = f <$> Some (dump_identity a) →
  req_identity d k = Some a.
Proof. intros Hf Ha Hd. unfold req_identity. rewrite Hd. by apply identity_keeps. Qed.

Lemma instruction_keeps f r :
  keeps f → validate_instruction (f (dump_instruction r)) = Some r.
Proof.
  intros Hf. set (rail := ("rail", JStr (rail_value (ri_rail r)))).
  assert (f (dump_instruction r) = JObj (rail :: opt_field "invoice" (ri_invoice r)) ∨
          f (dump_instruction r) = JObj (opt_field "invoice" (ri_invoice r) ++ [rail]))
    as [-> | ->] by (destruct Hf as [->| ->]; [by left|]; right; by destruct r as [[] [i|]]);
    destruct r as [[] [i|]]; cbn; unfold optional_str; cbn; by rewrite ?coerce_str_JStr.
Qed.

Lemma rail_of_rail_value r : rail_of_value (rail_value r) = Some r.
Proof. by destruct r. Qed.

Lemma fee_constraint_of_fee_value f : fee_constraint_of_value (fee_constraint_value f) = Some f.
Proof. by destruct f. Qed.
End Validation.

#[local] Opaque identity_ok.
#[local] Arguments intent_ok : simpl never.
#[local] Arguments quote_ok : simpl never.
#[local] Arguments approval_ok : simpl never.
#[local] Arguments receipt_ok : simpl never.
#[local] Arguments guard_ok : simpl never.

(** Rebuilding a record from its fields gives the record. *)
Lemma guard_eta {A} (ok : A → bool) (a b : A) : b = a → ok a = true → guard_ok ok b = Some a.
Proof. unfold guard_ok. by intros -> ->. Qed.

Section Roundtrips.
Context {h : Host} {hl : HostLaws h} (f : json → json) (Hf : keeps f) (d : list (string * json)).

Ltac fields Hd :=
  unfold version_literal;
  repeat match goal with
  | |- context [literal ?g ?x d ?k] =>
      rewrite (literal_keeps g x f d k _ Hf (Hd k))
  | |- context [req_str d ?k] => rewrite (req_str_keeps f d k _ Hf (Hd k))
  | |- context [req_int d ?k] => rewrite (req_int_keeps f d k _ Hf (Hd k))
  end; cbn.

Lemma validate_intent_like i :
  intent_ok i = true → dict_like f d i → validate_intent (JObj d) = Some i.
Proof.
  intros Hok Hd. pose proof Hok as H0. unfold intent_ok in H0.
  repeat (apply andb_true_iff in H0 as [H0 ?]).
  unfold validate_intent. cbn [as_dict mbind option_bind]. fields Hd.
  rewrite (req_identity_keeps f d "sender" (pi_sender i)) by (done || apply Hd). cbn.
  rewrite (req_identity_keeps f d "recipient" (pi_recipient i)) by (done || apply Hd). cbn.
  by apply guard_eta; [destruct i|].
Qed.

Lemma validate_quote_like q :
  quote_ok q = true → dict_like f d q → validate_quote (JObj d) = Some q.
Proof.
  intros Hok Hd. pose proof Hok as H0. unfold quote_ok in H0.
  repeat (apply andb_true_iff in H0 as [H0 ?]).
  unfold validate_quote. cbn [as_dict mbind option_bind]. fields Hd.
  rewrite (req_identity_keeps f d "recipient" (pq_recipient q)) by (done || apply Hd). cbn.
  rewrite (Hd "receive_instruction"). cbn. rewrite instruction_keeps by done. cbn.
  rewrite fee_constraint_of_fee_value. cbn.
  by apply guard_eta; [destruct q|].
Qed.

Lemma validate_approval_like a :
  approval_ok a = true → dict_like f d a → validate_approval (JObj d) = Some a.
Proof.
  intros Hok Hd. unfold validate_approval. cbn [as_dict mbind option_bind]. fields Hd.
  rewrite (req_identity_keeps f d "approver" (pa_approver a)) by (done || apply Hd). cbn.
  by apply guard_eta; [destruct a|].
Qed.

Lemma validate_receipt_like r :
  receipt_ok r = true → dict_like f d r → validate_receipt (JObj d) = Some r.
Proof.
  intros Hok Hd. pose proof Hok as H0. unfold receipt_ok in H0.
  repeat (apply andb_true_iff in H0 as [H0 ?]).
  unfold validate_receipt. cbn [as_dict mbind option_bind]. fields Hd.
  rewrite (req_identity_keeps f d "recipient" (pr_recipient r)) by (done || apply Hd). cbn.
  rewrite rail_of_rail_value. cbn.
  by apply guard_eta; [destruct r|].
Qed.
End Roundtrips.

(** What validation accepts of a dumped model is the model itself. *)
Section Inversions.
Context {h : Host} {hl : HostLaws h} (f : json → json) (Hf : keeps f) (d : list (string * json)).

Ltac fields Hd :=
  unfold version_literal;
  repeat match goal with
  | |- context [literal ?g ?x d ?k] =>
      rewrite (literal_keeps g x f d k _ Hf (Hd k))
  | |- context [req_str d ?k] => rewrite (req_str_keeps f d k _ Hf (Hd k))
  | |- context [req_int d ?k] => rewrite (req_int_keeps f d k _ Hf (Hd k))
  end; cbn.
Ltac identity Hd :=
  match goal with |- context [req_identity d ?k] =>
    let E := fresh "E" in
    destruct (req_identity d k) eqn:E; [|done];
    apply (req_identity_inv f d k _ _ Hf (Hd k)) in E as -> end; cbn.
Ltac built := unfold guard_ok; case_match; [|done]; intros [= <-]; match goal with |- _ = ?m => by destruct m end.

Lemma validate_intent_inv i i' : dict_like f d i → validate_intent (JObj d) = Some i' → i' = i.
Proof.
  intros Hd. unfold validate_intent. cbn [as_dict mbind option_bind]. fields Hd.
  identity Hd. identity Hd. built.
Qed.

Lemma validate_quote_inv q q' : dict_like f d q → validate_quote (JObj d) = Some q' → q' = q.
Proof.
  intros Hd. unfold validate_quote. cbn [as_dict mbind option_bind]. fields Hd. identity Hd.
  rewrite (Hd "receive_instruction"). cbn. rewrite instruction_keeps by done. cbn.
  rewrite fee_constraint_of_fee_value. cbn. built.
Qed.

Lemma validate_approval_inv a a' : dict_like f d a → validate_approval (JObj d) = Some a' → a' = a.
Proof.
  intros Hd. unfold validate_approval. cbn [as_dict mbind option_bind]. fields Hd. identity Hd. built.
Qed.

Lemma validate_receipt_inv r r' : dict_like f d r → validate_receipt (JObj d) = Some r' → r' = r.
Proof.
  intros Hd. unfold validate_receipt. cbn [as_dict mbind option_bind]. fields Hd. identity Hd.
  rewrite rail_of_rail_value. cbn. built.
Qed.
End Inversions.

(** ** The round trip and the canonical bytes *)

(** A message class whose validation reads its dump back. *)
Class Validated `{Host} (M : Type) `{BaseModel M} := {
  model_validate : json → option M;
  model_validate_like f d m :
    keeps f → model_ok m = true → dict_like f d m → model_validate (JObj d) = Some m;
  model_validate_inv f d m m' :
    keeps f → dict_like f d m → model_validate (JObj d) = Some m' → m' = m;
  dump_wf (m : M) : wf_json canonical_opts (JObj (model_dump m)) = true;
  dump_id (m : M) : dget (model_dump m) "id" = Some (JStr (get_id m));
  dump_set_id v (m : M) k :
    dget (model_dump (set_id v m)) k = if decide (k = "id") then Some (JStr v) else dget (model_dump m) k;
  dump_pop_id v (m : M) : dpop (model_dump (set_id v m)) "id" = dpop (model_dump m) "id";
  set_id_ok v (m : M) : model_ok (set_id v m) = model_ok m;
  set_set_id v w (m : M) : set_id v (set_id w m) = set_id v m;
  set_get_id (m : M) : set_id (get_id m) m = m
}.

Ltac model_instance :=
  repeat match goal with
  | m : PaymentIntent |- _ => destruct m
  | m : PaymentQuote |- _ => destruct m
  | m : PaymentApproval |- _ => destruct m
  | m : PaymentReceipt |- _ => destruct m
  | a : AgentIdentity |- _ => destruct a as [? [?|]]
  | r : RailReceiveInstruction |- _ => destruct r as [? [?|]]
  end.

Ltac lookup_ids :=
  intros; cbn;
  repeat match goal with
  | |- context [String.eqb ?k ?s] => destruct (String.eqb_spec k s); subst
  end; try done; by case_decide.

#[export] Instance intent_validated {h : Host} {hl : HostLaws h} : Validated PaymentIntent.
Proof.
  refine {| model_validate := validate_intent |}; try done.
  - intros f d m Hf Hok Hd. by apply (validate_intent_like f Hf d).
  - intros f d m m' Hf. apply (validate_intent_inv f Hf d).
  - intros m. model_instance; reflexivity.
  - lookup_ids.
  - intros m. by destruct m.
Defined.

#[export] Instance quote_validated {h : Host} {hl : HostLaws h} : Validated PaymentQuote.
Proof.
  refine {| model_validate := validate_quote |}; try done.
  - intros f d m Hf Hok Hd. by apply (validate_quote_like f Hf d).
  - intros f d m m' Hf. apply (validate_quote_inv f Hf d).
  - intros m. model_instance; reflexivity.
  - lookup_ids.
  - intros m. by destruct m.
Defined.

#[export] Instance approval_validated {h : Host} {hl : HostLaws h} : Validated PaymentApproval.
Proof.
  refine {| model_validate := validate_approval |}; try done.
  - intros f d m Hf Hok Hd. by apply (validate_approval_like f Hf d).
  - intros f d m m' Hf. apply (validate_approval_inv f Hf d).
  - intros m. model_instance; reflexivity.
  - lookup_ids.
  - intros m. by destruct m.
Defined.

#[export] Instance receipt_validated {h : Host} {hl : HostLaws h} : Validated PaymentReceipt.
Proof.
  refine {| model_validate := validate_receipt |}; try done.
  - intros f d m Hf Hok Hd. by apply (validate_receipt_like f Hf d).
  - intros f d m m' Hf. apply (validate_receipt_inv f Hf d).
  - intros m. model_instance; reflexivity.
  - lookup_ids.
  - intros m. by destruct m.
Defined.

Lemma wf_dpop o d k : wf_json o (JObj d) = true → wf_json o (JObj (dpop d k)) = true.
Proof.
  cbn [wf_json]. intros [Hnd Hall]%andb_true_iff. apply bool_decide_eq_true in Hnd.
  apply andb_true_iff. split; [by apply bool_decide_eq_true, dpop_NoDup|]. clear Hnd.
  induction d as [|[k' v] d IH]; [done|]. cbn in Hall |- *.
  apply andb_true_iff in Hall as [Hv Hall].
  destruct (String.eqb k k'); [done|]. cbn. rewrite Hv. by apply IH.
Qed.

Lemma wf_NoDup o d : wf_json o (JObj d) = true → NoDup (dkeys d).
Proof. cbn [wf_json]. intros [Hnd _]%andb_true_iff. by apply bool_decide_eq_true in Hnd. Qed.

(** A message with its identifier erased. *)
Abbreviation anonymous := (set_id "").

Section CanonicalFacts.
Context {h : Host} {hl : HostLaws h} {M : Type} `{Validated M}.
Implicit Types m : M.

Lemma dict_like_id m : dict_like id (model_dump m) m.
Proof. intros k. by destruct (dget (model_dump m) k). Qed.

Lemma validate_dump m : model_ok m = true → model_validate (JObj (model_dump m)) = Some m.
Proof. intros Hok. eapply model_validate_like; [by left|done|apply dict_like_id]. Qed.

(** Parsing the canonical bytes and putting any identifier back. *)
Lemma canonical_parse m v :
  model_ok m = true →
  ∃ d, loads (canonical_bytes false m) = Some (JObj d) ∧
       model_validate (JObj (dset d "id" (JStr v))) = Some (set_id v m).
Proof.
  intros Hok. pose proof (wf_dpop _ _ "id" (dump_wf m)) as Hwf.
  unfold canonical_bytes. rewrite (loads_dumps canonical_opts) by done.
  unfold sorted_if. cbn [sort_keys canonical_opts sort_json]. eexists; split; [done|].
  apply (model_validate_like sort_json); [by right|by rewrite set_id_ok|].
  intros k. rewrite dget_dset, dump_set_id.
  destruct (decide ("id" = k)) as [<-|Hne]; [by rewrite decide_True|].
  rewrite decide_False by done. rewrite dget_sorted by (by eapply wf_NoDup).
  by rewrite dget_dpop_ne.
Qed.

Lemma canonical_bytes_set_id v m : canonical_bytes false (set_id v m) = canonical_bytes false m.
Proof. unfold canonical_bytes. by rewrite dump_pop_id. Qed.

Lemma canonical_bytes_inj m1 m2 :
  model_ok m1 = true → model_ok m2 = true →
  canonical_bytes false m1 = canonical_bytes false m2 → anonymous m1 = anonymous m2.
Proof.
  intros Hok1 Hok2 Heq.
  destruct (canonical_parse m1 "" Hok1) as (d1 & Hl1 & Hv1).
  destruct (canonical_parse m2 "" Hok2) as (d2 & Hl2 & Hv2).
  rewrite Heq, Hl2 in Hl1. congruence.
Qed.
End CanonicalFacts.

(** ** Properties *)

(** C31. Validating the dump of a message gives the message back, for every
    message class and any values that satisfy the field constraints; and the
    identifier is a faithful fingerprint: two messages of a class that agree
    in every field but [id] have the same [compute_id], and two messages with
    the same [compute_id] agree in every field but [id] unless their canonical
    bytes are a collision of SHA-256. *)
Theorem compute_id_identifies {h : Host} {hl : HostLaws h} {M : Type} `{Validated M}
    (m1 m2 : M) (Hok1 : model_ok m1 = true) (Hok2 : model_ok m2 = true) :
  model_validate (JObj (model_dump m1)) = Some m1 ∧
  (anonymous m1 = anonymous m2 → compute_id m1 = compute_id m2) ∧
  (compute_id m1 = compute_id m2 →
     anonymous m1 = anonymous m2 ∨
     (canonical_bytes false m1 ≠ canonical_bytes false m2 ∧
      sha256_hex (canonical_bytes false m1) = sha256_hex (canonical_bytes false m2))).
Proof.
  split_and!.
  - by apply validate_dump.
  - intros Heq. unfold compute_id.
    by rewrite <- (canonical_bytes_set_id "" m1), <- (canonical_bytes_set_id "" m2), Heq.
  - unfold compute_id. intros Hid.
    destruct (decide (canonical_bytes false m1 = canonical_bytes false m2)) as [Heq|Hne].
    + left. by apply canonical_bytes_inj.
    + by right.
Qed.

(** ** A concrete exchange, used by the witnesses of the development *)

Definition key_of (c : ascii) : string := of_chars (repeat c 64).
Definition alice : AgentIdentity := {| pubkey := key_of "a"; relay_url := None |}.
Definition bob : AgentIdentity := {| pubkey := key_of "b"; relay_url := Some "wss://relay" |}.

Definition sample_intent : PaymentIntent := {|
  pi_id := "intent-1"; pi_idempotency_key := "key-1"; pi_sender := alice; pi_recipient := bob;
  pi_amount_sat := 1000; pi_purpose := "coffee"; pi_max_fee_sat := 10;
  pi_expires_at := 5000; pi_created_at := 1 |}.

Definition sample_quote : PaymentQuote := {|
  pq_id := "quote-doc-1"; pq_intent_id := "intent-1"; pq_quote_id := "quote-1";
  pq_recipient := bob;
  pq_receive_instruction := {| ri_rail := LIGHTNING; ri_invoice := Some "lnbcrt1000n1pexample" |};
  pq_fee_sat := 5; pq_fee_constraint := FeeMax; pq_expires_at := 4000; pq_created_at := 2 |}.

Definition sample_receipt : PaymentReceipt := {|
  pr_id := "receipt-1"; pr_intent_id := "intent-1"; pr_quote_id := "quote-1";
  pr_recipient := bob; pr_settlement_ref := "hash-1"; pr_amount_sat := 1000; pr_fee_sat := 1;
  pr_rail := LIGHTNING; pr_settled_at := 3000; pr_created_at := 3000 |}.

Lemma compute_id_identifies_witness :
  let m2 := set_id (M := PaymentIntent) "other" sample_intent in
  compute_id (H := ref_host) sample_intent = compute_id (H := ref_host) m2.
Proof.
  refine (proj1 (proj2 (compute_id_identifies (h := ref_host) sample_intent
    (set_id "other" sample_intent) _ _)) _); vm_compute; reflexivity.
Defined.
