(* ===== verification/Redact.v ===== *)
(** * Redaction of sensitive text ([adapter.py], [redact_sensitive])

    The three regular expressions as scanners: each walks the text from the
    left, replaces the match at the current position or copies a character. *)

From S2P Require Import Prelude.

Module Redact.

(** ** Definitions *)

Fixpoint span (p : ascii → bool) (l : list ascii) : list ascii * list ascii :=
  match l with
  | c :: l' => if p c then let '(a, r) := span p l' in (c :: a, r) else ([], l)
  | [] => ([], [])
  end.

(** [lnbc[a-zA-Z0-9]+|lntb[a-zA-Z0-9]+|lnbcrt[a-zA-Z0-9]+], ignoring case, at
    the start of [l]: what follows the match.  The third alternative is
    covered by the first, which takes the letters [rt] as well. *)
Definition invoice_match (l : list ascii) : option (list ascii) :=
  match l with
  | a :: b :: c :: d :: r =>
      let p := lower_char <$> [a; b; c; d] in
      if bool_decide (p = chars "lnbc") || bool_decide (p = chars "lntb") then
        match span is_alnum r with ([], _) => None | (_, rest) => Some rest end
      else None
  | _ => None
  end.

(** [(/[^\s:]+\.macaroon)]: the run after the slash is taken as long as it
    can be, then cut after its last [.macaroon] that leaves it non-empty. *)
Definition path_char (c : ascii) : bool := negb (is_space c) && negb (Ascii.eqb c ":").

Fixpoint after_last (suffix l : list ascii) : option (list ascii) :=
  match l with
  | [] => None
  | _ :: l' =>
      match after_last suffix l' with
      | Some r => Some r
      | None => strip_prefix suffix l
      end
  end.

Definition macaroon_match (l : list ascii) : option (list ascii) :=
  match l with
  | c :: l' =>
      if Ascii.eqb c "/" then
        let '(run, rest) := span path_char l' in
        match run with
        | _ :: run' => (λ r, r ++ rest) <$> after_last (chars ".macaroon") run'
        | [] => None
        end
      else None
  | [] => None
  end.

(** [\b([a-f0-9]{64})\b]: sixty-four lower-case hexadecimal digits that are
    not part of a longer word. *)
Definition is_hex (c : ascii) : bool :=
  is_digit c || ((97 <=? code c)%N && (code c <=? 102)%N).
Definition is_word (c : ascii) : bool :=
  is_alnum c || Ascii.eqb c "_" || (128 <=? code c)%N.
Definition word_start (l : list ascii) : bool :=
  match l with c :: _ => is_word c | [] => false end.

Definition hash_match (prev_word : bool) (l : list ascii) : option (list ascii) :=
  if negb prev_word && bool_decide (64 ≤ List.length l)%nat && forallb is_hex (take 64 l)
     && negb (word_start (drop 64 l))
  then Some (drop 64 l) else None.

(** [pattern.sub(token, text)]; the length of the text is enough fuel, since
    every step consumes a character. *)
Fixpoint sub_fuel (n : nat) (m : list ascii → option (list ascii)) (token l : list ascii)
    : list ascii :=
  match n, l with
  | S n', c :: l' =>
      match m l with
      | Some r => token ++ sub_fuel n' m token r
      | None => c :: sub_fuel n' m token l'
      end
  | _, _ => l
  end.

(** [_HASH_PATTERN.sub(lambda m: m.group()[:8] + "...", text)] *)
Fixpoint sub_hash_fuel (n : nat) (prev_word : bool) (l : list ascii) : list ascii :=
  match n, l with
  | S n', c :: l' =>
      match hash_match prev_word l with
      | Some r => take 8 l ++ chars "..." ++ sub_hash_fuel n' true r
      | None => c :: sub_hash_fuel n' (is_word c) l'
      end
  | _, _ => l
  end.

Definition sub_invoice (l : list ascii) : list ascii :=
  sub_fuel (List.length l) invoice_match (chars "<INVOICE>") l.
Definition sub_macaroon (l : list ascii) : list ascii :=
  sub_fuel (List.length l) macaroon_match (chars "<MACAROON_PATH>") l.
Definition sub_hash (l : list ascii) : list ascii := sub_hash_fuel (List.length l) false l.

Definition redact_sensitive (text : string) : string :=
  of_chars (sub_hash (sub_macaroon (sub_invoice (chars text)))).

(** ** Tests *)

Example redact_invoice :
  redact_sensitive "pay LNBCRT10n1pabc, now" = "pay <INVOICE>, now".
Proof. vm_compute. reflexivity. Qed.

Example redact_macaroon :
  redact_sensitive "open /root/.waved/admin.macaroon: denied" = "open <MACAROON_PATH>: denied".
Proof. vm_compute. reflexivity. Qed.

Example redact_hash :
  redact_sensitive ("hash " +:+ of_chars (repeat "a"%char 64) +:+ "!") = "hash aaaaaaaa...!".
Proof. vm_compute. reflexivity. Qed.

End Redact.
