(* ===== verification/RedactFacts.v ===== *)
(** * Theorems about redaction *)

From S2P Require Import Prelude.
From S2P Require Import Redact.
Import Redact.

(** A matcher returns what follows a non-empty match. *)
Definition consumes (m : list ascii → option (list ascii)) : Prop :=
  ∀ l r, m l = Some r → ∃ c p, l = c :: p ++ r.

(** [clean m l]: the matcher matches at no position of [l]. *)
Definition clean (m : list ascii → option (list ascii)) (l : list ascii) : Prop :=
  ∀ l1 l2, l = l1 ++ l2 → m l2 = None.

Lemma clean_nil m : m [] = None → clean m [].
Proof. intros Hm l1 l2 Heq. symmetry in Heq. apply app_eq_nil in Heq as [-> ->]. done. Qed.

Lemma clean_cons m c l : clean m (c :: l) ↔ m (c :: l) = None ∧ clean m l.
Proof.
  split.
  - intros H. split; [by apply (H [])|]. intros l1 l2 ->. by apply (H (c :: l1)).
  - intros [H0 H] [|c' l1] l2 Heq; simplify_eq/=; [done|]. by apply (H l1).
Qed.

Lemma span_app p l : l = (span p l).1 ++ (span p l).2.
Proof.
  induction l as [|c l IH]; simpl; [done|]. destruct (p c); [|done].
  destruct (span p l). simpl in *. by rewrite IH at 1.
Qed.

Lemma invoice_consumes : consumes invoice_match.
Proof.
  intros l r. unfold invoice_match. do 4 (destruct l as [|? l]; [done|]).
  destruct (_ || _); [|done]. pose proof (span_app is_alnum l) as Hl.
  destruct (span is_alnum l) as [[|x run] rest]; [done|]. intros [= <-]. simpl in Hl.
  rewrite Hl. by eexists _, (_ :: _ :: _ :: x :: run).
Qed.

Lemma strip_prefix_app p l r : strip_prefix p l = Some r → l = p ++ r.
Proof.
  revert l. induction p as [|a p IH]; intros [|b l]; simpl; try (by intros [= <-]).
  destruct (Ascii.eqb_spec a b) as [->|]; [|done]. intros H. by rewrite (IH l).
Qed.

Lemma after_last_suffix s l r : after_last s l = Some r → ∃ p, l = p ++ r.
Proof.
  revert r. induction l as [|c l IH]; intros r; simpl; [done|].
  destruct (after_last s l) as [r'|].
  - intros [= <-]. destruct (IH r' eq_refl) as [p ->]. by exists (c :: p).
  - intros H%strip_prefix_app. by exists s.
Qed.

Lemma macaroon_consumes : consumes macaroon_match.
Proof.
  intros [|c l] r; unfold macaroon_match; [done|]. destruct (Ascii.eqb c "/"); [|done].
  pose proof (span_app path_char l) as Hl.
  destruct (span path_char l) as [[|x run] rest]; [done|]. simpl in Hl.
  destruct (after_last (chars ".macaroon") run) as [r'|] eqn:E; [|done]. intros [= <-].
  apply after_last_suffix in E as [p ->]. rewrite Hl.
  exists c, (x :: p). simpl. by rewrite <- app_assoc.
Qed.

(** An invoice needs four letters and one more letter or digit. *)
Lemma invoice_prefix l r :
  invoice_match l = Some r → ∃ p l', l = p ++ l' ∧ List.length p = 5%nat ∧ forallb is_alnum p = true.
Proof.
  destruct l as [|a [|b [|c [|d l]]]]; try done. intros Hm.
  assert (forallb is_alnum [a; b; c; d] = true) as H4.
  { unfold invoice_match in Hm. destruct (_ || _) eqn:Hp; [|done].
    apply orb_true_iff in Hp as [Hp|Hp]; apply bool_decide_eq_true in Hp; simplify_eq/=;
      repeat match goal with
      | H : lower_char ?x = _ |- _ =>
          destruct x as [[] [] [] [] [] [] [] []]; try discriminate H; clear H
      end; reflexivity. }
  destruct l as [|e l]; simpl in Hm; [by destruct (_ || _)|].
  destruct (_ || _); [|done]. destruct (is_alnum e) eqn:He; [|done].
  exists [a; b; c; d; e], l. split_and!; [done..|]. simpl in H4 |- *.
  repeat (apply andb_true_iff in H4 as [? H4]). by rewrite He; repeat (apply andb_true_iff; split).
Qed.

(** Whether there is a match depends on the first five characters only. *)
Lemma invoice_match_prefix p l l' :
  List.length p = 5%nat → forallb is_alnum p = true →
  invoice_match (p ++ l) = None → invoice_match (p ++ l') = None.
Proof.
  destruct p as [|a [|b [|c [|d [|e [|]]]]]]; try done. intros _ Hp. simpl in *.
  destruct (_ || _); [|done].
  assert (is_alnum e = true) as ->.
  { repeat (apply andb_true_iff in Hp as [? Hp]). done. }
  by destruct (span is_alnum l), (span is_alnum l').
Qed.

#[local] Arguments invoice_match : simpl never.
#[local] Arguments hash_match : simpl never.

(** A token starts with a character that is in no invoice and has no position
    where one could start. *)
Definition inert (token : list ascii) : Prop :=
  token ≠ [] ∧ (∀ c t, token = c :: t → is_alnum c = false) ∧
  (∀ t1 t2 r, token = t1 ++ t2 → t2 ≠ [] → invoice_match (t2 ++ r) = None).

Lemma not_l_no_match c l : lower_char c ≠ "l"%char → invoice_match (c :: l) = None.
Proof.
  intros Hc. destruct l as [|b [|c' [|d l]]]; try done. unfold invoice_match.
  rewrite !bool_decide_eq_false_2; [done|..]; simpl; congruence.
Qed.

Lemma inert_token token :
  match token with c :: _ => is_alnum c = false | [] => False end →
  forallb (λ c, negb (Ascii.eqb (lower_char c) "l")) token = true → inert token.
Proof.
  intros Hh Hall. split_and!.
  - by destruct token.
  - intros c t ->. done.
  - intros t1 t2 r -> Hne. destruct t2 as [|c t2]; [done|].
    rewrite List.forallb_app in Hall. apply andb_true_iff in Hall as [_ Hall].
    simpl in *. apply andb_true_iff in Hall as [Hc _]. apply not_l_no_match.
    by destruct (Ascii.eqb_spec (lower_char c) "l").
Qed.

Lemma clean_token token l :
  inert token → clean invoice_match l → clean invoice_match (token ++ l).
Proof.
  intros (_ & _ & Hin) Hl. revert Hin. induction token as [|c token IH]; intros Hin; [done|].
  apply clean_cons. split; [by apply (Hin [] (c :: token) l)|]. apply IH.
  intros t1 t2 r -> Hne. by apply (Hin (c :: t1)).
Qed.

(** An alphanumeric prefix of the result was there before. *)
Lemma sub_prefix n m token l p q :
  inert token → forallb is_alnum p = true → sub_fuel n m token l = p ++ q →
  ∃ q', l = p ++ q'.
Proof.
  intros (Hne & Hhead & _). revert l p. induction n as [|n IH]; intros l p Hp Heq; [by exists q|].
  destruct l as [|c l]; [by exists q|]. destruct p as [|a p]; [by exists (c :: l)|].
  simpl in Heq, Hp. apply andb_true_iff in Hp as [Ha Hp]. destruct (m (c :: l)) as [r|].
  - destruct token as [|t token]; [done|]. specialize (Hhead t token eq_refl).
    injection Heq as -> _. congruence.
  - simplify_eq. destruct (IH l p Hp) as [q' ->]; [done|]. by exists q'.
Qed.

Lemma clean_app m l1 l2 : clean m (l1 ++ l2) → clean m l2.
Proof. intros H l3 l4 ->. apply (H (l1 ++ l3)). by rewrite app_assoc. Qed.

(** Copying a character does not create an invoice. *)
Lemma clean_copy n m token c l :
  inert token → invoice_match (c :: l) = None → clean invoice_match (sub_fuel n m token l) →
  clean invoice_match (c :: sub_fuel n m token l).
Proof.
  intros Hin Hc Hl. apply clean_cons. split; [|done].
  destruct (invoice_match (c :: sub_fuel n m token l)) as [r|] eqn:E; [|done].
  destruct (invoice_prefix _ _ E) as (p & q & Heq & H5 & Hp).
  destruct p as [|c' p]; [done|]. simplify_eq/=. pose proof Hp as Hp'.
  apply andb_true_iff in Hp' as [_ Hp'].
  match goal with H : sub_fuel _ _ _ _ = _ |- _ =>
    destruct (sub_prefix n m token l p q Hin Hp' H) as [q' ->]; rewrite H in E end.
  assert (invoice_match (c' :: p ++ q) = None) as Hn.
  { apply (invoice_match_prefix (c' :: p) q' q); [simpl; lia|done|done]. }
  congruence.
Qed.

(** Substituting inert tokens keeps a text without invoices that way. *)
Lemma sub_keeps_clean n m token l :
  inert token → consumes m → clean invoice_match l → clean invoice_match (sub_fuel n m token l).
Proof.
  intros Hin Hm. revert l. induction n as [|n IH]; intros [|c l] Hl; try done. simpl.
  destruct (m (c :: l)) as [r|] eqn:E.
  - apply clean_token; [done|]. apply IH.
    destruct (Hm _ _ E) as (c' & p & Heq). rewrite Heq in Hl.
    by apply (clean_app _ (c' :: p)).
  - apply clean_cons in Hl as [? ?]. apply clean_copy; auto.
Qed.

(** Substituting the invoices removes them all. *)
Lemma sub_invoice_clean n token l :
  inert token → (List.length l ≤ n)%nat →
  clean invoice_match (sub_fuel n invoice_match token l).
Proof.
  intros Hin. revert l. induction n as [|n IH]; intros [|c l] Hn; simpl in Hn;
    try (by apply clean_nil); [lia|]. cbn [sub_fuel].
  destruct (invoice_match (c :: l)) as [r|] eqn:E.
  - apply clean_token; [done|]. apply IH.
    destruct (invoice_consumes _ _ E) as (c' & p & Heq). simplify_eq.
    rewrite length_app in Hn. lia.
  - apply clean_copy; [done|done|]. apply IH. lia.
Qed.

(** *** Hashes *)

Lemma is_hex_alnum c : is_hex c = true → is_alnum c = true ∧ Ascii.eqb (lower_char c) "l" = false.
Proof. destruct c as [[] [] [] [] [] [] [] []]; try done; by intros [=]. Qed.

Lemma hash_match_app w l r :
  hash_match w l = Some r →
  ∃ h t, l = h ++ t ++ r ∧ take 8 l = h ∧ List.length h = 8%nat ∧ forallb is_hex h = true.
Proof.
  unfold hash_match. destruct (_ && _) eqn:H; [|done]. intros [= <-].
  apply andb_true_iff in H as [H _]. apply andb_true_iff in H as [H Hhex].
  apply andb_true_iff in H as [_ Hlen]. apply bool_decide_eq_true in Hlen.
  exists (take 8 l), (take 56 (drop 8 l)). split_and!; [|done| |].
  - rewrite <- (take_drop 8 l) at 1. f_equal.
    rewrite <- (take_drop 56 (drop 8 l)) at 1. by rewrite drop_drop.
  - rewrite length_take. lia.
  - rewrite <- (take_drop 8 (take 64 l)), List.forallb_app, take_take in Hhex.
    by apply andb_true_iff in Hhex as [? _].
Qed.

(** Five alphanumeric characters at the start of the result were there before. *)
Lemma sub_hash_prefix n w l p q :
  (List.length p ≤ 5)%nat → forallb is_alnum p = true → sub_hash_fuel n w l = p ++ q →
  ∃ q', l = p ++ q'.
Proof.
  revert w l p. induction n as [|n IH]; intros w l p Hlen Hp Heq; [by exists q|].
  destruct l as [|c l]; [by exists q|]. cbn [sub_hash_fuel] in Heq.
  destruct (hash_match w (c :: l)) as [r|] eqn:E.
  - apply hash_match_app in E as (h & t & Hl & Hh & H8 & _). rewrite Hh in Heq. rewrite Hl.
    assert (take (List.length p) h = p) as Htp.
    { apply (f_equal (take (List.length p))) in Heq.
      rewrite take_app_le, take_app_length in Heq by lia. done. }
    exists (drop (List.length p) h ++ t ++ r).
    rewrite <- (take_drop (List.length p) h) at 1. by rewrite Htp, <- !app_assoc.
  - destruct p as [|a p]; [by exists (c :: l)|]. simplify_eq/=.
    apply andb_true_iff in Hp as [_ Hp].
    destruct (IH (is_word a) l p) as [q' ->]; [lia|done|done|]. by exists q'.
Qed.

Lemma sub_hash_keeps_clean n w l :
  clean invoice_match l → clean invoice_match (sub_hash_fuel n w l).
Proof.
  revert w l. induction n as [|n IH]; intros w [|c l] Hl; try done. cbn [sub_hash_fuel].
  destruct (hash_match w (c :: l)) as [r|] eqn:E.
  - apply hash_match_app in E as (h & t & Heq & -> & _ & Hhex).
    assert (clean invoice_match (chars "..." ++ sub_hash_fuel n true r)) as Hr.
    { apply clean_token; [by apply inert_token|]. apply IH. rewrite Heq in Hl.
      apply clean_app, clean_app in Hl. done. }
    clear - Hhex Hr. induction h as [|a h IHh]; [done|]. simpl in Hhex.
    apply andb_true_iff in Hhex as [Ha Hhex]. apply clean_cons. split; [|by apply IHh].
    apply not_l_no_match. apply is_hex_alnum in Ha as [_ Ha].
    by destruct (Ascii.eqb_spec (lower_char a) "l").
  - apply clean_cons in Hl as [Hc Hl]. apply clean_cons. split; [|by apply IH].
    destruct (invoice_match (c :: sub_hash_fuel n (is_word c) l)) as [r|] eqn:Ei; [|done].
    destruct (invoice_prefix _ _ Ei) as (p & q & Heq & H5 & Hp).
    destruct p as [|c' p]; [done|]. injection H5 as H5. simplify_eq/=. pose proof Hp as Hp'.
    apply andb_true_iff in Hp' as [_ Hp'].
    match goal with H : sub_hash_fuel _ _ _ = _ |- _ =>
      destruct (sub_hash_prefix n (is_word c') l p q ltac:(lia) Hp' H) as [q' ->];
      rewrite H in Ei end.
    assert (invoice_match (c' :: p ++ q) = None) as Hn.
    { apply (invoice_match_prefix (c' :: p) q' q); [simpl; lia|done|done]. }
    congruence.
Qed.

(** Redaction leaves no Lightning invoice in a text: at no position of the
    result does the invoice pattern match, whatever the text was and although
    two more substitutions run after the one for invoices. *)
Theorem redact_no_invoice (text : string) (position : nat) :
  invoice_match (drop position (chars (redact_sensitive text))) = None.
Proof.
  assert (clean invoice_match (chars (redact_sensitive text))) as Hclean.
  { unfold redact_sensitive. rewrite chars_of_chars.
    apply sub_hash_keeps_clean, sub_keeps_clean; [by apply inert_token|apply macaroon_consumes|].
    apply sub_invoice_clean; [by apply inert_token|done]. }
  apply (Hclean (take position (chars (redact_sensitive text)))). by rewrite take_drop.
Qed.
