(* ===== verification/Envelope.v ===== *)
(** * Wire codec ([envelope.py])

    The versioned JSON envelope in the content of a kind-9 event. *)

From S2P Require Import Prelude.
From S2P Require Import Json.
From S2P Require Import JsonText.
From S2P Require Import Models.
Import Models.

Module Envelope.

(** ** Definitions *)

Definition WIRE_KIND : Z := 9.
Definition PROTOCOL_ID : string := "hermes-payments".
Definition ENVELOPE_VERSION : string := "1".

(** [_MODEL_MAP], by the kind of message it decodes to. *)
Definition MODEL_MAP : list (string * MessageKind) :=
  [ (kind_value INTENT, INTENT); (kind_value QUOTE, QUOTE); (kind_value RECEIPT, RECEIPT) ].

Definition kind_of (m : PaymentMessage) : MessageKind :=
  match m with MIntent _ => INTENT | MQuote _ => QUOTE | MReceipt _ => RECEIPT end.

Definition message_dump (m : PaymentMessage) : list (string * json) :=
  match m with
  | MIntent i => model_dump i | MQuote q => model_dump q | MReceipt r => model_dump r
  end.

Definition message_ok (m : PaymentMessage) : bool :=
  match m with MIntent i => intent_ok i | MQuote q => quote_ok q | MReceipt r => receipt_ok r end.

Definition message_id (m : PaymentMessage) : string :=
  match m with MIntent i => pi_id i | MQuote q => pq_id q | MReceipt r => pr_id r end.

(** [KIND_MAP] *)
Definition KIND_MAP (k : MessageKind) : Z := WIRE_KIND.

(** [PaymentEnvelope] with its defaults, as the JSON object it dumps to. *)
Definition envelope_json (k : MessageKind) (payload : list (string * json)) : json :=
  JObj [ ("protocol", JStr PROTOCOL_ID); ("version", JStr ENVELOPE_VERSION);
         ("type", JStr (kind_value k)); ("payload", JObj payload) ].

Definition type_of_object (o : py_object) : string :=
  match o with
  | OMessage (MIntent _) => "PaymentIntent" | OMessage (MQuote _) => "PaymentQuote"
  | OMessage (MReceipt _) => "PaymentReceipt" | OApproval _ => "PaymentApproval"
  | OOther name => name
  end.

Definition kind_for_model (o : py_object) : outcome MessageKind :=
  match o with
  | OMessage m => Ok (kind_of m)
  | _ => fail CTypeError (type_of_object o +:+ " is not a transportable payment message")
  end.

Record BuzzEnvelope := {
  be_id : string;
  be_pubkey : string;
  be_kind : Z;
  be_tags : list (list string);
  be_content : string;
  be_sig : string
}.

Definition build_tags (m : PaymentMessage) : list (list string) :=
  [ ["protocol"; "hermes-payments-v1"];
    ["intent"; match m with
               | MIntent i => pi_id i | MQuote q => pq_intent_id q | MReceipt r => pr_intent_id r
               end] ].

Section Codec.
Context `{Host}.

Definition encode_content (o : py_object) : outcome string :=
  match o with
  | OApproval _ =>
      fail CTypeError "PaymentApproval must never be serialized or transmitted; it is strictly local human authorisation"
  | OMessage m =>
      k ← kind_for_model o;
      Ok (model_dump_json (envelope_json k (message_dump m)))
  | OOther _ => k ← kind_for_model o; Ok ""
  end.

Definition validate_message (k : MessageKind) (payload : json) : option PaymentMessage :=
  match k with
  | INTENT => MIntent <$> validate_intent payload
  | QUOTE => MQuote <$> validate_quote payload
  | RECEIPT => MReceipt <$> validate_receipt payload
  end.

Definition get_or_none (d : list (string * json)) (k : string) : json := jget d k JNull.

Definition is_str (j : json) (s : string) : bool :=
  match j with JStr t => String.eqb t s | _ => false end.

(** [_MODEL_MAP.get(type_str)]: a list or dict is not hashable. *)
Definition model_for_type (t : json) : outcome (option MessageKind) :=
  match t with
  | JStr s => Ok (dget MODEL_MAP s)
  | JList _ | JObj _ => fail CTypeError ("unhashable type: '" +:+ type_name t +:+ "'")
  | _ => Ok None
  end.

Definition decode_content (content : string) : outcome PaymentMessage :=
  match loads content with
  | None => fail CValueError ("content is not valid JSON: " +:+ json_error_text content)
  | Some (JObj data) =>
      let protocol := get_or_none data "protocol" in
      if negb (is_str protocol PROTOCOL_ID) then
        fail CValueError ("unknown protocol " +:+ py_repr protocol +:+ "; expected '"
                            +:+ PROTOCOL_ID +:+ "'")
      else
      let version := get_or_none data "version" in
      if negb (is_str version ENVELOPE_VERSION) then
        fail CValueError ("unsupported protocol version " +:+ py_repr version
                            +:+ "; expected '" +:+ ENVELOPE_VERSION +:+ "'")
      else
      match get_or_none data "type" with
      | JNull => fail CValueError "envelope missing 'type' field"
      | type_str =>
          model_cls ← model_for_type type_str;
          match model_cls with
          | None => fail CValueError ("unknown envelope type " +:+ py_repr type_str)
          | Some k =>
              match get_or_none data "payload" with
              | JObj payload =>
                  of_opt CValueError
                    ("payload validation failed for type " +:+ py_repr type_str +:+ ": "
                       +:+ validation_text (kind_value k) (JObj payload))
                    (validate_message k (JObj payload))
              | _ => fail CValueError "envelope missing or invalid 'payload' field"
              end
          end
      end
  | Some _ => fail CValueError "content JSON is not an object"
  end.

Definition payment_to_envelope (m : PaymentMessage) (author_pubkey event_id event_sig : string)
    : outcome BuzzEnvelope :=
  content ← encode_content (OMessage m);
  let env := {| be_id := event_id; be_pubkey := author_pubkey; be_kind := WIRE_KIND;
                be_tags := build_tags m; be_content := content; be_sig := event_sig |} in
  if len_between 64 64 author_pubkey && len_between 128 128 event_sig then Ok env
  else fail CValidationError (validation_text "BuzzEnvelope" JNull).

Definition envelope_to_payment (env : BuzzEnvelope) : outcome PaymentMessage :=
  if negb (be_kind env =? WIRE_KIND) then
    fail CValueError ("kind " +:+ show_Z (be_kind env) +:+ " is not a payment kind; expected "
                        +:+ show_Z WIRE_KIND)
  else decode_content (be_content env).
End Codec.

End Envelope.
