(* ===== verification/EnvelopeFacts.v ===== *)
(** * Theorems about the wire codec *)

From S2P Require Import Prelude.
From S2P Require Import Json.
From S2P Require Import JsonText.
From S2P Require Import JsonFacts.
From S2P Require Import Models.
From S2P Require Import ModelsFacts.
From S2P Require Import Envelope.
Import Models Envelope.

Lemma MODEL_MAP_kind k : dget MODEL_MAP (kind_value k) = Some k.
Proof. by destruct k. Qed.

Lemma MODEL_MAP_inv s k : dget MODEL_MAP s = Some k → s = kind_value k.
Proof.
  cbn. repeat match goal with
  | |- context [String.eqb s ?t] =>
      destruct (String.eqb_spec s t) as [->|]; [by intros [= <-]|]
  end. done.
Qed.

Lemma wf_opts_equiv o o' j : ensure_ascii o = ensure_ascii o' → wf_json o j = wf_json o' j.
Proof.
  intros Ho. induction j as [|b|z|f|s|l IH|d IH] using json_rect'; try done; cbn [wf_json].
  - unfold str_ok. by rewrite Ho.
  - induction IH as [|x l Hx _ IHl]; [done|]. simpl. by rewrite Hx, IHl.
  - f_equal. induction IH as [|p d Hp _ IHd]; [done|]. simpl. unfold str_ok at 1 3. by rewrite Ho, Hp, IHd.
Qed.

Section EnvelopeFacts.
Context {h : Host} {hl : HostLaws h}.

Lemma message_dump_wf m : wf_json canonical_opts (JObj (message_dump m)) = true.
Proof. destruct m as [i|q|r]; apply (dump_wf _). Qed.

Lemma validate_message_dump m :
  message_ok m = true → validate_message (kind_of m) (JObj (message_dump m)) = Some m.
Proof.
  destruct m as [i|q|r]; intros Hok; simpl in *.
  - by rewrite (validate_intent_like id (or_introl eq_refl) _ i Hok (dict_like_id i)).
  - by rewrite (validate_quote_like id (or_introl eq_refl) _ q Hok (dict_like_id q)).
  - by rewrite (validate_receipt_like id (or_introl eq_refl) _ r Hok (dict_like_id r)).
Qed.

(** Validated messages satisfy the field constraints. *)
Lemma guard_ok_inv {A} (ok : A → bool) a b : guard_ok ok a = Some b → a = b ∧ ok b = true.
Proof. unfold guard_ok. destruct (ok a) eqn:E; [|done]. by intros [= <-]. Qed.

Lemma validate_message_ok k j m :
  validate_message k j = Some m → kind_of m = k ∧ message_ok m = true.
Proof.
  destruct k; simpl; intros (x & Hv & ->)%fmap_Some; (split; [done|]); simpl;
    [unfold validate_intent in Hv|unfold validate_quote in Hv|unfold validate_receipt in Hv];
    repeat (apply bind_Some in Hv as (? & _ & Hv));
    by apply guard_ok_inv in Hv as [_ ?].
Qed.

Lemma loads_envelope m :
  loads (model_dump_json (envelope_json (kind_of m) (message_dump m))) =
  Some (envelope_json (kind_of m) (message_dump m)).
Proof.
  apply model_dump_json_loads. rewrite (wf_opts_equiv _ canonical_opts) by done.
  unfold envelope_json. cbn [wf_json forallb]. apply andb_true_iff. split; [done|].
  pose proof (message_dump_wf m) as Hwf. cbn [fst snd]. unfold str_ok.
  cbn [ensure_ascii canonical_opts wf_json andb]. rewrite andb_true_r. exact Hwf.
Qed.

Lemma wire_roundtrip m :
  message_ok m = true →
  ∃ content, encode_content (OMessage m) = Ok content ∧ decode_content content = Ok m.
Proof.
  intros Hok. eexists. split; [done|]. unfold decode_content. rewrite loads_envelope. unfold envelope_json.
  cbn -[validate_message MODEL_MAP]. rewrite MODEL_MAP_kind. cbn -[validate_message].
  by rewrite validate_message_dump.
Qed.
End EnvelopeFacts.

(** Every transportable message survives the wire: encoding it succeeds and
    decoding the text gives back the same message, of the same kind, also
    through the [BuzzEnvelope] of a kind-9 event. *)
Theorem envelope_roundtrip {h : Host} {hl : HostLaws h} (m : PaymentMessage)
    (Hok : message_ok m = true) :
  ∃ content, encode_content (OMessage m) = Ok content ∧ decode_content content = Ok m ∧
    ∀ author event_id sig env, payment_to_envelope m author event_id sig = Ok env →
      be_content env = content ∧ envelope_to_payment env = Ok m.
Proof.
  destruct (wire_roundtrip m Hok) as (content & Henc & Hdec). exists content. split_and!; [done|exact Hdec|].
  intros author event_id sig env. unfold payment_to_envelope. rewrite Henc.
  cbn [kind_for_model mbind outcome_bind]. destruct (_ && _); [|done]. intros [= <-]. done.
Qed.

Lemma envelope_roundtrip_witness :
  ∃ content, encode_content (H := ref_host) (OMessage (MQuote sample_quote)) = Ok content ∧
             decode_content (H := ref_host) content = Ok (MQuote sample_quote).
Proof.
  destruct (envelope_roundtrip (h := ref_host) (MQuote sample_quote)) as (c & He & Hd & _).
  - vm_compute. reflexivity.
  - exists c. split; [exact He|exact Hd].
Defined.

(** C30. What decoding accepts: exactly the texts of a JSON object with the
    protocol identifier, the supported version, a known type and an object
    payload that validates against that type's model; the message then has
    the announced kind and satisfies every field constraint. *)
Theorem decode_content_spec `{Host} (content : string) (m : PaymentMessage) :
  decode_content content = Ok m ↔
  ∃ d p, loads content = Some (JObj d) ∧
    dget d "protocol" = Some (JStr PROTOCOL_ID) ∧ dget d "version" = Some (JStr ENVELOPE_VERSION) ∧
    dget d "type" = Some (JStr (kind_value (kind_of m))) ∧
    dget d "payload" = Some (JObj p) ∧ validate_message (kind_of m) (JObj p) = Some m ∧
    message_ok m = true.
Proof.
  unfold decode_content. split.
  - destruct (loads content) as [[| | | | | |d]|]; try done.
    assert (∀ k s, is_str (get_or_none d k) s = true → dget d k = Some (JStr s)) as His.
    { intros k s. unfold get_or_none, jget. destruct (dget d k) as [[]|]; simpl; try done.
      by intros ->%String.eqb_eq. }
    destruct (is_str (get_or_none d "protocol") PROTOCOL_ID) eqn:Hp; [|done]. apply His in Hp.
    destruct (is_str (get_or_none d "version") ENVELOPE_VERSION) eqn:Hv; [|done]. apply His in Hv.
    cbn [negb]. destruct (get_or_none d "type") as [| | | |t| |] eqn:Ht; try done.
    cbn -[MODEL_MAP]. destruct (dget MODEL_MAP t) as [k|] eqn:Hk; [|done].
    apply MODEL_MAP_inv in Hk as ->.
    destruct (get_or_none d "payload") as [| | | | | |p] eqn:Hpl; try done.
    destruct (validate_message k (JObj p)) as [m'|] eqn:Hm; [|done]. intros [= ->].
    destruct (validate_message_ok _ _ _ Hm) as [<- Hok].
    exists d, p. unfold get_or_none, jget in Ht, Hpl.
    destruct (dget d "type") as [|]; [|done]. destruct (dget d "payload") as [|]; [|done].
    simpl in Ht, Hpl. subst. done.
  - intros (d & p & -> & Hp & Hv & Ht & Hpl & Hm & _).
    unfold get_or_none, jget. rewrite Hp, Hv, Ht, Hpl.
    cbn -[validate_message MODEL_MAP]. rewrite MODEL_MAP_kind. cbn -[validate_message].
    by rewrite Hm.
Qed.

(** A decoding failure is not always a [ValueError]: an envelope whose
    [type] is a list or an object raises [TypeError], because the value is
    used as a dictionary key, whatever its payload holds. *)
Theorem decode_unhashable_type `{Host} (content : string) (d : list (string * json)) (t : json)
    (Hl : loads content = Some (JObj d))
    (Hp : dget d "protocol" = Some (JStr PROTOCOL_ID))
    (Hv : dget d "version" = Some (JStr ENVELOPE_VERSION))
    (Ht : dget d "type" = Some t) (Hh : hashable t = false) :
  ∃ e, decode_content content = Raise e ∧ exn_cls e = CTypeError ∧
       isinstance_exn e CValueError = false.
Proof.
  unfold decode_content. rewrite Hl. unfold get_or_none, jget. rewrite Hp, Hv, Ht.
  destruct t; try done; eexists; split_and!; reflexivity.
Qed.

(** A hostile text for the unhashable type. *)
Definition hostile_json : json :=
  JObj [ ("protocol", JStr PROTOCOL_ID); ("version", JStr ENVELOPE_VERSION);
         ("type", JList []); ("payload", JObj []) ].
Definition hostile_content : string := model_dump_json (Host := ref_host) hostile_json.

Lemma decode_unhashable_type_witness :
  ∃ e, decode_content (H := ref_host) hostile_content = Raise e ∧ exn_cls e = CTypeError ∧
       isinstance_exn e CValueError = false.
Proof.
  apply (decode_unhashable_type hostile_content
    [ ("protocol", JStr PROTOCOL_ID); ("version", JStr ENVELOPE_VERSION);
      ("type", JList []); ("payload", JObj []) ] (JList [])); vm_compute; reflexivity.
Defined.
