(* ===== verification/Adapter.v ===== *)
(** * Settlement adapter boundary ([adapter.py])

    The adapter interface with its defaults, the wavecli commands, the
    executors, the parsers of wavecli output and the Wavelength adapter.  The
    world [W] is what the executor acts on; every effect goes through it. *)

From S2P Require Import Prelude.
From S2P Require Import Json.
From S2P Require Import JsonText.
From S2P Require Import Models.
From S2P Require Import Redact.
Import Models Redact.

Module Adapter.

(** ** Results *)

Record PrepareResult := {
  pp_fee_sat : Z;
  pp_prepared_hash : string;
  pp_rail : Rail;
  pp_prepared_payload : bytes
}.

(** Dataclass fields are not checked, so the reference is whatever object the
    adapter found; building the receipt validates it. *)
Record ExecuteResult := {
  er_settlement_ref : json;
  er_amount_sat : Z;
  er_fee_sat : Z;
  er_rail : Rail
}.

Record ReceiptVerifyResult := {
  rv_verified : bool;
  rv_settlement_ref : string;
  rv_amount_sat : Z;
  rv_fee_sat : Z;
  rv_error : option string
}.

Record ReconcileResult := {
  rc_status : string;
  rc_settlement_ref : string;
  rc_amount_sat : Z;
  rc_fee_sat : Z;
  rc_rail : option Rail;
  rc_verified : bool;
  rc_error : option string
}.

(** ** The interface *)

Class SettlementAdapter (W : Type) := {
  ad_rail : Rail;
  ad_prepare : RailReceiveInstruction → Z → Z → PyM W PrepareResult;
  ad_execute : bytes → string → PyM W ExecuteResult;
  ad_verify_receipt : string → Z → PyM W ReceiptVerifyResult;
  ad_verify_sender_settlement : string → Z → PyM W ReceiptVerifyResult;
  ad_reconcile_settlement : bytes → string → Z → PyM W ReconcileResult
}.

(** The inherited implementations of the last two. *)
Definition default_verify_sender_settlement {W}
    (verify_receipt : string → Z → PyM W ReceiptVerifyResult)
    (settlement_ref : string) (expected_amount_sat : Z) : PyM W ReceiptVerifyResult :=
  verify_receipt settlement_ref expected_amount_sat.

Definition unknown_result (settlement_ref : string) (error : string) : ReconcileResult :=
  {| rc_status := "UNKNOWN"; rc_settlement_ref := settlement_ref; rc_amount_sat := 0;
     rc_fee_sat := 0; rc_rail := None; rc_verified := false; rc_error := Some error |}.

Definition default_reconcile_settlement {W} (prepared_payload : bytes) (prepared_hash : string)
    (expected_amount_sat : Z) : PyM W ReconcileResult :=
  mret (unknown_result "" "adapter does not support settlement reconciliation").

(** ** Commands *)

(** The options shared by every command. *)
Record CliOptions := {
  cli_rpc_server : string;
  cli_network : string;
  cli_no_tls : bool;
  cli_no_macaroons : bool
}.

Definition flag (b : bool) (name : string) : list string := if b then [name] else [].

Definition common_args (o : CliOptions) : list string :=
  [ "wavecli"; "--network"; cli_network o; "--rpcserver";
    if String.eqb (cli_rpc_server o) "" then "localhost:10029" else cli_rpc_server o ]
  ++ flag (cli_no_tls o) "--no-tls" ++ flag (cli_no_macaroons o) "--no-macaroons".

Definition build_raw_rpc_cmd (o : CliOptions) (json_output : bool) (timeout : option string)
    (service method request_json : string) : list string :=
  common_args o ++ flag json_output "--json"
  ++ match timeout with Some t => ["--timeout"; t] | None => [] end
  ++ ["dev"; service; method; "--request-json"; request_json].

Definition build_wavecli_activity_cmd (o : CliOptions) (json_output : bool) (kind : string)
    (inspect_id : option string) : list string :=
  common_args o ++ flag json_output "--json" ++ ["activity"]
  ++ match inspect_id with
     | Some i => if String.eqb i "" then ["--format"; "json"; "--kind"; kind] else ["inspect"; i]
     | None => ["--format"; "json"; "--kind"; kind]
     end.

Definition RAW_RPC_SERVICE : string := "wavewalletrpc.WalletService".

(** ** Executors *)

Class WavecliExecutor (W : Type) := { wavecli_run : list string → PyM W json }.

(** [int(time.time())] *)
Class WallClock (W : Type) := { time_now : PyM W Z }.

(** [subprocess.run] on a command: the two exceptions the executor handles, or
    a completed process; anything else it may raise is raised by the monad. *)
Inductive proc_result :=
  | ProcNotFound
  | ProcTimeout
  | ProcCompleted (returncode : Z) (stdout stderr : string).

Class Subprocess (W : Type) := { subprocess_run : list string → Z → PyM W proc_result }.

Section SubprocessExecutor.
Context `{Host} {W : Type} `{Subprocess W}.

Definition subprocess_wavecli_run (cmd : list string) : PyM W json :=
  r ← subprocess_run cmd 30;
  match r with
  | ProcNotFound => raise CAdapterError "wavecli binary not found; install wavecli"
  | ProcTimeout => raise CAdapterError ("wavecli timed out after " +:+ show_Z 30 +:+ "s")
  | ProcCompleted rc stdout stderr =>
      if negb (rc =? 0) then
        raise CAdapterError ("wavecli exited with code " +:+ show_Z rc +:+ ": "
                               +:+ redact_sensitive (py_strip stderr))
      else
        let out := py_strip stdout in
        if String.eqb out "" then raise CAdapterError "wavecli returned empty output"
        else match loads out with
             | Some j => mret j
             | None => raise CAdapterError ("wavecli returned invalid JSON: "
                                              +:+ json_error_text out)
             end
  end.

Definition SubprocessWavecliExecutor : WavecliExecutor W :=
  {| wavecli_run := subprocess_wavecli_run |}.
End SubprocessExecutor.

(** The in-memory executor: queued responses and the record of calls. *)
Record FakeWavecli := {
  fw_responses : list json;
  fw_calls : list (list string);
  fw_now : Z
}.

Definition fake_set_response (response : json) (w : FakeWavecli) : FakeWavecli :=
  {| fw_responses := fw_responses w ++ [response]; fw_calls := fw_calls w; fw_now := fw_now w |}.

Definition fake_set_responses (responses : list json) (w : FakeWavecli) : FakeWavecli :=
  {| fw_responses := fw_responses w ++ responses; fw_calls := fw_calls w; fw_now := fw_now w |}.

Definition fake_run (cmd : list string) : PyM FakeWavecli json :=
  λ w, let calls := fw_calls w ++ [cmd] in
       match fw_responses w with
       | [] => (fail CAdapterError "FakeWavecliExecutor: no response configured",
                {| fw_responses := []; fw_calls := calls; fw_now := fw_now w |})
       | r :: rs => (Ok r, {| fw_responses := rs; fw_calls := calls; fw_now := fw_now w |})
       end.

Definition fake_last_call (w : FakeWavecli) : option (list string) := last (fw_calls w).

#[export] Instance FakeWavecliExecutor : WavecliExecutor FakeWavecli := {| wavecli_run := fake_run |}.
#[export] Instance fake_clock : WallClock FakeWavecli := {| time_now := gets fw_now |}.

(** ** Parsing wavecli output *)

Section Parse.
Context `{Host}.

(** [re.fullmatch] with an optional sign and digits, or a decimal point. *)
Definition coerce_text (text : string) : option json :=
  let l := chars text in
  let '(neg, body) :=
    match l with
    | c :: r => if Ascii.eqb c "-" then (true, r) else if Ascii.eqb c "+" then (false, r)
                else (false, l)
    | [] => (false, l)
    end in
  match span_digits body with
  | ((_ :: _) as ip, []) => Some (JInt (if neg then - digits_val ip else digits_val ip))
  | (ip, dot :: r) =>
      match span_digits r with
      | (fp, []) =>
          if Ascii.eqb dot "." && negb (Nat.eqb (List.length ip + List.length fp) 0)
          then Some (JFloat (float_of_dec neg (digits_val (ip ++ fp)) (- Z.of_nat (List.length fp))))
          else None
      | _ => None
      end
  | _ => None
  end.

Definition coerce_numeric (value : json) (field : string) : outcome json :=
  let unexpected := fail CAdapterError ("unexpected " +:+ field +:+ " type: " +:+ type_name value) in
  match value with
  | JBool _ => fail CAdapterError ("unexpected " +:+ field +:+ " type: bool")
  | JInt _ | JFloat _ => Ok value
  | JStr s => match coerce_text (py_strip s) with Some n => Ok n | None => unexpected end
  | _ => unexpected
  end.

Record SendPreview := {
  sp_send_intent_id : json;
  sp_amount_sat : Z;
  sp_expected_fee_sat : Z;
  sp_expected_total_outflow_sat : Z;
  sp_rail : string;
  sp_payment_hash : string;
  sp_expires_at_unix : Z;
  sp_quote_status : json
}.

Definition adapter_check (b : bool) (msg : string) : outcome unit :=
  if b then Ok tt else fail CAdapterError msg.

Definition parse_prepare_response (data : json) : outcome SendPreview :=
  match data with
  | JObj data =>
      let send_intent_id := jget data "send_intent_id" (JStr "") in
      adapter_check (truthy send_intent_id)
        "PrepareSend returned empty send_intent_id; cannot proceed without a valid intent token" ;;
      expires_at ← coerce_numeric (jget data "expires_at_unix" (JInt 0)) "expires_at_unix";
      fee_sat ← coerce_numeric (jget data "expected_fee_sat" (JInt 0)) "expected_fee_sat";
      adapter_check (truthy (jget data "fee_known" (JBool false)))
        "PrepareSend returned fee_known=false; fee must be known before policy approval" ;;
      total ← coerce_numeric (jget data "expected_total_outflow_sat" (JInt 0))
                "expected_total_outflow_sat";
      adapter_check (truthy (jget data "total_outflow_known" (JBool false)))
        "PrepareSend returned total_outflow_known=false; total outflow must be known before policy approval" ;;
      payment_hash ←
        match jget data "payment_hash" (JStr "") with
        | JStr h => if String.eqb h "" then fail CAdapterError
            "PrepareSend returned empty payment_hash; cannot bind a recipient receipt safely" else Ok h
        | _ => fail CAdapterError
            "PrepareSend returned empty payment_hash; cannot bind a recipient receipt safely"
        end;
      let rail_label :=
        match jget data "rail" (JStr "") with
        | JStr s => py_remove "SEND_RAIL_" s
        | j => py_str j
        end in
      amount ← coerce_numeric (jget data "amount_sat" (JInt 0)) "amount_sat";
      amount_sat ← py_int amount; fee ← py_int fee_sat; outflow ← py_int total;
      expires ← py_int expires_at;
      Ok {| sp_send_intent_id := send_intent_id; sp_amount_sat := amount_sat;
            sp_expected_fee_sat := fee; sp_expected_total_outflow_sat := outflow;
            sp_rail := rail_label; sp_payment_hash := payment_hash;
            sp_expires_at_unix := expires;
            sp_quote_status := jget data "quote_status" (JStr "") |}
  | _ => fail CAdapterError ("PrepareSend returned expected object, got " +:+ type_name data)
  end.

(** The hash at the top level, in [progress] or in the request. *)
Definition dict_or_empty (j : json) : option (list (string * json)) :=
  match j with JObj d => Some d | _ => None end.

Definition hash_field (d : list (string * json)) : option string :=
  let ph := jget d "payment_hash" (JStr "") in
  if truthy ph then Some (py_str ph) else None.

Definition extract_payment_hash (entry : list (string * json)) : string :=
  match hash_field entry with
  | Some h => h
  | None =>
      match dict_or_empty (jget entry "progress" (JObj [])) ≫= hash_field with
      | Some h => h
      | None =>
          default ""
            (request ← dict_or_empty (jget entry "request" (JObj []));
             ln ← dict_or_empty (jget request "lightning_invoice" (JObj []));
             hash_field ln)
      end
  end.

Record SendResponse := {
  sr_entry_id : json;
  sr_payment_hash : json;
  sr_amount_sat : Z;
  sr_fee_sat : Z;
  sr_status : string
}.

Definition PROTO_STATUS_MAP (z : Z) : string :=
  match z with
  | 0 => "UNSPECIFIED" | 1 => "PENDING" | 2 => "COMPLETE" | 3 => "FAILED" | _ => show_Z z
  end.

Definition normalize_status (s : string) : string := py_remove "ENTRY_STATUS_" (py_upper s).

Definition parse_send_response (data : json) : outcome SendResponse :=
  match data with
  | JObj data =>
      match jget data "entry" JNull with
      | JObj entry =>
          let entry_id := jget entry "id" (JStr "") in
          adapter_check (truthy entry_id) "SendResponse entry has empty id" ;;
          let ph := extract_payment_hash entry in
          let payment_hash := if String.eqb ph "" then entry_id else JStr ph in
          actual ← py_int (jget data "actual_amount_sat" (JInt 0));
          amount_sat ← (if actual =? 0 then py_int (jget entry "amount_sat" (JInt 0))
                        else Ok actual);
          let status :=
            match jget entry "status" (JStr "UNSPECIFIED") with
            | JInt z => PROTO_STATUS_MAP z
            | JBool b => PROTO_STATUS_MAP (Z.b2z b)
            | JStr s => normalize_status s
            | j => py_str j
            end in
          fee_sat ← py_int (jget entry "fee_sat" (JInt 0));
          Ok {| sr_entry_id := entry_id; sr_payment_hash := payment_hash;
                sr_amount_sat := amount_sat; sr_fee_sat := fee_sat; sr_status := status |}
      | j => fail CAdapterError ("SendResponse missing 'entry' dict; got " +:+ type_name j)
      end
  | _ => fail CAdapterError ("Send returned expected object, got " +:+ type_name data)
  end.

Record ActivityEntry := {
  ae_status : string;
  ae_amount_sat : Z;
  ae_fee_sat : Z;
  ae_payment_hash : string
}.

Definition parse_activity_entry (data : json) : outcome ActivityEntry :=
  match data with
  | JObj data =>
      let entry := match dget data "entry" with Some (JObj e) => e | _ => data end in
      let status :=
        match jget entry "status" (JStr "UNSPECIFIED") with
        | JStr s => normalize_status s
        | j => py_str j
        end in
      amount ← py_int (jget entry "amount_sat" (JInt 0));
      fee ← py_int (jget entry "fee_sat" (JInt 0));
      Ok {| ae_status := status; ae_amount_sat := amount; ae_fee_sat := fee;
            ae_payment_hash := extract_payment_hash entry |}
  | _ => fail CAdapterError ("expected dict for activity entry, got " +:+ type_name data)
  end.

Definition is_dict (j : json) : bool := match j with JObj _ => true | _ => false end.

Definition activity_entries (data : json) : list json :=
  match data with
  | JList l => List.filter is_dict l
  | JObj d0 =>
      let d := match jget d0 "activity" JNull with JObj a => a | _ => d0 end in
      let candidate := jget d "entries" (jget d "items" (jget d "recent" (JList []))) in
      let candidate :=
        match jget d "entry" JNull with
        | JObj e => if truthy candidate then candidate else JList [JObj e]
        | _ => candidate
        end in
      let candidate := if is_dict candidate then JList [candidate] else candidate in
      match candidate with JList l => List.filter is_dict l | _ => [] end
  | _ => []
  end.
End Parse.

(** ** Tests *)

Example coerce_texts :
  (coerce_text "123", coerce_text "-7", coerce_text "+1.5", coerce_text ".", coerce_text "1e3")
  = (Some (JInt 123), Some (JInt (-7)), Some (JFloat (float_of_dec false 15 (-1))), None, None).
Proof. vm_compute. reflexivity. Qed.

End Adapter.
