(* ===== verification/Wavelength.v ===== *)
(** * The Wavelength adapter ([adapter.py], [WavelengthAdapter])

    The concrete settlement adapter over any executor and clock: the gate on
    the network, and the five operations of the interface. *)

From S2P Require Import Prelude.
From S2P Require Import Json.
From S2P Require Import JsonText.
From S2P Require Import Models.
From S2P Require Import Redact.
From S2P Require Import Adapter.
Import Models Redact Adapter.

Module Wavelength.

(** [__init__] keeps the options it is given, on the test networks only. *)
Definition wavelength_init (executor_opts : CliOptions) : outcome CliOptions :=
  let network := cli_network executor_opts in
  if bool_decide (network ∈ ["regtest"; "signet"]) then Ok executor_opts
  else fail CValueError
    ("WavelengthAdapter only supports regtest or signet; got '" +:+ network
       +:+ "'. Never default to mainnet.").

Definition default_options : CliOptions :=
  {| cli_rpc_server := "localhost:10029"; cli_network := "regtest";
     cli_no_tls := true; cli_no_macaroons := true |}.

(** The separators of the requests to the daemon and of the payload. *)
Definition request_opts : dump_opts :=
  {| sort_keys := true; compact := false; ensure_ascii := true |}.
Definition payload_opts : dump_opts :=
  {| sort_keys := true; compact := true; ensure_ascii := true |}.

Definition prepare_request `{Host} (invoice : string) (max_fee_sat : Z) : string :=
  dumps request_opts (JObj [("invoice", JStr invoice); ("max_fee_sat", JInt max_fee_sat)]).

Definition send_request `{Host} (send_intent_id : json) : string :=
  dumps request_opts (JObj [("send_intent_id", send_intent_id)]).

Definition payload_dict (prepared : SendPreview) (invoice : string) (max_fee_sat : Z)
    : list (string * json) :=
  [ ("send_intent_id", sp_send_intent_id prepared);
    ("amount_sat", JInt (sp_amount_sat prepared));
    ("fee_sat", JInt (sp_expected_fee_sat prepared));
    ("total_outflow_sat", JInt (sp_expected_total_outflow_sat prepared));
    ("payment_hash", JStr (sp_payment_hash prepared));
    ("expires_at_unix", JInt (sp_expires_at_unix prepared));
    ("rail", JStr (sp_rail prepared));
    ("quote_status", sp_quote_status prepared);
    ("invoice", JStr invoice);
    ("max_fee_sat", JInt max_fee_sat) ].

(** [json.loads(payload.decode("utf-8"))], with the two errors it handles. *)
Definition decode_payload (prepared_payload : bytes) : option json :=
  if utf8_valid (chars prepared_payload) then loads prepared_payload else None.

(** [re.sub] accepts a string only. *)
Definition redact_object (j : json) : outcome string :=
  match j with
  | JStr s => Ok (redact_sensitive s)
  | _ => fail CTypeError ("expected string or bytes-like object, got '" +:+ type_name j +:+ "'")
  end.

Section Wavelength.
Context `{Host} {W : Type} `{WavecliExecutor W} `{WallClock W}.
Variable opts : CliOptions.

Definition prepare (receive_instruction : RailReceiveInstruction) (amount_sat max_fee_sat : Z)
    : PyM W PrepareResult :=
  raise_if (negb (bool_decide (ri_rail receive_instruction = LIGHTNING))) CAdapterError
    ("unsupported rail: " +:+ rail_value (ri_rail receive_instruction)) ;;
  let invoice := default "" (ri_invoice receive_instruction) in
  raise_if (String.eqb invoice "") CAdapterError "no invoice in receive instruction" ;;
  let cmd := build_raw_rpc_cmd opts true None RAW_RPC_SERVICE "PrepareSend"
               (prepare_request invoice max_fee_sat) in
  data ← try_except (wavecli_run cmd) (λ e,
    if isinstance_exn e CAdapterError then Some (reraise e)
    else Some (raise CAdapterError ("raw PrepareSend failed: "
                                      +:+ redact_sensitive (exn_msg e))));
  prepared ← lift (parse_prepare_response data);
  now ← time_now;
  raise_if (sp_expires_at_unix prepared <=? now) CAdapterError
    "PrepareSend returned an expired intent" ;;
  raise_if (negb (sp_amount_sat prepared =? amount_sat)) CAdapterError
    ("PrepareSend amount " +:+ show_Z (sp_amount_sat prepared)
       +:+ " does not match quoted amount " +:+ show_Z amount_sat) ;;
  raise_if (max_fee_sat <? sp_expected_fee_sat prepared) CAdapterError
    ("raw PrepareSend fee " +:+ show_Z (sp_expected_fee_sat prepared)
       +:+ " exceeds max_fee_sat " +:+ show_Z max_fee_sat) ;;
  raise_if (negb (sp_expected_total_outflow_sat prepared =?
                  sp_amount_sat prepared + sp_expected_fee_sat prepared)) CAdapterError
    "PrepareSend total outflow does not equal amount plus fee" ;;
  let prepared_payload := dumps payload_opts (JObj (payload_dict prepared invoice max_fee_sat)) in
  mret {| pp_fee_sat := sp_expected_fee_sat prepared;
          pp_prepared_hash := compute_prepared_hash prepared_payload;
          pp_rail := LIGHTNING;
          pp_prepared_payload := prepared_payload |}.

Definition execute (prepared_payload : bytes) (prepared_hash : string) : PyM W ExecuteResult :=
  raise_if (negb (String.eqb (compute_prepared_hash prepared_payload) prepared_hash)) CAdapterError
    "prepared_payload does not match prepared_hash; execute called with tampered or wrong payload" ;;
  decoded ← lift (of_opt CAdapterError
                    ("cannot decode prepared payload: " +:+ json_error_text prepared_payload)
                    (decode_payload prepared_payload));
  payload ← lift (of_opt CAttributeError
                    ("'" +:+ type_name decoded +:+ "' object has no attribute 'get'")
                    (as_dict decoded));
  let send_intent_id := jget payload "send_intent_id" (JStr "") in
  raise_if (negb (truthy send_intent_id)) CAdapterError
    "prepared payload missing send_intent_id; cannot dispatch without a valid intent token" ;;
  let expired := raise CAdapterError
    "prepared intent is missing, malformed, or expired; re-prepare before executing" in
  match as_int (jget payload "expires_at_unix" (JInt 0)) with
  | None => expired
  | Some expires_at => now ← time_now; if expires_at <=? now then expired else mret tt
  end ;;
  let cmd := build_raw_rpc_cmd opts true None RAW_RPC_SERVICE "Send" (send_request send_intent_id) in
  data ← try_except (wavecli_run cmd) (λ e,
    Some (raise CAmbiguousResult ("raw Send outcome unknown: " +:+ redact_sensitive (exn_msg e))));
  result ← lift (parse_send_response data);
  let status := sr_status result in
  (if String.eqb status "FAILED" then
     entry ← lift (redact_object (sr_entry_id result));
     raise CAdapterError ("raw Send returned FAILED: entry " +:+ entry)
   else if String.eqb status "PENDING" then
     entry ← lift (redact_object (sr_entry_id result));
     raise CAmbiguousResult ("raw Send dispatched but status is PENDING (entry " +:+ entry
       +:+ "); settlement not confirmed — manual verification required")
   else raise_if (negb (String.eqb status "COMPLETE")) CAmbiguousResult
          ("unknown send status: " +:+ status)) ;;
  raise_if (negb (truthy (sr_payment_hash result))) CAmbiguousResult
    "raw Send returned no payment_hash; settlement status unknown" ;;
  raise_if (negb (py_eq (JInt (sr_amount_sat result)) (jget payload "amount_sat" JNull)))
    CAmbiguousResult "raw Send amount differs from the prepared preview" ;;
  raise_if (negb (py_eq (sr_entry_id result) (jget payload "payment_hash" JNull)))
    CAmbiguousResult "raw Send entry ID differs from the prepared payment hash" ;;
  raise_if (negb (py_eq (sr_payment_hash result) (jget payload "payment_hash" JNull)))
    CAmbiguousResult "raw Send payment hash differs from the prepared preview" ;;
  mret {| er_settlement_ref := sr_payment_hash result;
          er_amount_sat := sr_amount_sat result;
          er_fee_sat := sr_fee_sat result;
          er_rail := LIGHTNING |}.

(** A read-only query: its failure is a message, never an exception. *)
Definition query (cmd : list string) (adapter_text other_text : string)
    : PyM W (string + json) :=
  try_except (data ← wavecli_run cmd; mret (inr data)) (λ e,
    Some (mret (inl ((if isinstance_exn e CAdapterError then adapter_text else other_text)
                       +:+ redact_sensitive (exn_msg e))))).

(** The result for a matching entry, or nothing for an entry to skip. *)
Definition reconcile_entry (payment_hash : string) (expected_amount_sat : Z) (entry : json)
    : outcome (option ReconcileResult) :=
  match parse_activity_entry entry with
  | Raise e => if isinstance_exn e CAdapterError then Ok None else Raise e
  | Ok parsed =>
      if negb (String.eqb (ae_payment_hash parsed) payment_hash) then Ok None
      else
        let observed_amount := Z.abs (ae_amount_sat parsed) in
        let result status rail verified error :=
          {| rc_status := status; rc_settlement_ref := payment_hash;
             rc_amount_sat := observed_amount; rc_fee_sat := ae_fee_sat parsed;
             rc_rail := rail; rc_verified := verified; rc_error := error |} in
        Ok (Some
          (if negb (observed_amount =? expected_amount_sat) then
             result "UNKNOWN" None false
               (Some ("activity amount mismatch: expected " +:+ show_Z expected_amount_sat
                        +:+ ", got " +:+ show_Z observed_amount))
           else if String.eqb (ae_status parsed) "COMPLETE" then
             result "COMPLETE" (Some LIGHTNING) true None
           else if String.eqb (ae_status parsed) "PENDING" then
             result "PENDING" (Some LIGHTNING) false
               (Some "matching sender activity is still PENDING")
           else result "UNKNOWN" (Some LIGHTNING) false
                  (Some ("matching sender activity has status " +:+ ae_status parsed))))
  end.

(** A loop over entries that returns at the first one that decides. *)
Fixpoint first_result {R} (f : json → outcome (option R)) (dflt : R) (entries : list json)
    : outcome R :=
  match entries with
  | [] => Ok dflt
  | entry :: rest =>
      r ← f entry; match r with Some x => Ok x | None => first_result f dflt rest end
  end.

Definition reconcile_settlement (prepared_payload : bytes) (prepared_hash : string)
    (expected_amount_sat : Z) : PyM W ReconcileResult :=
  if negb (String.eqb (compute_prepared_hash prepared_payload) prepared_hash) then
    mret (unknown_result "" "prepared payload does not match prepared_hash")
  else match decode_payload prepared_payload with
  | None => mret (unknown_result "" ("cannot decode prepared payload: "
                    +:+ redact_sensitive (json_error_text prepared_payload)))
  | Some (JObj payload) =>
      let payment_hash := match jget payload "payment_hash" (JStr "") with JStr s => s | _ => "" end in
      if String.eqb payment_hash "" then
        mret (unknown_result "" "prepared payload has no payment_hash")
      else match py_int (jget payload "amount_sat" (JInt 0)) with
      | Raise e =>
          if isinstance_exn e CTypeError || isinstance_exn e CValueError then
            mret (unknown_result payment_hash "prepared payload has invalid amount_sat")
          else reraise e
      | Ok amount_sat =>
          if negb (amount_sat =? expected_amount_sat) then
            mret (unknown_result payment_hash "prepared amount does not match the intent")
          else
            let cmd := build_wavecli_activity_cmd opts true "send" None in
            data ← query cmd "cannot query sender activity: " "sender activity query failed: ";
            match data with
            | inl error => mret (unknown_result payment_hash error)
            | inr data =>
                lift (first_result (reconcile_entry payment_hash expected_amount_sat)
                        (unknown_result payment_hash "no matching sender activity entry found")
                        (activity_entries data))
            end
      end
  | Some _ => mret (unknown_result "" "prepared payload is not a JSON object")
  end.

Definition not_verified (settlement_ref : string) (amount_sat fee_sat : Z) (error : string)
    : ReceiptVerifyResult :=
  {| rv_verified := false; rv_settlement_ref := settlement_ref; rv_amount_sat := amount_sat;
     rv_fee_sat := fee_sat; rv_error := Some error |}.

Definition verify_entry (settlement_ref : string) (expected_amount_sat : Z) (kind : string)
    (entry : json) : outcome (option ReceiptVerifyResult) :=
  match parse_activity_entry entry with
  | Raise e => if isinstance_exn e CAdapterError then Ok None else Raise e
  | Ok parsed =>
      if negb (String.eqb (ae_payment_hash parsed) settlement_ref) then Ok None
      else
        let amount_sat := if String.eqb kind "send" then Z.abs (ae_amount_sat parsed)
                          else ae_amount_sat parsed in
        Ok (Some
          (if negb (String.eqb (ae_status parsed) "COMPLETE") then
             not_verified settlement_ref amount_sat (ae_fee_sat parsed)
               ("entry found but status is " +:+ ae_status parsed +:+ "; expected COMPLETE")
           else if negb (amount_sat =? expected_amount_sat) then
             not_verified settlement_ref amount_sat (ae_fee_sat parsed)
               ("amount mismatch: expected " +:+ show_Z expected_amount_sat +:+ ", got "
                  +:+ show_Z amount_sat)
           else {| rv_verified := true; rv_settlement_ref := settlement_ref;
                   rv_amount_sat := amount_sat; rv_fee_sat := ae_fee_sat parsed;
                   rv_error := None |}))
  end.

Definition verify_activity (settlement_ref : string) (expected_amount_sat : Z) (kind : string)
    : PyM W ReceiptVerifyResult :=
  let cmd := build_wavecli_activity_cmd opts true kind None in
  data ← query cmd "cannot query activity: " "activity query failed: ";
  match data with
  | inl error => mret (not_verified settlement_ref 0 0 error)
  | inr data =>
      lift (first_result (verify_entry settlement_ref expected_amount_sat kind)
              (not_verified settlement_ref 0 0
                 ("no activity entry found for settlement_ref " +:+ py_take 8 settlement_ref
                    +:+ "...; cannot verify receipt without source-grounded ID mapping (fail closed)"))
              (activity_entries data))
  end.

Definition verify_receipt (settlement_ref : string) (expected_amount_sat : Z) :=
  verify_activity settlement_ref expected_amount_sat "recv".

Definition verify_sender_settlement (settlement_ref : string) (expected_amount_sat : Z) :=
  verify_activity settlement_ref expected_amount_sat "send".

Definition WavelengthAdapter : SettlementAdapter W :=
  {| ad_rail := LIGHTNING;
     ad_prepare := prepare;
     ad_execute := execute;
     ad_verify_receipt := verify_receipt;
     ad_verify_sender_settlement := verify_sender_settlement;
     ad_reconcile_settlement := reconcile_settlement |}.
End Wavelength.
End Wavelength.
