(* ===== verification/WavelengthFacts.v ===== *)
(** * Theorems about the Wavelength adapter

    The adapter runs over a logged executor: the world is paired with the list
    of commands given to the executor, so a theorem can state which commands an
    operation issued, for every executor and clock. *)

From S2P Require Import Prelude.
From S2P Require Import Json.
From S2P Require Import JsonText.
From S2P Require Import JsonFacts.
From S2P Require Import Models.
From S2P Require Import Redact.
From S2P Require Import Adapter.
From S2P Require Import Wavelength.
Import Models Redact Adapter Wavelength.

(** ** Observing the commands *)

Section Logged.
Context {W : Type} {E : WavecliExecutor W} {C : WallClock W}.

#[export] Instance logged_executor : WavecliExecutor (W * list (list string)) :=
  {| wavecli_run cmd := λ '(w, l), let '(o, w') := wavecli_run cmd w in (o, (w', l ++ [cmd])) |}.
#[export] Instance logged_clock : WallClock (W * list (list string)) :=
  {| time_now := λ '(w, l), let '(o, w') := time_now w in (o, (w', l)) |}.

Lemma wp_run cmd (Q : outcome json → W * list (list string) → Prop) s :
  wp (wavecli_run cmd) Q s =
  Q (wavecli_run cmd s.1).1 ((wavecli_run cmd s.1).2, s.2 ++ [cmd]).
Proof. destruct s as [w l]. unfold wp. simpl. by destruct (wavecli_run cmd w). Qed.

Lemma wp_now (Q : outcome Z → W * list (list string) → Prop) s :
  wp time_now Q s = Q (time_now s.1).1 ((time_now s.1).2, s.2).
Proof. destruct s as [w l]. unfold wp. simpl. by destruct (time_now w). Qed.
End Logged.

(** Symbolic execution with the rules for the two effects. *)
Ltac wl_step :=
  first
    [ wp_step
    | rewrite wp_run
    | rewrite wp_now
    | match goal with
      | |- wp (match ?x with _ => _ end) _ _ => destruct x eqn:?
      | |- match ?o with Ok _ => _ | Raise _ => _ end => destruct o eqn:?
      | |- context [if ?b then _ else _] => destruct b eqn:?
      end ].
Ltac wl_steps := repeat (wl_step; cbn beta iota zeta).

Section Facts.
Context `{Host} {W : Type} {E : WavecliExecutor W} {C : WallClock W}.
Variable opts : CliOptions.
Implicit Types (w : W) (l : list (list string)).

Definition prepare_cmd (invoice : string) (max_fee_sat : Z) : list string :=
  build_raw_rpc_cmd opts true None RAW_RPC_SERVICE "PrepareSend" (prepare_request invoice max_fee_sat).
Definition send_cmd (d : list (string * json)) : list string :=
  build_raw_rpc_cmd opts true None RAW_RPC_SERVICE "Send"
    (send_request (jget d "send_intent_id" (JStr ""))).

(** What execution makes of the executor's answer to the Send of [d]. *)
Definition send_outcome (d : list (string * json)) (answer : outcome json)
    (o : outcome ExecuteResult) : Prop :=
  match answer, o with
  | Raise _, _ => ∃ msg, o = Raise (Exn CAmbiguousResult msg)
  | Ok data, Ok r =>
      ∃ res, parse_send_response data = Ok res ∧ sr_status res = "COMPLETE" ∧
        truthy (sr_payment_hash res) = true ∧
        py_eq (JInt (sr_amount_sat res)) (jget d "amount_sat" JNull) = true ∧
        py_eq (sr_entry_id res) (jget d "payment_hash" JNull) = true ∧
        py_eq (sr_payment_hash res) (jget d "payment_hash" JNull) = true ∧
        r = {| er_settlement_ref := sr_payment_hash res; er_amount_sat := sr_amount_sat res;
               er_fee_sat := sr_fee_sat res; er_rail := LIGHTNING |}
  | Ok data, Raise e =>
      match parse_send_response data with
      | Raise e' => e = e'
      | Ok res => sr_status res ≠ "FAILED" → sr_status res ≠ "PENDING" →
                  exn_cls e = CAmbiguousResult
      end
  end.

Definition sendable (payload : bytes) (hash : string) (now : Z) (d : list (string * json)) : Prop :=
  compute_prepared_hash payload = hash ∧ decode_payload payload = Some (JObj d) ∧
  truthy (jget d "send_intent_id" (JStr "")) = true ∧
  ∃ expires_at, as_int (jget d "expires_at_unix" (JInt 0)) = Some expires_at ∧ now < expires_at.

Lemma as_dict_Some j d : as_dict j = Some d → j = JObj d.
Proof. destruct j; try done. by intros [= ->]. Qed.

Ltac wl_facts :=
  bool_facts; cbn [fst snd] in *;
  repeat match goal with
  | Hx : of_opt _ _ _ = Ok _ |- _ => apply of_opt_Ok in Hx
  | Hx : of_opt _ _ _ = Raise _ |- _ => apply of_opt_Raise in Hx
  | Hx : as_dict _ = Some _ |- _ => apply as_dict_Some in Hx; subst
  end.

Lemma execute_wp payload hash w l :
  wp (execute opts payload hash) (λ o s',
    (s'.2 = l ∧ (∃ e, o = Raise e) ∧
     ∀ d now, (time_now w).1 = Ok now → ¬ sendable payload hash now d) ∨
    ∃ d now w1, time_now w = (Ok now, w1) ∧ sendable payload hash now d ∧
      s'.2 = l ++ [send_cmd d] ∧ send_outcome d (wavecli_run (send_cmd d) w1).1 o) (w, l).
Proof.
  unfold execute. wl_steps.
  all: wl_facts.
  all: first [solve [left; split; [done|]; split; [eexists; reflexivity|];
    intros d n Hn (Hh & Hd & Hi & z' & Hz & Hlt); simplify_eq; try congruence; try discriminate;
    match goal with H1 : ?x = Ok ?a, H2 : ?x = Ok ?b |- _ =>
      assert (a = b) as -> by congruence; lia end]|right].
  all: match goal with Hd : decode_payload _ = Some (JObj ?d), Hn : (time_now _).1 = Ok ?n |- _ =>
         exists d, n, (time_now w).2 end.
  all: split; [by destruct (time_now w); simpl in *; subst|].
  all: split; [split_and!; eauto|split; [done|]].
  all: unfold send_outcome, send_cmd;
       match goal with Hr : (wavecli_run _ _).1 = _ |- _ => rewrite Hr end;
       try match goal with Hp : parse_send_response _ = _ |- _ => rewrite Hp end;
       naive_solver.
Qed.

(** The same for [prepare]. *)
Lemma prepare_wp ri amount_sat max_fee_sat w l :
  wp (prepare opts ri amount_sat max_fee_sat) (λ o s',
    match o with
    | Raise _ => s'.2 = l ∨ ∃ invoice, s'.2 = l ++ [prepare_cmd invoice max_fee_sat]
    | Ok p =>
        ∃ invoice data prepared now w1,
          ri_invoice ri = Some invoice ∧ invoice ≠ "" ∧
          s'.2 = l ++ [prepare_cmd invoice max_fee_sat] ∧
          wavecli_run (prepare_cmd invoice max_fee_sat) w = (Ok data, w1) ∧
          parse_prepare_response data = Ok prepared ∧ (time_now w1).1 = Ok now ∧
          now < sp_expires_at_unix prepared ∧
          sp_amount_sat prepared = amount_sat ∧
          sp_expected_fee_sat prepared ≤ max_fee_sat ∧
          sp_expected_total_outflow_sat prepared = amount_sat + sp_expected_fee_sat prepared ∧
          let payload := dumps payload_opts (JObj (payload_dict prepared invoice max_fee_sat)) in
          p = {| pp_fee_sat := sp_expected_fee_sat prepared;
                 pp_prepared_hash := compute_prepared_hash payload;
                 pp_rail := LIGHTNING; pp_prepared_payload := payload |}
    end) (w, l).
Proof.
  unfold prepare. wl_steps.
  all: wl_facts.
  all: try solve [by left|right; eexists; reflexivity].
  destruct (ri_invoice ri) as [invoice|]; [cbn in *|done].
  destruct (wavecli_run _ w) as [o1 w1] eqn:Hrun; cbn in *; subst.
  do 5 eexists. split_and!; try reflexivity; eauto; lia.
Qed.

Definition activity_cmd (kind : string) : list string :=
  build_wavecli_activity_cmd opts true kind None.

(** The loop over the activity returns what the first deciding entry gives. *)
Lemma first_result_spec {R} (f : json → outcome (option R)) dflt es r :
  first_result f dflt es = Ok r →
  (∃ pre x post, es = pre ++ x :: post ∧ Forall (λ y, f y = Ok None) pre ∧ f x = Ok (Some r)) ∨
  (Forall (λ y, f y = Ok None) es ∧ r = dflt).
Proof.
  induction es as [|x es IH]; cbn; [intros [= ->]; by right; split|].
  destruct (f x) as [[r'|]|e] eqn:Hx; cbn; [|intros Hr|done].
  - intros [= ->]. left. by exists [], x, es.
  - destruct (IH Hr) as [(pre & y & post & -> & Hpre & Hy)|[Hall ->]].
    + left. exists (x :: pre), y, post. by split_and!; [|constructor|].
    + right. by split; [constructor|].
Qed.

Lemma first_result_app {R} (f : json → outcome (option R)) dflt pre x post r :
  Forall (λ y, f y = Ok None) pre → f x = Ok (Some r) →
  first_result f dflt (pre ++ x :: post) = Ok r.
Proof. induction 1 as [|y pre Hy _ IH]; cbn; intros Hx; [by rewrite Hx|by rewrite Hy, IH]. Qed.

(** An entry that does not decide: malformed, or about another payment. *)
Definition other_entry (hash : string) (entry : json) : Prop :=
  match parse_activity_entry entry with
  | Ok parsed => ae_payment_hash parsed ≠ hash
  | Raise e => isinstance_exn e CAdapterError = true
  end.

(** The first entry about [hash] in the activity, parsed. *)
Definition first_entry (hash : string) (data : json) (parsed : ActivityEntry) : Prop :=
  ∃ pre entry post, activity_entries data = pre ++ entry :: post ∧
    Forall (other_entry hash) pre ∧ parse_activity_entry entry = Ok parsed ∧
    ae_payment_hash parsed = hash.

Lemma verify_entry_None ref amount kind entry :
  verify_entry ref amount kind entry = Ok None ↔ other_entry ref entry.
Proof.
  unfold verify_entry, other_entry. destruct (parse_activity_entry entry) as [p|e].
  - destruct (String.eqb_spec (ae_payment_hash p) ref); cbn; split; done.
  - destruct (isinstance_exn e CAdapterError); split; done.
Qed.

Lemma reconcile_entry_None ref amount entry :
  reconcile_entry ref amount entry = Ok None ↔ other_entry ref entry.
Proof.
  unfold reconcile_entry, other_entry. destruct (parse_activity_entry entry) as [p|e].
  - destruct (String.eqb_spec (ae_payment_hash p) ref); cbn; split; done.
  - destruct (isinstance_exn e CAdapterError); split; done.
Qed.

Definition signed_amount (kind : string) (parsed : ActivityEntry) : Z :=
  if String.eqb kind "send" then Z.abs (ae_amount_sat parsed) else ae_amount_sat parsed.

Lemma verify_loop ref amount kind data dflt r :
  rv_verified dflt = false →
  first_result (verify_entry ref amount kind) dflt (activity_entries data) = Ok r →
  rv_verified r = true ↔
  ∃ parsed, first_entry ref data parsed ∧ ae_status parsed = "COMPLETE" ∧
            signed_amount kind parsed = amount.
Proof.
  intros Hdflt Hr. split.
  - intros Hv. apply first_result_spec in Hr as [(pre & x & post & Hes & Hpre & Hx)|[_ ->]];
      [|congruence].
    unfold verify_entry in Hx. destruct (parse_activity_entry x) as [p|e] eqn:Hp;
      [|by destruct (isinstance_exn e CAdapterError)].
    destruct (String.eqb_spec (ae_payment_hash p) ref) as [Hh|]; [cbn in Hx|done].
    exists p. unfold signed_amount.
    repeat case_match; simplify_eq/=; bool_facts; split_and!; try done;
      exists pre, x, post; (split_and!; [done| |done|done]);
      (eapply Forall_impl; [exact Hpre|intros y; apply verify_entry_None]).
  - intros (p & (pre & x & post & Hes & Hpre & Hp & Hh) & Hst & Ham).
    rewrite Hes, (first_result_app _ _ _ _ _
      {| rv_verified := true; rv_settlement_ref := ref; rv_amount_sat := amount;
         rv_fee_sat := ae_fee_sat p; rv_error := None |}) in Hr; [by injection Hr as <-| |].
    + eapply Forall_impl; [exact Hpre|]. intros y. apply verify_entry_None.
    + unfold verify_entry. rewrite Hp, Hh, Hst, !String.eqb_refl. cbn.
      unfold signed_amount in Ham. by rewrite Ham, Z.eqb_refl.
Qed.

Lemma first_entry_unique hash data p p' :
  first_entry hash data p → first_entry hash data p' → p = p'.
Proof.
  unfold first_entry. generalize (activity_entries data). intros es.
  intros (pre & x & post & -> & Hpre & Hp & Hh) (pre' & x' & post' & Heq & Hpre' & Hp' & Hh').
  revert pre' Heq Hpre'. induction Hpre as [|y pre Hy Hpre IH]; intros [|y' pre'];
    cbn; intros [= -> Heq] Hpre'.
  - congruence.
  - apply Forall_cons in Hpre' as [Hy' _]. unfold other_entry in Hy'. by rewrite Hp in Hy'.
  - unfold other_entry in Hy. by rewrite Hp' in Hy.
  - apply Forall_cons in Hpre' as [_ Hpre']. by eapply IH.
Qed.

(** The evidence for a completed sender settlement. *)
Definition complete_evidence (ref : string) (amount : Z) (data : json) : Prop :=
  ∃ parsed, first_entry ref data parsed ∧ ae_status parsed = "COMPLETE" ∧
            Z.abs (ae_amount_sat parsed) = amount.

Lemma reconcile_loop ref amount data error r :
  first_result (reconcile_entry ref amount) (unknown_result ref error) (activity_entries data) = Ok r →
  (rc_verified r = true ↔ rc_status r = "COMPLETE") ∧
  (rc_status r = "COMPLETE" ↔ complete_evidence ref amount data).
Proof.
  intros Hr. apply first_result_spec in Hr as [(pre & x & post & Hes & Hpre & Hx)|[Hall ->]].
  - unfold reconcile_entry in Hx. destruct (parse_activity_entry x) as [p|e] eqn:Hp;
      [|by destruct (isinstance_exn e CAdapterError)].
    destruct (String.eqb_spec (ae_payment_hash p) ref) as [Hh|]; [cbn in Hx|done].
    assert (first_entry ref data p) as Hf.
    { exists pre, x, post. split_and!; try done.
      eapply Forall_impl; [exact Hpre|]. intros y. apply reconcile_entry_None. }
    assert (complete_evidence ref amount data ↔
            ae_status p = "COMPLETE" ∧ Z.abs (ae_amount_sat p) = amount) as ->.
    { split; [|intros []; by exists p]. intros (p' & Hf' & ?).
      by rewrite (first_entry_unique _ _ _ _ Hf Hf'). }
    repeat case_match; simplify_eq/=; bool_facts; split; split; try done; intros []; congruence.
  - split; [done|]. split; [done|]. intros (p & (pre & x & post & Hes & Hpre & Hp & Hh) & _).
    rewrite Hes in Hall. apply Forall_app in Hall as [_ [Hx _]%Forall_cons].
    apply reconcile_entry_None in Hx. unfold other_entry in Hx. by rewrite Hp in Hx.
Qed.
End Facts.
