(* ===== verification/WavelengthThms.v ===== *)
(** * Properties of the Wavelength adapter

    Stated over any executor and any clock, with the commands observed by the
    logged executor of [WavelengthFacts]. *)

From S2P Require Import Prelude.
From S2P Require Import Json.
From S2P Require Import JsonText.
From S2P Require Import JsonFacts.
From S2P Require Import Models.
From S2P Require Import ModelsFacts.
From S2P Require Import Redact.
From S2P Require Import Adapter.
From S2P Require Import Wavelength.
From S2P Require Import WavelengthFacts.
Import Models Redact Adapter Wavelength.

Section Theorems.
Context `{Host} {W : Type} {E : WavecliExecutor W} {C : WallClock W}.

Lemma reconcile_wp opts payload hash expected (w : W) l :
  wp (reconcile_settlement opts payload hash expected) (λ o s',
    (s'.2 = l ∨ s'.2 = l ++ [activity_cmd opts "send"]) ∧
    ∀ r, o = Ok r →
      (rc_verified r = true ↔ rc_status r = "COMPLETE") ∧
      (rc_status r = "COMPLETE" ↔
       ∃ d ref data, compute_prepared_hash payload = hash ∧
         decode_payload payload = Some (JObj d) ∧
         jget d "payment_hash" (JStr "") = JStr ref ∧ ref ≠ "" ∧
         py_int (jget d "amount_sat" (JInt 0)) = Ok expected ∧
         (wavecli_run (activity_cmd opts "send") w).1 = Ok data ∧
         complete_evidence ref expected data)) (w, l).
Proof.
  unfold reconcile_settlement, query. wl_steps.
  all: bool_facts; cbn [fst snd] in *.
  all: split; [first [by left|by right]|intros r Hr; try discriminate].
  all: try (injection Hr as <-; split; [done|]; split; [done|];
    intros (d' & ref & data & Hh & Hd & Href & Hne & Hint & Hrun & Hev);
    unfold activity_cmd in Hrun; simplify_eq; try congruence; rewrite Href, ?Hint in *; by simplify_eq).
  destruct (jget d "payment_hash" (JStr "")) as [| | | |ref| |] eqn:Href; try done.
  destruct (reconcile_loop _ _ _ _ _ Hr) as [Hv Hc]. split; [done|]. rewrite Hc. split.
  - intros Hev. by exists d, ref, a0; subst.
  - intros (d' & ref' & data & Hh & Hd & Href' & Hne & Hint & Hrun & Hev). unfold activity_cmd in Hrun.
    simplify_eq. congruence.
Qed.

Lemma verify_wp opts ref expected kind (w : W) l :
  wp (verify_activity opts ref expected kind) (λ o s',
    s'.2 = l ++ [activity_cmd opts kind] ∧
    ∀ r, o = Ok r → (rv_verified r = true ↔
      ∃ data parsed, (wavecli_run (activity_cmd opts kind) w).1 = Ok data ∧
        first_entry ref data parsed ∧ ae_status parsed = "COMPLETE" ∧
        signed_amount kind parsed = expected)) (w, l).
Proof.
  unfold verify_activity, query. wl_steps.
  all: cbn [fst snd] in *; split; [done|intros r Hr].
  all: try (injection Hr as <-; split; [done|]; intros (data & p & Hrun & _);
    unfold activity_cmd in Hrun; congruence).
  apply verify_loop in Hr as ->; [|done]. unfold activity_cmd. split.
  - intros (p & Hp). by exists a, p.
  - intros (data & p & Hrun & Hp). assert (data = a) as -> by congruence. by exists p.
Qed.

Lemma parse_prepare_token data prepared :
  parse_prepare_response data = Ok prepared → truthy (sp_send_intent_id prepared) = true.
Proof.
  unfold parse_prepare_response. destruct data as [| | | | | |d]; try done. cbn zeta.
  destruct (truthy (jget d "send_intent_id" (JStr ""))) eqn:Ht; [|done].
  intros Hp. bind_inv Hp. by injection Hp as <-.
Qed.

(** The payload decodes to an object with the fields that were written. *)
Lemma payload_decodes prepared invoice max_fee_sat :
  wf_json payload_opts (JObj (payload_dict prepared invoice max_fee_sat)) = true →
  ∃ d, decode_payload (dumps payload_opts (JObj (payload_dict prepared invoice max_fee_sat))) =
         Some (JObj d) ∧
       ∀ k dflt, jget d k dflt =
         default dflt (sort_json <$> dget (payload_dict prepared invoice max_fee_sat) k).
Proof.
  intros Hwf. unfold decode_payload. rewrite dumps_utf8, loads_dumps by done.
  eexists. split; [done|]. intros k dflt.
  unfold jget. rewrite dget_sorted; [done|]. refine (proj1 (bool_decide_eq_true _) _). reflexivity.
Qed.

(** The network a command line selects. *)
Definition on_test_network (cmd : list string) : Prop :=
  cmd !! 1%nat = Some "--network" ∧
  (cmd !! 2%nat = Some "regtest" ∨ cmd !! 2%nat = Some "signet").

Lemma init_network o o' :
  wavelength_init o = Ok o' →
  o' = o ∧ (cli_network o = "regtest" ∨ cli_network o = "signet").
Proof.
  unfold wavelength_init. case_bool_decide as Hin; [|done]. intros [= <-].
  split; [done|]. by rewrite !elem_of_cons, elem_of_nil in Hin; naive_solver.
Qed.

Lemma rpc_on_test_network o j t service method request :
  cli_network o = "regtest" ∨ cli_network o = "signet" →
  on_test_network (build_raw_rpc_cmd o j t service method request).
Proof. unfold on_test_network. cbn. by intros [-> | ->]; auto. Qed.

Lemma activity_on_test_network o j kind i :
  cli_network o = "regtest" ∨ cli_network o = "signet" →
  on_test_network (build_wavecli_activity_cmd o j kind i).
Proof. unfold on_test_network. cbn. by intros [-> | ->]; auto. Qed.
End Theorems.

(** ** Properties *)

Section Properties.
Context `{Host} {W : Type} {E : WavecliExecutor W} {C : WallClock W}.
Implicit Types (w : W) (l : list (list string)).

(** C13. Execution dispatches at most once, and exactly what was approved: for
    every payload, hash, executor and clock, the commands of [execute] are the
    single raw Send of the payload's own [send_intent_id] when the payload
    hashes to the approved hash, decodes to an object with an intent token and
    has not expired, and no command at all otherwise, when it raises. *)
Theorem execute_dispatches_approved_once opts payload hash w l :
  wp (execute opts payload hash) (λ o s',
    (s'.2 = l ∧ is_ok o = false ∧
     ∀ d now, (time_now w).1 = Ok now → ¬ sendable payload hash now d) ∨
    ∃ d now, (time_now w).1 = Ok now ∧ sendable payload hash now d ∧
      s'.2 = l ++ [send_cmd opts d]) (w, l).
Proof.
  eapply wp_mono; [apply execute_wp|]. cbn beta. intros o s' [(Hl & [e ->] & Hno)|Hd].
  - by left.
  - right. destruct Hd as (d & now & w1 & Hnow & Hs & Hl & _). exists d, now. by rewrite Hnow.
Qed.

(** C14. After the dispatch the outcome is settled by the daemon's answer
    alone: an executor failure of any class is an ambiguous result; success
    needs an entry that is COMPLETE with the amount, the entry id and the
    payment hash of the approved payload, and reports that entry; an answer
    that parses and is neither FAILED nor PENDING raises an ambiguous result
    whenever it does not succeed. *)
Theorem execute_outcome opts payload hash w l d now w1
    (Hnow : time_now w = (Ok now, w1)) (Hs : sendable payload hash now d) :
  wp (execute opts payload hash) (λ o _,
    send_outcome d (wavecli_run (send_cmd opts d) w1).1 o) (w, l).
Proof.
  eapply wp_mono; [apply execute_wp|]. cbn beta. intros o s' [(_ & _ & Hno)|Hd].
  - destruct (Hno d now); [by rewrite Hnow|done].
  - destruct Hd as (d' & now' & w1' & Hnow' & Hs' & _ & Ho).
    destruct Hs as (_ & Hd & _), Hs' as (_ & Hd' & _). rewrite Hd in Hd'.
    rewrite Hnow in Hnow'. by simplify_eq.
Qed.

(** A prepared payment binds the daemon's preview: [prepare] issues no
    command but one PrepareSend, and when it returns, the preview was for the
    quoted amount, with a fee within the limit, a total of amount plus fee and
    an expiry in the future; the payload is the canonical text of that preview
    and the returned hash is its SHA-256. *)
Theorem prepare_binds_preview opts ri amount_sat max_fee_sat w l :
  wp (prepare opts ri amount_sat max_fee_sat) (λ o s',
    match o with
    | Raise _ => s'.2 = l ∨ ∃ invoice, s'.2 = l ++ [prepare_cmd opts invoice max_fee_sat]
    | Ok p =>
        ∃ invoice data prepared now w1,
          ri_invoice ri = Some invoice ∧ invoice ≠ "" ∧
          s'.2 = l ++ [prepare_cmd opts invoice max_fee_sat] ∧
          wavecli_run (prepare_cmd opts invoice max_fee_sat) w = (Ok data, w1) ∧
          parse_prepare_response data = Ok prepared ∧ (time_now w1).1 = Ok now ∧
          now < sp_expires_at_unix prepared ∧
          sp_amount_sat prepared = amount_sat ∧
          pp_fee_sat p = sp_expected_fee_sat prepared ∧ pp_fee_sat p ≤ max_fee_sat ∧
          sp_expected_total_outflow_sat prepared = amount_sat + pp_fee_sat p ∧
          pp_prepared_payload p =
            dumps payload_opts (JObj (payload_dict prepared invoice max_fee_sat)) ∧
          pp_prepared_hash p = compute_prepared_hash (pp_prepared_payload p)
    end) (w, l).
Proof.
  eapply wp_mono; [apply prepare_wp|]. intros [p|e] s' Hp; [|done].
  destruct Hp as (invoice & data & sp & now & w1 & ? & ? & ? & ? & ? & ? & ? & ? & ? & ? & ->).
  exists invoice, data, sp, now, w1. by split_and!.
Qed.

(** The intent that was prepared is the one that is sent: executing what
    [prepare] returned, with the hash it returned and before the preview
    expires, dispatches exactly one Send of the token of that preview, in any
    later world, whatever else happened in between.  (The token is text, and
    the payload's texts are ASCII.) *)
Theorem prepared_intent_is_sent opts ri amount_sat max_fee_sat w l p s1
    (Hprep : prepare opts ri amount_sat max_fee_sat (w, l) = (Ok p, s1)) :
  ∃ invoice data prepared,
    ri_invoice ri = Some invoice ∧
    (wavecli_run (prepare_cmd opts invoice max_fee_sat) w).1 = Ok data ∧
    parse_prepare_response data = Ok prepared ∧
    ∀ token w2 l2 now,
      sp_send_intent_id prepared = JStr token →
      wf_json payload_opts (JObj (payload_dict prepared invoice max_fee_sat)) = true →
      (time_now w2).1 = Ok now → now < sp_expires_at_unix prepared →
      wp (execute opts (pp_prepared_payload p) (pp_prepared_hash p))
        (λ _ s', s'.2 = l2 ++ [send_cmd opts [("send_intent_id", JStr token)]]) (w2, l2).
Proof.
  pose proof (prepare_wp opts ri amount_sat max_fee_sat w l) as Hwp.
  apply (wp_elim _ _ _ _ _ Hprep) in Hwp.
  destruct Hwp as (invoice & data & sp & now0 & w1 & Hri & _ & _ & Hrun & Hparse & _ & _ & _ & _ & _ & ->).
  pose proof (parse_prepare_token _ _ Hparse) as Hnz.
  exists invoice, data, sp. split_and!; [done|by rewrite Hrun|done|].
  intros token w2 l2 now Htok Hwf Hnow Hexp. cbn [pp_prepared_payload pp_prepared_hash].
  destruct (payload_decodes _ _ _ Hwf) as (d0 & Hd0 & Hget). rewrite Htok in Hnz.
  eapply wp_mono; [apply execute_wp|]. cbn beta. intros o s' [(_ & _ & Hno)|Hd].
  - exfalso. apply (Hno d0 now Hnow). split; [reflexivity|]. split; [exact Hd0|].
    split; [by rewrite Hget; cbn; rewrite Htok|]. exists (sp_expires_at_unix sp). by rewrite Hget.
  - destruct Hd as (d & now' & w1' & _ & (_ & Hd & _) & Hl & _). rewrite Hl.
    rewrite Hd0 in Hd. simplify_eq. unfold send_cmd. rewrite Hget. cbn. by rewrite Htok.
Qed.

(** C23. Reconciliation is read-only and sound: whatever the outcome, the only
    command it can issue is one query of the sender's activity; a result is
    verified exactly when its status is COMPLETE, and it is COMPLETE exactly
    when the payload is the approved one, names the payment hash and the
    expected amount, and the first activity entry about that hash is COMPLETE
    with that amount. *)
Theorem reconcile_read_only_and_sound opts payload hash expected w l :
  wp (reconcile_settlement opts payload hash expected) (λ o s',
    (s'.2 = l ∨ s'.2 = l ++ [activity_cmd opts "send"]) ∧
    ∀ r, o = Ok r →
      (rc_verified r = true ↔ rc_status r = "COMPLETE") ∧
      (rc_status r = "COMPLETE" ↔
       ∃ d ref data, compute_prepared_hash payload = hash ∧
         decode_payload payload = Some (JObj d) ∧
         jget d "payment_hash" (JStr "") = JStr ref ∧ ref ≠ "" ∧
         py_int (jget d "amount_sat" (JInt 0)) = Ok expected ∧
         (wavecli_run (activity_cmd opts "send") w).1 = Ok data ∧
         complete_evidence ref expected data)) (w, l).
Proof. apply reconcile_wp. Qed.

(** C24. Receipt verification trusts the right side of the wallet: the
    recipient's check reads incoming activity, the sender's check outgoing
    activity, each with one query; and a receipt is verified exactly when the
    first entry about its settlement reference is COMPLETE with the expected
    amount, outgoing amounts being compared without their sign. *)
Theorem verification_sound_complete opts ref expected w l :
  let verified kind (o : outcome ReceiptVerifyResult) (s' : W * list (list string)) :=
    s'.2 = l ++ [activity_cmd opts kind] ∧
    ∀ r, o = Ok r → (rv_verified r = true ↔
      ∃ data parsed, (wavecli_run (activity_cmd opts kind) w).1 = Ok data ∧
        first_entry ref data parsed ∧ ae_status parsed = "COMPLETE" ∧
        signed_amount kind parsed = expected) in
  wp (verify_receipt opts ref expected) (verified "recv") (w, l) ∧
  wp (verify_sender_settlement opts ref expected) (verified "send") (w, l).
Proof. cbn zeta. split; apply verify_wp. Qed.

(** No operation reaches a production network: an adapter exists only for
    regtest and signet, and every command that any of its operations issues,
    however it ends, selects that network. *)
Theorem test_networks_only opts opts' w l
    (Hinit : wavelength_init opts = Ok opts') (Hl : Forall on_test_network l) :
  let safe {A} (o : outcome A) (s' : W * list (list string)) := Forall on_test_network s'.2 in
  (∀ ri amount fee, wp (prepare opts' ri amount fee) safe (w, l)) ∧
  (∀ payload hash, wp (execute opts' payload hash) safe (w, l)) ∧
  (∀ ref amount, wp (verify_receipt opts' ref amount) safe (w, l)) ∧
  (∀ ref amount, wp (verify_sender_settlement opts' ref amount) safe (w, l)) ∧
  (∀ payload hash amount, wp (reconcile_settlement opts' payload hash amount) safe (w, l)).
Proof.
  apply init_network in Hinit as [-> Hnet]. cbn zeta.
  assert (∀ l' cmd, l' = l ++ [cmd] → on_test_network cmd → Forall on_test_network l') as Hadd.
  { intros l' cmd -> Hcmd. apply Forall_app. split; [done|by apply Forall_singleton]. }
  split_and!; intros.
  - eapply wp_mono; [apply prepare_wp|]. intros [p|e] s' Hp.
    + destruct Hp as (i & ? & ? & ? & ? & ? & ? & Hs & _). by eapply Hadd, rpc_on_test_network.
    + destruct Hp as [->|[i Hs]]; [done|]. by eapply Hadd, rpc_on_test_network.
  - eapply wp_mono; [apply execute_wp|]. intros o s' [[-> _]|(d & ? & ? & ? & ? & Hs & _)]; [done|].
    by eapply Hadd, rpc_on_test_network.
  - eapply wp_mono; [apply verify_wp|]. intros o s' [Hs _]. by eapply Hadd, activity_on_test_network.
  - eapply wp_mono; [apply verify_wp|]. intros o s' [Hs _]. by eapply Hadd, activity_on_test_network.
  - eapply wp_mono; [apply reconcile_wp|]. intros o s' [[->|Hs] _]; [done|].
    by eapply Hadd, activity_on_test_network.
Qed.
End Properties.

(** ** A concrete daemon *)

Definition preview_expiring (expires_at : Z) : json :=
  JObj [ ("send_intent_id", JStr "tok-1"); ("amount_sat", JInt 1000);
         ("expected_fee_sat", JInt 3); ("fee_known", JBool true);
         ("expected_total_outflow_sat", JInt 1003); ("total_outflow_known", JBool true);
         ("payment_hash", JStr "h-1"); ("expires_at_unix", JInt expires_at);
         ("rail", JStr "SEND_RAIL_LIGHTNING"); ("quote_status", JStr "OK") ].
Definition preview_json : json := preview_expiring 5000.

Definition complete_json : json :=
  JObj [ ("entry", JObj [ ("id", JStr "h-1"); ("status", JStr "ENTRY_STATUS_COMPLETE");
                          ("amount_sat", JInt 1000); ("fee_sat", JInt 3) ]);
         ("actual_amount_sat", JInt 1000) ].

Definition daemon (responses : list json) : FakeWavecli :=
  {| fw_responses := responses; fw_calls := []; fw_now := 100 |}.

Definition lightning_instruction : RailReceiveInstruction :=
  {| ri_rail := LIGHTNING; ri_invoice := Some "lnbcrt1000n1pexample" |}.

#[local] Existing Instance ref_host.

Definition sample_prepared : PrepareResult :=
  match (prepare default_options lightning_instruction 1000 10 (daemon [preview_json])).1 with
  | Ok p => p
  | Raise _ => {| pp_fee_sat := 0; pp_prepared_hash := ""; pp_rail := LIGHTNING;
                  pp_prepared_payload := "" |}
  end.

Definition sample_payload_dict : list (string * json) :=
  match decode_payload (pp_prepared_payload sample_prepared) with
  | Some (JObj d) => d
  | _ => []
  end.

Lemma execute_outcome_witness :
  wp (execute default_options (pp_prepared_payload sample_prepared) (pp_prepared_hash sample_prepared))
    (λ o _, send_outcome sample_payload_dict (Ok complete_json) o) (daemon [complete_json], []).
Proof.
  refine (execute_outcome default_options _ _ (daemon [complete_json]) [] sample_payload_dict 100
            (daemon [complete_json]) _ _).
  - reflexivity.
  - split; [vm_compute; reflexivity|]. split; [vm_compute; reflexivity|].
    split; [vm_compute; reflexivity|]. exists 5000. split; vm_compute; reflexivity.
Defined.

Lemma prepared_intent_is_sent_witness :
  ∃ p s1,
    prepare default_options lightning_instruction 1000 10 (daemon [preview_json], []) = (Ok p, s1) ∧
    wp (execute default_options (pp_prepared_payload p) (pp_prepared_hash p))
      (λ _ s', s'.2 = [send_cmd default_options [("send_intent_id", JStr "tok-1")]])
      (daemon [complete_json], []).
Proof.
  destruct (prepare default_options lightning_instruction 1000 10 (daemon [preview_json], []))
    as [[p|e] s1] eqn:Hp; [|vm_compute in Hp; discriminate].
  exists p, s1. split; [reflexivity|].
  destruct (prepared_intent_is_sent default_options lightning_instruction 1000 10
              (daemon [preview_json]) [] p s1 Hp) as (i & d & sp & Hi & Hd & Hs & Hsend).
  injection Hi as <-. injection Hd as <-. vm_compute in Hs. injection Hs as <-.
  apply (Hsend "tok-1" (daemon [complete_json]) [] 100); vm_compute; reflexivity.
Defined.

Lemma test_networks_only_witness :
  wp (verify_receipt default_options "h-1" 1000)
    (λ _ s', Forall on_test_network s'.2) (daemon [], []).
Proof.
  refine (proj1 (proj2 (proj2 (test_networks_only default_options default_options (daemon []) [] _ _)))
            "h-1" 1000).
  - vm_compute. reflexivity.
  - constructor.
Defined.
