(* ===== verification/Storage.v ===== *)
(** * Persistence of the policy engine ([policy.py], lines 89-226)

    The process environment (files, clocks, write failures), the idempotency
    store and the audit log.

    A file is the document it holds, as [json.dump] with [sort_keys] writes it:
    reading the text of a document back gives the document
    ([JsonFacts.loads_dumps] is that fact for the text).  A write succeeds or
    raises [OSError] and then leaves the file as it was: that is what the
    temporary file and [os.replace] of [_save] are for, and an append that
    fails writes no line.  Which writes fail is decided by
    an oracle in the environment. *)

From S2P Require Import Prelude.
From S2P Require Import Json.
From S2P Require Import JsonText.
From S2P Require Import Models.
From Stdlib Require Import Floats.SpecFloat.
Import Models.

Module Storage.

Inductive document := Missing | Corrupt | Doc (j : json).

Record Env := {
  store_file : document;
  (** the lines of the audit file, when it exists; [None] is no JSON text *)
  audit_file : option (list (option json));
  (** for the coming writes: does it fail? *)
  faults : list bool;
  (** the injected clock and [time.time()] at each reading *)
  clock : nat → Z;
  wall : nat → spec_float;
  ticks : nat
}.

Definition set_store_file (d : document) (e : Env) : Env :=
  {| store_file := d; audit_file := audit_file e; faults := faults e; clock := clock e;
     wall := wall e; ticks := ticks e |}.
Definition set_audit_file (l : list (option json)) (e : Env) : Env :=
  {| store_file := store_file e; audit_file := Some l; faults := faults e; clock := clock e;
     wall := wall e; ticks := ticks e |}.
Definition pop_fault (e : Env) : Env :=
  {| store_file := store_file e; audit_file := audit_file e; faults := tail (faults e);
     clock := clock e; wall := wall e; ticks := ticks e |}.
Definition tick (e : Env) : Env :=
  {| store_file := store_file e; audit_file := audit_file e; faults := faults e;
     clock := clock e; wall := wall e; ticks := S (ticks e) |}.

Definition read_clock : PyM Env Z := t ← gets (λ e, clock e (ticks e)); modify tick ;; mret t.
Definition read_wall : PyM Env spec_float :=
  t ← gets (λ e, wall e (ticks e)); modify tick ;; mret t.

(** A write that may fail. *)
Definition guarded_write (write : Env → Env) : PyM Env unit :=
  b ← gets (λ e, default false (head (faults e)));
  modify pop_fault ;;
  raise_if b COSError "write failed" ;; modify write.

(** An optional path is used when it is a non-empty string. *)
Definition path_set (p : option string) : bool :=
  match p with Some s => negb (String.eqb s "") | None => false end.

(** ** IdempotencyStore *)

Record IdempotencyStore := {
  st_path : option string;
  st_intents : gset string;
  st_approvals : gset string;
  st_receipts : list (string * json)
}.

(** [set(j)] for a value of the store document: any iterable of strings; a set
    with other members is outside the model, unhashable ones raise. *)
Definition as_str (j : json) : option string := match j with JStr s => Some s | _ => None end.

Definition load_set (j : json) : outcome (gset string) :=
  l ← iter_json j;
  of_opt CTypeError "unhashable type" (list_to_set <$> mapM as_str l).

(** [dict(j)]: an object, or an iterable of pairs. *)
Definition load_pair (d : list (string * json)) (j : json) : outcome (list (string * json)) :=
  p ← iter_json j;
  match p with
  | [k; v] => k' ← of_opt CTypeError "unhashable type" (as_str k); Ok (dset d k' v)
  | _ => fail CValueError "dictionary update sequence element has another length; 2 is required"
  end.

Fixpoint load_pairs (d : list (string * json)) (l : list json) : outcome (list (string * json)) :=
  match l with
  | [] => Ok d
  | j :: l' => d' ← load_pair d j; load_pairs d' l'
  end.

Definition load_dict (j : json) : outcome (list (string * json)) :=
  match j with
  | JObj d => Ok d
  | _ => l ← iter_json j; load_pairs [] l
  end.

Definition store_load (path : option string) : PyM Env IdempotencyStore :=
  let empty := {| st_path := path; st_intents := ∅; st_approvals := ∅; st_receipts := [] |} in
  if path_set path then
    f ← gets store_file;
    match f with
    | Missing => mret empty
    | Corrupt => raise CJSONDecodeError "store file is not JSON"
    | Doc (JObj data) =>
        intents ← lift (load_set (jget data "intents" (JList [])));
        approvals ← lift (load_set (jget data "approvals" (JList [])));
        receipts ← lift (load_dict (jget data "receipts" (JObj [])));
        mret {| st_path := path; st_intents := intents; st_approvals := approvals;
                st_receipts := receipts |}
    | Doc j => raise CAttributeError ("'" +:+ type_name j +:+ "' object has no attribute 'get'")
    end
  else mret empty.

(** [sorted] on a set of strings. *)
Definition sort_strings (l : list string) : list string :=
  (sort_items ((λ s, (s, tt)) <$> l)).*1.
Definition sorted_set (X : gset string) : json := JList (JStr <$> sort_strings (elements X)).

(** The document written, its keys sorted. *)
Definition store_doc (s : IdempotencyStore) : json :=
  sort_json (JObj
    [ ("intents", sorted_set (st_intents s)); ("approvals", sorted_set (st_approvals s));
      ("receipts", JObj (st_receipts s)) ]).

Definition store_save : PyM (Env * IdempotencyStore) unit :=
  s ← gets snd;
  if path_set (st_path s)
  then zoom fst (λ e '(_, s), (e, s)) (guarded_write (set_store_file (Doc (store_doc s))))
  else mret tt.

Definition update_store (f : IdempotencyStore → IdempotencyStore) : PyM (Env * IdempotencyStore) unit :=
  modify (λ '(e, s), (e, f s)).

Definition has_intent (s : IdempotencyStore) (intent_id : string) : bool :=
  bool_decide (intent_id ∈ st_intents s).

Definition record_intent (intent_id : string) : PyM (Env * IdempotencyStore) unit :=
  update_store (λ s, {| st_path := st_path s; st_intents := {[intent_id]} ∪ st_intents s;
                        st_approvals := st_approvals s; st_receipts := st_receipts s |}) ;;
  store_save.

Definition approval_key (intent_id quote_id prepared_hash : string) : string :=
  intent_id +:+ ":" +:+ quote_id +:+ ":" +:+ prepared_hash.

Definition has_approval (s : IdempotencyStore) (triple : string * string * string) : bool :=
  let '(intent_id, quote_id, prepared_hash) := triple in
  bool_decide (approval_key intent_id quote_id prepared_hash ∈ st_approvals s).

Definition record_approval (triple : string * string * string) : PyM (Env * IdempotencyStore) unit :=
  let '(intent_id, quote_id, prepared_hash) := triple in
  let key := approval_key intent_id quote_id prepared_hash in
  update_store (λ s, {| st_path := st_path s; st_intents := st_intents s;
                        st_approvals := {[key]} ∪ st_approvals s; st_receipts := st_receipts s |}) ;;
  store_save.

Definition has_receipt (s : IdempotencyStore) (intent_id : string) : bool :=
  dmem (st_receipts s) intent_id.

Definition record_receipt (intent_id settlement_ref : string) : PyM (Env * IdempotencyStore) unit :=
  update_store (λ s, {| st_path := st_path s; st_intents := st_intents s;
                        st_approvals := st_approvals s;
                        st_receipts := dset (st_receipts s) intent_id (JStr settlement_ref) |}) ;;
  store_save.

Definition get_receipt (s : IdempotencyStore) (intent_id : string) : option json :=
  dget (st_receipts s) intent_id.

(** ** AuditLog *)

Record AuditLog := { au_path : option string; au_seq : Z }.

(** One line of [_load_seq]; a [seq] that is a string, a list or null raises,
    one that is a float is outside the model. *)
Definition line_seq (seq : Z) (line : option json) : outcome Z :=
  match line with
  | None => fail CJSONDecodeError "audit line is not JSON"
  | Some (JObj entry) =>
      match as_int (jget entry "seq" (JInt 0)) with
      | Some z => Ok (Z.max seq (z + 1))
      | None => fail CTypeError "audit seq is not an integer"
      end
  | Some j => fail CAttributeError ("'" +:+ type_name j +:+ "' object has no attribute 'get'")
  end.

Fixpoint load_lines (seq : Z) (lines : list (option json)) : outcome Z :=
  match lines with
  | [] => Ok seq
  | line :: rest => seq' ← line_seq seq line; load_lines seq' rest
  end.

Definition audit_load (path : option string) : PyM Env AuditLog :=
  if path_set path then
    f ← gets audit_file;
    seq ← lift (load_lines 0 (default [] f));
    mret {| au_path := path; au_seq := seq |}
  else mret {| au_path := path; au_seq := 0 |}.

Definition audit_entry (seq : Z) (ts : spec_float) (event : string)
    (kwargs : list (string * json)) : json :=
  sort_json (JObj (foldl (λ d p, dset d p.1 p.2)
                     [("seq", JInt seq); ("ts", JFloat ts); ("event", JStr event)] kwargs)).

Definition append (event : string) (kwargs : list (string * json)) : PyM (Env * AuditLog) unit :=
  a ← gets snd;
  ts ← zoom fst (λ e '(_, a), (e, a)) read_wall;
  (if path_set (au_path a) then
     zoom fst (λ e '(_, a), (e, a))
       (guarded_write (λ e, set_audit_file
          (default [] (audit_file e) ++ [Some (audit_entry (au_seq a) ts event kwargs)]) e))
   else mret tt) ;;
  modify (λ '(e, a), (e, {| au_path := au_path a; au_seq := au_seq a + 1 |})).

Definition entries (a : AuditLog) : PyM Env (list json) :=
  if path_set (au_path a) then
    f ← gets audit_file;
    lift (of_opt CJSONDecodeError "audit line is not JSON" (mapM id (default [] f)))
  else mret [].

End Storage.
