(* ===== verification/Policy.v ===== *)
(** * The policy engine ([policy.py], lines 229-856)

    The orchestrator over any settlement adapter: its state is the adapter's
    world, the environment, the store, the audit log and the tracked intents.
    The records of [_intents] are shared objects in the source; here a record
    is named by its key and updated in place. *)

From S2P Require Import Prelude.
From S2P Require Import Json.
From S2P Require Import Models.
From S2P Require Import StateMachine.
From S2P Require Import Redact.
From S2P Require Import Adapter.
From S2P Require Import Storage.
Import Models StateMachine Redact Adapter Storage.

Module Policy.

Record IntentRecord := {
  ir_intent : PaymentIntent;
  ir_state : PaymentState;
  ir_quote : option PaymentQuote;
  ir_prepared : option PrepareResult;
  ir_approval : option PaymentApproval;
  ir_receipt : option PaymentReceipt;
  ir_reconciliation : option ReconcileResult;
  ir_quote_expires_at : Z;
  ir_expires_at : Z
}.

Definition new_record (intent : PaymentIntent) : IntentRecord :=
  {| ir_intent := intent; ir_state := DRAFT; ir_quote := None; ir_prepared := None;
     ir_approval := None; ir_receipt := None; ir_reconciliation := None;
     ir_quote_expires_at := 0; ir_expires_at := pi_expires_at intent |}.

(** Assignments to the fields of a record. *)
Definition with_state (st : PaymentState) (r : IntentRecord) : IntentRecord :=
  {| ir_intent := ir_intent r; ir_state := st; ir_quote := ir_quote r;
     ir_prepared := ir_prepared r; ir_approval := ir_approval r; ir_receipt := ir_receipt r;
     ir_reconciliation := ir_reconciliation r; ir_quote_expires_at := ir_quote_expires_at r;
     ir_expires_at := ir_expires_at r |}.
Definition with_quote (q : PaymentQuote) (r : IntentRecord) : IntentRecord :=
  {| ir_intent := ir_intent r; ir_state := ir_state r; ir_quote := Some q;
     ir_prepared := ir_prepared r; ir_approval := ir_approval r; ir_receipt := ir_receipt r;
     ir_reconciliation := ir_reconciliation r; ir_quote_expires_at := pq_expires_at q;
     ir_expires_at := ir_expires_at r |}.
Definition with_prepared (p : PrepareResult) (r : IntentRecord) : IntentRecord :=
  {| ir_intent := ir_intent r; ir_state := ir_state r; ir_quote := ir_quote r;
     ir_prepared := Some p; ir_approval := ir_approval r; ir_receipt := ir_receipt r;
     ir_reconciliation := ir_reconciliation r; ir_quote_expires_at := ir_quote_expires_at r;
     ir_expires_at := ir_expires_at r |}.
Definition with_approval (a : PaymentApproval) (r : IntentRecord) : IntentRecord :=
  {| ir_intent := ir_intent r; ir_state := ir_state r; ir_quote := ir_quote r;
     ir_prepared := ir_prepared r; ir_approval := Some a; ir_receipt := ir_receipt r;
     ir_reconciliation := ir_reconciliation r; ir_quote_expires_at := ir_quote_expires_at r;
     ir_expires_at := ir_expires_at r |}.
Definition with_receipt (c : PaymentReceipt) (r : IntentRecord) : IntentRecord :=
  {| ir_intent := ir_intent r; ir_state := ir_state r; ir_quote := ir_quote r;
     ir_prepared := ir_prepared r; ir_approval := ir_approval r; ir_receipt := Some c;
     ir_reconciliation := ir_reconciliation r; ir_quote_expires_at := ir_quote_expires_at r;
     ir_expires_at := ir_expires_at r |}.
Definition with_reconciliation (c : ReconcileResult) (r : IntentRecord) : IntentRecord :=
  {| ir_intent := ir_intent r; ir_state := ir_state r; ir_quote := ir_quote r;
     ir_prepared := ir_prepared r; ir_approval := ir_approval r; ir_receipt := ir_receipt r;
     ir_reconciliation := Some c; ir_quote_expires_at := ir_quote_expires_at r;
     ir_expires_at := ir_expires_at r |}.

Record Orchestrator (W : Type) := {
  o_world : W;
  o_env : Env;
  o_store : IdempotencyStore;
  o_audit : AuditLog;
  o_intents : list (string * IntentRecord)
}.
Arguments o_world {W}. Arguments o_env {W}. Arguments o_store {W}.
Arguments o_audit {W}. Arguments o_intents {W}.

Section Policy.
Context `{Host} {W : Type} `{SettlementAdapter W}.
Variable recipient_allowlist : option (string → bool).
Variable rail_allowlist : option (Rail → bool).
Implicit Types (s : Orchestrator W).
Abbreviation M := (PyM (Orchestrator W)).

(** ** The parts of the state a call acts on *)

Definition on_world {A} (m : PyM W A) : M A :=
  zoom o_world (λ w s, {| o_world := w; o_env := o_env s; o_store := o_store s;
                          o_audit := o_audit s; o_intents := o_intents s |}) m.
Definition on_env {A} (m : PyM Env A) : M A :=
  zoom o_env (λ e s, {| o_world := o_world s; o_env := e; o_store := o_store s;
                        o_audit := o_audit s; o_intents := o_intents s |}) m.
Definition on_store {A} (m : PyM (Env * IdempotencyStore) A) : M A :=
  zoom (λ s, (o_env s, o_store s))
    (λ '(e, st) s, {| o_world := o_world s; o_env := e; o_store := st;
                      o_audit := o_audit s; o_intents := o_intents s |}) m.
Definition audit (event : string) (kwargs : list (string * json)) : M unit :=
  zoom (λ s, (o_env s, o_audit s))
    (λ '(e, a) s, {| o_world := o_world s; o_env := e; o_store := o_store s;
                     o_audit := a; o_intents := o_intents s |}) (append event kwargs).

Definition set_intents (d : list (string * IntentRecord)) : M unit :=
  modify (λ s, {| o_world := o_world s; o_env := o_env s; o_store := o_store s;
                  o_audit := o_audit s; o_intents := d |}).

(** Mutation of the record under a key. *)
Definition mutate (iid : string) (f : IntentRecord → IntentRecord) : M unit :=
  modify (λ s, {| o_world := o_world s; o_env := o_env s; o_store := o_store s;
                  o_audit := o_audit s;
                  o_intents := match dget (o_intents s) iid with
                               | Some r => dset (o_intents s) iid (f r)
                               | None => o_intents s
                               end |}).

(** ** Reading *)

Definition get_record (intent_id : string) : M IntentRecord :=
  r ← gets (λ s, dget (o_intents s) intent_id);
  lift (of_opt CUnknownIntent ("intent " +:+ intent_id +:+ " is not tracked") r).

Definition state (intent_id : string) : M PaymentState :=
  r ← get_record intent_id; mret (ir_state r).

Definition get_intent (intent_id : string) : M (option PaymentIntent) :=
  r ← gets (λ s, dget (o_intents s) intent_id); mret (ir_intent <$> r).

Definition now : M Z := on_env read_clock.

(** [if expires_at and now > expires_at] *)
Definition passed (t expires_at : Z) : bool := negb (expires_at =? 0) && (expires_at <? t).

Definition check_intent_expired (r : IntentRecord) : M unit :=
  t ← now;
  raise_if (passed t (ir_expires_at r)) CSubmissionRejected
    ("intent " +:+ pi_id (ir_intent r) +:+ " has expired").

Definition check_quote_expired (r : IntentRecord) : M unit :=
  t ← now;
  raise_if (passed t (ir_quote_expires_at r)) CStateError
    ("quote for intent " +:+ pi_id (ir_intent r) +:+ " has expired").

Definition validate_recipient (recipient : AgentIdentity) : M unit :=
  match recipient_allowlist with
  | Some allowed =>
      raise_if (negb (allowed (pubkey recipient))) CRecipientRejected
        ("recipient " +:+ pubkey recipient +:+ " is not in the allowlist")
  | None => mret tt
  end.

Definition validate_rail (rail : Rail) : M unit :=
  match rail_allowlist with
  | Some allowed =>
      raise_if (negb (allowed rail)) CStateError
        ("rail " +:+ rail_value rail +:+ " is not in the allowlist")
  | None => mret tt
  end.

Definition repr_strings (l : list string) : string := py_repr (JList (JStr <$> l)).

(** The first tracked record in a state, with its key. *)
Definition find_by_state (st : PaymentState) : M (string * IntentRecord) :=
  d ← gets o_intents;
  match List.filter (λ p, bool_decide (ir_state p.2 = st)) d with
  | p :: _ => mret p
  | [] =>
      match (λ p, state_name (ir_state p.2)) <$> d with
      | [] => raise CStateError ("no intent in state " +:+ state_name st +:+ " — cannot proceed")
      | actual => raise CStateError ("no intent in state " +:+ state_name st
                    +:+ " — tracked intents are in states " +:+ repr_strings actual)
      end
  end.

(** [tr = transition(...); if not tr.ok: raise] gives the new state. *)
Definition require_transition (st : PaymentState) (trigger : string) (c : exn_class) (msg : string)
    : M PaymentState :=
  let tr := transition st trigger in
  raise_if (negb (tr_ok tr)) c (msg +:+ default "None" (tr_error tr)) ;;
  mret (tr_new_state tr).

Definition kv_str (k v : string) : string * json := (k, JStr v).
Definition kv_state (st : PaymentState) : string * json := ("state", JStr (state_value st)).

(** ** Lifecycle *)

Definition submit (intent : PaymentIntent) : M unit :=
  seen ← gets (λ s, has_intent (o_store s) (pi_id intent));
  if (seen : bool) then mret tt
  else
    let rec := new_record intent in
    check_intent_expired rec ;;
    validate_recipient (pi_recipient intent) ;;
    st ← require_transition (ir_state rec) "submit" CStateError "cannot submit: ";
    d ← gets o_intents;
    set_intents (dset d (pi_id intent) (with_state st rec)) ;;
    on_store (record_intent (pi_id intent)) ;;
    audit "submit" [kv_str "intent_id" (pi_id intent);
                    kv_str "actor" (pubkey (pi_sender intent)); kv_state st].

Definition receive_quote (quote : PaymentQuote) : M unit :=
  let iid := pq_intent_id quote in
  rec ← get_record iid;
  raise_if (pi_max_fee_sat (ir_intent rec) <? pq_fee_sat quote) CSubmissionRejected
    ("quote fee " +:+ show_Z (pq_fee_sat quote) +:+ " exceeds max_fee_sat "
       +:+ show_Z (pi_max_fee_sat (ir_intent rec))) ;;
  t ← now;
  raise_if (pq_expires_at quote <? t) CSubmissionRejected
    ("quote " +:+ pq_quote_id quote +:+ " has expired") ;;
  mutate iid (with_quote quote) ;;
  st ← require_transition (ir_state rec) "quote_received" CSubmissionRejected
         ("cannot receive quote: state is " +:+ state_value (ir_state rec) +:+ ": ");
  mutate iid (with_state st) ;;
  audit "quote_received" [kv_str "intent_id" (pi_id (ir_intent rec));
    kv_str "quote_id" (pq_quote_id quote); ("fee_sat", JInt (pq_fee_sat quote)); kv_state st].

Definition prepare : M PrepareResult :=
  '(iid, rec) ← find_by_state QUOTED;
  check_quote_expired rec ;;
  validate_rail ad_rail ;;
  st ← require_transition (ir_state rec) "prepared" CStateError "cannot transition to PREPARED: ";
  match ir_quote rec with
  | None => raise CStateError "prepare requires a quote"
  | Some quote =>
      prep ← try_except
        (on_world (ad_prepare (pq_receive_instruction quote) (pi_amount_sat (ir_intent rec))
                     (pi_max_fee_sat (ir_intent rec))))
        (λ e, if isinstance_exn e CAdapterError
              then Some (raise CStateError ("adapter prepare failed: " +:+ exn_msg e)) else None);
      raise_if (pi_max_fee_sat (ir_intent rec) <? pp_fee_sat prep) CStateError
        ("adapter fee " +:+ show_Z (pp_fee_sat prep) +:+ " exceeds max_fee_sat "
           +:+ show_Z (pi_max_fee_sat (ir_intent rec))) ;;
      validate_rail (pp_rail prep) ;;
      mutate iid (with_prepared prep) ;;
      mutate iid (with_state st) ;;
      audit "prepared" [kv_str "intent_id" (pi_id (ir_intent rec));
        kv_str "prepared_hash" (pp_prepared_hash prep); ("fee_sat", JInt (pp_fee_sat prep));
        kv_state st] ;;
      mret prep
  end.

Definition approve (approval : PaymentApproval) : M unit :=
  let iid := pa_intent_id approval in
  rec ← get_record iid;
  quote ← lift (of_opt CStateError "cannot approve: no quote exists" (ir_quote rec));
  raise_if (negb (String.eqb (pq_quote_id quote) (pa_quote_id approval))) CApprovalRejected
    ("approval quote_id " +:+ pa_quote_id approval +:+ " does not match prepared quote "
       +:+ pq_quote_id quote) ;;
  prepared ← lift (of_opt CStateError "cannot approve: no prepared payload exists" (ir_prepared rec));
  raise_if (negb (String.eqb (pp_prepared_hash prepared) (pa_prepared_hash approval)))
    CApprovalRejected
    ("approval prepared_hash " +:+ pa_prepared_hash approval +:+ " does not match prepared_hash "
       +:+ pp_prepared_hash prepared) ;;
  let triple := (iid, pa_quote_id approval, pa_prepared_hash approval) in
  used ← gets (λ s, has_approval (o_store s) triple);
  raise_if used CApprovalRejected "approval triple already used: replay rejected" ;;
  raise_if (negb (bool_decide (ir_state rec = PREPARED))) CStateError
    ("cannot approve: intent is in state " +:+ state_name (ir_state rec) +:+ ", expected PREPARED") ;;
  on_store (record_approval triple) ;;
  mutate iid (with_approval approval) ;;
  st ← require_transition (ir_state rec) "approved" CStateError "cannot transition to APPROVED: ";
  mutate iid (with_state st) ;;
  audit "approved" [kv_str "intent_id" (pi_id (ir_intent rec));
    kv_str "quote_id" (pa_quote_id approval); kv_str "prepared_hash" (pa_prepared_hash approval);
    kv_str "approver" (pubkey (pa_approver approval)); kv_state st].

(** The two handlers around the adapter's [execute]. *)
Definition fail_closed (iid event what : string) (intent_id : string) (e : exn)
    : M ExecuteResult :=
  mutate iid (with_state RECONCILIATION_REQUIRED) ;;
  audit event [kv_str "intent_id" intent_id; kv_str "error" (exn_msg e);
               kv_state RECONCILIATION_REQUIRED] ;;
  raise CStateError (what +:+ intent_id +:+ ": " +:+ exn_msg e
    +:+ "; transitioned to RECONCILIATION_REQUIRED — manual reconciliation required").

Definition execution_handler (iid intent_id : string) (e : exn) : option (M ExecuteResult) :=
  if isinstance_exn e CAmbiguousResult then
    Some (fail_closed iid "adapter_ambiguous" "ambiguous settlement result for intent " intent_id e)
  else if isinstance_exn e CAdapterError then
    Some (fail_closed iid "adapter_error" "adapter error during execution for intent " intent_id e)
  else None.

(** [PaymentReceipt(...)] and its identifier. *)
Definition build_receipt (rec : IntentRecord) (res : ExecuteResult) (t : Z)
    : outcome PaymentReceipt :=
  sref ← of_opt CValidationError
           (validation_text "PaymentReceipt" (er_settlement_ref res)) (coerce_str (er_settlement_ref res));
  receipt ← construct
    {| pr_id := "placeholder"; pr_intent_id := pi_id (ir_intent rec);
       pr_quote_id := match ir_quote rec with Some q => pq_quote_id q | None => "" end;
       pr_recipient := pi_recipient (ir_intent rec); pr_settlement_ref := sref;
       pr_amount_sat := pi_amount_sat (ir_intent rec); pr_fee_sat := er_fee_sat res;
       pr_rail := er_rail res; pr_settled_at := t; pr_created_at := t |};
  Ok (set_id (compute_id receipt) receipt).

Definition execute : M PaymentReceipt :=
  '(iid, rec) ← find_by_state APPROVED;
  prepared ← lift (of_opt CStateError "cannot execute: no prepared payload" (ir_prepared rec));
  executing ← require_transition (ir_state rec) "executing" CStateError
                "cannot transition to EXECUTING: ";
  mutate iid (with_state executing) ;;
  let intent_id := pi_id (ir_intent rec) in
  audit "executing" [kv_str "intent_id" intent_id; kv_state executing] ;;
  t ← now;
  exec_result ← try_except
    (on_world (ad_execute (pp_prepared_payload prepared) (pp_prepared_hash prepared)))
    (execution_handler iid intent_id);
  receipt ← lift (build_receipt rec exec_result t);
  on_store (record_receipt (pr_intent_id receipt) (pr_settlement_ref receipt)) ;;
  mutate iid (with_receipt receipt) ;;
  settled ← require_transition executing "settled" CStateError "cannot transition to SETTLED: ";
  mutate iid (with_state settled) ;;
  audit "settled" [kv_str "intent_id" intent_id;
    kv_str "settlement_ref" (pr_settlement_ref receipt);
    ("amount_sat", JInt (pr_amount_sat receipt)); kv_state settled] ;;
  mret receipt.

(** [error or fallback] *)
Definition str_or (error : option string) (fallback : string) : string :=
  match error with
  | Some e => if String.eqb e "" then fallback else e
  | None => fallback
  end.

Definition receive_receipt (receipt : PaymentReceipt) : M PaymentReceipt :=
  let iid := pr_intent_id receipt in
  rec ← get_record iid;
  let intent_id := pi_id (ir_intent rec) in
  raise_if (negb (bool_decide (ir_state rec ∈ [EXECUTING; RECONCILIATION_REQUIRED]))) CStateError
    ("cannot receive receipt in state " +:+ state_name (ir_state rec)
       +:+ "; expected EXECUTING or RECONCILIATION_REQUIRED") ;;
  recorded ← gets (λ s, has_receipt (o_store s) iid);
  raise_if recorded CStateError ("receipt already recorded for intent " +:+ iid) ;;
  (if negb (pr_amount_sat receipt =? pi_amount_sat (ir_intent rec)) then
     audit "receipt_mismatch" [kv_str "intent_id" intent_id;
       ("expected_amount", JInt (pi_amount_sat (ir_intent rec)));
       ("actual_amount", JInt (pr_amount_sat receipt)); kv_state (ir_state rec)] ;;
     raise CStateError ("receipt amount " +:+ show_Z (pr_amount_sat receipt)
       +:+ " != intent amount " +:+ show_Z (pi_amount_sat (ir_intent rec)))
   else mret tt) ;;
  let quote_id := match ir_quote rec with Some q => pq_quote_id q | None => "none" end in
  raise_if (negb (match ir_quote rec with
                  | Some q => String.eqb (pq_quote_id q) (pr_quote_id receipt)
                  | None => false
                  end)) CStateError
    ("receipt quote_id " +:+ pr_quote_id receipt +:+ " does not match current quote " +:+ quote_id) ;;
  verify ← on_world (ad_verify_sender_settlement (pr_settlement_ref receipt) (pr_amount_sat receipt));
  (if negb (rv_verified verify) then
     audit "receipt_verification_failed" [kv_str "intent_id" intent_id;
       kv_str "error" (str_or (rv_error verify) "verification failed"); kv_state (ir_state rec)] ;;
     raise CStateError ("receipt verification failed: " +:+ str_or (rv_error verify) "unknown")
   else mret tt) ;;
  st ← require_transition (ir_state rec) "receipt_received" CStateError
         ("cannot settle via receipt from state " +:+ state_name (ir_state rec) +:+ ": ");
  on_store (record_receipt iid (pr_settlement_ref receipt)) ;;
  mutate iid (with_receipt receipt) ;;
  mutate iid (with_state st) ;;
  audit "receipt_confirmed" [kv_str "intent_id" intent_id;
    kv_str "settlement_ref" (pr_settlement_ref receipt); kv_state st] ;;
  mret receipt.

Definition confirm_settled (iid : string) : M unit :=
  rec ← get_record iid;
  st ← require_transition (ir_state rec) "confirm_settled" CStateError
         ("cannot confirm_settled from state " +:+ state_value (ir_state rec) +:+ ": ");
  on_store (record_receipt iid ("manual:" +:+ iid)) ;;
  mutate iid (with_state st) ;;
  audit "confirm_settled" [kv_str "intent_id" (pi_id (ir_intent rec)); kv_state st].

Definition reconcile_settlement (iid : string) : M ReconcileResult :=
  rec ← get_record iid;
  raise_if (negb (bool_decide (ir_state rec = RECONCILIATION_REQUIRED))) CStateError
    ("cannot reconcile from state " +:+ state_value (ir_state rec)
       +:+ "; expected RECONCILIATION_REQUIRED") ;;
  prepared ← lift (of_opt CStateError "cannot reconcile: no prepared payload" (ir_prepared rec));
  result ← try_except
    (on_world (ad_reconcile_settlement (pp_prepared_payload prepared) (pp_prepared_hash prepared)
                 (pi_amount_sat (ir_intent rec))))
    (λ e, Some (mret (unknown_result ""
            ("reconciliation query failed: " +:+ redact_sensitive (exn_msg e)))));
  mutate iid (with_reconciliation result) ;;
  audit "settlement_reconciled" [kv_str "intent_id" (pi_id (ir_intent rec));
    kv_str "status" (rc_status result); ("amount_sat", JInt (rc_amount_sat result));
    ("fee_sat", JInt (rc_fee_sat result)); kv_state (ir_state rec)] ;;
  mret result.

Definition cancel (iid : string) : M unit :=
  rec ← get_record iid;
  st ← require_transition (ir_state rec) "cancel" CStateError
         ("cannot cancel from state " +:+ state_value (ir_state rec) +:+ ": ");
  mutate iid (with_state st) ;;
  audit "cancelled" [kv_str "intent_id" (pi_id (ir_intent rec)); kv_state st].

Definition reject (iid : string) : M unit :=
  rec ← get_record iid;
  st ← require_transition (ir_state rec) "rejected" CStateError
         ("cannot reject from state " +:+ state_value (ir_state rec) +:+ ": ");
  mutate iid (with_state st) ;;
  audit "rejected" [kv_str "intent_id" (pi_id (ir_intent rec)); kv_state st].

(** ** The expiry sweep *)

Definition is_expired (t : Z) (to_check : option (list string)) (p : string * IntentRecord) : bool :=
  match to_check with Some l => bool_decide (p.1 ∈ l) | None => true end &&
  bool_decide (ir_state p.2 = EXECUTING) && passed t (ir_expires_at p.2).

Definition expire_one (iid : string) : M unit :=
  rec ← gets (λ s, dget (o_intents s) iid);
  match rec with
  | None => raise CKeyError iid
  | Some rec =>
      let tr := transition (ir_state rec) "expired" in
      if tr_ok tr then
        mutate iid (with_state (tr_new_state tr)) ;;
        audit "expired_during_execution" [kv_str "intent_id" iid; kv_state (tr_new_state tr)]
      else mret tt
  end.

Definition check_expired (to_check : option (list string)) : M (list string) :=
  t ← now;
  d ← gets o_intents;
  let expired := (List.filter (is_expired t to_check) d).*1 in
  match expired with
  | [] => mret expired
  | _ =>
      py_for expired expire_one ;;
      raise CStateError ("intents expired during execution: " +:+ repr_strings expired
        +:+ "; transition to RECONCILIATION_REQUIRED required")
  end.

(** ** The engine as a system *)

Inductive Op :=
  | OpSubmit (i : PaymentIntent) | OpReceiveQuote (q : PaymentQuote) | OpPrepare
  | OpApprove (a : PaymentApproval) | OpExecute | OpReceiveReceipt (r : PaymentReceipt)
  | OpConfirmSettled (iid : string) | OpReconcile (iid : string) | OpCancel (iid : string)
  | OpReject (iid : string) | OpCheckExpired (to_check : option (list string)).

Definition run_op (op : Op) : M unit :=
  match op with
  | OpSubmit i => submit i
  | OpReceiveQuote q => receive_quote q
  | OpPrepare => prepare ;; mret tt
  | OpApprove a => approve a
  | OpExecute => execute ;; mret tt
  | OpReceiveReceipt r => receive_receipt r ;; mret tt
  | OpConfirmSettled iid => confirm_settled iid
  | OpReconcile iid => reconcile_settlement iid ;; mret tt
  | OpCancel iid => cancel iid
  | OpReject iid => reject iid
  | OpCheckExpired l => check_expired l ;; mret tt
  end.
End Policy.

(** [PaymentOrchestrator(...)]: a new process over the files as they are. *)
Definition orchestrator_init {W} (store_path audit_path : option string) (w : W) (e : Env)
    : outcome (Orchestrator W) :=
  match store_load store_path e with
  | (Raise x, _) => Raise x
  | (Ok st, e) =>
      match audit_load audit_path e with
      | (Raise x, _) => Raise x
      | (Ok a, e) => Ok {| o_world := w; o_env := e; o_store := st; o_audit := a; o_intents := [] |}
      end
  end.

End Policy.
