(* ===== verification/StorageFacts.v ===== *)
(** * Theorems about the store and the audit log *)

From S2P Require Import Prelude.
From S2P Require Import Json.
From S2P Require Import JsonText.
From S2P Require Import JsonFacts.
From S2P Require Import Models.
From S2P Require Import Storage.
Import Models Storage.

(** ** Documents *)

Lemma sort_strings_perm l : sort_strings l ≡ₚ l.
Proof.
  unfold sort_strings. rewrite sort_items_perm.
  induction l as [|x l IH]; csimpl; [done|]. by constructor.
Qed.

Lemma load_sorted_set X : load_set (sorted_set X) = Ok X.
Proof.
  unfold load_set, sorted_set.
  assert (∀ l, mapM as_str (JStr <$> l) = Some l) as Hmap.
  { intros l. apply mapM_Some, Forall2_fmap_l. by induction l; constructor. }
  cbn [iter_json mbind outcome_bind]. rewrite Hmap. cbn. f_equal. apply leibniz_equiv. intros x.
  by rewrite elem_of_list_to_set, sort_strings_perm, elem_of_elements.
Qed.

Lemma sort_sorted_set X : sort_json (sorted_set X) = sorted_set X.
Proof.
  unfold sorted_set. cbn [sort_json]. f_equal. induction (sort_strings _) as [|s l IH]; [done|].
  cbn. by rewrite IH.
Qed.

(** The members of a saved document. *)
Definition saved_receipts (st : IdempotencyStore) : list (string * json) :=
  sort_items (map (λ p, (p.1, sort_json p.2)) (st_receipts st)).

Lemma store_doc_fields st :
  store_doc st =
  JObj [ ("approvals", sorted_set (st_approvals st)); ("intents", sorted_set (st_intents st));
         ("receipts", JObj (saved_receipts st)) ].
Proof.
  unfold store_doc, saved_receipts. cbn [sort_json map fst snd]. rewrite !sort_sorted_set.
  reflexivity.
Qed.

Lemma store_doc_sets st d :
  store_doc st = JObj d →
  load_set (jget d "intents" (JList [])) = Ok (st_intents st) ∧
  load_set (jget d "approvals" (JList [])) = Ok (st_approvals st) ∧
  load_dict (jget d "receipts" (JObj [])) = Ok (saved_receipts st).
Proof.
  rewrite store_doc_fields. intros [= <-]. unfold jget.
  cbn -[load_set sorted_set saved_receipts]. by rewrite !load_sorted_set.
Qed.

Lemma store_load_missing path e :
  store_file e = Missing →
  store_load path e =
  (Ok {| st_path := path; st_intents := ∅; st_approvals := ∅; st_receipts := [] |}, e).
Proof.
  intros Hf. unfold store_load. destruct (path_set path); [|done].
  unfold mbind, py_bind, gets. by rewrite Hf.
Qed.

(** Loading the document that was saved restores the sets and the receipts. *)
Lemma store_load_saved path st e :
  store_file e = Doc (store_doc st) → path_set path = true →
  store_load path e =
  (Ok {| st_path := path; st_intents := st_intents st; st_approvals := st_approvals st;
         st_receipts := saved_receipts st |}, e).
Proof.
  intros Hf Hp. unfold store_load. rewrite Hp. unfold mbind, py_bind, gets. rewrite Hf.
  destruct (store_doc st) as [| | | | | |d] eqn:Hd;
    try (rewrite store_doc_fields in Hd; discriminate).
  destruct (store_doc_sets _ _ Hd) as (-> & -> & ->). done.
Qed.

(** ** Symbolic execution of the storage operations *)

(** What an operation may do to the environment besides the store file. *)
Definition env_frame (e e' : Env) : Prop :=
  store_file e' = store_file e ∧ clock e' = clock e ∧ wall e' = wall e.

(** No write to come fails. *)
Definition no_faults (l : list bool) : Prop := Forall (λ b, b = false) l.

Lemma no_faults_head l : no_faults l → default false (head l) = false.
Proof. destruct l as [|b l]; [done|]. intros [-> _]%Forall_cons. done. Qed.
Lemma no_faults_tail l : no_faults l → no_faults (tail l).
Proof. destruct l as [|b l]; [done|]. by intros [_ Hl]%Forall_cons. Qed.

Lemma wp_guarded_write f (Q : outcome unit → Env → Prop) e :
  wp (guarded_write f) Q e =
  (if default false (head (faults e))
   then Q (Raise (Exn COSError "write failed")) (pop_fault e)
   else Q (Ok tt) (f (pop_fault e))).
Proof.
  unfold wp, guarded_write, mbind, py_bind, gets, modify, raise_if.
  by destruct (default false (head (faults e))).
Qed.

Lemma wp_append event kwargs (Q : outcome unit → Env * AuditLog → Prop) s :
  (∀ o e a, env_frame s.1 e → au_path a = au_path s.2 →
     (o = Ok tt ∧ au_seq a = au_seq s.2 + 1 ∨
      o = Raise (Exn COSError "write failed") ∧ a = s.2) → Q o (e, a)) →
  wp (append event kwargs) Q s.
Proof.
  destruct s as [e a]. intros HQ. unfold append, read_wall. repeat (wp_step; cbn beta iota).
  cbn [fst snd]. destruct (path_set (au_path a)).
  - wp_step. rewrite wp_guarded_write. cbn [faults tick]. destruct (default _ _); cbn; (apply HQ; [repeat split|done|auto]).
  - repeat wp_step. cbn. apply HQ; [repeat split|done|auto].
Qed.

Lemma wp_update_save f (Q : outcome unit → Env * IdempotencyStore → Prop) e st :
  st_path (f st) = st_path st →
  (∀ o e', clock e' = clock e → wall e' = wall e → audit_file e' = audit_file e →
     (o = Ok tt ∧ path_set (st_path st) = true ∧ store_file e' = Doc (store_doc (f st)) ∨
      o = Ok tt ∧ path_set (st_path st) = false ∧ store_file e' = store_file e ∨
      o = Raise (Exn COSError "write failed") ∧ store_file e' = store_file e) →
     Q o (e', f st)) →
  wp (update_store f ;; store_save) Q (e, st).
Proof.
  intros Hpath HQ. unfold update_store, store_save. repeat (wp_step; cbn beta iota). cbn [fst snd].
  rewrite Hpath. destruct (path_set (st_path st)).
  - wp_step. rewrite wp_guarded_write. cbn. destruct (default _ _); cbn; apply HQ; auto 10.
  - repeat wp_step. apply HQ; auto.
Qed.
