(* ===== verification/StorageThms.v ===== *)
(** * Properties of the store and the audit log *)

From S2P Require Import Prelude.
From S2P Require Import Json.
From S2P Require Import JsonText.
From S2P Require Import JsonFacts.
From S2P Require Import Models.
From S2P Require Import Storage.
From S2P Require Import StorageFacts.
Import Models Storage.
From Stdlib Require Import Floats.SpecFloat Sorted.


(** A store with a receipt, saved by a process whose write succeeds. *)
Definition sample_env : Env :=
  {| store_file := Missing; audit_file := None; faults := []; clock := λ _, 0;
     wall := λ _, S754_zero false; ticks := 0 |}.
Definition sample_store : IdempotencyStore :=
  {| st_path := Some "store.json"; st_intents := {["intent-1"]}; st_approvals := ∅;
     st_receipts := [("intent-2", JStr "hash-2"); ("intent-1", JStr "hash-1")] |}.


(** ** The audit log *)

Definition seq_of (line : option json) : option Z :=
  match line with Some (JObj d) => as_int (jget d "seq" (JInt 0)) | _ => None end.

(** Every line has a sequence number, they increase, and the next is larger. *)
Definition audit_wf (e : Env) (next : Z) : Prop :=
  ∃ zs, mapM seq_of (default [] (audit_file e)) = Some zs ∧ Sorted.StronglySorted Z.lt zs ∧
        Forall (λ z, z < next) zs ∧ 0 ≤ next.

Lemma seq_of_line_seq line z m : seq_of line = Some z → line_seq m line = Ok (Z.max m (z + 1)).
Proof. destruct line as [[| | | | | |d]|]; try done. cbn. by intros ->. Qed.

Lemma load_lines_spec lines zs m :
  mapM seq_of lines = Some zs →
  ∃ m', load_lines m lines = Ok m' ∧ m ≤ m' ∧ Forall (λ z, z < m') zs ∧
        ∀ next, m ≤ next → Forall (λ z, z < next) zs → m' ≤ next.
Proof.
  intros Hl%mapM_Some. revert m. induction Hl as [|line z lines zs Hz _ IH]; intros m; cbn.
  - exists m. split_and!; [done|lia|constructor|auto].
  - rewrite (seq_of_line_seq _ _ _ Hz). cbn. destruct (IH (Z.max m (z + 1))) as (m' & Hm & Hle & Hall & Hmin).
    exists m'. split_and!; [done|lia|constructor; [lia|done]|].
    intros next Hn Hf. apply Forall_cons in Hf as [Hzn Hf]. apply Hmin; [lia|done].
Qed.

Lemma StronglySorted_snoc zs z :
  Sorted.StronglySorted Z.lt zs → Forall (λ y, y < z) zs → Sorted.StronglySorted Z.lt (zs ++ [z]).
Proof.
  induction 1 as [|y zs Hs IH Hy]; cbn; intros Hf; [repeat constructor|].
  apply Forall_cons in Hf as [Hyz Hf]. constructor; [by apply IH|].
  apply Forall_app. split; [done|by apply Forall_singleton].
Qed.

Lemma foldl_dset_other (kwargs : list (string * json)) d k :
  k ∉ dkeys kwargs → dget (foldl (λ d p, dset d p.1 p.2) d kwargs) k = dget d k.
Proof.
  unfold dkeys. revert d. induction kwargs as [|[k' v] kw IH]; intros d; csimpl; [done|].
  intros [Hne Hni]%not_elem_of_cons. rewrite IH by done. by apply dget_dset_ne.
Qed.

(** The line written carries its sequence number. *)
Lemma audit_entry_seq seq ts event kwargs :
  "seq" ∉ dkeys kwargs →
  ∃ d, audit_entry seq ts event kwargs = JObj d ∧ dget d "seq" = Some (JInt seq).
Proof.
  intros Hkw. unfold audit_entry. cbn [sort_json]. eexists. split; [reflexivity|].
  set (d0 := [("seq", JInt seq); ("ts", JFloat ts); ("event", JStr event)]).
  assert (NoDup (dkeys d0)) as Hnd by decide_now.
  rewrite dget_sorted; [by rewrite foldl_dset_other|].
  clear Hkw. clearbody d0. revert d0 Hnd. induction kwargs as [|p kw IH]; intros d0 Hnd; [done|].
  apply IH. by apply dset_NoDup.
Qed.


