(* ===== verification/PolicyFacts.v ===== *)
(** * The invariant of the policy engine

    The adapter is observed by a wrapper that logs every call of [execute].
    An execution history pairs each such call with the record it was made for,
    and the invariant relates the history, the tracked records, the store and
    the store file; it is kept by every operation, whether it returns or
    raises, and by a restart of the process. *)

From S2P Require Import Prelude.
From S2P Require Import Json.
From S2P Require Import Models.
From S2P Require Import StateMachine.
From S2P Require Import StateMachineFacts.
From S2P Require Import Adapter.
From S2P Require Import Storage.
From S2P Require Import StorageFacts.
From S2P Require Import Policy.
Import Models StateMachine Adapter Storage Policy.

(** ** Observing the dispatches *)

Definition call : Type := bytes * string.

Section LoggedAdapter.
Context {W : Type} (A : SettlementAdapter W).

(** Run on the first component of the world. *)
Definition inner {B} (m : PyM W B) : PyM (W * list call) B :=
  zoom fst (λ w '(_, l), (w, l)) m.

Definition logged_adapter : SettlementAdapter (W * list call) := {|
  ad_rail := ad_rail;
  ad_prepare ri amount fee := inner (ad_prepare ri amount fee);
  ad_execute payload hash := modify (λ '(w, l), (w, l ++ [(payload, hash)])) ;; inner (ad_execute payload hash);
  ad_verify_receipt ref amount := inner (ad_verify_receipt ref amount);
  ad_verify_sender_settlement ref amount := inner (ad_verify_sender_settlement ref amount);
  ad_reconcile_settlement payload hash amount := inner (ad_reconcile_settlement payload hash amount)
|}.
End LoggedAdapter.

Section Engine.
Context `{Host} {W : Type} (A : SettlementAdapter W).
Variable recipient_allowlist : option (string → bool).
Variable rail_allowlist : option (Rail → bool).
Variable store_path : option string.

#[local] Instance engine_adapter : SettlementAdapter (W * list call) := logged_adapter A.

Abbreviation Orch := (Orchestrator (W * list call)).
Abbreviation run_op := (run_op recipient_allowlist rail_allowlist).
Implicit Types (s : Orch) (r : IntentRecord) (iid : string) (st : IdempotencyStore) (f : document).

(** ** The invariant *)

Record Execution := { ex_iid : string; ex_record : IntentRecord; ex_call : call }.

Definition recipient_allowed (i : PaymentIntent) : Prop :=
  match recipient_allowlist with Some ok => ok (pubkey (pi_recipient i)) = true | None => True end.
Definition rail_allowed (rail : Rail) : Prop :=
  match rail_allowlist with Some ok => ok rail = true | None => True end.

(** The intents and approvals the store file remembers, when there is one. *)
Definition file_sets (f : document) : option (gset string * gset string) :=
  match f with
  | Doc (JObj data) =>
      match load_set (jget data "intents" (JList [])), load_set (jget data "approvals" (JList [])) with
      | Ok intents, Ok approvals => Some (intents, approvals)
      | _, _ => None
      end
  | _ => None
  end.

Definition durable (f : document) (P : gset string → gset string → Prop) : Prop :=
  path_set store_path = true → ∃ I K, file_sets f = Some (I, K) ∧ P I K.

Definition prepared_within (r : IntentRecord) (p : PrepareResult) : Prop :=
  ir_prepared r = Some p ∧ pp_fee_sat p ≤ pi_max_fee_sat (ir_intent r) ∧ rail_allowed (pp_rail p).

(** A recorded approval of exactly the prepared payment. *)
Definition approved_for (f : document) (iid : string) (r : IntentRecord) : Prop :=
  ∃ p a, prepared_within r p ∧ ir_approval r = Some a ∧ pa_intent_id a = iid ∧
    pa_prepared_hash a = pp_prepared_hash p ∧
    durable f (λ I K, iid ∈ I ∧ approval_key iid (pa_quote_id a) (pa_prepared_hash a) ∈ K).

Definition record_ok (f : document) (st : IdempotencyStore) (iid : string) (r : IntentRecord) : Prop :=
  pi_id (ir_intent r) = iid ∧ iid ∈ st_intents st ∧ recipient_allowed (ir_intent r) ∧
  ir_state r ∈ [SUBMITTED; QUOTED; PREPARED; APPROVED; EXECUTING; SETTLED; REJECTED; EXPIRED;
                CANCELLED; RECONCILIATION_REQUIRED] ∧
  (ir_state r = PREPARED → ∃ p, prepared_within r p) ∧
  (ir_state r ∈ [APPROVED; EXECUTING; SETTLED; RECONCILIATION_REQUIRED] → approved_for f iid r).

Definition file_ok (f : document) (st : IdempotencyStore) : Prop :=
  path_set store_path = true →
  f = Missing ∨ ∃ st0, f = Doc (store_doc st0) ∧ st_intents st0 ⊆ st_intents st ∧
                       st_approvals st0 ⊆ st_approvals st.

Definition execution_ok (f : document) (d : list (string * IntentRecord)) (x : Execution) : Prop :=
  let r := ex_record x in
  pi_id (ir_intent r) = ex_iid x ∧ recipient_allowed (ir_intent r) ∧ ir_state r = APPROVED ∧
  approved_for f (ex_iid x) r ∧
  (∃ p, ir_prepared r = Some p ∧ ex_call x = (pp_prepared_payload p, pp_prepared_hash p)) ∧
  (∀ r', dget d (ex_iid x) = Some r' →
     ir_state r' ∈ [EXECUTING; SETTLED; RECONCILIATION_REQUIRED]).

Record Inv (h : list Execution) (calls : list call) (f : document) (st : IdempotencyStore)
    (d : list (string * IntentRecord)) : Prop := {
  inv_path : st_path st = store_path;
  inv_file : file_ok f st;
  inv_keys : NoDup (dkeys d);
  inv_records : ∀ iid r, dget d iid = Some r → record_ok f st iid r;
  inv_history : ∀ x, x ∈ h → execution_ok f d x ∧ durable f (λ I _, ex_iid x ∈ I) ∧
                              ex_iid x ∈ st_intents st;
  inv_once : NoDup (ex_iid <$> h);
  inv_calls : calls = ex_call <$> h
}.

Definition SInv (h : list Execution) (s : Orch) : Prop :=
  Inv h (o_world s).2 (store_file (o_env s)) (o_store s) (o_intents s).

(** ** Lemmas on the invariant *)

Lemma file_sets_doc st : file_sets (Doc (store_doc st)) = Some (st_intents st, st_approvals st).
Proof.
  destruct (store_doc st) as [| | | | | |d] eqn:Hd;
    try (rewrite store_doc_fields in Hd; discriminate).
  unfold file_sets. by destruct (store_doc_sets _ _ Hd) as (-> & -> & _).
Qed.

(** A save keeps what the file remembered. *)
Lemma durable_save f st (P : gset string → gset string → Prop) :
  (∀ I I' K K', I ⊆ I' → K ⊆ K' → P I K → P I' K') →
  file_ok f st → durable f P → durable (Doc (store_doc st)) P.
Proof.
  intros Hmono Hf Hd Hp. rewrite file_sets_doc. do 2 eexists. split; [done|].
  destruct (Hd Hp) as (I & K & HI & HP). destruct (Hf Hp) as [->|(st0 & -> & Hi & Ha)]; [done|].
  rewrite file_sets_doc in HI. simplify_eq. by eapply Hmono.
Qed.

Lemma approved_for_save f st iid r :
  file_ok f st → approved_for f iid r → approved_for (Doc (store_doc st)) iid r.
Proof.
  intros Hf (p & a & Hp & Ha & Hi & Hh & Hd). exists p, a. split_and!; try done.
  eapply durable_save; [|done..]. cbn. set_solver.
Qed.

(** A change of the store, written to its file or not. *)
Lemma inv_recorded h c f f' st st' d :
  Inv h c f st d → st_path st' = st_path st →
  st_intents st ⊆ st_intents st' → st_approvals st ⊆ st_approvals st' →
  f' = f ∨ f' = Doc (store_doc st') → Inv h c f' st' d.
Proof.
  intros [Hp Hf Hk Hr Hh Ho Hc] Hp' Hi Ha Hf'.
  assert (file_ok f st') as Hfile.
  { intros Hset. destruct (Hf Hset) as [|(st0 & ? & ? & ?)]; [by left|right].
    exists st0. split_and!; [done|set_solver..]. }
  assert (∀ iid r, approved_for f iid r → approved_for f' iid r) as Happ.
  { intros iid r Hap. destruct Hf' as [->| ->]; [done|]. by eapply approved_for_save. }
  split; [congruence| |done| | |done|done].
  - destruct Hf' as [->| ->]; [done|]. intros _. right. by exists st'.
  - intros iid r Hd. destruct (Hr iid r Hd) as (? & ? & ? & ? & ? & Hap).
    split_and!; try done; [set_solver|]. intros Hs. apply Happ, Hap, Hs.
  - intros x Hx. destruct (Hh x Hx) as ((? & ? & ? & Hap & ? & ?) & Hdur & Hin).
    split; [split_and!; try done; by apply Happ|split; [|set_solver]].
    destruct Hf' as [->| ->]; [done|]. eapply durable_save; [|done..]. cbn. set_solver.
Qed.

(** Replacing the record under a key. *)
Lemma inv_update h c f st d iid r r' :
  Inv h c f st d → dget d iid = Some r → record_ok f st iid r' →
  (ir_state r ∈ [EXECUTING; SETTLED; RECONCILIATION_REQUIRED] →
   ir_state r' ∈ [EXECUTING; SETTLED; RECONCILIATION_REQUIRED]) →
  Inv h c f st (dset d iid r').
Proof.
  intros [Hp Hf Hk Hr Hh Ho Hc] Hd Hok Hst. split; try done.
  - by apply dset_NoDup.
  - intros iid2 r2. rewrite dget_dset. case_decide as Heq; [by intros [= <-]; subst|apply Hr].
  - intros x Hx. destruct (Hh x Hx) as ((? & ? & ? & ? & ? & Hex) & ? & ?).
    split; [|done]. split_and!; try done. intros r2. rewrite dget_dset.
    case_decide as Heq; [|apply Hex]. intros [= <-]. apply Hst, Hex. by subst.
Qed.

(** Tracking a new intent. *)
Lemma inv_track h c f f' st st' d iid r :
  pi_id (ir_intent r) = iid →
  Inv h c f st d → iid ∉ st_intents st → st_path st' = st_path st →
  st_intents st' = {[iid]} ∪ st_intents st → st_approvals st' = st_approvals st →
  f' = f ∨ f' = Doc (store_doc st') →
  recipient_allowed (ir_intent r) → ir_state r = SUBMITTED →
  Inv h c f' st' (dset d iid r).
Proof.
  intros <- Hinv Hnew Hp Hi Ha Hf Hrec Hst.
  assert (∀ x, x ∈ h → ex_iid x ∈ st_intents st) as Hold.
  { intros x Hx. by apply (inv_history _ _ _ _ _ Hinv). }
  apply (inv_recorded _ _ _ f' _ st') in Hinv; [|done|set_solver|set_solver|done].
  destruct Hinv as [Hp' Hf' Hk Hr Hh Ho Hc]. split; try done.
  - by apply dset_NoDup.
  - intros iid2 r2. rewrite dget_dset. case_decide as Heq; [|apply Hr].
    intros [= <-]. subst. split_and!; rewrite ?Hst; try done; set_solver.
  - intros x Hx. destruct (Hh x Hx) as ((? & ? & ? & ? & ? & Hex) & ? & ?).
    split; [|done]. split_and!; try done. intros r2. rewrite dget_dset.
    case_decide as Heq; [|apply Hex]. destruct Hnew. rewrite Heq. by apply Hold.
Qed.

(** A dispatch for a record that has just become EXECUTING. *)
Lemma inv_dispatch h c f st d iid r r' p :
  Inv h c f st d → dget d iid = Some r' → ir_state r' = EXECUTING →
  record_ok f st iid r → ir_state r = APPROVED → ir_prepared r = Some p →
  (∀ x, x ∈ h → ex_iid x ≠ iid) →
  Inv (h ++ [{| ex_iid := iid; ex_record := r;
                ex_call := (pp_prepared_payload p, pp_prepared_hash p) |}])
      (c ++ [(pp_prepared_payload p, pp_prepared_hash p)]) f st d.
Proof.
  intros [Hp Hf Hk Hr Hh Ho Hc] Hd Hex (Hid & Hin & Hrec & _ & _ & Happ) Hst Hpr Hnew.
  assert (approved_for f iid r) as Hap by (apply Happ; rewrite Hst; by left).
  split; try done.
  - intros x [Hx|Hx]%elem_of_app; [by apply Hh|]. apply list_elem_of_singleton in Hx as ->.
    split; [split_and!; cbn; try done|split; [|done]].
    + by exists p.
    + intros r2 Hr2. rewrite Hd in Hr2. simplify_eq. rewrite Hex. by left.
    + destruct Hap as (p' & a & _ & _ & _ & _ & Hdur). intros Hset.
      destruct (Hdur Hset) as (I & K & HI & ? & _). by exists I, K.
  - rewrite fmap_app. apply NoDup_app. split_and!; [done| |apply NoDup_singleton].
    intros y Hy Hy'%list_elem_of_singleton. apply list_elem_of_fmap in Hy as (x & -> & Hx).
    by apply (Hnew x Hx).
  - by rewrite fmap_app, Hc.
Qed.

(** ** Symbolic execution of the engine's building blocks *)

Lemma wp_audit event kwargs (Q : outcome unit → Orch → Prop) s :
  (∀ o e a, store_file e = store_file (o_env s) →
     (o = Ok tt ∨ o = Raise (Exn COSError "write failed")) →
     Q o {| o_world := o_world s; o_env := e; o_store := o_store s; o_audit := a;
            o_intents := o_intents s |}) →
  wp (audit event kwargs) Q s.
Proof.
  intros HQ. unfold audit. apply wp_zoom, wp_append. cbn.
  intros o e a [Hf _] _ Ho. apply HQ; [done|]. naive_solver.
Qed.

Lemma wp_on_store g (Q : outcome unit → Orch → Prop) s :
  st_path (g (o_store s)) = st_path (o_store s) →
  (∀ o e,
     (o = Ok tt ∧ path_set (st_path (o_store s)) = true ∧
        store_file e = Doc (store_doc (g (o_store s))) ∨
      o = Ok tt ∧ path_set (st_path (o_store s)) = false ∧ store_file e = store_file (o_env s) ∨
      o = Raise (Exn COSError "write failed") ∧ store_file e = store_file (o_env s)) →
     Q o {| o_world := o_world s; o_env := e; o_store := g (o_store s); o_audit := o_audit s;
            o_intents := o_intents s |}) →
  wp (on_store (update_store g ;; store_save)) Q s.
Proof.
  intros Hp HQ. unfold on_store. apply wp_zoom, wp_update_save; [done|].
  intros o e _ _ _ Ho. by apply HQ.
Qed.

Lemma wp_now_engine (Q : outcome Z → Orch → Prop) s :
  (∀ t e, store_file e = store_file (o_env s) →
     Q (Ok t) {| o_world := o_world s; o_env := e; o_store := o_store s; o_audit := o_audit s;
                 o_intents := o_intents s |}) →
  wp now Q s.
Proof. intros HQ. unfold now, on_env, read_clock. repeat (wp_step; cbn beta). by apply HQ. Qed.

Lemma wp_mutate iid g (Q : outcome unit → Orch → Prop) s r :
  dget (o_intents s) iid = Some r →
  Q (Ok tt) {| o_world := o_world s; o_env := o_env s; o_store := o_store s; o_audit := o_audit s;
               o_intents := dset (o_intents s) iid (g r) |} →
  wp (mutate iid g) Q s.
Proof. intros Hd HQ. unfold mutate. wp_step. by rewrite Hd. Qed.

(** Without knowing the record: some records, the rest as it was. *)
Lemma wp_mutate_any iid g (Q : outcome unit → Orch → Prop) s :
  (∀ d, Q (Ok tt) {| o_world := o_world s; o_env := o_env s; o_store := o_store s;
                     o_audit := o_audit s; o_intents := d |}) →
  wp (mutate iid g) Q s.
Proof. intros HQ. unfold mutate. wp_step. apply HQ. Qed.

Lemma wp_get_record iid (Q : outcome IntentRecord → Orch → Prop) s :
  (∀ r, dget (o_intents s) iid = Some r → Q (Ok r) s) →
  (dget (o_intents s) iid = None →
   Q (Raise (Exn CUnknownIntent ("intent " +:+ iid +:+ " is not tracked"))) s) →
  wp (get_record iid) Q s.
Proof.
  intros HS HN. unfold get_record. repeat (wp_step; cbn beta). 
  destruct (dget (o_intents s) iid); cbn; auto.
Qed.

Lemma wp_require_transition ps trigger c msg (Q : outcome PaymentState → Orch → Prop) s :
  (∀ ps', lookup_transition ps trigger = Some ps' → Q (Ok ps') s) →
  (∀ m, lookup_transition ps trigger = None → Q (Raise (Exn c m)) s) →
  wp (require_transition ps trigger c msg) Q s.
Proof.
  intros HS HN. unfold require_transition. repeat (wp_step; cbn beta iota).
  destruct (tr_ok (transition ps trigger)) eqn:Hok; cbn.
  - apply HS. by apply transition_ok.
  - apply HN. destruct (lookup_transition ps trigger) as [ps'|] eqn:E; [|done].
    by rewrite (transition_eq _ _ _ E) in Hok.
Qed.

(** The selected record is the first one in the state. *)
Definition first_in (ps : PaymentState) (d : list (string * IntentRecord)) : option (string * IntentRecord) :=
  head (List.filter (λ p, bool_decide (ir_state p.2 = ps)) d).

Lemma first_in_Some ps d iid r :
  NoDup (dkeys d) → first_in ps d = Some (iid, r) → dget d iid = Some r ∧ ir_state r = ps.
Proof.
  unfold first_in. intros Hnd Hh. destruct (List.filter _ d) as [|p l] eqn:Hf; [done|].
  injection Hh as ->. assert ((iid, r) ∈ List.filter (λ p, bool_decide (ir_state p.2 = ps)) d) as Hin
    by (rewrite Hf; by left).
  apply list_elem_of_In, List.filter_In in Hin as [Hin%list_elem_of_In Hst%bool_decide_eq_true].
  split; [by apply elem_dget|done].
Qed.

Lemma wp_find_by_state ps (Q : outcome (string * IntentRecord) → Orch → Prop) s :
  (∀ iid r, first_in ps (o_intents s) = Some (iid, r) → Q (Ok (iid, r)) s) →
  (∀ m, first_in ps (o_intents s) = None → Q (Raise (Exn CStateError m)) s) →
  wp (find_by_state ps) Q s.
Proof.
  unfold first_in. intros HS HN. unfold find_by_state. repeat (wp_step; cbn beta).
  destruct (List.filter _ _) as [|[iid r] l]; [|by apply HS].
  destruct (_ <$> _); wp_step; by apply HN.
Qed.

Lemma wp_inner {B} (m : PyM W B) (Q : outcome B → Orch → Prop) s :
  (∀ w, Q (m (o_world s).1).1 {| o_world := (w, (o_world s).2); o_env := o_env s; o_store := o_store s;
                 o_audit := o_audit s; o_intents := o_intents s |}) →
  wp (on_world (inner m)) Q s.
Proof.
  intros HQ. unfold on_world, inner. repeat wp_step. destruct (o_world s) as [w l]. cbn.
  unfold wp. apply HQ.
Qed.

Lemma wp_execute_call payload hash (Q : outcome ExecuteResult → Orch → Prop) s :
  (∀ w, Q (ad_execute (SettlementAdapter := A) payload hash (o_world s).1).1
          {| o_world := (w, (o_world s).2 ++ [(payload, hash)]); o_env := o_env s;
             o_store := o_store s; o_audit := o_audit s; o_intents := o_intents s |}) →
  wp (on_world (ad_execute payload hash)) Q s.
Proof.
  intros HQ. unfold on_world. cbn [ad_execute engine_adapter logged_adapter].
  repeat wp_step. unfold inner. wp_step. destruct (o_world s) as [w l]. cbn. unfold wp. apply HQ.
Qed.

Lemma wp_validate_recipient i (Q : outcome unit → Orch → Prop) s :
  (recipient_allowed i → Q (Ok tt) s) →
  (∀ m, Q (Raise (Exn CRecipientRejected m)) s) →
  wp (validate_recipient recipient_allowlist (pi_recipient i)) Q s.
Proof.
  unfold validate_recipient, recipient_allowed. intros HS HN.
  destruct recipient_allowlist as [ok|]; wp_step; [|by apply HS].
  destruct (ok (pubkey (pi_recipient i))); cbn; [by apply HS|apply HN].
Qed.

Lemma wp_validate_rail rail (Q : outcome unit → Orch → Prop) s :
  (rail_allowed rail → Q (Ok tt) s) →
  (∀ m, Q (Raise (Exn CStateError m)) s) →
  wp (validate_rail rail_allowlist rail) Q s.
Proof.
  unfold validate_rail, rail_allowed. intros HS HN.
  destruct rail_allowlist as [ok|]; wp_step; [|by apply HS].
  destruct (ok rail); cbn; [by apply HS|apply HN].
Qed.
End Engine.

(** The rules for the building blocks, applied by the head of the program. *)
Ltac engine_step :=
  lazymatch goal with
  | |- wp (audit _ _) _ _ => apply wp_audit; intros ? ? ? ? [->| ->]
  | |- wp (on_store _) _ _ =>
      unfold record_receipt, record_intent, record_approval; apply wp_on_store; [reflexivity|];
      intros ? ? [(-> & ? & ?)|[(-> & ? & ?)|(-> & ?)]]
  | |- wp (set_intents _) _ _ => unfold set_intents; wp_step
  | |- wp (validate_recipient _ _) _ _ => apply wp_validate_recipient; [intros ?|intros ?]
  | |- wp (validate_rail _ _) _ _ => apply wp_validate_rail; [intros ?|intros ?]
  | |- wp (on_world (ad_execute _ _)) _ _ => apply wp_execute_call; intros ?
  | |- wp (on_world (inner _)) _ _ => apply wp_inner; intros ?
  | |- wp now _ _ => apply wp_now_engine; intros ? ? ?
  | |- wp (get_record _) _ _ => apply wp_get_record; [intros ? ?|intros ?]
  | |- wp (require_transition _ _ _ _) _ _ =>
      apply wp_require_transition; [intros ? ?|intros ? ?]
  | |- wp (find_by_state _) _ _ => apply wp_find_by_state; [intros ? ? ?|intros ? ?];
      try match goal with Hnd : NoDup _, Hf : first_in _ _ = Some _ |- _ =>
        destruct (first_in_Some _ _ _ _ Hnd Hf) end
  | |- wp (mutate _ _) _ _ =>
      first [ eapply wp_mutate; [cbn; rewrite ?dget_dset_eq; (eassumption || reflexivity)|]
            | apply wp_mutate_any; intros ? ]
  | |- wp (match ?x with _ => _ end) _ _ => destruct x eqn:?
  | |- match (if ?b then _ else _) with _ => _ end => destruct b eqn:?
  | |- if ?b then _ else _ => destruct b eqn:?
  | |- match ?o with Ok _ => _ | Raise _ => _ end => destruct o eqn:?
  | _ => wp_step
  end.
Ltac engine :=
  repeat (engine_step; cbn beta iota zeta; cbn [o_world o_env o_store o_audit o_intents] in * ).

(** The transition out of a known state. *)
Ltac known_transition :=
  match goal with
  | Hl : lookup_transition ?ps _ = _, Hq : ?ps = _ |- _ =>
      rewrite Hq in Hl; vm_compute in Hl; simplify_eq
  end.
