(* ===== verification/PolicyInv.v ===== *)
(** * Every operation of the engine keeps the invariant *)

From S2P Require Import Prelude.
From S2P Require Import Json.
From S2P Require Import Models.
From S2P Require Import StateMachine.
From S2P Require Import StateMachineFacts.
From S2P Require Import Adapter.
From S2P Require Import Storage.
From S2P Require Import StorageFacts.
From S2P Require Import Policy.
From S2P Require Import PolicyFacts.
Import Models StateMachine Adapter Storage Policy.

Section Operations.
Context `{Host} {W : Type} (A : SettlementAdapter W).
Variable recipient_allowlist : option (string → bool).
Variable rail_allowlist : option (Rail → bool).
Variable store_path : option string.

#[local] Existing Instance engine_adapter.

Abbreviation Orch := (Orchestrator (W * list call)).
Abbreviation Inv := (Inv recipient_allowlist rail_allowlist store_path).
Abbreviation SInv := (SInv recipient_allowlist rail_allowlist store_path).
Abbreviation record_ok := (record_ok recipient_allowlist rail_allowlist store_path).
Abbreviation run_op := (run_op recipient_allowlist rail_allowlist).
Implicit Types (s : Orch) (h : list Execution).

(** Triggers that need nothing but the state the record is in. *)
Definition simple_triggers : list string :=
  ["cancel"; "rejected"; "quote_received"; "executing"; "settled"; "receipt_received";
   "confirm_settled"; "expired"].
Definition dispatched_states : list PaymentState := [EXECUTING; SETTLED; RECONCILIATION_REQUIRED].
Definition tracked_states : list PaymentState :=
  [SUBMITTED; QUOTED; PREPARED; APPROVED; EXECUTING; SETTLED; REJECTED; EXPIRED; CANCELLED;
   RECONCILIATION_REQUIRED].

Definition simple_ok (ps : PaymentState) (trigger : string) (ps' : PaymentState) : bool :=
  negb (bool_decide (trigger ∈ simple_triggers)) ||
  bool_decide (ps' ∈ tracked_states) && negb (bool_decide (ps' = PREPARED)) &&
  (negb (bool_decide (ps' ∈ APPROVED :: dispatched_states)) ||
   bool_decide (ps ∈ APPROVED :: dispatched_states)) &&
  (negb (bool_decide (ps ∈ dispatched_states)) || bool_decide (ps' ∈ dispatched_states)).

Lemma simple_move ps trigger ps' :
  trigger ∈ simple_triggers → lookup_transition ps trigger = Some ps' →
  ps' ∈ tracked_states ∧ ps' ≠ PREPARED ∧
  (ps' ∈ APPROVED :: dispatched_states → ps ∈ APPROVED :: dispatched_states) ∧
  (ps ∈ dispatched_states → ps' ∈ dispatched_states).
Proof.
  intros Htr Hl. assert (simple_ok ps trigger ps' = true) as Hok.
  { apply (edge_check simple_ok); [vm_compute; reflexivity|done]. }
  unfold simple_ok in Hok. rewrite (bool_decide_eq_true_2 _ Htr) in Hok. cbn [negb orb] in Hok.
  apply andb_true_iff in Hok as [[[H1 H2]%andb_true_iff H3]%andb_true_iff H4].
  bool_facts. split_and!; try done; intros Hin.
  - apply orb_true_iff in H3 as [H3|H3]; bool_facts; done.
  - apply orb_true_iff in H4 as [H4|H4]; bool_facts; done.
Qed.

Lemma inv_move h c f st d iid r trigger ps' :
  Inv h c f st d → dget d iid = Some r → trigger ∈ simple_triggers →
  lookup_transition (ir_state r) trigger = Some ps' →
  Inv h c f st (dset d iid (with_state ps' r)).
Proof.
  intros Hinv Hd Htr Hl. destruct (simple_move _ _ _ Htr Hl) as (Ht & Hnp & Hex & Hdis).
  eapply inv_update; [done|done| |done].
  destruct (inv_records _ _ _ _ _ _ _ _ Hinv _ _ Hd) as (? & ? & ? & _ & _ & Happ).
  split_and!; try done. intros Hin. apply Happ, Hex, Hin.
Qed.

(** Updates that leave the state and the approved payment alone. *)
Lemma inv_touch h c f st d iid r r' :
  Inv h c f st d → dget d iid = Some r → ir_intent r' = ir_intent r → ir_state r' = ir_state r →
  ir_prepared r' = ir_prepared r → ir_approval r' = ir_approval r →
  Inv h c f st (dset d iid r').
Proof.
  intros Hinv Hd Hi Hs Hp Ha. eapply inv_update; [done|done| |by rewrite Hs].
  destruct (inv_records _ _ _ _ _ _ _ _ Hinv _ _ Hd) as (? & ? & ? & ? & Hpr & Happ).
  unfold record_ok, approved_for, prepared_within in *. by rewrite Hi, Hs, Hp, Ha.
Qed.

(** Close the goal of a path: the file is the old one, the records changed. *)
Ltac frame :=
  unfold PolicyFacts.SInv in *; cbn [o_world o_env o_store o_audit o_intents fst snd] in *;
  repeat match goal with Hf : store_file ?e = _ |- context [store_file ?e] => rewrite Hf end.
Ltac subsets := first [reflexivity|apply union_subseteq_r].
Ltac moves :=
  first [ eassumption
        | eapply inv_recorded; [eassumption|reflexivity|subsets|subsets|first [by left|by right]]
        | eapply inv_move; [|rewrite ?dget_dset_eq; (eassumption || reflexivity)| |eassumption];
          [|decide_now]; moves
        | eapply inv_touch; [|rewrite ?dget_dset_eq; (eassumption || reflexivity)|reflexivity..]; moves ].

Definition keeps h (m : PyM Orch unit) : Prop :=
  ∀ s, SInv h s → wp m (λ _ s', SInv h s') s.

Lemma cancel_keeps h iid : keeps h (cancel iid).
Proof. intros s Hs. unfold cancel. engine; frame; moves. Qed.

Lemma reject_keeps h iid : keeps h (reject iid).
Proof. intros s Hs. unfold reject. engine; frame; moves. Qed.

Lemma receive_quote_keeps h q : keeps h (receive_quote q).
Proof. intros s Hs. unfold receive_quote. engine; frame; moves. Qed.

Lemma confirm_settled_keeps h iid : keeps h (confirm_settled iid).
Proof. intros s Hs. unfold confirm_settled. engine; frame; moves. Qed.

Lemma reconcile_keeps h iid : keeps h (reconcile_settlement iid ;; mret tt).
Proof.
  intros s Hs. unfold reconcile_settlement.
  cbn [ad_reconcile_settlement engine_adapter logged_adapter]. engine; frame; moves.
Qed.

Lemma receive_receipt_keeps h c : keeps h (receive_receipt c ;; mret tt).
Proof.
  intros s Hs. unfold receive_receipt.
  cbn [ad_verify_sender_settlement engine_adapter logged_adapter]. engine; frame; moves.
Qed.

Lemma submit_keeps h i : keeps h (submit recipient_allowlist i).
Proof.
  intros s Hs. unfold submit, check_intent_expired.
  engine; frame; try moves.
  all: match goal with Hl : lookup_transition _ "submit" = Some _ |- _ => vm_compute in Hl; injection Hl as <- end.
  all: unfold has_intent in *; bool_facts.
  all: eapply inv_track; [reflexivity|exact Hs|done|reflexivity..| |done|done]; auto.
Qed.

(** The record after a successful preparation. *)
Lemma inv_prepared h c f st d iid r p :
  Inv h c f st d → dget d iid = Some r → ir_state r = QUOTED →
  pp_fee_sat p ≤ pi_max_fee_sat (ir_intent r) → rail_allowed rail_allowlist (pp_rail p) →
  Inv h c f st (dset d iid (with_state PREPARED (with_prepared p r))).
Proof.
  intros Hinv Hd Hq Hfee Hrail. eapply inv_update; [done|done| |].
  - destruct (inv_records _ _ _ _ _ _ _ _ Hinv _ _ Hd) as (? & ? & ? & _).
    split_and!; try done; [decide_now|by exists p|].
    intros Hin. exfalso. revert Hin. cbn [ir_state with_state]. decide_now.
  - rewrite Hq. intros Hin. exfalso. revert Hin. decide_now.
Qed.

Lemma dset_dset {B} (d : list (string * B)) k v v' : dset (dset d k v) k v' = dset d k v'.
Proof.
  induction d as [|[k1 v1] d IH]; cbn; [by rewrite String.eqb_refl|].
  destruct (String.eqb k k1) eqn:E; cbn; rewrite E; [done|]. by rewrite IH.
Qed.

Lemma prepare_keeps h : keeps h (prepare rail_allowlist ;; mret tt).
Proof.
  intros s Hs. assert (NoDup (dkeys (o_intents s))) by apply Hs.
  unfold prepare, check_quote_expired.
  cbn [ad_prepare engine_adapter logged_adapter]. engine; frame; try moves.
  all: bool_facts; rewrite dset_dset.
  all: known_transition.
  all: by apply inv_prepared.
Qed.

(** The record after an approval was recorded. *)
Lemma inv_approved h c f st d iid r a :
  Inv h c f st d → dget d iid = Some r → ir_state r = PREPARED → pa_intent_id a = iid →
  (∃ p, ir_prepared r = Some p ∧ pp_prepared_hash p = pa_prepared_hash a) →
  durable store_path f (λ I K,
    iid ∈ I ∧ approval_key iid (pa_quote_id a) (pa_prepared_hash a) ∈ K) →
  Inv h c f st (dset d iid (with_state APPROVED (with_approval a r))).
Proof.
  intros Hinv Hd Hq Hiid (p & Hp & Hhash) Hdur. eapply inv_update; [done|done| |].
  - destruct (inv_records _ _ _ _ _ _ _ _ Hinv _ _ Hd) as (? & ? & ? & _ & Hpr & _).
    destruct (Hpr Hq) as (p' & Hp' & Hfee & Hrail). rewrite Hp in Hp'. simplify_eq.
    split_and!; try done; [decide_now|]. intros _. by exists p', a.
  - rewrite Hq. intros Hin. exfalso. revert Hin. decide_now.
Qed.

Lemma approve_keeps h a : keeps h (approve a).
Proof.
  intros s Hs. unfold approve. engine; frame; try moves.
  all: bool_facts; rewrite ?dset_dset; known_transition.
  all: match goal with Hp : of_opt _ _ (ir_prepared _) = Ok ?p |- _ =>
         apply of_opt_Ok in Hp; assert (pp_prepared_hash p = pa_prepared_hash a) by done end.
  all: destruct (inv_records _ _ _ _ _ _ _ _ Hs _ _ ltac:(eassumption)) as (_ & Hin & _).
  all: eapply inv_approved; [moves|done|done|done|eauto|intros Hset].
  all: match goal with Hp : path_set (st_path _) = _ |- _ =>
         rewrite (inv_path _ _ _ _ _ _ _ _ Hs) in Hp end; try congruence.
  all: rewrite file_sets_doc; do 2 eexists; (split; [reflexivity|]); split; [done|].
  all: apply elem_of_union_l, elem_of_singleton; reflexivity.
Qed.

Lemma expire_one_keeps h iid : keeps h (expire_one iid).
Proof.
  intros s Hs. unfold expire_one. repeat (wp_step; cbn beta).
  destruct (dget (o_intents s) iid) as [r|] eqn:Hd; [|by wp_step].
  destruct (tr_ok (transition (ir_state r) "expired")) eqn:Hok; [|by wp_step].
  apply transition_ok in Hok. engine; frame; moves.
Qed.

Lemma check_expired_keeps h l : keeps h (check_expired l ;; mret tt).
Proof.
  intros s Hs. unfold check_expired. do 2 wp_step. apply wp_now_engine. intros t e He. cbn beta iota.
  repeat (wp_step; cbn beta). cbn [o_intents]. destruct (_.*1) as [|k ks]; [repeat wp_step; frame; moves|].
  wp_step. eapply wp_mono.
  - apply (wp_py_for expire_one (SInv h) (λ _, SInv h)); [frame; moves|].
    intros x s' _ Hs'. eapply wp_mono; [by apply expire_one_keeps|]. by intros [[]|].
  - intros [[]|x] s' Hs'; [|done]. by wp_step.
Qed.

(** A dispatch for the record that has just become EXECUTING. *)
Lemma executing_dispatch h c f st d iid r p :
  Inv h c f st d → dget d iid = Some r → ir_state r = APPROVED → ir_prepared r = Some p →
  Inv (h ++ [{| ex_iid := iid; ex_record := r;
                ex_call := (pp_prepared_payload p, pp_prepared_hash p) |}])
    (c ++ [(pp_prepared_payload p, pp_prepared_hash p)]) f st
    (dset d iid (with_state EXECUTING r)).
Proof.
  intros Hinv Hd Hst Hp. eapply inv_dispatch; [|by rewrite dget_dset_eq|done| |done|done|].
  - eapply (inv_move _ _ _ _ _ _ _ "executing"); [done|done|decide_now|by rewrite Hst].
  - by apply (inv_records _ _ _ _ _ _ _ _ Hinv).
  - intros x Hx <-. destruct (inv_history _ _ _ _ _ _ _ _ Hinv x Hx) as ((_ & _ & _ & _ & _ & Hex) & _).
    specialize (Hex _ Hd). rewrite Hst in Hex. revert Hex. decide_now.
Qed.

(** An operation that may dispatch: its history grows by the selected record. *)
Definition dispatch_post h s s' : Prop :=
  SInv h s' ∨
  ∃ iid r p, first_in APPROVED (o_intents s) = Some (iid, r) ∧ ir_prepared r = Some p ∧
    SInv (h ++ [{| ex_iid := iid; ex_record := r;
                   ex_call := (pp_prepared_payload p, pp_prepared_hash p) |}]) s'.

Lemma execute_keeps h s :
  SInv h s → wp (execute ;; mret tt) (λ _ s', dispatch_post h s s') s.
Proof.
  intros Hs. assert (NoDup (dkeys (o_intents s))) by apply Hs.
  unfold execute, execution_handler, fail_closed. engine; frame.
  all: unfold dispatch_post; frame.
  all: lazymatch goal with
       | |- Inv _ (_ ++ _) _ _ _ ∨ _ => right
       | |- _ => left; moves
       end.
  all: known_transition; match goal with Ho : of_opt _ _ (ir_prepared ?r) = Ok ?p |- _ =>
         apply of_opt_Ok in Ho; exists iid, r, p; do 2 (split; [done|]);
         pose proof (executing_dispatch _ _ _ _ _ _ _ _ Hs ltac:(eassumption) ltac:(eassumption) Ho)
           as Hdis
       end.
  all: try match goal with Hl : lookup_transition EXECUTING _ = _ |- _ => vm_compute in Hl; simplify_eq end.
  all: assert (lookup_transition EXECUTING "settled" = Some SETTLED) by reflexivity.
  all: assert (lookup_transition EXECUTING "expired" = Some RECONCILIATION_REQUIRED) by reflexivity.
  all: clear Hs; moves.
Qed.

(** ** Runs of the system *)

(** The dispatches an operation made, each with the record it was made for:
    the engine executes the first record in state APPROVED. *)
Definition attributed (op : Op) s s' : list Execution :=
  match op, first_in APPROVED (o_intents s) with
  | OpExecute, Some (iid, r) =>
      (λ c, {| ex_iid := iid; ex_record := r; ex_call := c |}) <$>
        drop (List.length (o_world s).2) (o_world s').2
  | _, _ => []
  end.

(** Runs: a start without a store file, operations that return or raise, and
    restarts of the process on the files as they are. *)
Inductive runs : list Execution → Orch → Prop :=
  | runs_start w e audit_path s :
      store_file e = Missing →
      orchestrator_init store_path audit_path (w, []) e = Ok s → runs [] s
  | runs_op h s op : runs h s → runs (h ++ attributed op s (run_op op s).2) (run_op op s).2
  | runs_restart h s audit_path s' :
      runs h s → path_set store_path = true →
      orchestrator_init store_path audit_path (o_world s) (o_env s) = Ok s' → runs h s'.

Lemma audit_load_env path e o e' : audit_load path e = (o, e') → e' = e.
Proof.
  unfold audit_load, mbind, py_bind, gets, lift, mret, py_ret. destruct (path_set path);
    [destruct (load_lines _ _)|]; by intros [= _ <-].
Qed.

Lemma init_inv e st audit_path (w : W * list call) s :
  store_load store_path e = (Ok st, e) →
  orchestrator_init store_path audit_path w e = Ok s →
  o_world s = w ∧ o_env s = e ∧ o_store s = st ∧ o_intents s = [].
Proof.
  unfold orchestrator_init. intros ->. destruct (audit_load audit_path e) as [[a|x] e'] eqn:Ha; [|done].
  apply audit_load_env in Ha as ->. by intros [= <-].
Qed.

Lemma op_keeps h op s :
  SInv h s → SInv (h ++ attributed op s (run_op op s).2) (run_op op s).2.
Proof.
  intros Hs. pose proof (execute_keeps h s Hs) as Hex.
  destruct op; unfold attributed; cbn iota; rewrite ?app_nil_r.
  - by apply submit_keeps.
  - by apply receive_quote_keeps.
  - by apply prepare_keeps.
  - by apply approve_keeps.
  - change (run_op OpExecute) with (execute ;; mret tt : PyM Orch unit).
    unfold wp in Hex. set (s' := ((execute ;; mret tt : PyM Orch unit) s).2) in *.
    destruct Hex as [Hs'|(iid & r & p & Hf & Hp & Hs')].
    + assert (drop (List.length (o_world s).2) (o_world s').2 = []) as Hdrop.
      { apply drop_ge. rewrite (inv_calls _ _ _ _ _ _ _ _ Hs), (inv_calls _ _ _ _ _ _ _ _ Hs'). done. }
      rewrite Hdrop. destruct (first_in _ _) as [[]|]; cbn; by rewrite app_nil_r.
    + rewrite Hf. pose proof (inv_calls _ _ _ _ _ _ _ _ Hs') as Hc.
      rewrite fmap_app, <- (inv_calls _ _ _ _ _ _ _ _ Hs) in Hc. rewrite Hc, drop_app_length. done.
  - by apply receive_receipt_keeps.
  - by apply confirm_settled_keeps.
  - by apply reconcile_keeps.
  - by apply cancel_keeps.
  - by apply reject_keeps.
  - by apply check_expired_keeps.
Qed.

Lemma runs_inv h s : runs h s → SInv h s.
Proof.
  induction 1 as [w e ap s Hmiss Hinit|h s op Hr IH|h s ap s' Hr IH Hset Hinit].
  - destruct (init_inv e {| st_path := store_path; st_intents := ∅; st_approvals := ∅;
      st_receipts := [] |} ap (w, []) s) as (Hw & He & Hst & Hd); [by apply store_load_missing|done|].
    unfold PolicyFacts.SInv. rewrite Hw, He, Hst, Hd, Hmiss. split; try done.
    + by left.
    + constructor.
    + intros x Hx. by apply elem_of_nil in Hx.
    + constructor.
  - by apply op_keeps.
  - destruct IH as [Hp Hf Hk Hr' Hh Ho Hc].
    assert (∃ st', store_load store_path (o_env s) = (Ok st', o_env s) ∧ st_path st' = store_path ∧
      file_ok store_path (store_file (o_env s)) st' ∧
      (∀ x, x ∈ h → ex_iid x ∈ st_intents st')) as (st' & Hload & Hp' & Hf' & Hin).
    { destruct (Hf Hset) as [Hm|(st0 & Hdoc & _)].
      - exists {| st_path := store_path; st_intents := ∅; st_approvals := ∅; st_receipts := [] |}.
        split; [by apply store_load_missing|]. split; [done|].
        split; [by left|]. intros x Hx. destruct (Hh x Hx) as (_ & Hd & _).
        destruct (Hd Hset) as (I & K & Hs & _). by rewrite Hm in Hs.
      - eexists. split; [by apply store_load_saved|]. split; [done|]. split.
        + right. by exists st0.
        + intros x Hx. destruct (Hh x Hx) as (_ & Hd & _). destruct (Hd Hset) as (I & K & Hs & Hi).
          rewrite Hdoc, file_sets_doc in Hs. by simplify_eq. }
    destruct (init_inv _ _ _ _ _ Hload Hinit) as (Hw & He & Hst & Hd).
    unfold PolicyFacts.SInv. rewrite Hw, He, Hst, Hd. split; try done.
    + constructor.
    + intros x Hx. destruct (Hh x Hx) as ((? & ? & ? & ? & ? & _) & ? & _).
      split; [by split_and!|]. split; [done|]. by apply Hin.
Qed.

(** A sequence of operations, with the dispatches it made. *)
Fixpoint run_all (ops : list Op) (hs : list Execution * Orch) : list Execution * Orch :=
  match ops with
  | [] => hs
  | op :: ops' =>
      let s' := (run_op op hs.2).2 in run_all ops' (hs.1 ++ attributed op hs.2 s', s')
  end.

Lemma run_all_runs ops hs : runs hs.1 hs.2 → runs (run_all ops hs).1 (run_all ops hs).2.
Proof.
  revert hs. induction ops as [|op ops IH]; intros hs Hr; cbn; [done|]. apply IH. cbn.
  by apply runs_op.
Qed.
End Operations.
