(* ===== verification/PolicyRecords.v ===== *)
(** * Properties of every tracked record

    What the engine's operations keep of each record they track, for a
    property of records that the single updates keep ([RecordInv]).  The
    messages the operations are given may be required to be good. *)

From S2P Require Import Prelude.
From S2P Require Import Json.
From S2P Require Import Models.
From S2P Require Import ModelsFacts.
From S2P Require Import StateMachine.
From S2P Require Import StateMachineFacts.
From S2P Require Import Adapter.
From S2P Require Import Storage.
From S2P Require Import StorageFacts.
From S2P Require Import Policy.
From S2P Require Import PolicyFacts.
From S2P Require Import PolicyInv.
Import Models StateMachine Adapter Storage Policy.

(** What a payment from the adapter is about: the intent it was prepared for. *)
Definition prepared_for {W} (A : SettlementAdapter W) (i : PaymentIntent) (p : PrepareResult) : Prop :=
  ∃ ri w, (ad_prepare ri (pi_amount_sat i) (pi_max_fee_sat i) w).1 = Ok p ∧
          pp_fee_sat p ≤ pi_max_fee_sat i.

(** A property of records that every update of the code keeps. *)
Class RecordInv `{Host} {W} (A : SettlementAdapter W) (good : PaymentMessage → Prop)
    (good_approval : PaymentApproval → Prop) (R : IntentRecord → Prop) : Prop := {
  ri_new i : good (MIntent i) → R (new_record i);
  ri_state st r : R r → R (with_state st r);
  ri_quote q r : good (MQuote q) → R r → R (with_quote q r);
  ri_prepared p r : prepared_for A (ir_intent r) p → R r → R (with_prepared p r);
  ri_approval a r : good_approval a → R r → R (with_approval a r);
  ri_receipt c r : good (MReceipt c) → R r → R (with_receipt c r);
  ri_built r res t c : R r → build_receipt r res t = Ok c → good (MReceipt c);
  ri_reconciliation c r : R r → R (with_reconciliation c r)
}.

Section Records.
Context `{h0 : Host} {W : Type} (A : SettlementAdapter W).
Context (good : PaymentMessage → Prop) (good_approval : PaymentApproval → Prop).
Context (R : IntentRecord → Prop) (HR : RecordInv A good good_approval R).
Variable recipient_allowlist : option (string → bool).
Variable rail_allowlist : option (Rail → bool).

#[local] Existing Instance engine_adapter.
Abbreviation Orch := (Orchestrator (W * list call)).
Implicit Types (s : Orch) (d : list (string * IntentRecord)) (r : IntentRecord).

Definition each_ok d : Prop := NoDup (dkeys d) ∧ ∀ iid r, dget d iid = Some r → R r.
Definition each_record s : Prop := each_ok (o_intents s).

Lemma each_dset d iid r : each_ok d → R r → each_ok (dset d iid r).
Proof.
  intros [Hk Hr] Hn. split; [by apply dset_NoDup|]. intros iid2 r2. rewrite dget_dset.
  case_decide; [by intros [= <-]|apply Hr].
Qed.

Lemma each_get d iid r : each_ok d → dget d iid = Some r → R r.
Proof. intros [_ Hr]. apply Hr. Qed.

Definition holds (m : PyM Orch unit) : Prop := ∀ s, each_record s → wp m (λ _ s', each_record s') s.

(** Close a path: the records are updates of the old ones. *)
Ltac each :=
  unfold each_record in *; cbn [o_world o_env o_store o_audit o_intents fst snd] in *;
  repeat first
    [ eassumption
    | apply each_dset
    | apply ri_state | apply ri_quote | apply ri_approval | apply ri_receipt | apply ri_reconciliation
    | eapply each_get; [|eassumption] ].

Lemma cancel_each iid : holds (cancel iid).
Proof. intros s Hs. unfold cancel. engine; each. Qed.

Lemma reject_each iid : holds (reject iid).
Proof. intros s Hs. unfold reject. engine; each. Qed.

Lemma receive_quote_each q : good (MQuote q) → holds (receive_quote q).
Proof. intros Hq s Hs. unfold receive_quote. engine; each. Qed.

Lemma confirm_settled_each iid : holds (confirm_settled iid).
Proof. intros s Hs. unfold confirm_settled. engine; each. Qed.

Lemma reconcile_each iid : holds (reconcile_settlement iid ;; mret tt).
Proof.
  intros s Hs. unfold reconcile_settlement.
  cbn [ad_reconcile_settlement engine_adapter logged_adapter]. engine; each.
Qed.

Lemma receive_receipt_each c : good (MReceipt c) → holds (receive_receipt c ;; mret tt).
Proof.
  intros Hc s Hs. unfold receive_receipt.
  cbn [ad_verify_sender_settlement engine_adapter logged_adapter]. engine; each.
Qed.

Lemma submit_each i : good (MIntent i) → holds (submit recipient_allowlist i).
Proof.
  intros Hi s Hs. unfold submit, check_intent_expired. engine; each.
  all: by apply ri_new.
Qed.

Lemma approve_each a : good_approval a → holds (approve a).
Proof. intros Ha s Hs. unfold approve. engine; each. Qed.

Lemma prepare_each : holds (prepare rail_allowlist ;; mret tt).
Proof.
  intros s Hs. assert (NoDup (dkeys (o_intents s))) by apply Hs.
  unfold prepare, check_quote_expired.
  cbn [ad_prepare engine_adapter logged_adapter]. engine; each.
  all: bool_facts; apply ri_prepared; [do 2 eexists; split; eassumption|each].
Qed.

Lemma execute_each : holds (execute ;; mret tt).
Proof.
  intros s Hs. assert (NoDup (dkeys (o_intents s))) by apply Hs.
  unfold execute, execution_handler, fail_closed. engine; each.
  all: eapply ri_built; [|eassumption]; each.
Qed.

Lemma expire_one_each iid : holds (expire_one iid).
Proof.
  intros s Hs. unfold expire_one. repeat (wp_step; cbn beta).
  destruct (dget (o_intents s) iid) as [r|] eqn:Hd; [|by wp_step].
  destruct (tr_ok (transition (ir_state r) "expired")); [|by wp_step]. engine; each.
Qed.

Lemma check_expired_each l : holds (check_expired l ;; mret tt).
Proof.
  intros s Hs. unfold check_expired. do 2 wp_step. apply wp_now_engine. intros t e He. cbn beta iota.
  repeat (wp_step; cbn beta). cbn [o_intents]. destruct (_.*1) as [|k ks]; [repeat wp_step; each|].
  wp_step. eapply wp_mono.
  - apply (wp_py_for expire_one each_record (λ _, each_record)); [each|].
    intros x s' _ Hs'. eapply wp_mono; [by apply expire_one_each|]. by intros [[]|].
  - intros [[]|x] s' Hs'; [|done]. by wp_step.
Qed.

(** The messages an operation is given are good. *)
Definition op_good (op : Op) : Prop :=
  match op with
  | OpSubmit i => good (MIntent i)
  | OpReceiveQuote q => good (MQuote q)
  | OpApprove a => good_approval a
  | OpReceiveReceipt c => good (MReceipt c)
  | _ => True
  end.

Lemma op_each op s :
  op_good op → each_record s →
  each_record (run_op recipient_allowlist rail_allowlist op s).2.
Proof.
  intros Hg Hs. destruct op; cbn [op_good] in Hg.
  - by apply submit_each.
  - by apply receive_quote_each.
  - by apply prepare_each.
  - by apply approve_each.
  - by apply execute_each.
  - by apply receive_receipt_each.
  - by apply confirm_settled_each.
  - by apply reconcile_each.
  - by apply cancel_each.
  - by apply reject_each.
  - by apply check_expired_each.
Qed.
End Records.
