(* ===== verification/PolicyThms.v ===== *)
(** * Properties of the policy engine *)

From S2P Require Import Prelude.
From S2P Require Import Json.
From S2P Require Import Models.
From S2P Require Import ModelsFacts.
From S2P Require Import StateMachine.
From S2P Require Import StateMachineFacts.
From S2P Require Import Adapter.
From S2P Require Import Wavelength.
From S2P Require Import WavelengthThms.
From S2P Require Import Storage.
From S2P Require Import StorageFacts.
From S2P Require Import Policy.
From S2P Require Import PolicyFacts.
From S2P Require Import PolicyInv.
From Stdlib Require Import Floats.SpecFloat.
Import Models StateMachine Adapter Wavelength Storage Policy.

Section Theorems.
Context `{Host} {W : Type} (A : SettlementAdapter W).
Variable recipient_allowlist : option (string → bool).
Variable rail_allowlist : option (Rail → bool).
Variable store_path : option string.

#[local] Existing Instance engine_adapter.

Abbreviation Orch := (Orchestrator (W * list call)).
Abbreviation runs := (runs A recipient_allowlist rail_allowlist store_path).
Abbreviation run_op := (run_op recipient_allowlist rail_allowlist).
Implicit Types (s : Orch) (h : list Execution).

(** C1. A payment is dispatched at most once, ever: in every run of the engine
    over any adapter, with operations in any order, any of them raising, any
    file write failing and the process restarting at will on its store file,
    every call of the adapter's [execute] was made for a tracked intent in
    state APPROVED, and no two calls were made for the same intent. *)
Theorem dispatched_at_most_once h s (Hrun : runs h s) :
  (o_world s).2 = ex_call <$> h ∧ NoDup (ex_iid <$> h) ∧
  ∀ x, x ∈ h → ir_state (ex_record x) = APPROVED ∧ pi_id (ir_intent (ex_record x)) = ex_iid x.
Proof.
  apply runs_inv in Hrun. split_and!; [apply Hrun|apply Hrun|].
  intros x Hx. destruct (inv_history _ _ _ _ _ _ _ _ Hrun x Hx) as ((? & ? & ? & _) & _). done.
Qed.

(** C2. Only what was approved is dispatched: every call of the adapter's
    [execute] carries the payload and hash of the record's own preparation,
    whose fee is within the intent's limit and whose rail and recipient are
    allowed; the record holds an approval naming that intent and that hash;
    and the approval was on disk before the call, when there is a store. *)
Theorem dispatch_was_approved h s (Hrun : runs h s) x (Hx : x ∈ h) :
  recipient_allowed recipient_allowlist (ir_intent (ex_record x)) ∧
  ∃ p a, ir_prepared (ex_record x) = Some p ∧ ir_approval (ex_record x) = Some a ∧
    ex_call x = (pp_prepared_payload p, pp_prepared_hash p) ∧
    pp_fee_sat p ≤ pi_max_fee_sat (ir_intent (ex_record x)) ∧
    rail_allowed rail_allowlist (pp_rail p) ∧
    pa_intent_id a = ex_iid x ∧ pa_prepared_hash a = pp_prepared_hash p ∧
    durable store_path (store_file (o_env s)) (λ I K,
      ex_iid x ∈ I ∧ approval_key (ex_iid x) (pa_quote_id a) (pa_prepared_hash a) ∈ K).
Proof.
  apply runs_inv in Hrun. destruct (inv_history _ _ _ _ _ _ _ _ Hrun x Hx)
    as ((_ & Hrec & _ & (p & a & (Hp & Hfee & Hrail) & Ha & Hid & Hh & Hd) & (p' & Hp' & Hcall) & _) & _).
  rewrite Hp in Hp'. simplify_eq. split; [done|]. by exists p', a.
Qed.

(** ** The records move along the transition table *)

Definition op_triggers (op : Op) : list string :=
  match op with
  | OpSubmit _ => ["submit"] | OpReceiveQuote _ => ["quote_received"] | OpPrepare => ["prepared"]
  | OpApprove _ => ["approved"] | OpExecute => ["executing"; "settled"; "adapter_error"]
  | OpReceiveReceipt _ => ["receipt_received"] | OpConfirmSettled _ => ["confirm_settled"]
  | OpReconcile _ => [] | OpCancel _ => ["cancel"] | OpReject _ => ["rejected"]
  | OpCheckExpired _ => ["expired"]
  end.

(** The same intents, each moved by some of the triggers. *)
Definition moved (triggers : list string) (o o' : option IntentRecord) : Prop :=
  match o, o' with
  | Some r, Some r' =>
      ir_intent r' = ir_intent r ∧
      ∃ ts, Forall (λ t, t ∈ triggers) ts ∧ ir_state r' = run_triggers (ir_state r) ts
  | None, None => True
  | _, _ => False
  end.
Definition evolved triggers (d d' : list (string * IntentRecord)) : Prop :=
  ∀ iid, moved triggers (dget d iid) (dget d' iid).

Lemma evolved_refl triggers d : evolved triggers d d.
Proof. intros iid. unfold moved. destruct (dget d iid); [|done]. split; [done|]. by exists []. Qed.

Lemma evolved_touch triggers d d' iid r r' :
  evolved triggers d d' → dget d' iid = Some r → ir_intent r' = ir_intent r →
  ir_state r' = ir_state r → evolved triggers d (dset d' iid r').
Proof.
  intros He Hd Hi Hs k. specialize (He k). rewrite dget_dset. case_decide as Heq; [|done]. subst.
  rewrite Hd in He. unfold moved in *. destruct (dget d k); [|done]. by rewrite Hi, Hs.
Qed.

Lemma evolved_move triggers d d' iid r trigger ps' :
  evolved triggers d d' → dget d' iid = Some r → trigger ∈ triggers →
  lookup_transition (ir_state r) trigger = Some ps' →
  evolved triggers d (dset d' iid (with_state ps' r)).
Proof.
  intros He Hd Htr Hl k. specialize (He k). rewrite dget_dset. case_decide as Heq; [|done]. subst.
  rewrite Hd in He. unfold moved in *. destruct (dget d k) as [r0|]; [|done].
  destruct He as (Hi & ts & Hts & Hst). split; [done|]. exists (ts ++ [trigger]). split.
  - apply Forall_app. split; [done|]. by apply Forall_singleton.
  - rewrite run_triggers_app, <- Hst. cbn. by rewrite (transition_eq _ _ _ Hl).
Qed.

Ltac evolve :=
  first
    [ apply evolved_refl
    | eassumption
    | eapply evolved_move; [|rewrite ?dget_dset_eq; (eassumption || reflexivity)| |eassumption];
      [|decide_now]; evolve
    | eapply evolved_touch; [|rewrite ?dget_dset_eq; (eassumption || reflexivity)|reflexivity..];
      evolve ].

Lemma op_evolves op s :
  NoDup (dkeys (o_intents s)) →
  wp (run_op op) (λ _ s',
    match op with
    | OpSubmit i =>
        o_intents s' = o_intents s ∨
        ∃ r, ir_intent r = i ∧ ir_state r = SUBMITTED ∧
             o_intents s' = dset (o_intents s) (pi_id i) r
    | _ => evolved (op_triggers op) (o_intents s) (o_intents s')
    end) s.
Proof.
  intros Hnd.
  assert (lookup_transition EXECUTING "adapter_error" = Some RECONCILIATION_REQUIRED) by reflexivity.
  destruct op; cbn [Policy.run_op op_triggers].
  - unfold submit, check_intent_expired. engine; try (by left).
    all: match goal with Hl : lookup_transition _ "submit" = Some _ |- _ =>
           vm_compute in Hl; injection Hl as <- end.
    all: right; eexists; split_and!; [| |reflexivity]; done.
  - unfold receive_quote. engine; evolve.
  - unfold prepare, check_quote_expired. cbn [ad_prepare engine_adapter logged_adapter].
    engine; evolve.
  - unfold approve. engine; evolve.
  - unfold execute, execution_handler, fail_closed. engine; try evolve.
    all: match goal with Hl : lookup_transition ?ps "executing" = Some ?x, Hq : ?ps = _ |- _ =>
           assert (x = EXECUTING) as -> by (rewrite Hq in Hl; vm_compute in Hl; congruence) end.
    all: evolve.
  - unfold receive_receipt. cbn [ad_verify_sender_settlement engine_adapter logged_adapter].
    engine; evolve.
  - unfold confirm_settled. engine; evolve.
  - unfold reconcile_settlement. cbn [ad_reconcile_settlement engine_adapter logged_adapter].
    engine; evolve.
  - unfold cancel. engine; evolve.
  - unfold reject. engine; evolve.
  - unfold check_expired. do 2 wp_step. apply wp_now_engine. intros t e He. cbn beta iota.
    repeat (wp_step; cbn beta). cbn [o_intents]. 
    destruct (_.*1) as [|k ks]; [repeat wp_step; evolve|].
    wp_step. eapply wp_mono.
    + apply (wp_py_for expire_one (λ s', evolved ["expired"] (o_intents s) (o_intents s'))
               (λ _ s', evolved ["expired"] (o_intents s) (o_intents s'))); [evolve|].
      intros x s' _ Hs'. unfold expire_one. repeat (wp_step; cbn beta).
      destruct (dget (o_intents s') x) as [r|] eqn:Hd; [|by wp_step].
      destruct (tr_ok (transition (ir_state r) "expired")) eqn:Hok; [|by wp_step].
      apply transition_ok in Hok. engine; evolve.
    + intros [[]|x] s' Hs'; [|done]. by wp_step.
Qed.

Lemma submit_seen i s :
  has_intent (o_store s) (pi_id i) = true → submit recipient_allowlist i s = (Ok tt, s).
Proof. intros Hin. unfold submit, mbind, py_bind, gets. by rewrite Hin. Qed.

(** C17. The engine refines the state machine: in every reachable state, an
    operation, whether it returns or raises, moves each tracked record by
    triggers of that operation accepted by the transition table (possibly
    none), keeps its intent, and tracks or forgets no other intent; only
    [submit] adds a record, for a new intent, in state SUBMITTED.  In
    particular no record ever takes a step the table does not have. *)
Theorem engine_refines_state_machine h s (Hrun : runs h s) op iid :
  let s' := (run_op op s).2 in
  moved (op_triggers op) (dget (o_intents s) iid) (dget (o_intents s') iid) ∨
  ∃ i r, op = OpSubmit i ∧ pi_id i = iid ∧ dget (o_intents s) iid = None ∧
         dget (o_intents s') iid = Some r ∧ ir_intent r = i ∧
         ir_state r = run_triggers DRAFT ["submit"].
Proof.
  apply runs_inv in Hrun. cbn zeta.
  assert (NoDup (dkeys (o_intents s))) as Hnd by apply Hrun.
  pose proof (op_evolves op s Hnd) as Hev. unfold wp in Hev.
  destruct op as [i| | | | | | | | | |]; try (left; apply Hev).
  cbn [Policy.run_op] in *. destruct (dget (o_intents s) (pi_id i)) as [r0|] eqn:Hd.
  - left. rewrite submit_seen; [apply evolved_refl|]. apply bool_decide_eq_true.
    destruct (inv_records _ _ _ _ _ _ _ _ Hrun _ _ Hd) as (_ & Hin & _). exact Hin.
  - destruct Hev as [->|(r & Hi & Hst & ->)]; [left; apply evolved_refl|].
    destruct (decide (pi_id i = iid)) as [<-|Hne].
    + right. exists i, r. rewrite dget_dset_eq. by split_and!.
    + left. rewrite dget_dset_ne by done. apply evolved_refl.
Qed.

(** ** Replay protection *)

Inductive step : Orch → Orch → Prop :=
  | step_op s op : step s (run_op op s).2
  | step_restart s audit_path s' :
      path_set store_path = true →
      orchestrator_init store_path audit_path (o_world s) (o_env s) = Ok s' → step s s'.

(** The store and its file only grow. *)
Definition grown s s' : Prop :=
  st_path (o_store s') = st_path (o_store s) ∧
  st_intents (o_store s) ⊆ st_intents (o_store s') ∧
  st_approvals (o_store s) ⊆ st_approvals (o_store s') ∧
  (store_file (o_env s') = store_file (o_env s) ∨
   ∃ st, store_file (o_env s') = Doc (store_doc st) ∧
     st_intents (o_store s) ⊆ st_intents st ∧ st_approvals (o_store s) ⊆ st_approvals st).

Ltac grow :=
  unfold grown in *; cbn [o_env o_store st_path st_intents st_approvals store_file] in *;
  split; [reflexivity|]; split; [first [reflexivity|apply union_subseteq_r]|];
  split; [first [reflexivity|apply union_subseteq_r]|];
  first [left; congruence
        |right; eexists; split; [first [eassumption|etrans; [eassumption|eassumption]]|];
         cbn [st_intents st_approvals]; split; first [reflexivity|apply union_subseteq_r]].

Lemma op_grows op s : wp (run_op op) (λ _ s', grown s s') s.
Proof.
  destruct op; cbn [Policy.run_op].
  - unfold submit, check_intent_expired. engine; grow.
  - unfold receive_quote. engine; grow.
  - unfold prepare, check_quote_expired. cbn [ad_prepare engine_adapter logged_adapter].
    engine; grow.
  - unfold approve. engine; grow.
  - unfold execute, execution_handler, fail_closed. engine; grow.
  - unfold receive_receipt. cbn [ad_verify_sender_settlement engine_adapter logged_adapter].
    engine; grow.
  - unfold confirm_settled. engine; grow.
  - unfold reconcile_settlement. cbn [ad_reconcile_settlement engine_adapter logged_adapter].
    engine; grow.
  - unfold cancel. engine; grow.
  - unfold reject. engine; grow.
  - unfold check_expired. do 2 wp_step. apply wp_now_engine. intros t e He. cbn beta iota.
    repeat (wp_step; cbn beta). cbn [o_intents].
    destruct (_.*1) as [|k ks]; [repeat wp_step; grow|]. wp_step.
    pose (I := λ s', o_store s' = o_store s ∧ store_file (o_env s') = store_file (o_env s)).
    eapply wp_mono.
    + apply (wp_py_for expire_one I (λ _, I)); [by split|].
      intros x s' _ [Hst Hf]. unfold expire_one. repeat (wp_step; cbn beta).
      destruct (dget (o_intents s') x) as [r|]; [|by wp_step].
      destruct (tr_ok (transition (ir_state r) "expired")); [|by wp_step].
      engine; split; cbn; congruence.
    + assert (∀ s', I s' → grown s s') as HI.
      { intros s' [Hst Hf]. unfold grown. rewrite Hst. by repeat split; try left. }
      intros [[]|x] s' Hs'; [wp_step|]; by apply HI.
Qed.

(** Identifiers and approvals that are recorded, also on disk. *)
Definition recorded (X Y : gset string) s : Prop :=
  st_path (o_store s) = store_path ∧ X ⊆ st_intents (o_store s) ∧ Y ⊆ st_approvals (o_store s) ∧
  durable store_path (store_file (o_env s)) (λ I K, X ⊆ I ∧ Y ⊆ K).

Lemma store_load_sets e st e' :
  path_set store_path = true → store_load store_path e = (Ok st, e') →
  e' = e ∧ st_path st = store_path ∧
  ∀ I K, file_sets (store_file e) = Some (I, K) → st_intents st = I ∧ st_approvals st = K.
Proof.
  intros Hset. unfold store_load. rewrite Hset. unfold mbind, py_bind, gets, lift, raise, mret, py_ret.
  unfold file_sets. destruct (store_file e) as [| |[| | | | | |d]]; try done.
  - by intros [= <- <-].
  - destruct (load_set _) as [I|]; [|done]. destruct (load_set _) as [K|]; [|done].
    destruct (load_dict _); [|done]. intros [= <- <-]. split; [done|]. split; [done|].
    by intros ? ? [= <- <-].
Qed.

Lemma step_recorded X Y s s' : recorded X Y s → step s s' → recorded X Y s'.
Proof.
  intros (Hp & HX & HY & Hd) Hstep. destruct Hstep as [s op|s ap s' Hset Hinit].
  - destruct (op_grows op s) as (Hp' & Hi & Ha & Hf). split; [congruence|].
    split; [by etrans|]. split; [by etrans|]. destruct Hf as [->|(st & -> & Hi' & Ha')]; [done|].
    intros _. rewrite file_sets_doc. do 2 eexists. split; [reflexivity|]. split; by etrans.
  - unfold orchestrator_init in Hinit.
    destruct (store_load store_path (o_env s)) as [[st|] e] eqn:Hl; [|done].
    destruct (store_load_sets _ _ _ Hset Hl) as (-> & Hp' & Hsets).
    destruct (audit_load ap (o_env s)) as [[au|] e'] eqn:Hau; [|done].
    apply audit_load_env in Hau as ->. injection Hinit as <-.
    destruct (Hd Hset) as (I & K & Hf & ? & ?). destruct (Hsets _ _ Hf) as [HI HK].
    split_and!; cbn; by rewrite ?HI, ?HK.
Qed.

Lemma steps_recorded X Y s s' : recorded X Y s → rtc step s s' → recorded X Y s'.
Proof. intros Hr Hs. induction Hs; [done|]. eauto using step_recorded. Qed.

Lemma submit_records i s :
  has_intent (o_store s) (pi_id i) = false → st_path (o_store s) = store_path →
  wp (submit recipient_allowlist i) (λ o s', o = Ok tt → recorded {[pi_id i]} ∅ s') s.
Proof.
  intros Hnew Hp. unfold submit, check_intent_expired. engine; try congruence; intros [=].
  all: unfold recorded; cbn [o_store o_env st_path st_intents st_approvals];
       split; [done|]; split; [apply union_subseteq_l|]; split; [apply empty_subseteq|].
  all: intros Hset; try congruence.
  match goal with H1 : store_file ?a = store_file ?b, H2 : store_file ?b = _ |- _ => rewrite H1, H2 end.
  rewrite file_sets_doc. do 2 eexists. split; [reflexivity|].
  split; [apply union_subseteq_l|apply empty_subseteq].
Qed.

Lemma approve_records a s :
  st_path (o_store s) = store_path →
  wp (approve a) (λ o s', o = Ok tt → recorded ∅
    {[approval_key (pa_intent_id a) (pa_quote_id a) (pa_prepared_hash a)]} s') s.
Proof.
  intros Hp. unfold approve. engine; intros [=].
  all: unfold recorded; cbn [o_store o_env st_path st_intents st_approvals];
       split; [done|]; split; [apply empty_subseteq|]; split; [apply union_subseteq_l|].
  all: intros Hset; try congruence.
  match goal with H1 : store_file ?a = store_file ?b, H2 : store_file ?b = _ |- _ => rewrite H1, H2 end.
  rewrite file_sets_doc. do 2 eexists. split; [reflexivity|].
  split; [apply empty_subseteq|apply union_subseteq_l].
Qed.

Lemma approve_used a s :
  has_approval (o_store s) (pa_intent_id a, pa_quote_id a, pa_prepared_hash a) = true →
  ∃ e, approve a s = (Raise e, s).
Proof.
  intros Hu. assert (wp (approve a) (λ o s', s' = s ∧ ∃ e, o = Raise e) s) as Hwp.
  { unfold approve. engine; try congruence; eauto. }
  unfold wp in Hwp. destruct (approve a s) as [o s']. cbn in Hwp. destruct Hwp as [-> [e ->]]. eauto.
Qed.


(** ** Execution and receipts *)

Definition state_of s iid : option PaymentState := ir_state <$> dget (o_intents s) iid.

Lemma ambiguous_is_adapter e :
  isinstance_exn e CAmbiguousResult = true → isinstance_exn e CAdapterError = true.
Proof. destruct e as [[] m]; by vm_compute. Qed.

(** What [execute] does with the adapter's answer for record [r]. *)
Definition execution_result (iid : string) (r : IntentRecord) (answer : outcome ExecuteResult)
    (o : outcome PaymentReceipt) s' : Prop :=
  match answer with
  | Raise e =>
      if isinstance_exn e CAdapterError
      then is_ok o = false ∧ state_of s' iid = Some RECONCILIATION_REQUIRED
      else o = Raise e ∧ state_of s' iid = Some EXECUTING
  | Ok res =>
      ∃ t, match build_receipt r res t with
      | Raise e => o = Raise e ∧ state_of s' iid = Some EXECUTING
      | Ok c =>
          get_receipt (o_store s') (pr_intent_id c) = Some (JStr (pr_settlement_ref c)) ∧
          match o with
          | Ok c' => c' = c ∧ state_of s' iid = Some SETTLED
          | Raise e => exn_cls e = COSError ∧
                       (state_of s' iid = Some EXECUTING ∨ state_of s' iid = Some SETTLED)
          end
      end
  end.

(** C12. Execution fails closed: with no APPROVED record it raises and changes
    nothing; otherwise the record leaves APPROVED before the adapter is called
    (a failing audit write stops the call), the adapter is called once, with
    the prepared payload, and its answer decides: an adapter error of any kind,
    ambiguous or not, ends in RECONCILIATION_REQUIRED and raises; any other
    exception, also of the receipt's validation, leaves EXECUTING; success ends
    SETTLED with the receipt bound in the store, unless a file write failed. *)
Theorem execution_fails_closed_on_errors s (Hnd : NoDup (dkeys (o_intents s))) :
  match first_in APPROVED (o_intents s) with
  | None => wp execute (λ o s', is_ok o = false ∧ s' = s) s
  | Some (iid, r) =>
      ∀ p, ir_prepared r = Some p →
      wp execute (λ o s',
        ((o_world s').2 = (o_world s).2 ∧ is_ok o = false ∧ state_of s' iid = Some EXECUTING) ∨
        ((o_world s').2 = (o_world s).2 ++ [(pp_prepared_payload p, pp_prepared_hash p)] ∧
         execution_result iid r
           (ad_execute (SettlementAdapter := A) (pp_prepared_payload p) (pp_prepared_hash p)
              (o_world s).1).1 o s')) s
  end.
Proof.
  destruct (first_in APPROVED (o_intents s)) as [[iid r]|] eqn:Hf.
  - intros p Hp. unfold execute, execution_handler, fail_closed. engine.
    all: simplify_eq.
    all: match goal with Ho : of_opt _ _ (ir_prepared _) = _ |- _ => rewrite Hp in Ho; cbn in Ho; simplify_eq end.
    all: match goal with Hl : lookup_transition ?ps "executing" = _, Hq : ?ps = _ |- _ =>
           rewrite Hq in Hl; vm_compute in Hl; simplify_eq end.
    all: try match goal with Hl : lookup_transition EXECUTING "settled" = _ |- _ =>
           vm_compute in Hl; simplify_eq end.
    all: cbn [snd fst].
    all: lazymatch goal with
         | |- (_ ++ _ = _ ∧ _) ∨ _ =>
             right; split; [reflexivity|]; unfold execution_result
         | |- _ => left; unfold state_of; cbn [o_intents o_world snd]; rewrite ?dget_dset_eq; auto
         end.
    all: match goal with Ha : (ad_execute _ _ _).1 = _ |- _ => rewrite Ha end.
    all: try match goal with Ha : isinstance_exn _ CAmbiguousResult = true |- _ =>
           rewrite (ambiguous_is_adapter _ Ha) end.
    all: try match goal with Ha : isinstance_exn _ CAdapterError = _ |- _ => rewrite Ha end.
    all: try match goal with Hb : build_receipt _ _ ?t = _ |- _ => exists t; rewrite Hb end.
    all: unfold state_of, get_receipt; cbn [o_intents o_store st_receipts exn_cls];
         rewrite ?dget_dset_eq; cbn; auto.
  - unfold execute. wp_step. apply wp_find_by_state; [congruence|]. by intros m _.
Qed.

(** The gate before any effect of a receipt. *)
Definition receipt_admissible s (c : PaymentReceipt) (r : IntentRecord) : Prop :=
  dget (o_intents s) (pr_intent_id c) = Some r ∧
  ir_state r ∈ [EXECUTING; RECONCILIATION_REQUIRED] ∧
  has_receipt (o_store s) (pr_intent_id c) = false.

Lemma receipt_target ps ps' :
  lookup_transition ps "receipt_received" = Some ps' → ps' = SETTLED.
Proof.
  intros Hl. apply (edge_check (λ _ tr t,
    negb (String.eqb tr "receipt_received") || bool_decide (t = SETTLED))) in Hl; [|by vm_compute].
  by apply bool_decide_eq_true in Hl.
Qed.

(** C16. A forged receipt has no effect: a receipt for an intent that is not
    tracked, is not EXECUTING or RECONCILIATION_REQUIRED, or already has a
    receipt, is refused with the whole state as it was; a receipt is accepted
    only when its amount is the intent's, its quote is the current one and the
    adapter verified the settlement on the sender's side, and then the intent
    is SETTLED with the binding stored; a refusal other than a failed write
    leaves the records and the store alone; and no outcome dispatches. *)
Theorem receipts_are_verified s (c : PaymentReceipt) :
  wp (receive_receipt c) (λ o s',
    (o_world s').2 = (o_world s).2 ∧
    ((∀ r, ¬ receipt_admissible s c r) → is_ok o = false ∧ s' = s) ∧
    match o with
    | Raise e => exn_cls e ≠ COSError → o_intents s' = o_intents s ∧ o_store s' = o_store s
    | Ok c' =>
        ∃ r q v, receipt_admissible s c r ∧ c' = c ∧
          pr_amount_sat c = pi_amount_sat (ir_intent r) ∧
          ir_quote r = Some q ∧ pq_quote_id q = pr_quote_id c ∧
          (ad_verify_sender_settlement (SettlementAdapter := A) (pr_settlement_ref c)
             (pr_amount_sat c) (o_world s).1).1 = Ok v ∧ rv_verified v = true ∧
          state_of s' (pr_intent_id c) = Some SETTLED ∧
          get_receipt (o_store s') (pr_intent_id c) = Some (JStr (pr_settlement_ref c)) ∧
          (path_set (st_path (o_store s)) = true →
           store_file (o_env s') = Doc (store_doc (o_store s')))
    end) s.
Proof.
  unfold receive_receipt. cbn [ad_verify_sender_settlement engine_adapter logged_adapter]. engine.
  all: bool_facts; split; [reflexivity|]; split.
  all: try (intros Hno; first [done|exfalso; eapply Hno; split_and!; eassumption]).
  all: cbn [exn_cls]; try done.
  all: match goal with Hl : lookup_transition _ "receipt_received" = Some _ |- _ =>
         apply receipt_target in Hl as -> end.
  all: destruct (ir_quote r) as [q|] eqn:Hq; [bool_facts|done].
  all: exists r, q, a; split; [split_and!; eassumption|].
  all: unfold state_of, get_receipt; cbn [o_intents o_store st_receipts]; rewrite ?dget_dset_eq.
  all: split_and!; try done; intros Hset; congruence.
Qed.

(** A quote that is refused still takes effect: for a tracked intent past
    SUBMITTED, a quote within the fee limit and not expired is answered with
    [SubmissionRejected], but the record's quote and quote expiry are already
    replaced; so the approval of the quote that was prepared is refused from
    then on, and an approval naming the refused quote passes the quote check. *)
Theorem refused_quote_replaces_quote s (q : PaymentQuote) r
    (Hr : dget (o_intents s) (pq_intent_id q) = Some r) (Hst : ir_state r ≠ SUBMITTED)
    (Hfee : pq_fee_sat q ≤ pi_max_fee_sat (ir_intent r))
    (Hexp : clock (o_env s) (ticks (o_env s)) ≤ pq_expires_at q) :
  wp (receive_quote q) (λ o s',
    (∃ e, o = Raise e ∧ exn_cls e = CSubmissionRejected) ∧
    dget (o_intents s') (pq_intent_id q) = Some (with_quote q r) ∧
    ∀ a, pa_intent_id a = pq_intent_id q → pa_quote_id a ≠ pq_quote_id q →
      ∃ e, approve a s' = (Raise e, s') ∧ exn_cls e = CApprovalRejected) s.
Proof.
  assert (lookup_transition (ir_state r) "quote_received" = None) as Hnone.
  { destruct (lookup_transition (ir_state r) "quote_received") as [ps|] eqn:Hl; [|done]. exfalso.
    apply (edge_check (λ ps tr _, negb (String.eqb tr "quote_received") ||
      bool_decide (ps = SUBMITTED))) in Hl; [|by vm_compute]. by apply bool_decide_eq_true in Hl. }
  unfold receive_quote, get_record, now, on_env, read_clock. repeat (wp_step; cbn beta iota).
  rewrite Hr. cbn [of_opt]. repeat (wp_step; cbn beta iota).
  rewrite (proj2 (Z.ltb_ge _ _) Hfee). repeat (wp_step; cbn beta iota).
  rewrite (proj2 (Z.ltb_ge _ _) Hexp). wp_step. eapply wp_mutate; [exact Hr|]. cbn beta iota.
  wp_step. apply wp_require_transition; [congruence|]. intros m _. cbn [o_intents].
  rewrite dget_dset_eq. split; [by eexists|]. split; [done|]. intros a Hid Hq.
  unfold approve, get_record, mbind, py_bind, gets, lift. cbn [o_intents].
  rewrite Hid, dget_dset_eq. cbn [of_opt ir_quote with_quote].
  unfold raise_if. rewrite (proj2 (String.eqb_neq _ _)) by congruence. cbn. by eexists.
Qed.
End Theorems.

(** ** A concrete payment *)

#[local] Existing Instance ref_host.
#[local] Existing Instance engine_adapter.

Definition sample_adapter : SettlementAdapter FakeWavecli := WavelengthAdapter default_options.

Definition sample_env : Env :=
  {| store_file := Missing; audit_file := None; faults := []; clock := λ _, 100;
     wall := λ _, S754_zero false; ticks := 0 |}.

Definition sample_approval : PaymentApproval :=
  {| pa_id := "approval-1"; pa_intent_id := "intent-1"; pa_quote_id := "quote-1";
     pa_prepared_hash := pp_prepared_hash sample_prepared; pa_approver := alice; pa_created_at := 90 |}.

Definition sample_ops : list Op :=
  [OpSubmit sample_intent; OpReceiveQuote sample_quote; OpPrepare; OpApprove sample_approval; OpExecute].

Definition sample_start : Orchestrator (FakeWavecli * list call) :=
  {| o_world := (daemon [preview_json; complete_json], []); o_env := sample_env;
     o_store := {| st_path := Some "store.json"; st_intents := ∅; st_approvals := ∅; st_receipts := [] |};
     o_audit := {| au_path := Some "audit.jsonl"; au_seq := 0 |}; o_intents := [] |}.

Definition sample_run (n : nat) : list Execution * Orchestrator (FakeWavecli * list call) :=
  run_all sample_adapter None None (take n sample_ops) ([], sample_start).

Lemma sample_runs n :
  runs sample_adapter None None (Some "store.json") (sample_run n).1 (sample_run n).2.
Proof.
  unfold sample_run. apply run_all_runs. cbn [fst snd].
  apply (runs_start _ _ _ _ (daemon [preview_json; complete_json]) sample_env (Some "audit.jsonl"));
    reflexivity.
Qed.

Lemma dispatched_at_most_once_witness :
  List.length (sample_run 5).1 = 1%nat ∧ NoDup (ex_iid <$> (sample_run 5).1).
Proof.
  split; [vm_compute; reflexivity|].
  exact (proj1 (proj2 (dispatched_at_most_once _ _ _ _ _ _ (sample_runs 5)))).
Defined.

Lemma dispatch_was_approved_witness :
  ∃ x p a, x ∈ (sample_run 5).1 ∧ ir_prepared (ex_record x) = Some p ∧
    ir_approval (ex_record x) = Some a ∧ pa_prepared_hash a = pp_prepared_hash p.
Proof.
  destruct (sample_run 5).1 as [|x h] eqn:Hh; [vm_compute in Hh; discriminate|].
  assert (x ∈ (sample_run 5).1) as Hx by (rewrite Hh; left).
  destruct (dispatch_was_approved _ _ _ _ _ _ (sample_runs 5) x Hx)
    as (_ & p & a & Hp & Ha & _ & _ & _ & _ & Hhash & _).
  exists x, p, a. split; [left|]. split; [exact Hp|]. split; [exact Ha|exact Hhash].
Defined.

Lemma engine_refines_state_machine_witness :
  moved ["approved"] (dget (o_intents (sample_run 3).2) "intent-1")
    (dget (o_intents (run_op (H0 := engine_adapter sample_adapter) None None
             (OpApprove sample_approval) (sample_run 3).2).2) "intent-1").
Proof.
  destruct (engine_refines_state_machine _ _ _ _ _ _ (sample_runs 3) (OpApprove sample_approval)
              "intent-1") as [Hm|(i & r & Hop & _)]; [exact Hm|discriminate].
Defined.

(** The process restarted after the approval. *)
Definition approved_state : Orchestrator (FakeWavecli * list call) :=
  (approve sample_approval (sample_run 3).2).2.
Definition restarted_state : Orchestrator (FakeWavecli * list call) :=
  match orchestrator_init (Some "store.json") (Some "audit.jsonl")
          (o_world approved_state) (o_env approved_state) with
  | Ok s => s
  | Raise _ => sample_start
  end.


Definition ready_state : Orchestrator (FakeWavecli * list call) := (sample_run 4).2.

Lemma ready_state_facts :
  NoDup (dkeys (o_intents ready_state)) ∧
  ∃ r p, first_in APPROVED (o_intents ready_state) = Some ("intent-1", r) ∧ ir_prepared r = Some p.
Proof.
  split.
  - replace (dkeys (o_intents ready_state)) with ["intent-1"] by (vm_compute; reflexivity).
    apply NoDup_singleton.
  - do 2 eexists. split; vm_compute; reflexivity.
Qed.

#[local] Opaque ready_state.

Lemma execution_fails_closed_on_errors_witness :
  state_of (execute (H0 := engine_adapter sample_adapter) ready_state).2 "intent-1" ≠ Some APPROVED.
Proof.
  destruct ready_state_facts as (Hnd & r & p & Hf & Hp).
  pose proof (execution_fails_closed_on_errors sample_adapter ready_state Hnd) as Hex.
  rewrite Hf in Hex. specialize (Hex p Hp). unfold wp in Hex.
  destruct Hex as [(_ & _ & Hst)|(_ & Hres)]; [rewrite Hst; discriminate|].
  unfold execution_result in Hres.
  destruct (ad_execute _ _ _).1 as [res|e].
  - destruct Hres as [t Hres]. destruct (build_receipt r res t).
    + destruct Hres as [_ Hres]. destruct (execute ready_state).1;
        [destruct Hres as [_ Hst]|destruct Hres as [_ [Hst|Hst]]]; rewrite Hst; discriminate.
    + destruct Hres as [_ Hst]. rewrite Hst. discriminate.
  - destruct (isinstance_exn e CAdapterError); destruct Hres as [_ Hst]; rewrite Hst; discriminate.
Defined.

Definition late_quote : PaymentQuote :=
  {| pq_id := "quote-doc-2"; pq_intent_id := "intent-1"; pq_quote_id := "quote-2";
     pq_recipient := bob; pq_receive_instruction := pq_receive_instruction sample_quote;
     pq_fee_sat := 5; pq_fee_constraint := FeeMax; pq_expires_at := 4000; pq_created_at := 3 |}.

Lemma refused_quote_replaces_quote_witness :
  ∃ r, dget (o_intents (sample_run 3).2) "intent-1" = Some r ∧ ir_state r = PREPARED ∧
    dget (o_intents ((receive_quote late_quote : PyM (Orchestrator (FakeWavecli * list call)) _)
                       (sample_run 3).2).2) "intent-1" = Some (with_quote late_quote r).
Proof.
  destruct (dget (o_intents (sample_run 3).2) "intent-1") as [r|] eqn:Hr;
    [|vm_compute in Hr; discriminate].
  pose proof Hr as Hr2. vm_compute in Hr2. exists r. split; [reflexivity|].
  split; [injection Hr2 as <-; reflexivity|].
  refine (proj1 (proj2 (refused_quote_replaces_quote (W := FakeWavecli) (sample_run 3).2 late_quote r
            Hr _ _ _))).
  - injection Hr2 as <-. discriminate.
  - injection Hr2 as <-. vm_compute. discriminate.
  - vm_compute. discriminate.
Defined.

(** ** An intent that expires on the way *)

(** The clock reads 100 at the submission and 6000 ever after; the intent
    expires at 5000, the quote and the prepared payment at 9000. *)
Definition late_env : Env :=
  {| store_file := Missing; audit_file := None; faults := [];
     clock := λ n, match n with 0%nat => 100 | _ => 6000 end; wall := λ _, S754_zero false; ticks := 0 |}.

Definition long_quote : PaymentQuote :=
  {| pq_id := "quote-doc-1"; pq_intent_id := "intent-1"; pq_quote_id := "quote-1";
     pq_recipient := bob; pq_receive_instruction := pq_receive_instruction sample_quote;
     pq_fee_sat := 5; pq_fee_constraint := FeeMax; pq_expires_at := 9000; pq_created_at := 2 |}.

Definition late_world : FakeWavecli * list call :=
  ({| fw_responses := [preview_expiring 9000; complete_json]; fw_calls := []; fw_now := 6000 |}, []).

Definition late_prepared_hash : string :=
  match (Wavelength.prepare default_options lightning_instruction 1000 10 (late_world.1)).1 with
  | Ok p => pp_prepared_hash p
  | Raise _ => ""
  end.

Definition late_ops : list Op :=
  [OpSubmit sample_intent; OpReceiveQuote long_quote; OpPrepare;
   OpApprove {| pa_id := "approval-1"; pa_intent_id := "intent-1"; pa_quote_id := "quote-1";
                pa_prepared_hash := late_prepared_hash; pa_approver := alice; pa_created_at := 90 |};
   OpExecute].

(** The expiry of an intent is checked when it is submitted and never
    again: there is a run in which an intent that expired at 5000 is quoted,
    prepared, approved and executed with the clock at 6000, and settles; the
    expiry edges of the table out of SUBMITTED, QUOTED, PREPARED and APPROVED
    are not taken. *)
Theorem expired_intent_is_executed :
  let start :=
    {| o_world := late_world; o_env := late_env;
       o_store := {| st_path := Some "store.json"; st_intents := ∅; st_approvals := ∅;
                     st_receipts := [] |};
       o_audit := {| au_path := Some "audit.jsonl"; au_seq := 0 |}; o_intents := [] |} in
  let s := (run_all sample_adapter None None late_ops ([], start)).2 in
  pi_expires_at sample_intent = 5000 ∧ state_of s "intent-1" = Some SETTLED ∧
  (∀ n, (0 < n)%nat → clock (o_env s) n = 6000) ∧ List.length (o_world s).2 = 1%nat.
Proof.
  cbn zeta. split; [reflexivity|]. split; [vm_compute; reflexivity|]. split; [|vm_compute; reflexivity].
  intros [|n] Hn; [lia|]. vm_compute. reflexivity.
Qed.
