(* ===== verification/Progress.v ===== *)
(** * A payment in order settles

    Liveness of the policy engine: over an adapter that prepares and executes
    the payment, with writes that do not fail and a clock within the expiry
    times, submission, quote, preparation, approval and execution of a new
    intent all return, and the intent is settled.  Then the same over the
    Wavelength adapter, from the answers of the wallet's daemon. *)

From S2P Require Import Prelude.
From S2P Require Import Json.
From S2P Require Import JsonText.
From S2P Require Import JsonFacts.
From S2P Require Import Models.
From S2P Require Import ModelsFacts.
From S2P Require Import StateMachine.
From S2P Require Import Adapter.
From S2P Require Import Wavelength.
From S2P Require Import WavelengthFacts.
From S2P Require Import WavelengthThms.
From S2P Require Import Storage.
From S2P Require Import StorageFacts.
From S2P Require Import Policy.
From S2P Require Import PolicyFacts.
From S2P Require Import PolicyInv.
From S2P Require Import PolicyThms.
Import Models StateMachine Adapter Wavelength Storage Policy.

(** Run a call that returns [a]. *)
Lemma wp_seq {S A B} (m : PyM S A) (f : A → PyM S B) a (P : S → Prop) Q s :
  wp m (λ o s', o = Ok a ∧ P s') s → (∀ s', P s' → wp (f a) Q s') → wp (m ≫= f) Q s.
Proof.
  intros Hm Hf. apply wp_bind. eapply wp_mono; [exact Hm|]. intros o s' [-> Hs']. by apply Hf.
Qed.

(** ** The last record of the dictionary *)

Section Last.
Context (d : list (string * IntentRecord)) (iid : string) (Hnew : dget d iid = None).
Implicit Types r : IntentRecord.

Lemma dget_last r : dget (d ++ [(iid, r)]) iid = Some r.
Proof. rewrite <- dset_fresh by by apply dget_None. apply dget_dset_eq. Qed.

Lemma dset_last r r' : dset (d ++ [(iid, r)]) iid r' = d ++ [(iid, r')].
Proof.
  revert Hnew. induction d as [|[k v] d' IH]; csimpl; [by rewrite String.eqb_refl|].
  destruct (String.eqb_spec iid k); [done|]. intros Hd. f_equal. by apply IH.
Qed.

Lemma first_in_last ps r :
  first_in ps d = None → ir_state r = ps → first_in ps (d ++ [(iid, r)]) = Some (iid, r).
Proof.
  unfold first_in. rewrite List.filter_app. intros Hd Hr.
  destruct (List.filter _ d); [|done]. cbn. by rewrite bool_decide_eq_true_2.
Qed.
End Last.

(** Every write succeeds and the clock stays below [latest]. *)
Definition calm (latest : Z) (e : Env) : Prop := no_faults (faults e) ∧ ∀ n, clock e n ≤ latest.

(** An expiry time that is never reached: none, or not before [latest]. *)
Definition in_time (latest expires_at : Z) : Prop := expires_at = 0 ∨ latest ≤ expires_at.

Lemma in_time_passed latest expires_at t : in_time latest expires_at → t ≤ latest → passed t expires_at = false.
Proof.
  intros [->|Hle] Ht; [done|]. unfold passed. apply andb_false_intro2. apply Z.ltb_ge. lia.
Qed.

(** ** The engine *)

Section Engine.
Context `{Host} {W : Type} (A : SettlementAdapter W).
Variable recipient_allowlist : option (string → bool).
Variable rail_allowlist : option (Rail → bool).
Variable latest : Z.

#[local] Existing Instance engine_adapter.
Abbreviation World := (W * list call)%type.
Abbreviation Orch := (Orchestrator World).
Abbreviation recipient_allowed := (recipient_allowed recipient_allowlist).
Abbreviation rail_allowed := (rail_allowed rail_allowlist).
Implicit Types (s : Orch) (w : W) (l : list call) (r : IntentRecord).

(** What the steps are about, over calm surroundings. *)
Record view (w : W) (l : list call) (I K : gset string) (R : list (string * json))
    (d : list (string * IntentRecord)) (s : Orch) : Prop := {
  v_calm : calm latest (o_env s);
  v_world : o_world s = (w, l);
  v_intents : st_intents (o_store s) = I;
  v_approvals : st_approvals (o_store s) = K;
  v_receipts : st_receipts (o_store s) = R;
  v_records : o_intents s = d
}.

Section Blocks.
Context (w : W) (l : list call) (I K : gset string) (R : list (string * json)).
Context (d : list (string * IntentRecord)).

Lemma audit_view event kwargs s :
  view w l I K R d s → wp (audit event kwargs) (λ o s', o = Ok tt ∧ view w l I K R d s') s.
Proof.
  intros [[Hf Hc] ? ? ? ? ?]. unfold audit, append, read_wall. repeat (wp_step; cbn beta iota).
  cbn [fst snd]. destruct (path_set _).
  - wp_step. rewrite wp_guarded_write. cbn. rewrite (no_faults_head _ Hf).
    repeat (wp_step; cbn beta iota). split; [done|]. split; try done. split; [by apply no_faults_tail|done].
  - repeat (wp_step; cbn beta iota). by split.
Qed.

Lemma now_view s (Q : outcome Z → Orch → Prop) :
  view w l I K R d s → (∀ t s', t ≤ latest → view w l I K R d s' → Q (Ok t) s') → wp now Q s.
Proof.
  intros [[Hf Hc] ? ? ? ? ?] HQ. unfold now, on_env, read_clock. repeat (wp_step; cbn beta).
  apply HQ; [apply Hc|by split].
Qed.

Lemma save_view g s :
  view w l I K R d s → st_path (g (o_store s)) = st_path (o_store s) →
  wp (on_store (update_store g ;; store_save))
    (λ o s', o = Ok tt ∧ view w l (st_intents (g (o_store s))) (st_approvals (g (o_store s)))
                           (st_receipts (g (o_store s))) d s') s.
Proof.
  intros [[Hf Hc] ? ? ? ? ?] Hp. unfold on_store, update_store, store_save.
  repeat (wp_step; cbn beta iota). cbn [fst snd]. destruct (path_set _).
  - wp_step. rewrite wp_guarded_write. cbn [fst snd]. rewrite (no_faults_head _ Hf).
    split; [done|]. split; try done. split; [by apply no_faults_tail|done].
  - repeat (wp_step; cbn beta iota). by split.
Qed.

Lemma mutate_view iid g s :
  dget d iid = None → ∀ r, view w l I K R (d ++ [(iid, r)]) s →
  wp (mutate iid g) (λ o s', o = Ok tt ∧ view w l I K R (d ++ [(iid, g r)]) s') s.
Proof.
  intros Hnew r [? ? ? ? ? Hd]. unfold mutate. wp_step. split; [done|]. split; try done. cbn.
  rewrite Hd, dget_last by done. by apply dset_last.
Qed.

Lemma record_view iid r s :
  dget d iid = None → view w l I K R (d ++ [(iid, r)]) s →
  wp (get_record iid) (λ o s', o = Ok r ∧ view w l I K R (d ++ [(iid, r)]) s') s.
Proof.
  intros Hnew Hv. unfold get_record. repeat (wp_step; cbn beta iota).
  rewrite (v_records _ _ _ _ _ _ _ Hv), dget_last by done. done.
Qed.

Lemma find_view ps iid r s :
  first_in ps d = None → ir_state r = ps → dget d iid = None → view w l I K R (d ++ [(iid, r)]) s →
  wp (find_by_state ps) (λ o s', o = Ok (iid, r) ∧ view w l I K R (d ++ [(iid, r)]) s') s.
Proof.
  intros Hd Hr Hnew Hv. apply wp_find_by_state; rewrite (v_records _ _ _ _ _ _ _ Hv).
  - intros iid' r'. rewrite (first_in_last d iid ps r Hd Hr). by intros [= <- <-].
  - by rewrite (first_in_last d iid ps r Hd Hr).
Qed.

Lemma move_view {d'} ps trigger ps' c msg s :
  lookup_transition ps trigger = Some ps' → view w l I K R d' s →
  wp (require_transition ps trigger c msg) (λ o s', o = Ok ps' ∧ view w l I K R d' s') s.
Proof.
  intros Hl Hv. apply wp_require_transition; [|by rewrite Hl].
  intros ps2. rewrite Hl. by intros [= <-].
Qed.

(** A call of the adapter that returns, below its handler. *)
Lemma prepare_call ri amount fee h prep w' s :
  ad_prepare (SettlementAdapter := A) ri amount fee w = (Ok prep, w') → view w l I K R d s →
  wp (try_except (on_world (ad_prepare ri amount fee)) h)
    (λ o s', o = Ok prep ∧ view w' l I K R d s') s.
Proof.
  intros Hrun [? Hw ? ? ? ?]. wp_step. unfold on_world. cbn [ad_prepare engine_adapter logged_adapter].
  wp_step. unfold inner. wp_step. rewrite Hw. cbn [fst]. unfold wp. rewrite Hrun. by split.
Qed.

Lemma execute_call payload hash h res w' s :
  ad_execute (SettlementAdapter := A) payload hash w = (Ok res, w') → view w l I K R d s →
  wp (try_except (on_world (ad_execute payload hash)) h)
    (λ o s', o = Ok res ∧ view w' (l ++ [(payload, hash)]) I K R d s') s.
Proof.
  intros Hrun [? Hw ? ? ? ?]. wp_step. unfold on_world. cbn [ad_execute engine_adapter logged_adapter].
  do 3 wp_step. unfold inner. wp_step. rewrite Hw. cbn [fst]. unfold wp. rewrite Hrun. by split.
Qed.
End Blocks.

Lemma recipient_pass i (Q : outcome unit → Orch → Prop) s :
  recipient_allowed i → Q (Ok tt) s → wp (validate_recipient recipient_allowlist (pi_recipient i)) Q s.
Proof.
  unfold validate_recipient, PolicyFacts.recipient_allowed. intros Hok HQ.
  destruct recipient_allowlist; wp_step; [by rewrite Hok|done].
Qed.

Lemma rail_pass rail (Q : outcome unit → Orch → Prop) s :
  rail_allowed rail → Q (Ok tt) s → wp (validate_rail rail_allowlist rail) Q s.
Proof.
  unfold validate_rail, PolicyFacts.rail_allowed. intros Hok HQ.
  destruct rail_allowlist; wp_step; [by rewrite Hok|done].
Qed.

(** Run the next call by its rule, from one view to the next. *)
Tactic Notation "run" uconstr(rule) :=
  match goal with
  | Hv : view _ _ _ _ _ _ ?s |- _ =>
      eapply wp_seq; [eapply rule; first [exact Hv|done]|cbn beta; clear s Hv; intros s Hv]
  end.

(** The record of the payment after each step. *)
Definition submitted_record (i : PaymentIntent) : IntentRecord := with_state SUBMITTED (new_record i).
Definition quoted_record i q : IntentRecord := with_state QUOTED (with_quote q (submitted_record i)).
Definition prepared_record i q p : IntentRecord := with_state PREPARED (with_prepared p (quoted_record i q)).
Definition approved_record i q p a : IntentRecord := with_state APPROVED (with_approval a (prepared_record i q p)).
Definition settled_record i q p a c : IntentRecord :=
  with_state SETTLED (with_receipt c (with_state EXECUTING (approved_record i q p a))).

Section Steps.
Context (l : list call) (I K : gset string) (R : list (string * json)).
Context (d : list (string * IntentRecord)) (i : PaymentIntent).
Abbreviation iid := (pi_id i).
Hypothesis new_key : dget d iid = None.

Lemma submit_view w s :
  iid ∉ I → recipient_allowed i → in_time latest (pi_expires_at i) →
  view w l I K R d s →
  wp (submit recipient_allowlist i)
    (λ o s', o = Ok tt ∧ view w l ({[iid]} ∪ I) K R (d ++ [(iid, submitted_record i)]) s') s.
Proof.
  intros HI Hrec Hexp Hv. unfold submit. apply wp_bind. rewrite wp_gets. unfold has_intent.
  rewrite (v_intents _ _ _ _ _ _ _ Hv), bool_decide_eq_false_2 by done.
  unfold check_intent_expired. apply wp_bind, wp_bind. eapply now_view; [exact Hv|].
  clear s Hv. intros t s Ht Hv. rewrite wp_raise_if. cbn [new_record ir_expires_at].
  rewrite (in_time_passed _ _ _ Hexp Ht). apply wp_bind.
  apply recipient_pass; [done|].
  run move_view. wp_step. wp_step. rewrite (v_records _ _ _ _ _ _ _ Hv).
  unfold set_intents. wp_step. wp_step. rewrite dset_fresh by by apply dget_None.
  eapply wp_seq.
  { unfold record_intent. eapply (save_view w l I K R (d ++ [(iid, submitted_record i)])); [|done].
    destruct Hv. by split. }
  cbn. destruct Hv as [_ _ -> -> -> _]. clear s. intros s Hv. by apply audit_view.
Qed.

Lemma quote_view q w s :
  pq_intent_id q = iid → pq_fee_sat q ≤ pi_max_fee_sat i → latest ≤ pq_expires_at q →
  view w l I K R (d ++ [(iid, submitted_record i)]) s →
  wp (receive_quote q)
    (λ o s', o = Ok tt ∧ view w l I K R (d ++ [(iid, quoted_record i q)]) s') s.
Proof.
  intros Hq Hfee Hexp Hv. unfold receive_quote. rewrite Hq. run record_view.
  wp_step. rewrite wp_raise_if. cbn [ir_intent submitted_record with_state new_record].
  rewrite (proj2 (Z.ltb_ge _ _) Hfee). wp_step. eapply now_view; [exact Hv|].
  clear s Hv. intros t s Ht Hv. wp_step. rewrite wp_raise_if.
  rewrite (proj2 (Z.ltb_ge _ _)) by lia.
  run mutate_view. run move_view. run mutate_view. by apply audit_view.
Qed.

Section Prepared.
Context (q : PaymentQuote) (p : PrepareResult) (a : PaymentApproval).
Hypothesis alone : first_in QUOTED d = None ∧ first_in APPROVED d = None.
Hypothesis quote_time : latest ≤ pq_expires_at q.
Hypothesis approves : pa_intent_id a = iid ∧ pa_quote_id a = pq_quote_id q ∧
  pa_prepared_hash a = pp_prepared_hash p.

Lemma prepare_view w w' s :
  ad_prepare (SettlementAdapter := A) (pq_receive_instruction q) (pi_amount_sat i) (pi_max_fee_sat i) w
    = (Ok p, w') →
  pp_fee_sat p ≤ pi_max_fee_sat i → rail_allowed (ad_rail (SettlementAdapter := A)) → rail_allowed (pp_rail p) →
  view w l I K R (d ++ [(iid, quoted_record i q)]) s →
  wp (prepare rail_allowlist)
    (λ o s', o = Ok p ∧ view w' l I K R (d ++ [(iid, prepared_record i q p)]) s') s.
Proof.
  intros Hrun Hfee Hrail Hrail' Hv. unfold prepare.
  eapply wp_seq; [by eapply find_view; [apply alone| | |exact Hv]|]. clear s Hv. intros s Hv. cbn beta iota.
  unfold check_quote_expired. apply wp_bind, wp_bind. eapply now_view; [exact Hv|].
  clear s Hv. intros t s Ht Hv. rewrite wp_raise_if.
  rewrite (in_time_passed latest) by (done || by right). cbn iota.
  apply wp_bind, rail_pass; [done|]. cbn iota. run move_view. cbn [ir_quote quoted_record with_state with_quote].
  eapply wp_seq; [by eapply prepare_call|]. clear s Hv. intros s Hv. cbn beta.
  wp_step. rewrite wp_raise_if. cbn [ir_intent quoted_record submitted_record with_quote with_state new_record].
  rewrite (proj2 (Z.ltb_ge _ _) Hfee).
  wp_step. apply rail_pass; [done|]. run mutate_view. run mutate_view. run audit_view. by wp_step.
Qed.

Lemma approve_view w s :
  approval_key iid (pq_quote_id q) (pp_prepared_hash p) ∉ K →
  view w l I K R (d ++ [(iid, prepared_record i q p)]) s →
  wp (approve a)
    (λ o s', o = Ok tt ∧
       view w l I ({[approval_key iid (pq_quote_id q) (pp_prepared_hash p)]} ∪ K) R
         (d ++ [(iid, approved_record i q p a)]) s') s.
Proof.
  destruct approves as (Ha & Hq & Hh). intros Hkey Hv. unfold approve. rewrite Ha, Hq, Hh.
  run record_view. cbn [ir_quote ir_prepared prepared_record quoted_record with_state with_quote with_prepared of_opt].
  wp_step. wp_step. wp_step. rewrite wp_raise_if, String.eqb_refl. cbn [negb]. wp_step. wp_step.
  wp_step. rewrite wp_raise_if, String.eqb_refl. cbn [negb]. wp_step. wp_step.
  unfold has_approval. rewrite (v_approvals _ _ _ _ _ _ _ Hv), (bool_decide_eq_false_2 (_ ∈ K)) by done.
  wp_step. rewrite wp_raise_if. wp_step. rewrite wp_raise_if. cbn [ir_state with_state bool_decide negb].
  rewrite bool_decide_eq_true_2 by done. cbn [negb].
  eapply wp_seq.
  { unfold record_approval. by eapply save_view. }
  cbn. destruct Hv as [_ _ -> -> -> _]. clear s. intros s Hv.
  run mutate_view. run move_view. run mutate_view. by apply audit_view.
Qed.

(** The receipt of the settled payment. *)
Definition settles (res : ExecuteResult) (sref : string) (c : PaymentReceipt) : Prop :=
  pr_intent_id c = iid ∧ pr_quote_id c = pq_quote_id q ∧ pr_recipient c = pi_recipient i ∧
  pr_settlement_ref c = sref ∧ pr_amount_sat c = pi_amount_sat i ∧ pr_fee_sat c = er_fee_sat res ∧
  pr_rail c = er_rail res.

Lemma receipt_built res sref t :
  intent_ok i = true → 0 ≤ er_fee_sat res → coerce_str (er_settlement_ref res) = Some sref →
  ∃ c, build_receipt (approved_record i q p a) res t = Ok c ∧ settles res sref c.
Proof.
  unfold intent_ok. intros Hok Hfee Href.
  apply andb_true_iff in Hok as [[[[[_ _]%andb_true_iff Hrec]%andb_true_iff Hamt]%andb_true_iff _]%andb_true_iff _].
  unfold build_receipt. rewrite Href. cbn [of_opt mbind outcome_bind]. unfold construct.
  match goal with |- context [model_ok ?c] => change (model_ok c) with (receipt_ok c) end. unfold receipt_ok.
  cbn [pr_recipient pr_amount_sat pr_fee_sat ir_intent ir_quote approved_record prepared_record
       quoted_record submitted_record with_approval with_prepared with_quote with_state new_record].
  rewrite Hrec, Hamt, (proj2 (Z.leb_le _ _) Hfee). eexists. split; [reflexivity|]. by split_and!.
Qed.

Lemma execute_view res sref w w' s :
  ad_execute (SettlementAdapter := A) (pp_prepared_payload p) (pp_prepared_hash p) w = (Ok res, w') →
  intent_ok i = true → 0 ≤ er_fee_sat res → coerce_str (er_settlement_ref res) = Some sref →
  view w l I K R (d ++ [(iid, approved_record i q p a)]) s →
  wp execute
    (λ o s', ∃ c, o = Ok c ∧ settles res sref c ∧
       view w' (l ++ [(pp_prepared_payload p, pp_prepared_hash p)]) I K (dset R iid (JStr sref))
         (d ++ [(iid, settled_record i q p a c)]) s') s.
Proof.
  intros Hrun Hok Hfee Href Hv. unfold execute.
  eapply wp_seq; [by eapply find_view; [apply alone| | |exact Hv]|]. clear s Hv. intros s Hv. cbn beta iota.
  wp_step. wp_step. cbn [ir_prepared approved_record prepared_record with_approval with_prepared with_state of_opt].
  run move_view. run mutate_view. run audit_view. wp_step. eapply now_view; [exact Hv|].
  clear s Hv. intros t s Ht Hv.
  eapply wp_seq; [by eapply execute_call|]. clear s Hv. intros s Hv. cbn beta.
  destruct (receipt_built res sref t Hok Hfee Href) as (c & Hc & Hs). wp_step. wp_step. rewrite Hc.
  destruct Hs as (Hci & ? & ? & Hcs & ?). rewrite Hci, Hcs.
  eapply wp_seq; [unfold record_receipt; by eapply save_view|].
  cbn. destruct Hv as [_ _ -> -> -> _]. clear s. intros s Hv.
  run mutate_view. run move_view. run mutate_view. run audit_view. wp_step.
  exists c. by split_and!.
Qed.
End Prepared.
End Steps.

(** A new intent, the quote it gets, what the adapter prepares for it and an
    approval of that: what the payer's engine and its policy accept. *)
Record in_order (I K : gset string) (d : list (string * IntentRecord)) (i : PaymentIntent)
    (q : PaymentQuote) (p : PrepareResult) (a : PaymentApproval) : Prop := {
  io_new : dget d (pi_id i) = None ∧ pi_id i ∉ I;
  io_alone : first_in QUOTED d = None ∧ first_in APPROVED d = None;
  io_intent : intent_ok i = true ∧ recipient_allowed i ∧ in_time latest (pi_expires_at i);
  io_quote : pq_intent_id q = pi_id i ∧ pq_fee_sat q ≤ pi_max_fee_sat i ∧ latest ≤ pq_expires_at q;
  io_prepared : pp_fee_sat p ≤ pi_max_fee_sat i ∧ rail_allowed (pp_rail p);
  io_approval : pa_intent_id a = pi_id i ∧ pa_quote_id a = pq_quote_id q ∧
                pa_prepared_hash a = pp_prepared_hash p ∧
                approval_key (pi_id i) (pq_quote_id q) (pp_prepared_hash p) ∉ K
}.

Lemma payment_settles_view I K R d i q p a res sref w w1 w2 l s :
  in_order I K d i q p a → rail_allowed (ad_rail (SettlementAdapter := A)) →
  ad_prepare (SettlementAdapter := A) (pq_receive_instruction q) (pi_amount_sat i) (pi_max_fee_sat i) w
    = (Ok p, w1) →
  ad_execute (SettlementAdapter := A) (pp_prepared_payload p) (pp_prepared_hash p) w1 = (Ok res, w2) →
  0 ≤ er_fee_sat res → coerce_str (er_settlement_ref res) = Some sref →
  view w l I K R d s →
  wp (submit recipient_allowlist i ;; receive_quote q ;; prepare rail_allowlist ;; approve a ;; execute)
    (λ o s', ∃ c, o = Ok c ∧ settles i q res sref c ∧
       view w2 (l ++ [(pp_prepared_payload p, pp_prepared_hash p)]) ({[pi_id i]} ∪ I)
         ({[approval_key (pi_id i) (pq_quote_id q) (pp_prepared_hash p)]} ∪ K)
         (dset R (pi_id i) (JStr sref)) (d ++ [(pi_id i, settled_record i q p a c)]) s') s.
Proof.
  intros [[Hnew HI] Halone (Hok & Hrec & Hexp) (Hq & Hqfee & Hqexp) [Hpfee Hprail] (Ha1 & Ha2 & Ha3 & HK)]
    Hrail Hprep Hexec Hfee Href Hv.
  eapply wp_seq; [by eapply submit_view|]. clear s Hv. intros s Hv.
  eapply wp_seq; [by eapply quote_view|]. clear s Hv. intros s Hv.
  eapply wp_seq; [by eapply prepare_view|]. clear s Hv. intros s Hv.
  eapply wp_seq; [by eapply approve_view|]. clear s Hv. intros s Hv.
  by eapply execute_view.
Qed.
End Engine.

(** ** The wallet *)

Section Wallet.
Context {h0 : Host} {hl : HostLaws h0} {W : Type} {E : WavecliExecutor W} {C : WallClock W}.
Variable opts : CliOptions.
Implicit Types (w : W) (l : list (list string)).

(** The daemon answers PrepareSend with a preview of the payment. *)
Definition previews (invoice : string) (amount_sat max_fee_sat : Z) w (sp : SendPreview) w' : Prop :=
  ∃ data w1 now, wavecli_run (prepare_cmd opts invoice max_fee_sat) w = (Ok data, w1) ∧
    parse_prepare_response data = Ok sp ∧ time_now w1 = (Ok now, w') ∧
    now < sp_expires_at_unix sp ∧ sp_amount_sat sp = amount_sat ∧
    sp_expected_fee_sat sp ≤ max_fee_sat ∧
    sp_expected_total_outflow_sat sp = amount_sat + sp_expected_fee_sat sp.

Definition send_token (token : string) : list string := send_cmd opts [("send_intent_id", JStr token)].

(** It answers the Send of the preview's token that the payment is complete. *)
Definition completes (sp : SendPreview) (token : string) w (res : SendResponse) w' : Prop :=
  ∃ answer w1 now, time_now w = (Ok now, w1) ∧ now < sp_expires_at_unix sp ∧
    wavecli_run (send_token token) w1 = (Ok answer, w') ∧ parse_send_response answer = Ok res ∧
    sr_status res = "COMPLETE" ∧ sr_amount_sat res = sp_amount_sat sp ∧
    sr_entry_id res = JStr (sp_payment_hash sp) ∧ sr_payment_hash res = JStr (sp_payment_hash sp).

(** What [prepare] makes of the preview. *)
Definition prepared_of (sp : SendPreview) (invoice : string) (max_fee_sat : Z) : PrepareResult :=
  let payload := dumps payload_opts (JObj (payload_dict sp invoice max_fee_sat)) in
  {| pp_fee_sat := sp_expected_fee_sat sp; pp_prepared_hash := compute_prepared_hash payload;
     pp_rail := LIGHTNING; pp_prepared_payload := payload |}.

Lemma parse_prepare_hash data sp :
  parse_prepare_response data = Ok sp → sp_payment_hash sp ≠ "".
Proof.
  unfold parse_prepare_response. destruct data as [| | | | | |d]; try done. cbn zeta. intros Hp.
  bind_inv Hp. injection Hp as <-. cbn [sp_payment_hash].
  match goal with Hh : match jget d "payment_hash" _ with _ => _ end = Ok _ |- _ =>
    destruct (jget d "payment_hash" _) as [| | | |h| |]; try done;
    destruct (String.eqb_spec h ""); [done|injection Hh as <-]; done
  end.
Qed.

Lemma prepare_answered ri invoice amount_sat max_fee_sat w l sp w' :
  ri_rail ri = LIGHTNING → ri_invoice ri = Some invoice → invoice ≠ "" →
  previews invoice amount_sat max_fee_sat w sp w' →
  Wavelength.prepare opts ri amount_sat max_fee_sat (w, l) =
    (Ok (prepared_of sp invoice max_fee_sat), (w', l ++ [prepare_cmd opts invoice max_fee_sat])).
Proof.
  intros Hr Hi Hne (data & w1 & now & Hrun & Hparse & Hnow & Hexp & Hamt & Hfee & Htot).
  unfold Wavelength.prepare, mbind, py_bind, raise_if, try_except, lift, mret, py_ret. rewrite Hr, Hi.
  rewrite bool_decide_eq_true_2 by done. cbn [negb from_option id]. cbn zeta. rewrite (proj2 (String.eqb_neq _ _) Hne).
  cbn [wavecli_run logged_executor]. fold (prepare_cmd opts invoice max_fee_sat). rewrite Hrun. cbn beta iota.
  rewrite Hparse. cbn beta iota. cbn [time_now logged_clock]. rewrite Hnow. cbn beta iota.
  rewrite (proj2 (Z.leb_gt _ _) Hexp), Hamt, Z.eqb_refl, (proj2 (Z.ltb_ge _ _) Hfee), Htot, Z.eqb_refl.
  reflexivity.
Qed.

Lemma execute_answered sp invoice max_fee_sat token w l res w' :
  wf_json payload_opts (JObj (payload_dict sp invoice max_fee_sat)) = true →
  sp_send_intent_id sp = JStr token → token ≠ "" → sp_payment_hash sp ≠ "" →
  completes sp token w res w' →
  let p := prepared_of sp invoice max_fee_sat in
  Wavelength.execute opts (pp_prepared_payload p) (pp_prepared_hash p) (w, l) =
    (Ok {| er_settlement_ref := JStr (sp_payment_hash sp); er_amount_sat := sp_amount_sat sp;
           er_fee_sat := sr_fee_sat res; er_rail := LIGHTNING |}, (w', l ++ [send_token token])).
Proof.
  intros Hwf Htok Hne Hph (answer & w1 & now & Hnow & Hexp & Hrun & Hparse & Hst & Hamt & Hid & Hhash). cbn zeta.
  destruct (payload_decodes sp invoice max_fee_sat Hwf) as (pd & Hdec & Hget).
  assert (jget pd "send_intent_id" (JStr "") = JStr token) as Htoken by (rewrite Hget; cbn; by rewrite Htok).
  assert (jget pd "expires_at_unix" (JInt 0) = JInt (sp_expires_at_unix sp)) as Hexpires by by rewrite Hget.
  assert (jget pd "amount_sat" JNull = JInt (sp_amount_sat sp)) as Hamount by by rewrite Hget.
  assert (jget pd "payment_hash" JNull = JStr (sp_payment_hash sp)) as Hph' by by rewrite Hget.
  unfold prepared_of. cbn [pp_prepared_payload pp_prepared_hash].
  unfold Wavelength.execute, mbind, py_bind, raise_if, try_except, lift, mret, py_ret.
  rewrite String.eqb_refl. cbn [negb]. rewrite Hdec. cbn [of_opt as_dict]. cbn zeta.
  rewrite Htoken, Hexpires, Hamount, Hph'. cbn [truthy]. rewrite (proj2 (String.eqb_neq _ _) Hne).
  cbn [negb as_int time_now logged_clock]. rewrite Hnow. cbn beta iota.
  rewrite (proj2 (Z.leb_gt _ _) Hexp). cbn [wavecli_run logged_executor].
  change (build_raw_rpc_cmd opts true None RAW_RPC_SERVICE "Send" (send_request (JStr token)))
    with (send_token token).
  rewrite Hrun. cbn beta iota. rewrite Hparse. cbn beta iota. rewrite Hst, Hamt, Hid, Hhash.
  cbn [String.eqb Ascii.eqb Bool.eqb]. cbn beta iota. cbn [negb truthy py_eq as_int].
  rewrite (proj2 (String.eqb_neq _ _) Hph), Z.eqb_refl, String.eqb_refl. reflexivity.
Qed.

#[local] Existing Instance engine_adapter.
Abbreviation Wallet := (W * list (list string))%type.
Variable recipient_allowlist : option (string → bool).
Variable rail_allowlist : option (Rail → bool).

(** The payer's side of a payment, one call after the other. *)
Definition payment (i : PaymentIntent) (q : PaymentQuote) (a : PaymentApproval)
    : PyM (Orchestrator (Wallet * list call)) PaymentReceipt :=
  let _ := engine_adapter (WavelengthAdapter opts) in
  submit recipient_allowlist i ;; receive_quote q ;; prepare rail_allowlist ;; approve a ;; execute.

(** C15. A payment in order settles: on an engine with no other payment under
    way, with writes that succeed and a clock within the expiry times, take a
    new intent for an allowed recipient, a quote for it within the fee limit,
    a daemon that previews the quoted invoice with the amount of the intent
    and a fee within its limit, an approval of that preview, and a daemon that
    answers the Send of its token as complete.  Then submission, quote,
    preparation, approval and execution all return; the wallet's tool is given
    exactly one PrepareSend and one Send, of that token; the intent is tracked
    as SETTLED with a receipt of its amount, the quote and the payment hash;
    the binding of the receipt and the used approval are in the store; and no
    other intent is touched. *)
Theorem payment_settles latest i q a sp invoice token w w1 w2 l calls res
    (s : Orchestrator (Wallet * list call)) :
  let p := prepared_of sp invoice (pi_max_fee_sat i) in
  calm latest (o_env s) → o_world s = ((w, l), calls) →
  in_order recipient_allowlist rail_allowlist latest (st_intents (o_store s)) (st_approvals (o_store s))
    (o_intents s) i q p a →
  ri_rail (pq_receive_instruction q) = LIGHTNING →
  ri_invoice (pq_receive_instruction q) = Some invoice → invoice ≠ "" →
  previews invoice (pi_amount_sat i) (pi_max_fee_sat i) w sp w1 →
  wf_json payload_opts (JObj (payload_dict sp invoice (pi_max_fee_sat i))) = true →
  sp_send_intent_id sp = JStr token → completes sp token w1 res w2 → 0 ≤ sr_fee_sat res →
  ∃ c s', payment i q a s = (Ok c, s') ∧
    o_world s' = ((w2, l ++ [prepare_cmd opts invoice (pi_max_fee_sat i); send_token token]),
                  calls ++ [(pp_prepared_payload p, pp_prepared_hash p)]) ∧
    o_intents s' = o_intents s ++ [(pi_id i, settled_record i q p a c)] ∧
    pr_intent_id c = pi_id i ∧ pr_quote_id c = pq_quote_id q ∧ pr_amount_sat c = pi_amount_sat i ∧
    pr_fee_sat c = sr_fee_sat res ∧ pr_settlement_ref c = sp_payment_hash sp ∧
    get_receipt (o_store s') (pi_id i) = Some (JStr (sp_payment_hash sp)) ∧
    has_approval (o_store s') (pi_id i, pq_quote_id q, pp_prepared_hash p) = true.
Proof.
  cbn zeta. intros Hcalm Hw Hio Hrail Hinv Hne Hprev Hwf Htok Hsend Hfee.
  pose proof Hprev as (data & _ & _ & _ & Hparse & _).
  pose proof (parse_prepare_token _ _ Hparse) as Htruthy. rewrite Htok in Htruthy.
  assert (token ≠ "") as Htokne by (intros ->; discriminate).
  pose proof (payment_settles_view (WavelengthAdapter opts) recipient_allowlist rail_allowlist latest
    _ _ (st_receipts (o_store s)) _ i q _ a
    {| er_settlement_ref := JStr (sp_payment_hash sp); er_amount_sat := sp_amount_sat sp;
       er_fee_sat := sr_fee_sat res; er_rail := LIGHTNING |} (sp_payment_hash sp)
    (w, l) (w1, l ++ [prepare_cmd opts invoice (pi_max_fee_sat i)])
    (w2, (l ++ [prepare_cmd opts invoice (pi_max_fee_sat i)]) ++ [send_token token]) calls s Hio) as Hwp.
  unfold wp in Hwp. change (submit recipient_allowlist i ;; _) with (payment i q a) in Hwp.
  destruct Hwp as (c & Hres & Hset & Hview).
  - apply Hio.
  - by apply prepare_answered.
  - eapply execute_answered; try done. by eapply parse_prepare_hash.
  - done.
  - apply coerce_str_JStr.
  - by split.
  - destruct (payment i q a s) as [o s']. cbn [fst snd] in *. exists c, s'. subst o.
    destruct Hset as (? & ? & ? & ? & ? & ? & _), Hview as [_ Hw' _ HK HR Hd].
    rewrite <- app_assoc in Hw'. unfold get_receipt, has_approval. rewrite HK, HR, dget_dset_eq.
    split_and!; try done. apply bool_decide_eq_true_2. set_solver.
Qed.
End Wallet.

(** ** The concrete payment *)

#[local] Existing Instance ref_host.

Definition sample_preview : SendPreview :=
  {| sp_send_intent_id := JStr "tok-1"; sp_amount_sat := 1000; sp_expected_fee_sat := 3;
     sp_expected_total_outflow_sat := 1003; sp_rail := "LIGHTNING"; sp_payment_hash := "h-1";
     sp_expires_at_unix := 5000; sp_quote_status := JStr "OK" |}.

Definition wallet_start : Orchestrator (FakeWavecli * list (list string) * list call) :=
  {| o_world := ((daemon [preview_json; complete_json], []), []); o_env := sample_env;
     o_store := {| st_path := Some "store.json"; st_intents := ∅; st_approvals := ∅; st_receipts := [] |};
     o_audit := {| au_path := Some "audit.jsonl"; au_seq := 0 |}; o_intents := [] |}.

Lemma payment_settles_witness :
  ∃ c s', payment default_options None None sample_intent sample_quote sample_approval wallet_start =
            (Ok c, s') ∧ pr_settlement_ref c = "h-1" ∧ pr_amount_sat c = 1000 ∧
          has_approval (o_store s') ("intent-1", "quote-1", pp_prepared_hash sample_prepared) = true.
Proof.
  destruct (payment_settles default_options None None 100 sample_intent sample_quote sample_approval
    sample_preview "lnbcrt1000n1pexample" "tok-1" (daemon [preview_json; complete_json])
    {| fw_responses := [complete_json];
       fw_calls := [prepare_cmd default_options "lnbcrt1000n1pexample" 10]; fw_now := 100 |}
    {| fw_responses := [];
       fw_calls := [prepare_cmd default_options "lnbcrt1000n1pexample" 10; send_token default_options "tok-1"];
       fw_now := 100 |} [] []
    {| sr_entry_id := JStr "h-1"; sr_payment_hash := JStr "h-1"; sr_amount_sat := 1000; sr_fee_sat := 3;
       sr_status := "COMPLETE" |} wallet_start)
    as (c & s' & Hrun & _ & _ & _ & _ & Hamt & _ & Href & _ & Happ).
  - split; [constructor|]. intros n. vm_compute. discriminate.
  - reflexivity.
  - split.
    + split; [reflexivity|apply not_elem_of_empty].
    + split; reflexivity.
    + split; [vm_compute; reflexivity|]. split; [exact I|]. right. vm_compute. discriminate.
    + split; [reflexivity|]. split; vm_compute; discriminate.
    + split; [vm_compute; discriminate|exact I].
    + split; [reflexivity|]. split; [reflexivity|]. split; [vm_compute; reflexivity|apply not_elem_of_empty].
  - reflexivity.
  - reflexivity.
  - discriminate.
  - eexists _, _, _. split; [vm_compute; reflexivity|]. split; [vm_compute; reflexivity|].
    split; [vm_compute; reflexivity|]. split; [vm_compute; reflexivity|].
    split; [reflexivity|]. split; [vm_compute; discriminate|reflexivity].
  - vm_compute. reflexivity.
  - reflexivity.
  - eexists _, _, _. split; [vm_compute; reflexivity|]. split; [vm_compute; reflexivity|].
    split; [vm_compute; reflexivity|]. split; [vm_compute; reflexivity|].
    split; [reflexivity|]. split; [reflexivity|]. split; reflexivity.
  - vm_compute. discriminate.
  - exists c, s'. split; [exact Hrun|]. split; [exact Href|]. split; [exact Hamt|exact Happ].
Defined.
