(* ===== verification/PeerTransport.v ===== *)
(** * Peer messaging ([peer_transport.py])

    The transport contract between two peers and the in-memory hub.  A message
    is a value here: the hub copies what it is given. *)

From S2P Require Import Prelude.
From S2P Require Import Json.
From S2P Require Import Models.
From S2P Require Import Sha256.
From S2P Require Import Envelope.
Import Models Envelope.

Module PeerTransport.

Record PeerMessage := {
  pm_message_id : string;
  pm_message : PaymentMessage;
  pm_author : AgentIdentity;
  pm_published_at : json
}.

Definition author_of (m : PaymentMessage) : AgentIdentity :=
  match m with
  | MIntent i => pi_sender i | MQuote q => pq_recipient q | MReceipt r => pr_recipient r
  end.

Definition message_author (o : py_object) : outcome AgentIdentity :=
  match o with
  | OMessage m => Ok (author_of m)
  | OApproval _ => fail CPeerTransportError
      "PaymentApproval is local-only and cannot cross a peer transport"
  | OOther name => fail CPeerTransportError ("unsupported peer message type: " +:+ name)
  end.

(** The contract: a message id, or the messages taken from the inbox. *)
Class PeerTransport (T : Type) := {
  pt_send : py_object → PyM T json;
  pt_receive : option Z → PyM T (list PeerMessage)
}.

(** ** The in-memory hub *)

Record Hub := {
  hub_clock : nat → Z;
  hub_ticks : nat;
  hub_inboxes : list (string * list PeerMessage);
  hub_counter : Z
}.

Definition hub_init (clock : nat → Z) : Hub :=
  {| hub_clock := clock; hub_ticks := 0; hub_inboxes := []; hub_counter := 0 |}.

Definition set_inboxes (d : list (string * list PeerMessage)) (h : Hub) : Hub :=
  {| hub_clock := hub_clock h; hub_ticks := hub_ticks h; hub_inboxes := d;
     hub_counter := hub_counter h |}.

Section Hub.
Context `{Host}.

(** The endpoint it returns is the pair of its arguments. *)
Definition connect (peer_id : string) (identity : AgentIdentity)
    : PyM Hub (string * AgentIdentity) :=
  raise_if (String.eqb peer_id "") CValueError "peer_id is required" ;;
  d ← gets hub_inboxes;
  raise_if (dmem d peer_id) CValueError ("peer_id already connected: " +:+ peer_id) ;;
  modify (set_inboxes (dset d peer_id [])) ;;
  mret (peer_id, identity).

(** [for recipient_id, inbox in items(): if recipient_id != peer_id: append] *)
Definition deliver (peer_id : string) (m : PeerMessage) (d : list (string * list PeerMessage)) :=
  (λ p, if String.eqb p.1 peer_id then p else (p.1, p.2 ++ [m])) <$> d.

(** The identifier of a transportable message. *)
Definition message_compute_id (m : PaymentMessage) : string :=
  match m with
  | MIntent i => compute_id i | MQuote q => compute_id q | MReceipt r => compute_id r
  end.

Definition hub_message_id (peer_id : string) (counter : Z) (m : PaymentMessage) : string :=
  sha256_hex (peer_id +:+ ":" +:+ show_Z counter +:+ ":" +:+ message_compute_id m).

Definition hub_send (peer_id : string) (identity : AgentIdentity) (o : py_object) : PyM Hub json :=
  author ← lift (message_author o);
  raise_if (negb (String.eqb (pubkey author) (pubkey identity))) CPeerTransportError
    "local peer is not the message author" ;;
  match o with
  | OMessage m =>
      counter ← gets hub_counter;
      let message_id := hub_message_id peer_id counter m in
      now ← gets (λ h, hub_clock h (hub_ticks h));
      modify (λ h,
        {| hub_clock := hub_clock h; hub_ticks := S (hub_ticks h);
           hub_inboxes := deliver peer_id
             {| pm_message_id := message_id; pm_message := m; pm_author := author;
                pm_published_at := JInt now |} (hub_inboxes h);
           hub_counter := hub_counter h + 1 |}) ;;
      mret (JStr message_id)
  | _ => raise CAttributeError "not a message"
  end.

Definition hub_receive (peer_id : string) (limit : option Z) : PyM Hub (list PeerMessage) :=
  raise_if (match limit with Some n => n <? 0 | None => false end) CValueError
    "limit must be zero or greater" ;;
  d ← gets hub_inboxes;
  match dget d peer_id with
  | None => raise CKeyError peer_id
  | Some inbox =>
      let n := match limit with Some n => Z.to_nat n | None => List.length inbox end in
      modify (set_inboxes (dset d peer_id (drop n inbox))) ;;
      mret (take n inbox)
  end.

(** One endpoint of the hub. *)
Definition InMemoryPeerTransport (peer_id : string) (identity : AgentIdentity)
    : PeerTransport Hub :=
  {| pt_send := hub_send peer_id identity; pt_receive := hub_receive peer_id |}.
End Hub.

End PeerTransport.
