(* ===== verification/Transport.v ===== *)
(** * The Buzz transport ([transport.py])

    Raw events, the executors, the validation of untrusted events and the
    transport with its receive cursor.  The fields of an event are whatever
    JSON the CLI printed, except its [id], which is text by the CLI's
    contract. *)

From S2P Require Import Prelude.
From S2P Require Import Json.
From S2P Require Import JsonText.
From S2P Require Import Models.
From S2P Require Import Sha256.
From S2P Require Import Envelope.
From S2P Require Import Adapter.
From S2P Require Import Storage.
From S2P Require Import PeerTransport.
Import Models Envelope Adapter Storage PeerTransport.

Module Transport.

Record RawBuzzEvent := {
  ev_id : string;
  ev_pubkey : json;
  ev_kind : json;
  ev_content : json;
  ev_tags : json;
  ev_created_at : json
}.

Class BuzzExecutor (W : Type) := {
  bx_send : string → string → PyM W json;
  bx_get : string → list Z → option Z → option Z → PyM W (list RawBuzzEvent)
}.

(** ** Tags of an untrusted event *)

(** [len(tag) >= 2 and tag[0] == "h"], and then [tag[1]]. *)
Definition tag_channel (tag : json) : outcome (option json) :=
  let of_list l :=
    match l with
    | a :: b :: _ => Ok (if py_eq a (JStr "h") then Some b else None)
    | _ => Ok None
    end in
  match tag with
  | JList l => of_list l
  | JStr s => of_list (str_points s)
  | JObj (_ :: _ :: _) => fail CKeyError "0"
  | JObj _ => Ok None
  | _ => fail CTypeError ("object of type '" +:+ type_name tag +:+ "' has no len()")
  end.

Fixpoint first_channel (tags : list json) : outcome json :=
  match tags with
  | [] => Ok (JStr "")
  | tag :: rest => c ← tag_channel tag; match c with Some ch => Ok ch | None => first_channel rest end
  end.

Definition channel_from_tags (tags : json) : outcome json :=
  l ← iter_json tags; first_channel l.

Section Transport.
Context `{Host}.

(** ** Executors *)

Section SubprocessExecutor.
Context {W : Type} `{Subprocess W}.
Variable buzz_bin : string.
Variable timeout : Z.

(** [subprocess.run], whose exceptions are not handled here, and the check
    of the exit status. *)
Definition run_buzz (what : string) (cmd : list string) : PyM W string :=
  r ← subprocess_run cmd timeout;
  match r with
  | ProcNotFound => raise COSError "No such file or directory"
  | ProcTimeout => raise CException "timed out"
  | ProcCompleted rc out err =>
      raise_if (negb (rc =? 0)) CBuzzTransportError
        ("buzz messages " +:+ what +:+ " failed (exit " +:+ show_Z rc +:+ "): " +:+ py_strip err) ;;
      mret out
  end.

Definition parse_output (what out : string) : outcome json :=
  of_opt CBuzzTransportError
    ("buzz messages " +:+ what +:+ ": invalid JSON output: " +:+ json_error_text out) (loads out).

Definition subprocess_send (channel content : string) : PyM W json :=
  out ← run_buzz "send" [buzz_bin; "messages"; "send"; "--channel"; channel; "--content"; content];
  resp ← lift (parse_output "send" out);
  match resp with
  | JObj d =>
      let a := jget d "event_id" JNull in
      let b := jget d "id" JNull in
      let event_id := if truthy a then a else if truthy b then b else JStr "" in
      raise_if (negb (truthy event_id)) CBuzzTransportError
        "buzz messages send: response missing event_id" ;;
      mret event_id
  | _ => raise CAttributeError ("'" +:+ type_name resp +:+ "' object has no attribute 'get'")
  end.

Definition opt_arg (name : string) (o : option Z) : list string :=
  match o with Some z => [name; show_Z z] | None => [] end.

Definition get_cmd (channel : string) (kinds : list Z) (since limit : option Z) : list string :=
  [buzz_bin; "messages"; "get"; "--channel"; channel]
  ++ match kinds with
     | [] => []
     | _ => ["--kinds"; of_chars (join [","%char] ((λ k, show_digits k) <$> kinds))]
     end
  ++ opt_arg "--since" since ++ opt_arg "--limit" limit.

Definition parse_event (ev : json) : outcome RawBuzzEvent :=
  let malformed {A} : outcome A := fail CBuzzTransportError "buzz messages get: malformed event" in
  match ev with
  | JObj d =>
      match dget d "id", dget d "pubkey", dget d "kind", dget d "content" with
      | Some (JStr id), Some pk, Some kind, Some content =>
          Ok {| ev_id := id; ev_pubkey := pk; ev_kind := kind; ev_content := content;
                ev_tags := jget d "tags" (JList []);
                ev_created_at := jget d "created_at" (JInt 0) |}
      | _, _, _, _ => malformed
      end
  | _ => malformed
  end.

Fixpoint parse_events (l : list json) : outcome (list RawBuzzEvent) :=
  match l with
  | [] => Ok []
  | ev :: rest => e ← parse_event ev; es ← parse_events rest; Ok (e :: es)
  end.

Definition subprocess_get (channel : string) (kinds : list Z) (since limit : option Z)
    : PyM W (list RawBuzzEvent) :=
  out ← run_buzz "get" (get_cmd channel kinds since limit);
  events ← lift (parse_output "get" out);
  match events with
  | JList l => lift (parse_events l)
  | _ => raise CBuzzTransportError
           ("buzz messages get: expected JSON array, got " +:+ type_name events)
  end.

Definition SubprocessBuzzExecutor : BuzzExecutor W :=
  {| bx_send := subprocess_send; bx_get := subprocess_get |}.
End SubprocessExecutor.

(** [l[:n]] *)
Definition slice_to {A} (n : Z) (l : list A) : list A :=
  if n <? 0 then take (List.length l - Z.to_nat (- n)) l else take (Z.to_nat n) l.

(** The in-memory executor. *)
Record FakeBuzz := {
  fb_sent : list (string * string);
  fb_events : list RawBuzzEvent;
  fb_next_id : Z;
  fb_time : Z
}.

Definition fake_buzz_send (channel content : string) : PyM FakeBuzz json := λ w,
  let event_id := sha256_hex (channel +:+ ":" +:+ show_Z (fb_next_id w) +:+ ":" +:+ content) in
  let event :=
    {| ev_id := event_id; ev_pubkey := JStr (of_chars (List.repeat "a"%char 64)); ev_kind := JInt 9;
       ev_content := JStr content; ev_tags := JList [JList [JStr "h"; JStr channel]];
       ev_created_at := JInt (fb_time w) |} in
  (Ok (JStr event_id),
   {| fb_sent := fb_sent w ++ [(channel, content)]; fb_events := fb_events w ++ [event];
      fb_next_id := fb_next_id w + 1; fb_time := fb_time w |}).

(** [[e for e in l if p(e)]] with a condition that may raise. *)
Fixpoint filter_events (p : RawBuzzEvent → outcome bool) (l : list RawBuzzEvent)
    : outcome (list RawBuzzEvent) :=
  match l with
  | [] => Ok []
  | e :: rest => b ← p e; es ← filter_events p rest; Ok (if (b : bool) then e :: es else es)
  end.

Definition fake_buzz_get (channel : string) (kinds : list Z) (since limit : option Z)
    : PyM FakeBuzz (list RawBuzzEvent) :=
  events ← gets fb_events;
  result ← lift (filter_events
    (λ e, c ← channel_from_tags (ev_tags e); Ok (py_eq c (JStr channel))) events);
  result ← lift match kinds with
    | [] => Ok result
    | _ => filter_events
        (λ e, if hashable (ev_kind e) then Ok (existsb (λ k, py_eq (ev_kind e) (JInt k)) kinds)
              else fail CTypeError ("unhashable type: '" +:+ type_name (ev_kind e) +:+ "'")) result
    end;
  result ← lift match since with
    | None => Ok result
    | Some t => filter_events
        (λ e, z ← of_opt CTypeError "'>=' not supported" (as_int (ev_created_at e)); Ok (t <=? z)) result
    end;
  mret match limit with Some n => slice_to n result | None => result end.

Definition inject_event (event : RawBuzzEvent) (w : FakeBuzz) : FakeBuzz :=
  {| fb_sent := fb_sent w; fb_events := fb_events w ++ [event]; fb_next_id := fb_next_id w;
     fb_time := fb_time w |}.

#[export] Instance FakeBuzzExecutor : BuzzExecutor FakeBuzz :=
  {| bx_send := fake_buzz_send; bx_get := fake_buzz_get |}.

(** ** Validation of untrusted events *)

(** [json.loads] takes text only. *)
Definition decode_event_content (content : json) : outcome PaymentMessage :=
  match content with
  | JStr s => decode_content s
  | _ => fail CTypeError ("the JSON object must be str, bytes or bytearray, not " +:+ type_name content)
  end.

Definition message_expires_at (m : PaymentMessage) : option Z :=
  match m with
  | MIntent i => Some (pi_expires_at i) | MQuote q => Some (pq_expires_at q) | MReceipt _ => None
  end.

Definition author_role (m : PaymentMessage) : string :=
  match m with
  | MIntent _ => "intent sender" | MQuote _ => "quote recipient" | MReceipt _ => "receipt recipient"
  end.

Definition invalid {A} (msg : string) : outcome A := fail CEnvelopeValidationError msg.

Definition validate_received_event (event : RawBuzzEvent) (expected_channel : string) (now : Z)
    : outcome PaymentMessage :=
  if negb (py_eq (ev_kind event) (JInt WIRE_KIND)) then
    invalid ("kind " +:+ py_str (ev_kind event) +:+ " is not a payment kind; expected " +:+ show_Z WIRE_KIND)
  else
    event_channel ← channel_from_tags (ev_tags event);
    if negb (py_eq event_channel (JStr expected_channel)) then
      invalid ("h-tag channel " +:+ py_repr event_channel +:+ " does not match expected channel "
                 +:+ py_repr (JStr expected_channel))
    else
      match decode_event_content (ev_content event) with
      | Raise e => if isinstance_exn e CValueError
                   then invalid ("content validation failed: " +:+ exn_msg e) else Raise e
      | Ok message =>
          let expired := match message_expires_at message with
                         | Some t => negb (t =? 0) && (t <? now)
                         | None => false
                         end in
          if expired then
            invalid ("message has expired (expires_at="
              +:+ show_Z (default 0 (message_expires_at message)) +:+ ", now=" +:+ show_Z now +:+ ")")
          else if negb (py_eq (ev_pubkey event) (JStr (pubkey (author_of message)))) then
            invalid ("event pubkey " +:+ py_str (ev_pubkey event) +:+ " does not match "
                       +:+ author_role message +:+ " " +:+ pubkey (author_of message))
          else Ok message
      end.

(** ** The transport *)

(** [_cursor_path]'s file, the write failures to come, the clock and the
    ids seen so far, over the executor's world. *)
Record BuzzTransport (W : Type) := {
  bt_world : W;
  bt_cursor_file : document;
  bt_faults : list bool;
  bt_clock : nat → Z;
  bt_ticks : nat;
  bt_seen : gset string
}.
Arguments bt_world {W}. Arguments bt_cursor_file {W}. Arguments bt_faults {W}.
Arguments bt_clock {W}. Arguments bt_ticks {W}. Arguments bt_seen {W}.

Definition str_members (l : list json) : list string :=
  List.concat ((λ j, match j with JStr s => [s] | _ => [] end) <$> l).

(** [_load_cursor]: which ids it starts from. *)
Definition load_cursor (path : option string) (file : document) : outcome (gset string) :=
  match path with
  | None => Ok ∅
  | Some _ =>
      match file with
      | Missing | Corrupt => Ok ∅
      | Doc (JObj d) =>
          match jget d "event_ids" (JList []) with
          | JList l => Ok (list_to_set (str_members l))
          | _ => Ok ∅
          end
      | Doc j => fail CAttributeError ("'" +:+ type_name j +:+ "' object has no attribute 'get'")
      end
  end.

Definition cursor_limit : nat := Z.to_nat 10000.

(** [sorted(seen)[-10000:]] *)
Definition cursor_ids (seen : gset string) : list string :=
  let l := sort_strings (elements seen) in drop (List.length l - cursor_limit) l.

Definition cursor_doc (seen : gset string) : json :=
  JObj [("event_ids", JList (JStr <$> cursor_ids seen))].

Section Buzz.
Context {W : Type} `{BuzzExecutor W}.
Variable channel : string.
Variable cursor_path : option string.
Variable local_pubkey : option string.
Abbreviation T := (BuzzTransport W).
Implicit Types (t : T).

(** [__init__] *)
Definition buzz_init (w : W) (file : document) (faults : list bool) (clock : nat → Z) : outcome T :=
  if String.eqb channel "" then fail CValueError "channel UUID is required"
  else seen ← load_cursor cursor_path file;
       Ok {| bt_world := w; bt_cursor_file := file; bt_faults := faults; bt_clock := clock;
             bt_ticks := 0; bt_seen := seen |}.

Definition on_executor {A} (m : PyM W A) : PyM T A :=
  zoom bt_world (λ w t, {| bt_world := w; bt_cursor_file := bt_cursor_file t;
    bt_faults := bt_faults t; bt_clock := bt_clock t; bt_ticks := bt_ticks t;
    bt_seen := bt_seen t |}) m.

Definition save_cursor : PyM T unit :=
  match cursor_path with
  | None => mret tt
  | Some _ =>
      fault ← gets (λ t, default false (head (bt_faults t)));
      modify (λ t, {| bt_world := bt_world t; bt_cursor_file := bt_cursor_file t;
        bt_faults := tail (bt_faults t); bt_clock := bt_clock t; bt_ticks := bt_ticks t;
        bt_seen := bt_seen t |}) ;;
      raise_if fault COSError "write failed" ;;
      modify (λ t, {| bt_world := bt_world t; bt_cursor_file := Doc (cursor_doc (bt_seen t));
        bt_faults := bt_faults t; bt_clock := bt_clock t; bt_ticks := bt_ticks t;
        bt_seen := bt_seen t |})
  end.

Definition buzz_send (o : py_object) : PyM T json :=
  _ ← lift (message_author o);
  content ← lift (encode_content o);
  on_executor (bx_send channel content).

(** The helpers for each kind of message. *)
Definition send_intent (intent : PaymentIntent) : PyM T json := buzz_send (OMessage (MIntent intent)).
Definition send_quote (quote : PaymentQuote) : PyM T json := buzz_send (OMessage (MQuote quote)).
Definition send_receipt (receipt : PaymentReceipt) : PyM T json := buzz_send (OMessage (MReceipt receipt)).

Definition mark_seen (id : string) : PyM T unit :=
  modify (λ t, {| bt_world := bt_world t; bt_cursor_file := bt_cursor_file t;
    bt_faults := bt_faults t; bt_clock := bt_clock t; bt_ticks := bt_ticks t;
    bt_seen := {[id]} ∪ bt_seen t |}).

Definition transport_now : PyM T Z :=
  z ← gets (λ t, bt_clock t (bt_ticks t));
  modify (λ t, {| bt_world := bt_world t; bt_cursor_file := bt_cursor_file t;
    bt_faults := bt_faults t; bt_clock := bt_clock t; bt_ticks := S (bt_ticks t);
    bt_seen := bt_seen t |}) ;;
  mret z.

Definition is_own (event : RawBuzzEvent) : bool :=
  match local_pubkey with Some pk => py_eq (ev_pubkey event) (JStr pk) | None => false end.

Definition full (limit : option Z) (messages : list PeerMessage) : bool :=
  match limit with Some n => n <=? Z.of_nat (List.length messages) | None => false end.

(** The loop over the fetched events: the messages so far, and whether an
    unseen event was met. *)
Fixpoint receive_loop (limit : option Z) (events : list RawBuzzEvent)
    (messages : list PeerMessage) (changed : bool) : PyM T (list PeerMessage * bool) :=
  match events with
  | [] => mret (messages, changed)
  | event :: rest =>
      seen ← gets (λ t, bool_decide (ev_id event ∈ bt_seen t));
      if (seen : bool) then receive_loop limit rest messages changed
      else
        mark_seen (ev_id event) ;;
        if is_own event then receive_loop limit rest messages true
        else
          now ← transport_now;
          match validate_received_event event channel now with
          | Ok message =>
              let messages := messages ++
                [{| pm_message_id := ev_id event; pm_message := message;
                    pm_author := author_of message; pm_published_at := ev_created_at event |}] in
              if full limit messages then mret (messages, true)
              else receive_loop limit rest messages true
          | Raise e =>
              if isinstance_exn e CEnvelopeValidationError
              then receive_loop limit rest messages true else reraise e
          end
  end.

Definition receive_peer_messages (since limit : option Z) : PyM T (list PeerMessage) :=
  raise_if (match limit with Some n => n <? 0 | None => false end) CValueError
    "limit must be zero or greater" ;;
  if bool_decide (limit = Some 0) then mret []
  else
    raw_events ← on_executor (bx_get channel [WIRE_KIND] since None);
    '(messages, changed) ← receive_loop limit raw_events [] false;
    (if (changed : bool) then save_cursor else mret tt) ;;
    mret messages.

Definition buzz_receive (limit : option Z) : PyM T (list PeerMessage) :=
  receive_peer_messages None limit.

Definition receive_messages (since limit : option Z) : PyM T (list PaymentMessage) :=
  l ← receive_peer_messages since limit; mret (pm_message <$> l).

Definition BuzzPeerTransport : PeerTransport T :=
  {| pt_send := buzz_send; pt_receive := buzz_receive |}.
End Buzz.
End Transport.

Arguments bt_world {W}. Arguments bt_cursor_file {W}. Arguments bt_faults {W}.
Arguments bt_clock {W}. Arguments bt_ticks {W}. Arguments bt_seen {W}.

End Transport.
