(* ===== verification/Peer.v ===== *)
(** * The peer endpoint ([peer.py])

    A [HermesPeer] over any transport and the policy engine of any adapter. *)

From S2P Require Import Prelude.
From S2P Require Import Json.
From S2P Require Import Models.
From S2P Require Import Adapter.
From S2P Require Import Storage.
From S2P Require Import Policy.
From S2P Require Import Envelope.
From S2P Require Import PeerTransport.
Import Models Adapter Storage Policy PeerTransport.

Module Peer.

Record HermesPeer (T W : Type) := { hp_transport : T; hp_orchestrator : Orchestrator W }.
Arguments hp_transport {T W}. Arguments hp_orchestrator {T W}.

Section Peer.
Context `{Host} {T W : Type} `{PeerTransport T} `{SettlementAdapter W}.
Variable identity : AgentIdentity.
Variable recipient_allowlist : option (string → bool).
Abbreviation M := (PyM (HermesPeer T W)).

Definition on_transport {A} (m : PyM T A) : M A :=
  zoom hp_transport (λ t p, {| hp_transport := t; hp_orchestrator := hp_orchestrator p |}) m.
Definition on_orchestrator {A} (m : PyM (Orchestrator W) A) : M A :=
  zoom hp_orchestrator (λ o p, {| hp_transport := hp_transport p; hp_orchestrator := o |}) m.

Definition require_local_author (o : py_object) : M unit :=
  author ← lift (message_author o);
  raise_if (negb (String.eqb (pubkey author) (pubkey identity))) CPeerProtocolError
    "local peer is not the message author".

Definition require_local_recipient (intent : PaymentIntent) : M unit :=
  raise_if (negb (String.eqb (pubkey (pi_recipient intent)) (pubkey identity))) CPeerProtocolError
    "message recipient is not local".

Definition peer_send (o : py_object) : M json :=
  require_local_author o ;; on_transport (pt_send o).

Definition peer_receive (limit : option Z) : M (list PeerMessage) :=
  on_transport (pt_receive limit).

Definition submit_intent (intent : PaymentIntent) : M json :=
  require_local_author (OMessage (MIntent intent)) ;;
  on_orchestrator (submit recipient_allowlist intent) ;;
  on_transport (pt_send (OMessage (MIntent intent))).

Definition accept_intent (intent : PaymentIntent) : M unit :=
  require_local_recipient intent ;; on_orchestrator (submit recipient_allowlist intent).

Definition publish_quote (quote : PaymentQuote) : M json := peer_send (OMessage (MQuote quote)).

Definition accept_quote (quote : PaymentQuote) : M unit :=
  intent ← on_orchestrator (get_intent (pq_intent_id quote));
  raise_if (match intent with
            | Some i => negb (String.eqb (pubkey (pq_recipient quote)) (pubkey (pi_recipient i)))
            | None => false
            end) CPeerProtocolError "quote recipient does not match the intent" ;;
  on_orchestrator (receive_quote quote).

Definition publish_receipt (receipt : PaymentReceipt) : M json :=
  peer_send (OMessage (MReceipt receipt)).

Definition accept_receipt (receipt : PaymentReceipt) : M PaymentReceipt :=
  intent ← on_orchestrator (get_intent (pr_intent_id receipt));
  raise_if (match intent with
            | Some i => negb (String.eqb (pubkey (pr_recipient receipt)) (pubkey (pi_recipient i)))
            | None => false
            end) CPeerProtocolError "receipt recipient does not match the intent" ;;
  on_orchestrator (receive_receipt receipt).
End Peer.
End Peer.
