(* ===== verification/Process.v ===== *)
(** * The two-peer process ([examples/two_hermes_regtest/process.py])

    One process per peer: its configuration, the JSONL commands an operator
    sends, the durable snapshot of the tracked intents and of the inbox, the
    handler of every command and recovery after a restart.  The process calls
    the peer endpoint ([Peer.v]) and, through it, the policy engine
    ([Policy.v]) and the transport.

    Command arguments are JSON.  Where the code stores an argument or a member
    of the snapshot without looking at its type and expects text there (a
    settlement reference, a prepared hash, a message id, an error), a value
    that is no text raises here. *)

From S2P Require Import Prelude.
From S2P Require Import Json.
From S2P Require Import JsonText.
From S2P Require Import PyLib.
From S2P Require Import Models.
From S2P Require Import StateMachine.
From S2P Require Import Redact.
From S2P Require Import Adapter.
From S2P Require Import Storage.
From S2P Require Import Policy.
From S2P Require Import PeerTransport.
From S2P Require Import Peer.
From Stdlib Require Import Floats.SpecFloat.
Import Models StateMachine Redact Adapter Storage Policy PeerTransport Peer.

Module Process.

(** ** Configuration *)

Record ProcessConfig := {
  cf_role : string;
  cf_identity : AgentIdentity;
  cf_channel : string;
  cf_state_root : string;
  cf_network : string;
  cf_buzz_bin : string;
  cf_audit_path : string;
  cf_store_path : string;
  cf_approver : option AgentIdentity
}.

(** The validators, and the default paths of [model_post_init]. *)
Definition process_config (role : string) (identity : AgentIdentity) (channel : string)
    (state_root : option string) (network buzz_bin : string)
    (audit_path store_path : option string) (approver : option AgentIdentity)
    : outcome ProcessConfig :=
  let root := default "" state_root in
  if bool_decide (role ∈ ["alice"; "bob"]) && negb (String.eqb (py_strip channel) "")
     && negb (bool_decide (py_strip root ∈ [""; "."])) && bool_decide (network ∈ ["regtest"; "signet"])
  then
    let root := path_str root in
    Ok {| cf_role := role; cf_identity := identity; cf_channel := channel; cf_state_root := root;
          cf_network := network; cf_buzz_bin := buzz_bin;
          cf_audit_path := default (path_join root "audit.jsonl") (path_str <$> audit_path);
          cf_store_path := default (path_join root "store.json") (path_str <$> store_path);
          cf_approver := approver |}
  else fail CValidationError "invalid process configuration".

Definition redacted_identifier (value : string) : string :=
  if py_len value <=? 8 then value else py_take 8 value +:+ "...".

(** ** Commands *)

Record JsonlCommand := { jc_name : string; jc_arguments : list (string * json) }.

Definition KNOWN_COMMANDS : list string :=
  [ "status"; "receive"; "submit_intent"; "accept_intent"; "publish_quote"; "accept_quote";
    "prepare"; "approve"; "execute"; "publish_receipt"; "verify_publish_receipt";
    "accept_receipt"; "recover"; "submit_quote_local" ].

Definition parse_command (line : string) : outcome JsonlCommand :=
  match loads line with
  | Some (JObj data) =>
      match jget data "command" JNull with
      | JStr name =>
          if String.eqb name "" then fail CProcessProtocolError "command name is required"
          else if negb (bool_decide (name ∈ KNOWN_COMMANDS)) then
            fail CProcessProtocolError ("unknown command: " +:+ name)
          else Ok {| jc_name := name;
                     jc_arguments := List.filter (λ p, negb (String.eqb p.1 "command")) data |}
      | _ => fail CProcessProtocolError "command name is required"
      end
  | _ => fail CProcessProtocolError "command must be valid JSON object"
  end.

(** [{**d, **d'}] *)
Definition dict_merge (d d' : list (string * json)) : list (string * json) :=
  foldl (λ d p, dset d p.1 p.2) d d'.

Definition jsonl_opts : dump_opts := {| sort_keys := true; compact := true; ensure_ascii := true |}.

Definition to_json `{Host} (c : JsonlCommand) : string :=
  dumps jsonl_opts (JObj (dict_merge [("command", JStr (jc_name c))] (jc_arguments c))).

Definition jsonl_event `{Host} (name : string) (result : list (string * json)) : string :=
  dumps jsonl_opts (JObj (dict_merge [("event", JStr name)] result)).

(** ** The small process boundary with injected handlers ([JsonlProcess]) *)

Section JsonlProcess.
Context `{Host} {S : Type}.
Variable config : ProcessConfig.
Variables receive_handler recover_handler : option (list (string * json) → PyM S json).

Definition injected_handler (name : string) : outcome (option (list (string * json) → PyM S json)) :=
  if String.eqb name "receive" then Ok receive_handler
  else if String.eqb name "recover" then Ok recover_handler
  else fail CKeyError name.

Definition jsonl_handle_line (line : string) : PyM S string :=
  command ← lift (parse_command line);
  let name := jc_name command in
  if String.eqb name "status" then
    mret (jsonl_event "status"
      [("role", JStr (cf_role config)); ("network", JStr (cf_network config));
       ("channel", JStr (cf_channel config)); ("state_root", JStr (cf_state_root config))])
  else
    handler ← lift (injected_handler name);
    match handler with
    | None => raise CProcessProtocolError (name +:+ " handler is not configured")
    | Some f =>
        result ← f (jc_arguments command);
        match result with
        | JObj d => mret (jsonl_event name d)
        | _ => raise CProcessProtocolError (name +:+ " handler must return an object")
        end
    end.
End JsonlProcess.

(** ** Display-safe summaries *)

Definition message_class (m : PaymentMessage) : string :=
  match m with
  | MIntent _ => "PaymentIntent" | MQuote _ => "PaymentQuote" | MReceipt _ => "PaymentReceipt"
  end.

Definition message_identifier (m : PaymentMessage) : string :=
  match m with MIntent i => pi_id i | MQuote q => pq_id q | MReceipt r => pr_id r end.

Definition jred (s : string) : json := JStr (redacted_identifier s).

Definition serialize_message (m : PaymentMessage) : list (string * json) :=
  [ ("type", JStr (message_class m)); ("id", jred (message_identifier m));
    ("protocol_version", JStr PROTOCOL_VERSION); ("author", jred (pubkey (author_of m))) ]
  ++ match m with
     | MIntent i => [("intent_id", jred (pi_id i)); ("amount_sat", JInt (pi_amount_sat i))]
     | MQuote q => [("intent_id", jred (pq_intent_id q))]
     | MReceipt r => [("intent_id", jred (pr_intent_id r))]
     end.

Definition state_count_summary (intents : list (string * IntentRecord)) : json :=
  JObj (foldl (λ counts p,
    let k := state_value (ir_state p.2) in
    dset counts k (JInt (1 + match dget counts k with Some (JInt n) => n | _ => 0 end))) [] intents).

Definition jopt {A} (f : A → json) (o : option A) : json :=
  match o with Some a => f a | None => JNull end.

(** [redact(x) if x else None] *)
Definition redacted_error (error : option string) : json :=
  match error with
  | Some e => if String.eqb e "" then JNull else JStr (redact_sensitive e)
  | None => JNull
  end.

Definition serialize_reconciliation (r : option ReconcileResult) : json :=
  jopt (λ c, JObj
    [ ("status", JStr (rc_status c)); ("settlement_ref", jred (rc_settlement_ref c));
      ("amount_sat", JInt (rc_amount_sat c)); ("fee_sat", JInt (rc_fee_sat c));
      ("rail", jopt (λ r, JStr (rail_value r)) (rc_rail c)); ("verified", JBool (rc_verified c));
      ("error", redacted_error (rc_error c)) ]) r.

(** ** The snapshot document *)

Definition dump_prepared (p : PrepareResult) : json :=
  JObj [ ("fee_sat", JInt (pp_fee_sat p)); ("prepared_hash", JStr (pp_prepared_hash p));
         ("rail", JStr (rail_value (pp_rail p)));
         ("prepared_payload", JStr (py_b64encode (pp_prepared_payload p))) ].

Definition dump_reconciliation (c : ReconcileResult) : json :=
  JObj [ ("status", JStr (rc_status c)); ("settlement_ref", JStr (rc_settlement_ref c));
         ("amount_sat", JInt (rc_amount_sat c)); ("fee_sat", JInt (rc_fee_sat c));
         ("rail", jopt (λ r, JStr (rail_value r)) (rc_rail c)); ("verified", JBool (rc_verified c));
         ("error", jopt JStr (rc_error c)) ].

Definition dump_model {M} `{BaseModel M} (m : M) : json := JObj (model_dump m).

Definition dump_record (r : IntentRecord) : json :=
  JObj [ ("state", JStr (state_value (ir_state r))); ("intent", dump_model (ir_intent r));
         ("quote", jopt dump_model (ir_quote r)); ("prepared", jopt dump_prepared (ir_prepared r));
         ("approval", jopt dump_model (ir_approval r)); ("receipt", jopt dump_model (ir_receipt r));
         ("reconciliation", jopt dump_reconciliation (ir_reconciliation r)) ].

Definition dump_message (m : PaymentMessage) : json :=
  match m with MIntent i => dump_model i | MQuote q => dump_model q | MReceipt r => dump_model r end.

Definition dump_peer_message (pm : PeerMessage) : json :=
  JObj [ ("message_id", JStr (pm_message_id pm)); ("type", JStr (message_class (pm_message pm)));
         ("message", dump_message (pm_message pm)); ("author", dump_identity (pm_author pm));
         ("published_at", pm_published_at pm) ].

Definition snapshot_json (intents : list (string * IntentRecord)) (inbox : list PeerMessage) : json :=
  JObj [ ("version", JInt 3); ("records", JObj ((λ p, (p.1, dump_record p.2)) <$> intents));
         ("inbox", JList (dump_peer_message <$> inbox)) ].

(** ** Reading the snapshot back *)

Section Restore.
Context `{Host}.

(** [j[k]] *)
Definition subscript (j : json) (k : string) : outcome json :=
  match j with
  | JObj d => of_opt CKeyError k (dget d k)
  | _ => fail CTypeError ("'" +:+ type_name j +:+ "' object is not subscriptable")
  end.

(** [except (KeyError, TypeError, ValueError) as exc: raise C(msg)] *)
Definition reraise_as {A} (msg : string) (o : outcome A) : outcome A :=
  match o with
  | Raise e =>
      if isinstance_exn e CKeyError || isinstance_exn e CTypeError || isinstance_exn e CValueError
      then fail CProcessProtocolError msg else Raise e
  | _ => o
  end.

Definition validated {A} (name : string) (validate : json → option A) (j : json) : outcome A :=
  of_opt CValidationError (validation_text name j) (validate j).

(** [if d.get(k): x = f(d[k])] *)
Definition when_set {A} (d : list (string * json)) (k : string) (f : json → outcome A)
    : outcome (option A) :=
  let j := jget d k JNull in if truthy j then Some <$> f j else Ok None.

Definition as_text (j : json) : outcome string :=
  of_opt CTypeError "text expected" (as_str j).

Definition rail_of_json (j : json) : outcome Rail :=
  of_opt CValueError "not a valid Rail" (as_str j ≫= rail_of_value).

Definition restore_prepared (intent_id : string) (j : json) : outcome PrepareResult :=
  reraise_as ("invalid prepared state for " +:+ redacted_identifier intent_id)
    (payload ← (subscript j "prepared_payload" ≫= py_b64decode);
     fee ← (subscript j "fee_sat" ≫= py_int);
     hash ← (subscript j "prepared_hash" ≫= as_text);
     rail ← (subscript j "rail" ≫= rail_of_json);
     Ok {| pp_fee_sat := fee; pp_prepared_hash := hash; pp_rail := rail;
           pp_prepared_payload := payload |}).

Definition restore_reconciliation (intent_id : string) (j : json) : outcome ReconcileResult :=
  reraise_as ("invalid reconciliation state for " +:+ redacted_identifier intent_id)
    (status ← subscript j "status";
     let d := default [] (as_dict j) in
     amount ← py_int (jget d "amount_sat" (JInt 0));
     fee ← py_int (jget d "fee_sat" (JInt 0));
     rail ← when_set d "rail" rail_of_json;
     error ← match jget d "error" JNull with JNull => Ok None | e => Some <$> as_text e end;
     Ok {| rc_status := py_str status;
           rc_settlement_ref := py_str (jget d "settlement_ref" (JStr ""));
           rc_amount_sat := amount; rc_fee_sat := fee; rc_rail := rail;
           rc_verified := truthy (jget d "verified" (JBool false)); rc_error := error |}).

Definition restore_record (intent_id : string) (data : list (string * json)) : outcome IntentRecord :=
  let intent_json := jget data "intent" JNull in
  intent ← validated "PaymentIntent" validate_intent intent_json;
  state ← (subscript (JObj data) "state" ≫=
    λ j, of_opt CValueError "not a valid PaymentState" (as_str j ≫= state_of_value));
  expires ← py_int (jget (default [] (as_dict intent_json)) "expires_at" (JInt 0));
  quote ← when_set data "quote" (validated "PaymentQuote" validate_quote);
  prepared ← when_set data "prepared" (restore_prepared intent_id);
  approval ← when_set data "approval" (validated "PaymentApproval" validate_approval);
  receipt ← when_set data "receipt" (validated "PaymentReceipt" validate_receipt);
  reconciliation ← when_set data "reconciliation" (restore_reconciliation intent_id);
  Ok {| ir_intent := intent; ir_state := state; ir_quote := quote; ir_prepared := prepared;
        ir_approval := approval; ir_receipt := receipt; ir_reconciliation := reconciliation;
        ir_quote_expires_at := match quote with Some q => pq_expires_at q | None => 0 end;
        ir_expires_at := expires |}.

Definition restore_message (type : json) (j : json) : outcome PaymentMessage :=
  match type with
  | JStr "PaymentIntent" => MIntent <$> validated "PaymentIntent" validate_intent j
  | JStr "PaymentQuote" => MQuote <$> validated "PaymentQuote" validate_quote j
  | JStr "PaymentReceipt" => MReceipt <$> validated "PaymentReceipt" validate_receipt j
  | j => if hashable j then fail CKeyError (py_str j) else fail CTypeError "unhashable type"
  end.

Definition restore_peer_message (item : json) : outcome PeerMessage :=
  reraise_as "invalid process inbox snapshot"
    (type ← subscript item "type";
     body ← (match type with
             | JStr s => if bool_decide (s ∈ ["PaymentIntent"; "PaymentQuote"; "PaymentReceipt"])
                         then subscript item "message" else Ok JNull
             | _ => Ok JNull
             end);
     message ← restore_message type body;
     id ← (subscript item "message_id" ≫= as_text);
     author ← (subscript item "author" ≫= validated "AgentIdentity" validate_identity);
     published ← (subscript item "published_at" ≫= py_int);
     Ok {| pm_message_id := id; pm_message := message; pm_author := author;
           pm_published_at := JInt published |}).
End Restore.
(** ** The snapshot file ([ProcessStateStore]) *)

(** The snapshot file with its write failures, [time.monotonic()] at each
    reading, and the sleeps taken. *)
Record HermesProcess (T W : Type) := {
  hr_peer : HermesPeer T W;
  hr_inbox : list PeerMessage;
  hr_inbox_ids : gset string;
  hr_file : document;
  hr_faults : list bool;
  hr_mono : nat → spec_float;
  hr_reads : nat;
  hr_sleeps : list spec_float
}.
Arguments hr_peer {T W}. Arguments hr_inbox {T W}. Arguments hr_inbox_ids {T W}.
Arguments hr_file {T W}. Arguments hr_faults {T W}. Arguments hr_mono {T W}.
Arguments hr_reads {T W}. Arguments hr_sleeps {T W}.

(** [self._orchestrator] *)
Definition hr_orchestrator {T W} (p : HermesProcess T W) : Orchestrator W :=
  hp_orchestrator (hr_peer p).

Section Process.
Context `{Host} {T W : Type} `{PeerTransport T} `{SettlementAdapter W}.
Variable config : ProcessConfig.
Abbreviation P := (PyM (HermesProcess T W)).
Abbreviation args_t := (list (string * json)).

Definition with_peer (x : HermesPeer T W) (p : HermesProcess T W) : HermesProcess T W :=
  {| hr_peer := x; hr_inbox := hr_inbox p; hr_inbox_ids := hr_inbox_ids p; hr_file := hr_file p;
     hr_faults := hr_faults p; hr_mono := hr_mono p; hr_reads := hr_reads p; hr_sleeps := hr_sleeps p |}.
Definition with_inbox (ids : gset string) (l : list PeerMessage) (p : HermesProcess T W)
    : HermesProcess T W :=
  {| hr_peer := hr_peer p; hr_inbox := l; hr_inbox_ids := ids; hr_file := hr_file p;
     hr_faults := hr_faults p; hr_mono := hr_mono p; hr_reads := hr_reads p; hr_sleeps := hr_sleeps p |}.
Definition with_file (f : document) (p : HermesProcess T W) : HermesProcess T W :=
  {| hr_peer := hr_peer p; hr_inbox := hr_inbox p; hr_inbox_ids := hr_inbox_ids p; hr_file := f;
     hr_faults := hr_faults p; hr_mono := hr_mono p; hr_reads := hr_reads p; hr_sleeps := hr_sleeps p |}.
Definition pop_hr_fault (p : HermesProcess T W) : HermesProcess T W :=
  {| hr_peer := hr_peer p; hr_inbox := hr_inbox p; hr_inbox_ids := hr_inbox_ids p; hr_file := hr_file p;
     hr_faults := tail (hr_faults p); hr_mono := hr_mono p; hr_reads := hr_reads p;
     hr_sleeps := hr_sleeps p |}.
Definition tick_mono (p : HermesProcess T W) : HermesProcess T W :=
  {| hr_peer := hr_peer p; hr_inbox := hr_inbox p; hr_inbox_ids := hr_inbox_ids p; hr_file := hr_file p;
     hr_faults := hr_faults p; hr_mono := hr_mono p; hr_reads := S (hr_reads p);
     hr_sleeps := hr_sleeps p |}.
Definition add_sleep (t : spec_float) (p : HermesProcess T W) : HermesProcess T W :=
  {| hr_peer := hr_peer p; hr_inbox := hr_inbox p; hr_inbox_ids := hr_inbox_ids p; hr_file := hr_file p;
     hr_faults := hr_faults p; hr_mono := hr_mono p; hr_reads := hr_reads p;
     hr_sleeps := hr_sleeps p ++ [t] |}.

Definition on_peer {A} (m : PyM (HermesPeer T W) A) : P A := zoom hr_peer with_peer m.
Definition on_orch {A} (m : PyM (Orchestrator W) A) : P A := on_peer (on_orchestrator m).

Definition state_save (records : json) : P unit :=
  b ← gets (λ p, default false (head (hr_faults p)));
  modify pop_hr_fault ;;
  raise_if b COSError "write failed" ;;
  modify (with_file (Doc (sort_json records))).

Definition state_load : P json :=
  f ← gets hr_file;
  match f with
  | Missing => mret (JObj [])
  | Corrupt => raise CJSONDecodeError "process state is not JSON"
  | Doc j => mret j
  end.

Definition snapshot_state : P unit :=
  intents ← gets (λ p, o_intents (hr_orchestrator p));
  inbox ← gets hr_inbox;
  state_save (snapshot_json intents inbox).

(** ** Recovery *)

(** [if id not in ids: ids.add(id); inbox.append(m)]; was it new? *)
Definition note_message (m : PeerMessage) : P bool :=
  ids ← gets hr_inbox_ids;
  if bool_decide (pm_message_id m ∈ ids) then mret false
  else
    modify (λ p, with_inbox ({[pm_message_id m]} ∪ hr_inbox_ids p) (hr_inbox p ++ [m]) p) ;;
    mret true.

(** The body of the loop over the records. *)
Definition recover_one (reconcile : bool) (item : string * json) : P unit :=
  let '(intent_id, data) := item in
  match data with
  | JObj data =>
      if truthy (jget data "intent" JNull) then
        record ← lift (restore_record intent_id data);
        record ← (if bool_decide (ir_state record = EXECUTING) then
                    on_orch (audit "recovered_executing"
                      [kv_str "intent_id" intent_id; kv_state RECONCILIATION_REQUIRED]) ;;
                    mret (with_state RECONCILIATION_REQUIRED record)
                  else mret record);
        intents ← on_orch (gets o_intents);
        on_orch (set_intents (dset intents intent_id record)) ;;
        (if reconcile && bool_decide (ir_state record = RECONCILIATION_REQUIRED)
         then on_orch (reconcile_settlement intent_id) ;; mret tt else mret tt)
      else mret tt
  | _ => mret tt
  end.

Definition recover_message (item : json) : P unit :=
  m ← lift (restore_peer_message item); note_message m ;; mret tt.

Definition maybe_recover (reconcile : bool) : P unit :=
  snapshot ← state_load;
  match snapshot with
  | JObj snap =>
      match jget snap "records" snapshot with
      | JObj records =>
          py_for records (recover_one reconcile) ;;
          (match jget snap "inbox" (JList []) with
           | JList raw_inbox => py_for raw_inbox recover_message
           | _ => mret tt
           end) ;;
          (if truthy (JObj records) then snapshot_state else mret tt)
      | _ => raise CProcessProtocolError "process state snapshot has invalid records"
      end
  | j => raise CAttributeError ("'" +:+ type_name j +:+ "' object has no attribute 'get'")
  end.

(** ** Command handlers *)

Definition arg (args : args_t) (k : string) : P json := lift (of_opt CKeyError k (dget args k)).

(** [d.get(key)] for a key that is any value. *)
Definition dict_get {A} (d : list (string * A)) (key : json) : outcome (option A) :=
  match key with
  | JStr k => Ok (dget d k)
  | _ => if hashable key then Ok None else fail CTypeError "unhashable type"
  end.

(** [redacted_identifier] on a value that may be no text. *)
Definition redacted_value (value : json) : outcome json :=
  match value with
  | JStr s => Ok (jred s)
  | JList l =>
      if (List.length l <=? 8)%nat then Ok value
      else Ok (JStr (py_str (JList (take 8 l)) +:+ "..."))
  | JObj d => if (List.length d <=? 8)%nat then Ok value else fail CTypeError "unhashable type: 'slice'"
  | _ => fail CTypeError ("object of type '" +:+ type_name value +:+ "' has no len()")
  end.

Definition jstate (intent_id : string) : P json :=
  st ← on_orch (state intent_id); mret (JStr (state_value st)).

Definition find_inbox_message (redacted_id : json) : P PeerMessage :=
  inbox ← gets hr_inbox;
  match List.filter (λ m, py_eq (jred (pm_message_id m)) redacted_id) inbox with
  | m :: _ => mret m
  | [] => raise CProcessProtocolError ("message " +:+ py_str redacted_id +:+ " not found in inbox")
  end.

Definition clock_reading : P Z := on_orch now.

Definition handle_status : P args_t :=
  intents ← gets (λ p, o_intents (hr_orchestrator p));
  mret [ ("role", JStr (cf_role config)); ("network", JStr (cf_network config));
         ("channel", JStr (cf_channel config)); ("state_root", JStr (cf_state_root config));
         ("state_count", state_count_summary intents) ].

(** The received messages that are new, remembered. *)
Fixpoint note_messages (l : list PeerMessage) : P (list PeerMessage) :=
  match l with
  | [] => mret []
  | m :: l' =>
      new ← note_message m;
      rest ← note_messages l';
      mret (if (new : bool) then m :: rest else rest)
  end.

Definition handle_receive (args : args_t) : P args_t :=
  limit ← (match jget args "limit" JNull with
           | JNull => mret None
           | j => lift (Some <$> py_int j)
           end);
  received ← on_peer (peer_receive limit);
  messages ← note_messages received;
  inbox ← gets hr_inbox;
  mret [ ("messages", JList ((λ m, JObj (dict_merge [("message_id", jred (pm_message_id m))]
                                           (serialize_message (pm_message m)))) <$> messages));
         ("inbox_size", JInt (Z.of_nat (List.length inbox))) ].

Definition handle_submit_intent (args : args_t) : P args_t :=
  j ← arg args "intent";
  intent ← lift (validated "PaymentIntent" validate_intent j);
  message_id ← on_peer (submit_intent (cf_identity config) None intent);
  mid ← lift (redacted_value message_id);
  st ← jstate (pi_id intent);
  mret [ ("intent_id", jred (pi_id intent)); ("message_id", mid); ("state", st) ].

Definition handle_accept_intent (args : args_t) : P args_t :=
  redacted_id ← arg args "message_id";
  msg ← find_inbox_message redacted_id;
  match pm_message msg with
  | MIntent intent =>
      on_peer (accept_intent (cf_identity config) None intent) ;;
      st ← jstate (pi_id intent);
      mret [ ("intent_id", jred (pi_id intent)); ("state", st) ]
  | _ => raise CProcessProtocolError "message is not a PaymentIntent"
  end.

Definition handle_publish_quote (args : args_t) : P args_t :=
  j ← arg args "quote";
  quote ← lift (validated "PaymentQuote" validate_quote j);
  message_id ← on_peer (publish_quote (cf_identity config) quote);
  mid ← lift (redacted_value message_id);
  st ← jstate (pq_intent_id quote);
  mret [ ("quote_id", jred (pq_quote_id quote)); ("message_id", mid); ("state", st) ].

Definition handle_accept_quote (args : args_t) : P args_t :=
  redacted_id ← arg args "message_id";
  msg ← find_inbox_message redacted_id;
  match pm_message msg with
  | MQuote quote =>
      on_peer (accept_quote quote) ;;
      st ← jstate (pq_intent_id quote);
      mret [ ("intent_id", jred (pq_intent_id quote)); ("state", st) ]
  | _ => raise CProcessProtocolError "message is not a PaymentQuote"
  end.

Definition handle_submit_quote_local (args : args_t) : P args_t :=
  j ← arg args "quote";
  quote ← lift (validated "PaymentQuote" validate_quote j);
  on_orch (receive_quote quote) ;;
  st ← jstate (pq_intent_id quote);
  mret [ ("quote_id", jred (pq_quote_id quote)); ("state", st) ].

Definition handle_prepare : P args_t :=
  prepared ← on_orch (prepare None);
  mret [ ("fee_sat", JInt (pp_fee_sat prepared)); ("prepared_hash", jred (pp_prepared_hash prepared));
         ("rail", JStr (rail_value (pp_rail prepared))) ].

(** A display prefix stands for the full hash of the named intent's preparation. *)
Definition resolve_hash (record : option IntentRecord) (prepared_hash : json) : json :=
  match record ≫= ir_prepared with
  | Some prepared =>
      let full_hash := pp_prepared_hash prepared in
      if py_eq prepared_hash (jred full_hash) then JStr full_hash else prepared_hash
  | None => prepared_hash
  end.

(** [PaymentApproval(...)] with arguments of any type, and its identifier. *)
Definition build_approval (intent_id quote_id prepared_hash : json) (approver : AgentIdentity) (t : Z)
    : outcome PaymentApproval :=
  let text j := of_opt CValidationError (validation_text "PaymentApproval" j) (coerce_str j) in
  iid ← text intent_id; qid ← text quote_id; hash ← text prepared_hash;
  approval ← construct
    {| pa_id := "placeholder"; pa_intent_id := iid; pa_quote_id := qid; pa_prepared_hash := hash;
       pa_approver := approver; pa_created_at := t |};
  Ok (set_id (compute_id approval) approval).

Definition handle_approve (args : args_t) : P args_t :=
  match cf_approver config with
  | None => raise CProcessProtocolError "approver identity is not configured"
  | Some approver =>
      intent_id ← arg args "intent_id";
      prepared_hash ← arg args "prepared_hash";
      intents ← on_orch (gets o_intents);
      record ← lift (dict_get intents intent_id);
      quote_id ← arg args "quote_id";
      t ← clock_reading;
      approval ← lift (build_approval intent_id quote_id (resolve_hash record prepared_hash) approver t);
      on_orch (approve approval) ;;
      st ← jstate (pa_intent_id approval);
      mret [ ("intent_id", jred (pa_intent_id approval)); ("quote_id", jred (pa_quote_id approval));
             ("prepared_hash", jred (pa_prepared_hash approval)); ("state", st) ]
  end.

Definition handle_execute : P args_t :=
  receipt ← on_orch execute;
  st ← jstate (pr_intent_id receipt);
  mret [ ("state", st); ("settlement_ref", jred (pr_settlement_ref receipt));
         ("amount_sat", JInt (pr_amount_sat receipt)); ("fee_sat", JInt (pr_fee_sat receipt)) ].

Definition handle_publish_receipt (args : args_t) : P args_t :=
  j ← arg args "receipt";
  receipt ← lift (validated "PaymentReceipt" validate_receipt j);
  message_id ← on_peer (publish_receipt (cf_identity config) receipt);
  mid ← lift (redacted_value message_id);
  mret [ ("receipt_id", jred (pr_id receipt)); ("message_id", mid);
         ("intent_id", jred (pr_intent_id receipt)) ].

(** [PaymentReceipt(...)] of a verified activity, and its identifier. *)
Definition build_verified_receipt (intent_id : string) (quote_id : json) (settlement_ref : string)
    (v : ReceiptVerifyResult) (settled_at created_at : Z) : outcome PaymentReceipt :=
  qid ← of_opt CValidationError (validation_text "PaymentReceipt" quote_id) (coerce_str quote_id);
  receipt ← construct
    {| pr_id := "placeholder"; pr_intent_id := intent_id; pr_quote_id := qid;
       pr_recipient := cf_identity config; pr_settlement_ref := settlement_ref;
       pr_amount_sat := rv_amount_sat v; pr_fee_sat := rv_fee_sat v; pr_rail := ad_rail;
       pr_settled_at := settled_at; pr_created_at := created_at |};
  Ok (set_id (compute_id receipt) receipt).

Definition handle_verify_publish_receipt (args : args_t) : P args_t :=
  intent_id ← arg args "intent_id";
  quote_id ← arg args "quote_id";
  ref ← arg args "settlement_ref";
  intents ← on_orch (gets o_intents);
  record ← lift (dict_get intents intent_id);
  match record, intent_id with
  | Some record, JStr iid =>
      let intent := ir_intent record in
      amount ← lift (py_int (jget args "amount_sat" (JInt (pi_amount_sat intent))));
      raise_if (negb (amount =? pi_amount_sat intent)) CProcessProtocolError
        "receipt amount does not match the intent" ;;
      settlement_ref ← lift (as_text ref);
      v ← on_orch (on_world (ad_verify_receipt settlement_ref amount));
      raise_if (negb (rv_verified v)) CProcessProtocolError
        (str_or (rv_error v) "recipient activity could not be verified") ;;
      raise_if (negb (String.eqb (rv_settlement_ref v) settlement_ref)) CProcessProtocolError
        "receipt verification reference mismatch" ;;
      settled_at ← clock_reading;
      created_at ← clock_reading;
      receipt ← lift (build_verified_receipt iid quote_id settlement_ref v settled_at created_at);
      message_id ← on_peer (publish_receipt (cf_identity config) receipt);
      mid ← lift (redacted_value message_id);
      mret [ ("receipt_id", jred (pr_id receipt)); ("message_id", mid);
             ("intent_id", jred (pr_intent_id receipt)); ("amount_sat", JInt (pr_amount_sat receipt));
             ("fee_sat", JInt (pr_fee_sat receipt)) ]
  | _, _ =>
      shown ← lift (redacted_value intent_id);
      raise CProcessProtocolError ("unknown intent " +:+ py_str shown)
  end.

Definition handle_accept_receipt (args : args_t) : P args_t :=
  redacted_id ← arg args "message_id";
  msg ← find_inbox_message redacted_id;
  match pm_message msg with
  | MReceipt receipt =>
      on_peer (accept_receipt receipt) ;;
      st ← jstate (pr_intent_id receipt);
      mret [ ("intent_id", jred (pr_intent_id receipt)); ("state", st) ]
  | _ => raise CProcessProtocolError "message is not a PaymentReceipt"
  end.

(** ** The recovery command and its polling loop *)

Definition monotonic : P spec_float :=
  t ← gets (λ p, hr_mono p (hr_reads p)); modify tick_mono ;; mret t.

Definition sleep (t : spec_float) : P unit :=
  raise_if (SFltb t (S754_zero false)) CValueError "sleep length must be non-negative" ;;
  modify (add_sleep t).

Definition is_pending (p : string * IntentRecord) : bool :=
  bool_decide (ir_state p.2 = RECONCILIATION_REQUIRED) &&
  match ir_reconciliation p.2 with Some c => String.eqb (rc_status c) "PENDING" | None => false end.

(** The [while True] loop, at most [n] times; [None]: still polling. *)
Fixpoint recover_loop (n : nat) (started max_wait poll : spec_float) : P (option unit) :=
  match n with
  | 0%nat => mret None
  | S n' =>
      maybe_recover true ;;
      intents ← gets (λ p, o_intents (hr_orchestrator p));
      t ← monotonic;
      let elapsed := fsub t started in
      if negb (existsb is_pending intents) || SFleb max_wait elapsed then mret (Some tt)
      else
        sleep (fmin poll (fsub max_wait elapsed)) ;;
        recover_loop n' started max_wait poll
  end.

Definition summarize_record (p : string * IntentRecord) : json :=
  let rec := p.2 in
  JObj [ ("intent_id", jred (pi_id (ir_intent rec))); ("state", JStr (state_value (ir_state rec)));
         ("prepared_hash", jopt (λ p, jred (pp_prepared_hash p)) (ir_prepared rec));
         ("reconciliation", serialize_reconciliation (ir_reconciliation rec)) ].

Definition recover_number (args : args_t) (k : string) (dflt : Z) : outcome spec_float :=
  match py_float (jget args k (JInt dflt)) with
  | Raise e =>
      if isinstance_exn e CTypeError || isinstance_exn e CValueError
      then fail CProcessProtocolError
             "recover max_wait_seconds and poll_interval_seconds must be numeric"
      else Raise e
  | o => o
  end.

Definition MAX_WAIT : spec_float := Eval vm_compute in float_of_dec false 720 0.
Definition MIN_POLL : spec_float := Eval vm_compute in float_of_dec false 1 (-2).
Definition MAX_POLL : spec_float := Eval vm_compute in float_of_dec false 60 0.

Definition handle_recover (n : nat) (args : args_t) : P (option args_t) :=
  max_wait ← lift (recover_number args "max_wait_seconds" 0);
  poll ← lift (recover_number args "poll_interval_seconds" 1);
  raise_if (negb (SFleb (S754_zero false) max_wait && SFleb max_wait MAX_WAIT)) CProcessProtocolError
    "recover max_wait_seconds must be between 0 and 720" ;;
  raise_if (negb (SFleb MIN_POLL poll && SFleb poll MAX_POLL)) CProcessProtocolError
    "recover poll_interval_seconds must be between 0.01 and 60" ;;
  started ← monotonic;
  done ← recover_loop n started max_wait poll;
  match done with
  | None => mret None
  | Some _ =>
      t ← monotonic;
      intents ← gets (λ p, o_intents (hr_orchestrator p));
      mret (Some [ ("waited_seconds", JFloat (py_round3 (fsub t started)));
                   ("intents", JList (summarize_record <$> intents));
                   ("state_count", state_count_summary intents) ])
  end.

Definition finished {A} (m : P A) : P (option A) := a ← m; mret (Some a).

(** The methods [_handle_<name>]; [n] bounds the polling of [recover]. *)
Definition handlers (n : nat) : list (string * (args_t → P (option args_t))) :=
  [ ("status", λ _, finished handle_status);
    ("receive", λ args, finished (handle_receive args));
    ("submit_intent", λ args, finished (handle_submit_intent args));
    ("accept_intent", λ args, finished (handle_accept_intent args));
    ("publish_quote", λ args, finished (handle_publish_quote args));
    ("accept_quote", λ args, finished (handle_accept_quote args));
    ("submit_quote_local", λ args, finished (handle_submit_quote_local args));
    ("prepare", λ _, finished handle_prepare);
    ("approve", λ args, finished (handle_approve args));
    ("execute", λ _, finished handle_execute);
    ("publish_receipt", λ args, finished (handle_publish_receipt args));
    ("verify_publish_receipt", λ args, finished (handle_verify_publish_receipt args));
    ("accept_receipt", λ args, finished (handle_accept_receipt args));
    ("recover", handle_recover n) ].

Definition run_command (n : nat) (command : JsonlCommand) : P (option args_t) :=
  match dget (handlers n) (jc_name command) with
  | Some handler => handler (jc_arguments command)
  | None => raise CProcessProtocolError ("command not implemented: " +:+ jc_name command)
  end.

(** [None] says that [recover] was still polling. *)
Definition handle_line (n : nat) (line : string) : P (option string) :=
  command ← lift (parse_command line);
  result ← try_finally (run_command n command) snapshot_state;
  mret (jsonl_event (jc_name command) <$> result).

(** ** Starting a process *)

Definition set_clock (clk : nat → Z) (e : Env) : Env :=
  {| store_file := store_file e; audit_file := audit_file e; faults := faults e; clock := clk;
     wall := wall e; ticks := ticks e |}.

(** [HermesRegtestProcess(...)] on the files as they are, before recovery;
    without a clock the constructor takes [lambda: 0]. *)
Definition process_init (clk : option (nat → Z)) (t : T) (w : W) (e : Env) (file : document)
    (faults : list bool) (mono : nat → spec_float) : outcome (HermesProcess T W) :=
  o ← orchestrator_init (Some (cf_store_path config)) (Some (cf_audit_path config)) w
        (set_clock (default (λ _, 0) clk) e);
  Ok {| hr_peer := {| hp_transport := t; hp_orchestrator := o |}; hr_inbox := [];
        hr_inbox_ids := ∅; hr_file := file; hr_faults := faults; hr_mono := mono; hr_reads := 0;
        hr_sleeps := [] |}.

Definition process_start (clk : option (nat → Z)) (t : T) (w : W) (e : Env) (file : document)
    (faults : list bool) (mono : nat → spec_float) : outcome (HermesProcess T W) :=
  p ← process_init clk t w e file faults mono;
  match maybe_recover true p with
  | (Ok _, p') => Ok p'
  | (Raise x, _) => Raise x
  end.
End Process.
End Process.
