(* ===== verification/Erasure.v ===== *)
(** * Observing a program does not change it

    The theorems about processes observe the adapter's calls and the wallet
    tool's commands by worlds that keep a record ([logged_adapter],
    [logged_executor]).  Here it is shown that the record has no influence:
    what a program does over the observed world is, after forgetting the
    record, what it does over the plain one.  More generally, worlds and
    adapters that are related by a map give related processes. *)

From S2P Require Import Prelude.
From S2P Require Import Json.
From S2P Require Import JsonText.
From S2P Require Import PyLib.
From S2P Require Import Models.
From S2P Require Import StateMachine.
From S2P Require Import Adapter.
From S2P Require Import Storage.
From S2P Require Import Policy.
From S2P Require Import PeerTransport.
From S2P Require Import Peer.
From S2P Require Import Process.
From Stdlib Require Import Floats.SpecFloat.
Import Models StateMachine Adapter Storage Policy PeerTransport Peer Process.

(** ** Programs that agree up to a map of their states *)

Definition agree {S S' A} (f : S → S') (m : PyM S A) (m' : PyM S' A) : Prop :=
  ∀ s, m' (f s) = ((m s).1, f (m s).2).

Section Agree.
Context {S S' : Type} (f : S → S').

Lemma agree_ret {A} (a : A) : agree f (mret a) (mret a).
Proof. done. Qed.
Lemma agree_raise {A} c msg : agree f (raise c msg : PyM S A) (raise c msg).
Proof. done. Qed.
Lemma agree_lift {A} (o : outcome A) : agree f (lift o) (lift o).
Proof. done. Qed.
Lemma agree_raise_if b c msg : agree f (raise_if b c msg) (raise_if b c msg).
Proof. by destruct b. Qed.
Lemma agree_gets {A} (g : S → A) (g' : S' → A) : (∀ s, g' (f s) = g s) → agree f (gets g) (gets g').
Proof. intros Hg s. unfold gets. by rewrite Hg. Qed.
Lemma agree_modify u u' : (∀ s, u' (f s) = f (u s)) → agree f (modify u) (modify u').
Proof. intros Hu s. unfold modify. by rewrite Hu. Qed.
Lemma agree_bind {A B} (m : PyM S A) m' (k : A → PyM S B) k' :
  agree f m m' → (∀ a, agree f (k a) (k' a)) → agree f (m ≫= k) (m' ≫= k').
Proof.
  intros Hm Hk s. unfold mbind, py_bind. rewrite (Hm s). destruct (m s) as [[a|e] s1]; [apply Hk|done].
Qed.
Lemma agree_try {A} (m : PyM S A) m' h h' :
  agree f m m' →
  (∀ e, match h e, h' e with
        | Some k, Some k' => agree f k k'
        | None, None => True
        | _, _ => False
        end) →
  agree f (try_except m h) (try_except m' h').
Proof.
  intros Hm Hh s. unfold try_except. rewrite (Hm s). destruct (m s) as [[a|e] s1]; [done|]. cbn [fst snd].
  specialize (Hh e). by destruct (h e), (h' e).
Qed.
Lemma agree_finally {A} (m : PyM S A) m' k k' :
  agree f m m' → agree f k k' → agree f (try_finally m k) (try_finally m' k').
Proof.
  intros Hm Hk s. unfold try_finally. rewrite (Hm s). destruct (m s) as [o s1]. cbn [fst snd].
  rewrite (Hk s1). by destruct (k s1) as [[[]|e] s2].
Qed.
Lemma agree_for {A} (l : list A) body body' :
  (∀ a, agree f (body a) (body' a)) → agree f (py_for l body) (py_for l body').
Proof.
  intros Hb. induction l as [|a l IH]; cbn [py_for]; [apply agree_ret|].
  apply agree_bind; [apply Hb|done].
Qed.
End Agree.

(** A part of the state that the map does not change, or changes alone. *)
Lemma agree_zoom {S S' T T' A} (f : S → S') (g : T → T') get get' set set' (m : PyM T A) m' :
  agree g m m' → (∀ s, get' (f s) = g (get s)) → (∀ t s, set' (g t) (f s) = f (set t s)) →
  agree f (zoom get set m) (zoom get' set' m').
Proof.
  intros Hm Hget Hset s. unfold zoom. rewrite Hget, (Hm (get s)).
  destruct (m (get s)) as [o t]. cbn. by rewrite Hset.
Qed.
Lemma agree_id {S A} (m : PyM S A) : agree (λ s, s) m m.
Proof. intros s. by destruct (m s). Qed.

Create HintDb agreement.
#[export] Hint Resolve agree_ret agree_raise agree_lift agree_raise_if : agreement.
#[export] Hint Extern 1 (agree _ (gets _) (gets _)) => apply agree_gets; reflexivity : agreement.
#[export] Hint Extern 1 (agree _ (modify _) (modify _)) => apply agree_modify; reflexivity : agreement.

(** Walk through two programs of the same text. *)
Ltac agree_step :=
  lazymatch goal with
  | |- ∀ _, _ => intros ?
  | |- agree _ (mbind _ _) (mbind _ _) => apply agree_bind
  | |- agree _ (try_finally _ _) (try_finally _ _) => apply agree_finally
  | |- agree _ (py_for _ _) (py_for _ _) => apply agree_for
  | |- agree _ (match ?x with _ => _ end) (match ?x with _ => _ end) => destruct x
  | |- agree _ _ _ => solve [auto with agreement]
  end.
Ltac agrees := repeat (agree_step; cbn beta iota zeta).

(** ** Adapters *)

Class AdapterMap {W W' : Type} (A : SettlementAdapter W) (A' : SettlementAdapter W') (f : W → W')
    : Prop := {
  am_rail : @ad_rail W' A' = @ad_rail W A;
  am_prepare ri amount fee : agree f (@ad_prepare W A ri amount fee) (@ad_prepare W' A' ri amount fee);
  am_execute payload hash : agree f (@ad_execute W A payload hash) (@ad_execute W' A' payload hash);
  am_verify_receipt ref amount :
    agree f (@ad_verify_receipt W A ref amount) (@ad_verify_receipt W' A' ref amount);
  am_verify_sender ref amount :
    agree f (@ad_verify_sender_settlement W A ref amount) (@ad_verify_sender_settlement W' A' ref amount);
  am_reconcile payload hash amount :
    agree f (@ad_reconcile_settlement W A payload hash amount) (@ad_reconcile_settlement W' A' payload hash amount)
}.

Section Programs.
Context {h0 : Host} {T W W' : Type} {HT : PeerTransport T}.
Context (A : SettlementAdapter W) (A' : SettlementAdapter W') (f : W → W') {Hf : AdapterMap A A' f}.

(** ** The engine *)

Definition map_engine (s : Orchestrator W) : Orchestrator W' :=
  {| o_world := f (o_world s); o_env := o_env s; o_store := o_store s; o_audit := o_audit s;
     o_intents := o_intents s |}.

Abbreviation ag := (agree map_engine).

Lemma agree_on_world {B} (m : PyM W B) m' : agree f m m' → ag (on_world m) (on_world m').
Proof. intros Hm. by apply (agree_zoom map_engine f). Qed.
Lemma agree_now : ag (now : PyM (Orchestrator W) Z) now.
Proof. apply (agree_zoom map_engine (λ e, e)); [apply agree_id|done..]. Qed.
Lemma agree_store {B} (m : PyM (Env * IdempotencyStore) B) : ag (on_store m) (on_store m).
Proof. apply (agree_zoom map_engine (λ e, e)); [apply agree_id|done|by intros [e st] s]. Qed.
Lemma agree_audit event kwargs : ag (audit event kwargs) (audit event kwargs).
Proof. apply (agree_zoom map_engine (λ e, e)); [apply agree_id|done|by intros [e a] s]. Qed.
Lemma agree_mutate iid g : ag (mutate iid g) (mutate iid g).
Proof. by apply agree_modify. Qed.
Lemma agree_set_intents d : ag (set_intents d) (set_intents d).
Proof. by apply agree_modify. Qed.

#[local] Hint Resolve agree_on_world agree_now agree_store agree_audit agree_mutate agree_set_intents
  am_prepare am_execute am_verify_receipt am_verify_sender am_reconcile : agreement.

Ltac engine_agrees :=
  unfold check_intent_expired, check_quote_expired, validate_recipient, validate_rail, find_by_state,
    require_transition, state, get_intent, get_record; agrees.

Lemma agree_submit allow i : ag (submit allow i) (submit allow i).
Proof. unfold submit. engine_agrees. Qed.
Lemma agree_receive_quote q : ag (receive_quote q) (receive_quote q).
Proof. unfold receive_quote. engine_agrees. Qed.
Lemma agree_approve a : ag (approve a) (approve a).
Proof. unfold approve. engine_agrees. Qed.
Lemma agree_receive_receipt c : ag (receive_receipt (H0 := A) c) (receive_receipt (H0 := A') c).
Proof. unfold receive_receipt. engine_agrees. Qed.
Lemma agree_prepare allow : ag (prepare (H0 := A) allow) (prepare (H0 := A') allow).
Proof.
  unfold prepare. rewrite (am_rail (A := A) (A' := A') (f := f)). engine_agrees.
  apply agree_try; [auto with agreement|]. intros e. destruct (isinstance_exn _ _); auto with agreement.
Qed.
Lemma agree_execute : ag (execute (H0 := A)) (execute (H0 := A')).
Proof.
  unfold execute. engine_agrees. apply agree_try; [auto with agreement|]. intros e.
  unfold execution_handler, fail_closed. repeat destruct (isinstance_exn _ _); try done; agrees.
Qed.
Lemma agree_reconcile iid : ag (reconcile_settlement (H0 := A) iid) (reconcile_settlement (H0 := A') iid).
Proof.
  unfold reconcile_settlement. engine_agrees. apply agree_try; [auto with agreement|].
  intros e. auto with agreement.
Qed.

(** ** The peer *)

Definition map_peer (q : HermesPeer T W) : HermesPeer T W' :=
  {| hp_transport := hp_transport q; hp_orchestrator := map_engine (hp_orchestrator q) |}.

Lemma agree_on_transport {B} (m : PyM T B) : agree map_peer (on_transport m) (on_transport m).
Proof. apply (agree_zoom map_peer (λ t, t)); [apply agree_id|done..]. Qed.
Lemma agree_on_orchestrator {B} (m : PyM (Orchestrator W) B) m' :
  ag m m' → agree map_peer (on_orchestrator m) (on_orchestrator m').
Proof. intros Hm. by apply (agree_zoom map_peer map_engine). Qed.

(** ** The process *)

Definition map_process (p : HermesProcess T W) : HermesProcess T W' :=
  {| hr_peer := map_peer (hr_peer p); hr_inbox := hr_inbox p; hr_inbox_ids := hr_inbox_ids p;
     hr_file := hr_file p; hr_faults := hr_faults p; hr_mono := hr_mono p; hr_reads := hr_reads p;
     hr_sleeps := hr_sleeps p |}.

Abbreviation agp := (agree map_process).

Lemma agree_on_peer {B} (m : PyM (HermesPeer T W) B) m' : agree map_peer m m' → agp (on_peer m) (on_peer m').
Proof. intros Hm. by apply (agree_zoom map_process map_peer). Qed.
Lemma agree_on_orch {B} (m : PyM (Orchestrator W) B) m' : ag m m' → agp (on_orch m) (on_orch m').
Proof. intros Hm. by apply agree_on_peer, agree_on_orchestrator. Qed.

#[local] Hint Resolve agree_submit agree_receive_quote agree_approve agree_receive_receipt agree_prepare
  agree_execute agree_reconcile agree_on_transport agree_on_orchestrator agree_on_orch : agreement.

Lemma agree_state iid : ag (state iid) (state iid).
Proof. engine_agrees. Qed.
Lemma agree_get_intent iid : ag (get_intent iid) (get_intent iid).
Proof. engine_agrees. Qed.
#[local] Hint Resolve agree_state agree_get_intent : agreement.

Lemma agree_snapshot : agp snapshot_state snapshot_state.
Proof. unfold snapshot_state, state_save. agrees. Qed.
Lemma agree_note m : agp (note_message m) (note_message m).
Proof. unfold note_message. agrees. Qed.
#[local] Hint Resolve agree_snapshot agree_note : agreement.
Lemma agree_notes l : agp (note_messages l) (note_messages l).
Proof. induction l as [|m l IH]; cbn [note_messages]; agrees. Qed.
Lemma agree_find j : agp (find_inbox_message j) (find_inbox_message j).
Proof. unfold find_inbox_message. agrees. Qed.
#[local] Hint Resolve agree_notes agree_find : agreement.

Lemma agree_recover_one b item : agp (recover_one (H1 := A) b item) (recover_one (H1 := A') b item).
Proof. destruct item as [iid j]. unfold recover_one. agrees. Qed.
Lemma agree_recover_message item : agp (recover_message item) (recover_message item).
Proof. unfold recover_message. agrees. Qed.
#[local] Hint Resolve agree_recover_one agree_recover_message : agreement.

Lemma agree_maybe_recover b : agp (maybe_recover (H1 := A) b) (maybe_recover (H1 := A') b).
Proof. unfold maybe_recover, state_load. agrees. Qed.
#[local] Hint Resolve agree_maybe_recover : agreement.

Lemma agree_loop n started max_wait poll :
  agp (recover_loop (H1 := A) n started max_wait poll) (recover_loop (H1 := A') n started max_wait poll).
Proof. induction n as [|n IH]; cbn [recover_loop]; unfold monotonic, sleep; agrees. Qed.
#[local] Hint Resolve agree_loop agree_on_peer : agreement.

(** ** The commands *)

Variable config : ProcessConfig.

Ltac peer_agrees :=
  unfold peer_receive, submit_intent, accept_intent, publish_quote, accept_quote, publish_receipt, peer_send,
    accept_receipt, require_local_author, require_local_recipient; agrees.
Ltac command := unfold arg, jstate, clock_reading; agrees; try (apply agree_on_peer; peer_agrees).

Lemma agree_status : agp (handle_status config) (handle_status config).
Proof. unfold handle_status. command. Qed.
Lemma agree_receive args : agp (handle_receive args) (handle_receive args).
Proof. unfold handle_receive. command. Qed.
Lemma agree_submit_intent args : agp (handle_submit_intent config args) (handle_submit_intent config args).
Proof. unfold handle_submit_intent. command. Qed.
Lemma agree_accept_intent args : agp (handle_accept_intent config args) (handle_accept_intent config args).
Proof. unfold handle_accept_intent. command. Qed.
Lemma agree_publish_quote args : agp (handle_publish_quote config args) (handle_publish_quote config args).
Proof. unfold handle_publish_quote. command. Qed.
Lemma agree_accept_quote args : agp (handle_accept_quote args) (handle_accept_quote args).
Proof. unfold handle_accept_quote. command. Qed.
Lemma agree_submit_quote_local args : agp (handle_submit_quote_local args) (handle_submit_quote_local args).
Proof. unfold handle_submit_quote_local. command. Qed.
Lemma agree_handle_prepare : agp (handle_prepare (H1 := A)) (handle_prepare (H1 := A')).
Proof. unfold handle_prepare. command. Qed.
Lemma agree_handle_approve args : agp (handle_approve config args) (handle_approve config args).
Proof. unfold handle_approve. command. Qed.
Lemma agree_handle_execute : agp (handle_execute (H1 := A)) (handle_execute (H1 := A')).
Proof. unfold handle_execute. command. Qed.
Lemma agree_publish_receipt args : agp (handle_publish_receipt config args) (handle_publish_receipt config args).
Proof. unfold handle_publish_receipt. command. Qed.
Lemma agree_verify_publish args :
  agp (handle_verify_publish_receipt (H1 := A) config args) (handle_verify_publish_receipt (H1 := A') config args).
Proof.
  unfold handle_verify_publish_receipt, build_verified_receipt. rewrite (am_rail (A := A) (A' := A') (f := f)).
  command.
Qed.
Lemma agree_accept_receipt args :
  agp (handle_accept_receipt (H1 := A) args) (handle_accept_receipt (H1 := A') args).
Proof. unfold handle_accept_receipt. command. Qed.
Lemma agree_recover n args : agp (handle_recover (H1 := A) n args) (handle_recover (H1 := A') n args).
Proof. unfold handle_recover, monotonic. command. Qed.

#[local] Hint Resolve agree_status agree_receive agree_submit_intent agree_accept_intent agree_publish_quote
  agree_accept_quote agree_submit_quote_local agree_handle_prepare agree_handle_approve agree_handle_execute
  agree_publish_receipt agree_verify_publish agree_accept_receipt agree_recover : agreement.

(** Two tables of handlers with the same names. *)
Definition same_handlers (q : string * (list (string * json) → PyM (HermesProcess T W) (option (list (string * json)))))
    (q' : string * (list (string * json) → PyM (HermesProcess T W') (option (list (string * json))))) : Prop :=
  q'.1 = q.1 ∧ ∀ args, agp (q.2 args) (q'.2 args).

Lemma agree_handlers n :
  Forall2 same_handlers (handlers (H1 := A) config n) (handlers (H1 := A') config n).
Proof.
  unfold handlers. repeat (apply Forall2_cons; split); [..|by apply Forall2_nil];
    (split; [done|]); intros args; cbn [snd]; try unfold finished; agrees.
Qed.

Lemma agree_command n c : agp (run_command (H1 := A) config n c) (run_command (H1 := A') config n c).
Proof.
  unfold run_command. induction (agree_handlers n) as [|[k g] [k' g'] l l' [Hk Hg] _ IH]; cbn [dget];
    [apply agree_raise|].
  cbn [fst snd] in *. subst. destruct (String.eqb _ _); [apply Hg|apply IH].
Qed.

Lemma agree_line n line : agp (handle_line (H1 := A) config n line) (handle_line (H1 := A') config n line).
Proof. pose proof agree_command. unfold handle_line. agrees. Qed.

(** ** Starting *)

Definition map_outcome {B C} (g : B → C) (o : outcome B) : outcome C := g <$> o.

Lemma agree_init clk (t : T) (w : W) e file fl mono :
  process_init config clk t (f w) e file fl mono =
  map_process <$> process_init config clk t w e file fl mono.
Proof.
  unfold process_init, orchestrator_init. destruct (store_load _ _) as [[st|x] e1]; [|done].
  by destruct (audit_load _ e1) as [[a|x] e2].
Qed.

Lemma agree_start clk (t : T) (w : W) e file fl mono :
  process_start (H1 := A') config clk t (f w) e file fl mono =
  map_process <$> process_start (H1 := A) config clk t w e file fl mono.
Proof.
  unfold process_start. rewrite agree_init.
  destruct (process_init config clk t w e file fl mono) as [p|x]; [|done]. cbn [fmap outcome_fmap mbind outcome_bind].
  rewrite (agree_maybe_recover true p). by destruct (maybe_recover (H1 := A) true p) as [[[]|x] p1].
Qed.
End Programs.

(** ** Composition *)

Lemma agree_compose {S1 S2 S3 B} (f : S1 → S2) (g : S2 → S3) (m1 : PyM S1 B) m2 m3 :
  agree f m1 m2 → agree g m2 m3 → agree (λ s, g (f s)) m1 m3.
Proof. intros H12 H23 s. rewrite H23, H12. done. Qed.

Lemma adapter_map_compose {W1 W2 W3} (A1 : SettlementAdapter W1) (A2 : SettlementAdapter W2)
    (A3 : SettlementAdapter W3) (f : W1 → W2) (g : W2 → W3) :
  AdapterMap A1 A2 f → AdapterMap A2 A3 g → AdapterMap A1 A3 (λ w, g (f w)).
Proof.
  intros [r1 p1 e1 v1 s1 c1] [r2 p2 e2 v2 s2 c2].
  split; [congruence|intros; eapply agree_compose; eauto..].
Qed.
