(* ===== verification/ProcessFacts.v ===== *)
(** * Reading commands and snapshots back

    A command survives its text, and a record survives the snapshot document:
    restoring the sorted dump of a record gives the record, and nothing else is
    ever accepted for it. *)

From S2P Require Import Prelude.
From S2P Require Import Json.
From S2P Require Import JsonText.
From S2P Require Import JsonFacts.
From S2P Require Import PyLib.
From S2P Require Import Models.
From S2P Require Import ModelsFacts.
From S2P Require Import StateMachine.
From S2P Require Import StateMachineFacts.
From S2P Require Import Adapter.
From S2P Require Import Storage.
From S2P Require Import Policy.
From S2P Require Import PeerTransport.
From S2P Require Import Process.
Import Models StateMachine Adapter Storage Policy PeerTransport Process.

(** ** Commands *)

Lemma filter_all {A} (f : A → bool) l : (∀ x, x ∈ l → f x = true) → List.filter f l = l.
Proof.
  induction l as [|x l IH]; cbn; [done|]. intros Hf. rewrite Hf by (by left).
  f_equal. apply IH. intros y Hy. apply Hf. by right.
Qed.

Lemma filter_insert_item {A} (f : string * A → bool) p d :
  f p = false → List.filter f (insert_item p d) = List.filter f d.
Proof.
  intros Hp. induction d as [|q d IH]; cbn; [by rewrite Hp|].
  case_match; cbn; [by rewrite Hp|]. by rewrite IH.
Qed.

Lemma sort_items_cons {A} (p : string * A) d : sort_items (p :: d) = insert_item p (sort_items d).
Proof. done. Qed.

(** [{**d, **d'}] of disjoint dictionaries. *)
Lemma dict_merge_app d d' :
  NoDup (dkeys d') → (∀ k, k ∈ dkeys d → k ∉ dkeys d') → dict_merge d d' = (d ++ d')%list.
Proof.
  unfold dict_merge. revert d. induction d' as [|[k v] d' IH]; intros d Hnd Hdis; cbn;
    [by rewrite app_nil_r|].
  unfold dkeys in Hnd. apply NoDup_cons in Hnd as [Hk Hnd].
  assert (k ∉ dkeys d) as Hkd.
  { intros Hin. apply (Hdis k Hin). unfold dkeys. csimpl. by left. }
  rewrite dset_fresh by done. rewrite IH.
  - by rewrite <- app_assoc.
  - done.
  - intros k'. unfold dkeys. rewrite fmap_app, elem_of_app. csimpl.
    intros [Hin|Hin%list_elem_of_singleton].
    + intros Hin'. apply (Hdis k' Hin). unfold dkeys. csimpl. by right.
    + by subst.
Qed.

Definition sort_args (d : list (string * json)) : list (string * json) :=
  sort_items (map (λ p, (p.1, sort_json p.2)) d).

(** The invariant of a parsed command: its name is known, its arguments do not
    hold the name. *)
Definition command_ok (c : JsonlCommand) : Prop :=
  jc_name c ∈ KNOWN_COMMANDS ∧ "command" ∉ dkeys (jc_arguments c).

Lemma parse_command_ok `{Host} line c : parse_command line = Ok c → command_ok c.
Proof.
  unfold parse_command. destruct (loads line) as [[| | | | | |data]|]; try done.
  destruct (jget data "command" JNull); try done.
  destruct (String.eqb_spec s ""); [done|].
  destruct (bool_decide _) eqn:Hk; cbn [negb]; [|done]. intros [= <-]. split; cbn.
  - by apply bool_decide_eq_true in Hk.
  - unfold dkeys. intros ((k & v) & Heq & Hin)%list_elem_of_fmap.
    apply list_elem_of_In, List.filter_In in Hin as [_ Hin]. cbn in *. by subst.
Qed.

Lemma known_ascii name :
  name ∈ KNOWN_COMMANDS → name ≠ "" ∧ str_ok jsonl_opts name = true.
Proof.
  intros Hin. assert (Forall (λ n, n ≠ "" ∧ str_ok jsonl_opts n = true) KNOWN_COMMANDS) as Hall.
  { repeat constructor; try done; by vm_compute. }
  rewrite Forall_forall in Hall. by apply Hall.
Qed.

Lemma parse_to_json `{Host} (c : JsonlCommand) :
  command_ok c → wf_json jsonl_opts (JObj (jc_arguments c)) = true →
  parse_command (to_json c) = Ok {| jc_name := jc_name c; jc_arguments := sort_args (jc_arguments c) |}.
Proof.
  destruct c as [name args]. intros [Hknown Hargs] Hwf. cbn [jc_name jc_arguments] in *.
  destruct (known_ascii name Hknown) as [Hne Hstr].
  assert (NoDup (dkeys args)) as Hnd by (by eapply wf_NoDup).
  unfold parse_command, to_json. cbn [jc_name jc_arguments].
  rewrite dict_merge_app; [|done|].
  2: { intros k Hk. unfold dkeys in Hk at 1. apply list_elem_of_singleton in Hk as ->. exact Hargs. }
  cbn [app]. rewrite loads_dumps.
  - unfold sorted_if. cbn [sort_keys jsonl_opts sort_json map fst snd].
    assert (jget (sort_items (map (λ p, (p.1, sort_json p.2)) (("command", JStr name) :: args)))
              "command" JNull = JStr name) as Hget.
    { unfold jget. rewrite dget_sorted; [done|]. unfold dkeys. csimpl. by constructor. }
    cbn [map fst snd sort_json] in Hget. rewrite Hget.
    destruct (String.eqb_spec name ""); [done|]. rewrite bool_decide_eq_true_2 by done. cbn [negb].
    do 2 f_equal. rewrite sort_items_cons, filter_insert_item by done. apply filter_all.
    intros p Hp. unfold sort_args in Hp. rewrite sort_items_perm in Hp. apply list_elem_of_fmap in Hp as (q & -> & Hq).
    cbn. apply negb_true_iff, String.eqb_neq. intros Heq. apply Hargs. rewrite <- Heq.
    unfold dkeys. by apply list_elem_of_fmap_2.
  - cbn [wf_json] in Hwf |- *. apply andb_true_iff in Hwf as [_ Hwf]. cbn [forallb fst snd wf_json].
    rewrite Hstr, Hwf. rewrite bool_decide_eq_true_2; [done|]. unfold dkeys. csimpl. by constructor.
Qed.

(** ** Display prefixes *)

Lemma points_app l1 l2 :
  List.filter (λ c, negb (is_cont c)) (l1 ++ l2) =
  (List.filter (λ c, negb (is_cont c)) l1 ++ List.filter (λ c, negb (is_cont c)) l2)%list.
Proof. apply List.filter_app. Qed.

Lemma py_len_app s t : py_len (s +:+ t) = py_len s + py_len t.
Proof. unfold py_len. rewrite chars_app, points_app, length_app. lia. Qed.

Lemma take_points_prefix n l : ∃ r, l = (take_points n l ++ r)%list.
Proof.
  revert n. induction l as [|c l IH]; intros n; cbn; [by exists []|].
  destruct (is_cont c).
  - destruct (IH n) as [r Hr]. exists r. cbn. by f_equal.
  - destruct n as [|n]; [by exists (c :: l)|]. destruct (IH n) as [r Hr]. exists r. cbn. by f_equal.
Qed.

Lemma take_points_length n l :
  List.length (List.filter (λ c, negb (is_cont c)) (take_points n l)) =
  Nat.min n (List.length (List.filter (λ c, negb (is_cont c)) l)).
Proof.
  revert n. induction l as [|c l IH]; intros n; cbn; [by destruct n|].
  destruct (is_cont c) eqn:Hc; cbn; rewrite ?Hc; cbn; [by rewrite IH|].
  destruct n; cbn; rewrite ?Hc; cbn; [done|]. by rewrite IH.
Qed.

Lemma py_len_take n s : py_len (py_take n s) = Z.min (Z.of_nat n) (py_len s).
Proof. unfold py_len, py_take. rewrite chars_of_chars, take_points_length. lia. Qed.

Lemma py_take_prefix n s : ∃ r, s = py_take n s +:+ r.
Proof.
  destruct (take_points_prefix n (chars s)) as [r Hr]. exists (of_chars r).
  apply chars_inj. unfold py_take. rewrite chars_app, !chars_of_chars. exact Hr.
Qed.

(** ** The default paths of a configuration *)

Lemma path_str_set p : path_str p ≠ "".
Proof. unfold path_str. by destruct (_ ++ _)%list. Qed.

Lemma path_join_set p name : path_join p name ≠ "".
Proof.
  unfold path_join. case_bool_decide; [|apply path_str_set].
  intros Heq. by destruct (path_str p) eqn:E; [apply path_str_set in E|].
Qed.

(** A configuration the validators accept. *)
Definition configured (config : ProcessConfig) : Prop :=
  ∃ role identity channel root network bin audit_path store_path approver,
    process_config role identity channel root network bin audit_path store_path approver = Ok config.

Lemma configured_store config : configured config → cf_store_path config ≠ "".
Proof.
  intros (role & identity & channel & root & network & bin & ap & sp & approver & Hc).
  unfold process_config in Hc. destruct (_ && _); [|done]. injection Hc as <-. cbn.
  destruct sp; [apply path_str_set|apply path_join_set].
Qed.

(** ** Members of a sorted object *)

Lemma subscript_sorted `{Host} d k :
  NoDup (dkeys d) → subscript (sort_json (JObj d)) k = of_opt CKeyError k (sort_json <$> dget d k).
Proof. intros Hnd. cbn [sort_json subscript]. by rewrite dget_sorted. Qed.

Lemma jget_sorted d k dflt :
  NoDup (dkeys d) →
  jget (sort_args d) k dflt = match dget d k with Some j => sort_json j | None => dflt end.
Proof. intros Hnd. unfold jget, sort_args. rewrite dget_sorted by done. by destruct (dget d k). Qed.

Lemma truthy_sorted d : d ≠ [] → truthy (JObj (sort_args d)) = true.
Proof.
  intros Hd. unfold truthy, sort_args. destruct (sort_items _) as [|p l] eqn:E; [|done].
  pose proof (Permutation_length (sort_items_perm (map (λ p, (p.1, sort_json p.2)) d))) as Hl.
  rewrite E, length_map in Hl. by destruct d.
Qed.

Lemma as_dict_sorted d : as_dict (sort_json (JObj d)) = Some (sort_args d).
Proof. done. Qed.

(** ** Restoring what was dumped *)

Section Restoring.
Context {h : Host} {hl : HostLaws h}.

Lemma restore_model {M} `{BaseModel M} {hv : Validated M} name (m : M) :
  (model_ok m = true → validated name model_validate (sort_json (dump_model m)) = Ok m) ∧
  (∀ m', validated name model_validate (sort_json (dump_model m)) = Ok m' → m' = m).
Proof.
  assert (NoDup (dkeys (model_dump m))) as Hnd by (eapply wf_NoDup, dump_wf).
  assert (dict_like sort_json (sort_args (model_dump m)) m) as Hd.
  { intros k. unfold sort_args. by rewrite dget_sorted. }
  unfold validated, dump_model. cbn [sort_json]. fold (sort_args (model_dump m)). split.
  - intros Hok. erewrite model_validate_like; [done|by right|done|done].
  - intros m' Hv%of_opt_Ok. eapply model_validate_inv; [by right|done|done].
Qed.

(** A member restored when it is there. *)
Lemma when_set_inv {A} d k (dump : A → json) (restore : json → outcome A) (o : option A) o' :
  jget d k JNull = sort_json (jopt dump o) → (∀ a, truthy (sort_json (dump a)) = true) →
  (∀ a a', restore (sort_json (dump a)) = Ok a' → a' = a) →
  when_set d k restore = Ok o' → o' = o.
Proof.
  intros Hd Ht Hr. unfold when_set. rewrite Hd. destruct o as [a|]; cbn [jopt sort_json truthy].
  - rewrite Ht. destruct (restore _) eqn:E; [|done]. intros [= <-]. f_equal. by apply Hr.
  - by intros [= <-].
Qed.

Lemma when_set_ok {A} d k (dump : A → json) (restore : json → outcome A) (o : option A) :
  jget d k JNull = sort_json (jopt dump o) → (∀ a, truthy (sort_json (dump a)) = true) →
  (∀ a, o = Some a → restore (sort_json (dump a)) = Ok a) →
  when_set d k restore = Ok o.
Proof.
  intros Hd Ht Hr. unfold when_set. rewrite Hd. destruct o as [a|]; cbn [jopt sort_json truthy]; [|done].
  rewrite Ht. by rewrite (Hr a eq_refl).
Qed.

Lemma dump_model_truthy {M} `{BaseModel M} {hv : Validated M} (m : M) : truthy (sort_json (dump_model m)) = true.
Proof.
  apply truthy_sorted. intros Hnil. pose proof (dump_id m) as Hid. by rewrite Hnil in Hid.
Qed.

Lemma restore_dump_prepared k p : restore_prepared k (sort_json (dump_prepared p)) = Ok p.
Proof.
  unfold restore_prepared, dump_prepared. rewrite !subscript_sorted by decide_now.
  cbn -[py_b64encode py_b64decode]. rewrite py_b64_roundtrip. cbn. by destruct p as [? ? [] ?].
Qed.

Lemma restore_dump_reconciliation k c :
  restore_reconciliation k (sort_json (dump_reconciliation c)) = Ok c.
Proof.
  unfold restore_reconciliation, dump_reconciliation.
  rewrite subscript_sorted, as_dict_sorted by decide_now. unfold when_set.
  cbn [from_option id]. rewrite !jget_sorted by decide_now.
  by destruct c as [? ? ? ? [[]|] ? [?|]].
Qed.

Lemma state_of_state_value st : state_of_value (state_value st) = Some st.
Proof. by destruct st. Qed.

Definition record_fields (r : IntentRecord) : list (string * json) :=
  match dump_record r with JObj d => d | _ => [] end.

Lemma dump_record_fields r : dump_record r = JObj (record_fields r).
Proof. done. Qed.

Lemma record_fields_NoDup r : NoDup (dkeys (record_fields r)).
Proof. decide_now. Qed.

(** What a restart makes of a record: the deadlines are read again. *)
Definition restored (r : IntentRecord) : IntentRecord :=
  {| ir_intent := ir_intent r; ir_state := ir_state r; ir_quote := ir_quote r;
     ir_prepared := ir_prepared r; ir_approval := ir_approval r; ir_receipt := ir_receipt r;
     ir_reconciliation := ir_reconciliation r;
     ir_quote_expires_at := match ir_quote r with Some q => pq_expires_at q | None => 0 end;
     ir_expires_at := pi_expires_at (ir_intent r) |}.

Definition opt_ok {M} `{BaseModel M} (o : option M) : Prop := ∀ m, o = Some m → model_ok m = true.

(** Every message of the record satisfies its class's constraints. *)
Definition record_valid (r : IntentRecord) : Prop :=
  model_ok (ir_intent r) = true ∧ opt_ok (ir_quote r) ∧ opt_ok (ir_approval r) ∧ opt_ok (ir_receipt r).

Lemma restore_expires i :
  py_int (jget (default [] (as_dict (sort_json (dump_model i)))) "expires_at" (JInt 0)) =
  Ok (pi_expires_at i).
Proof.
  unfold dump_model. rewrite as_dict_sorted. cbn [from_option id]. rewrite jget_sorted; [done|].
  eapply wf_NoDup, dump_wf.
Qed.

Lemma restore_dump_record k r :
  record_valid r → restore_record k (sort_args (record_fields r)) = Ok (restored r).
Proof.
  intros (Hi & Hq & Ha & Hc). unfold restore_record.
  assert (∀ key, jget (sort_args (record_fields r)) key JNull =
            match dget (record_fields r) key with Some j => sort_json j | None => JNull end) as Hget.
  { intros key. apply jget_sorted, record_fields_NoDup. }
  rewrite !Hget. change (dget (record_fields r) "intent") with (Some (dump_model (ir_intent r))).
  cbn iota. assert (validated "PaymentIntent" validate_intent (sort_json (dump_model (ir_intent r))) =
          Ok (ir_intent r)) as -> by exact (proj1 (restore_model "PaymentIntent" (ir_intent r)) Hi).
  cbn beta iota. cbn [mbind outcome_bind].
  change (JObj (sort_args (record_fields r))) with (sort_json (JObj (record_fields r))).
  rewrite subscript_sorted by apply record_fields_NoDup.
  change (dget (record_fields r) "state") with (Some (JStr (state_value (ir_state r)))).
  cbn [fmap option_fmap option_map of_opt outcome_bind sort_json as_str mbind option_bind].
  rewrite state_of_state_value. cbn [of_opt mbind outcome_bind].
  rewrite restore_expires. cbn [mbind outcome_bind].
  rewrite (when_set_ok _ "quote" dump_model _ (ir_quote r) (Hget "quote") dump_model_truthy)
    by (intros q Hq'; exact (proj1 (restore_model "PaymentQuote" q) (Hq q Hq'))).
  cbn [mbind outcome_bind].
  rewrite (when_set_ok _ "prepared" dump_prepared _ (ir_prepared r) (Hget "prepared"))
    by (intros; (reflexivity || apply restore_dump_prepared)).
  cbn [mbind outcome_bind].
  rewrite (when_set_ok _ "approval" dump_model _ (ir_approval r) (Hget "approval") dump_model_truthy)
    by (intros a Ha'; exact (proj1 (restore_model "PaymentApproval" a) (Ha a Ha'))).
  cbn [mbind outcome_bind].
  rewrite (when_set_ok _ "receipt" dump_model _ (ir_receipt r) (Hget "receipt") dump_model_truthy)
    by (intros c Hc'; exact (proj1 (restore_model "PaymentReceipt" c) (Hc c Hc'))).
  cbn [mbind outcome_bind].
  rewrite (when_set_ok _ "reconciliation" dump_reconciliation _ (ir_reconciliation r)
             (Hget "reconciliation"))
    by (intros; (reflexivity || apply restore_dump_reconciliation)).
  done.
Qed.

(** Nothing else is restored from the dump of a record. *)
Lemma restore_record_inv k r r' :
  restore_record k (sort_args (record_fields r)) = Ok r' → r' = restored r.
Proof.
  unfold restore_record.
  assert (∀ key, jget (sort_args (record_fields r)) key JNull =
            match dget (record_fields r) key with Some j => sort_json j | None => JNull end) as Hget.
  { intros key. apply jget_sorted, record_fields_NoDup. }
  rewrite !Hget. change (dget (record_fields r) "intent") with (Some (dump_model (ir_intent r))).
  change (JObj (sort_args (record_fields r))) with (sort_json (JObj (record_fields r))).
  rewrite subscript_sorted by apply record_fields_NoDup.
  change (dget (record_fields r) "state") with (Some (JStr (state_value (ir_state r)))).
  cbn [fmap option_fmap option_map of_opt outcome_bind sort_json as_str mbind option_bind].
  rewrite state_of_state_value, restore_expires. intros Hr. bind_inv Hr.
  repeat match goal with
  | Hv : validated _ _ _ = Ok _ |- _ => pose proof (proj2 (restore_model "PaymentIntent" (ir_intent r)) _ Hv); clear Hv
  | Hv : when_set _ "quote" _ = Ok _ |- _ =>
      apply (when_set_inv _ _ dump_model _ _ _ (Hget "quote") dump_model_truthy) in Hv;
        [|intros m; exact (proj2 (restore_model "PaymentQuote" m))]
  | Hv : when_set _ "approval" _ = Ok _ |- _ =>
      apply (when_set_inv _ _ dump_model _ _ _ (Hget "approval") dump_model_truthy) in Hv;
        [|intros m; exact (proj2 (restore_model "PaymentApproval" m))]
  | Hv : when_set _ "receipt" _ = Ok _ |- _ =>
      apply (when_set_inv _ _ dump_model _ _ _ (Hget "receipt") dump_model_truthy) in Hv;
        [|intros m; exact (proj2 (restore_model "PaymentReceipt" m))]
  | Hv : when_set _ "prepared" _ = Ok _ |- _ =>
      apply (when_set_inv _ _ dump_prepared _ _ _ (Hget "prepared") (λ _, eq_refl)) in Hv;
        [|intros ? ?; rewrite restore_dump_prepared; by intros [= <-]]
  | Hv : when_set _ "reconciliation" _ = Ok _ |- _ =>
      apply (when_set_inv _ _ dump_reconciliation _ _ _ (Hget "reconciliation") (λ _, eq_refl)) in Hv;
        [|intros ? ?; rewrite restore_dump_reconciliation; by intros [= <-]]
  end.
  cbn [of_opt] in *. simplify_eq. done.
Qed.
(** ** The snapshot document *)

Definition snapshot_records (src : list (string * IntentRecord)) : list (string * json) := (λ q, (q.1, dump_record q.2)) <$> src.

Lemma snapshot_get src inbox :
  jget (sort_args [("version", JInt 3); ("records", JObj (snapshot_records src));
                   ("inbox", JList (dump_peer_message <$> inbox))]) "records"
    (sort_json (snapshot_json src inbox)) = JObj (sort_args (snapshot_records src)) ∧
  jget (sort_args [("version", JInt 3); ("records", JObj (snapshot_records src));
                   ("inbox", JList (dump_peer_message <$> inbox))]) "inbox" (JList [])
    = JList (map sort_json (dump_peer_message <$> inbox)).
Proof. split; rewrite jget_sorted by decide_now; done. Qed.

Lemma maybe_recover_doc `{SettlementAdapter W} {T} src inbox reconcile (p : HermesProcess T W) :
  hr_file p = Doc (sort_json (snapshot_json src inbox)) →
  maybe_recover reconcile p =
  (py_for (sort_args (snapshot_records src)) (recover_one reconcile) ;;
   py_for (map sort_json (dump_peer_message <$> inbox)) recover_message ;;
   if truthy (JObj (sort_args (snapshot_records src))) then snapshot_state else mret tt) p.
Proof.
  intros Hf. unfold maybe_recover, state_load. unfold mbind at 1, py_bind at 1.
  unfold mbind at 1, py_bind at 1, gets at 1. rewrite Hf. cbn [mret py_ret].
  unfold snapshot_json at 1. cbn [sort_json]. fold (snapshot_records src).
  match goal with |- context [jget ?d "records" ?j] =>
    change (jget d "records" j) with (jget (sort_args [("version", JInt 3);
      ("records", JObj (snapshot_records src)); ("inbox", JList (dump_peer_message <$> inbox))])
      "records" (sort_json (snapshot_json src inbox))) end.
  rewrite (proj1 (snapshot_get src inbox)).
  match goal with |- context [jget ?d "inbox" ?j] =>
    change (jget d "inbox" j) with (jget (sort_args [("version", JInt 3);
      ("records", JObj (snapshot_records src)); ("inbox", JList (dump_peer_message <$> inbox))])
      "inbox" (JList [])) end.
  by rewrite (proj2 (snapshot_get src inbox)).
Qed.
End Restoring.
