(* ===== verification/ProcessInv.v ===== *)
(** * The process keeps the invariant of the engine

    A process in front of an engine whose dispatches are logged: every command
    and every restart on current files keeps the invariant of [PolicyFacts.v],
    so what holds of the engine holds across restarts that restore records. *)

From S2P Require Import Prelude.
From S2P Require Import Json.
From S2P Require Import JsonText.
From S2P Require Import JsonFacts.
From S2P Require Import Models.
From S2P Require Import ModelsFacts.
From S2P Require Import StateMachine.
From S2P Require Import Adapter.
From S2P Require Import Storage.
From S2P Require Import StorageFacts.
From S2P Require Import Policy.
From S2P Require Import PolicyFacts.
From S2P Require Import PolicyInv.
From S2P Require Import PeerTransport.
From S2P Require Import Peer.
From S2P Require Import Process.
From S2P Require Import ProcessFacts.
Import Models StateMachine Adapter Storage Policy PeerTransport Peer Process.

(** ** Computations that keep a property of the state *)

Section Keeping.
Context {S : Type} (I : S → Prop).

Definition stays {A} (m : PyM S A) : Prop := ∀ s, I s → I (m s).2.

Lemma stays_ret {A} (a : A) : stays (mret a).
Proof. by intros s. Qed.
Lemma stays_raise {A} c msg : stays (raise c msg : PyM S A).
Proof. by intros s. Qed.
Lemma stays_raise_if b c msg : stays (raise_if b c msg).
Proof. intros s. unfold raise_if. by destruct b. Qed.
Lemma stays_lift {A} (o : outcome A) : stays (lift o).
Proof. by intros s. Qed.
Lemma stays_gets {A} (f : S → A) : stays (gets f).
Proof. by intros s. Qed.
Lemma stays_modify f : (∀ s, I s → I (f s)) → stays (modify f).
Proof. intros Hf s. apply Hf. Qed.
Lemma stays_bind {A B} (m : PyM S A) (k : A → PyM S B) :
  stays m → (∀ a, stays (k a)) → stays (m ≫= k).
Proof.
  intros Hm Hk s Hs. unfold mbind, py_bind. specialize (Hm s Hs).
  destruct (m s) as [[a|e] s']; [by apply Hk|done].
Qed.
Lemma stays_try_except {A} (m : PyM S A) (f : exn → option (PyM S A)) :
  stays m → (∀ e k, f e = Some k → stays k) → stays (try_except m f).
Proof.
  intros Hm Hf s Hs. unfold try_except. specialize (Hm s Hs).
  destruct (m s) as [[a|e] s']; [done|]. destruct (f e) eqn:E; [by eapply Hf|done].
Qed.
Lemma stays_try_finally {A} (m : PyM S A) f : stays m → stays f → stays (try_finally m f).
Proof.
  intros Hm Hf s Hs. unfold try_finally. specialize (Hm s Hs). destruct (m s) as [o s'].
  specialize (Hf s' Hm). by destruct (f s') as [[[]|e] s''].
Qed.
Lemma stays_py_for {A} (l : list A) body : (∀ a, stays (body a)) → stays (py_for l body).
Proof.
  intros Hb. induction l as [|a l IH]; cbn; [apply stays_ret|]. apply stays_bind; [apply Hb|done].
Qed.
Lemma stays_py_for_in {A} (l : list A) body : (∀ a, a ∈ l → stays (body a)) → stays (py_for l body).
Proof.
  induction l as [|a l IH]; intros Hb; cbn; [apply stays_ret|].
  apply stays_bind; [apply Hb; by left|]. intros _. apply IH. intros b Hin. apply Hb. by right.
Qed.
(** The continuation may use what is known of the value. *)
Lemma stays_bind_with {A B} (Q : A → Prop) (m : PyM S A) (k : A → PyM S B) :
  stays m → (∀ s a, (m s).1 = Ok a → Q a) → (∀ a, Q a → stays (k a)) → stays (m ≫= k).
Proof.
  intros Hm HQ Hk s Hs. unfold mbind, py_bind. specialize (Hm s Hs).
  destruct (m s) as [[a|e] s'] eqn:E; [|done]. apply Hk; [|done].
  apply (HQ s). by rewrite E.
Qed.
Lemma stays_zoom {T A} get set (m : PyM T A) :
  (∀ s, I s → I (set (m (get s)).2 s)) → stays (zoom get set m).
Proof. intros Hm s Hs. unfold zoom. specialize (Hm s Hs). by destruct (m (get s)). Qed.
End Keeping.

Lemma stays_and {S A} (I J : S → Prop) (m : PyM S A) :
  stays I m → stays J m → stays (λ s, I s ∧ J s) m.
Proof. intros Hi Hj s [? ?]. split; auto. Qed.

Create HintDb keeping.
#[export] Hint Resolve stays_ret stays_raise stays_raise_if stays_lift stays_gets : keeping.

(** Walk through a program; the leaves are in the hint database or left over. *)
Ltac keep_step :=
  lazymatch goal with
  | |- ∀ _, stays _ _ => intros ?
  | |- stays _ (mbind _ _) => apply stays_bind
  | |- stays _ (try_finally _ _) => apply stays_try_finally
  | |- stays _ (try_except _ _) => apply stays_try_except
  | |- stays _ (py_for _ _) => apply stays_py_for
  | |- stays _ (match ?x with _ => _ end) => destruct x
  | |- stays _ _ => solve [auto with keeping|eauto with keeping]
  end.
Ltac keep := repeat (keep_step; cbn beta iota zeta).

(** ** What the commands need of an invariant of the engine *)

Section Process.
Context `{Host} {T W : Type} `{PeerTransport T} (A : SettlementAdapter W).
Variable config : ProcessConfig.

#[local] Existing Instance engine_adapter.
Abbreviation World := (W * list call)%type.
Abbreviation Orch := (Orchestrator World).
Abbreviation Proc := (HermesProcess T World).
Abbreviation P := (PyM Proc).
Abbreviation path := (Some (cf_store_path config)).
Abbreviation SInv := (SInv (W:=W) None None path).
Implicit Types (h : list Execution) (p : Proc) (s : Orch).

(** The operations the commands call, but for [execute]. *)
Class EngineInv (I : Orch → Prop) : Prop := {
  ei_submit i : stays I (submit None i);
  ei_receive_quote q : stays I (receive_quote q);
  ei_prepare : stays I (prepare None);
  ei_approve a : stays I (approve a);
  ei_receive_receipt c : stays I (receive_receipt c);
  ei_reconcile iid : stays I (reconcile_settlement iid);
  ei_now : stays I now;
  ei_audit event kwargs : stays I (audit event kwargs);
  ei_verify_receipt ref amount : stays I (on_world (ad_verify_receipt ref amount))
}.

(** Properties kept by the steps the operations are made of: the engine meets
    the adapter's world only through the adapter's operations. *)
Class EngineClosed (I : Orch → Prop) : Prop := {
  ec_audit event kwargs : stays I (audit event kwargs);
  ec_now : stays I now;
  ec_mutate iid g : stays I (mutate iid g);
  ec_set_intents d : stays I (set_intents d);
  ec_prepare ri amount fee : stays I (on_world (ad_prepare ri amount fee));
  ec_execute payload hash : stays I (on_world (ad_execute payload hash));
  ec_verify_receipt ref amount : stays I (on_world (ad_verify_receipt ref amount));
  ec_verify_sender ref amount : stays I (on_world (ad_verify_sender_settlement ref amount));
  ec_reconcile payload hash amount : stays I (on_world (ad_reconcile_settlement payload hash amount));
  ec_record_intent iid : stays I (on_store (record_intent iid));
  ec_record_approval t : stays I (on_store (record_approval t));
  ec_record_receipt iid ref : stays I (on_store (record_receipt iid ref))
}.

#[local] Hint Resolve ec_audit ec_now ec_mutate ec_set_intents ec_prepare ec_execute ec_verify_receipt
  ec_verify_sender ec_reconcile ec_record_intent
  ec_record_approval ec_record_receipt : keeping.

Ltac operation :=
  unfold check_intent_expired, check_quote_expired, validate_recipient, validate_rail, find_by_state,
    require_transition, get_record; keep.

Lemma closed_engine (I : Orch → Prop) : EngineClosed I → EngineInv I.
Proof.
  intros HI. split.
  - intros i. unfold submit. operation.
  - intros q. unfold receive_quote. operation.
  - unfold prepare. operation. intros e k. destruct (isinstance_exn _ _); [|done]. intros [= <-]. keep.
  - intros a. unfold approve. operation.
  - intros c. unfold receive_receipt. operation.
  - intros iid. unfold reconcile_settlement. operation. intros e k [= <-]. keep.
  - apply ec_now.
  - apply ec_audit.
  - apply ec_verify_receipt.
Qed.

Lemma closed_execute (I : Orch → Prop) : EngineClosed I → stays I execute.
Proof.
  intros HI. unfold execute. operation. intros e k. unfold execution_handler, fail_closed.
  do 2 (destruct (isinstance_exn _ _); [intros [= <-]; keep|]). done.
Qed.

Lemma after_unit {X B} (m : PyM X B) x : ((m ;; mret tt) x).2 = (m x).2.
Proof. unfold mbind, py_bind. by destruct (m x) as [[b|e] x']. Qed.

Lemma keeps_stays h (m : PyM Orch unit) : keeps None None path h m → stays (SInv h) m.
Proof. intros Hm s Hs. exact (Hm s Hs). Qed.
Lemma keeps_stays_unit h {B} (m : PyM Orch B) :
  keeps None None path h (m ;; mret tt) → stays (SInv h) m.
Proof. intros Hm s Hs. rewrite <- after_unit. exact (Hm s Hs). Qed.

(** The invariant of [PolicyFacts.v] is one. *)
#[export] Instance sinv_engine h : EngineInv (SInv h).
Proof.
  split.
  - intros i. apply keeps_stays, submit_keeps.
  - intros q. apply keeps_stays, receive_quote_keeps.
  - apply keeps_stays_unit, prepare_keeps.
  - intros a. apply keeps_stays, approve_keeps.
  - intros c. apply keeps_stays_unit, receive_receipt_keeps.
  - intros iid. apply keeps_stays_unit, reconcile_keeps.
  - intros s Hs. exact Hs.
  - intros event kwargs s Hs. apply (wp_audit event kwargs (λ _ s', SInv h s') s). intros o e a He _.
    unfold PolicyFacts.SInv in *. cbn. by rewrite He.
  - intros ref amount s Hs. apply (wp_inner _ (λ _ s', SInv h s') s). intros w. exact Hs.
Qed.

(** A property of the engine and one of the coming failures of the snapshot. *)
Definition held (I : Orch → Prop) (K : list bool → Prop) p : Prop :=
  I (hr_orchestrator p) ∧ K (hr_faults p).

Definition PInv h p : Prop := SInv h (hr_orchestrator p).

Lemma stays_pinv h {B} (m : P B) : stays (held (SInv h) (λ _, True)) m → stays (PInv h) m.
Proof. intros Hm p Hp. by apply Hm. Qed.

Section Lifting.
Context (I : Orch → Prop) (K : list bool → Prop).
Abbreviation on_engine := (λ q : HermesPeer T World, I (hp_orchestrator q)).

Lemma stays_on_peer {B} (m : PyM (HermesPeer T World) B) :
  stays on_engine m → stays (held I K) (on_peer m).
Proof.
  intros Hm. apply stays_zoom. intros p [Hp Hk]. split; [apply (Hm _ Hp)|exact Hk].
Qed.

Lemma stays_on_orchestrator {B} (m : PyM Orch B) : stays I m → stays on_engine (on_orchestrator m).
Proof.
  intros Hm q Hq. unfold on_orchestrator, zoom. specialize (Hm _ Hq).
  by destruct (m (hp_orchestrator q)).
Qed.

Lemma stays_on_orch {B} (m : PyM Orch B) : stays I m → stays (held I K) (on_orch m).
Proof. intros Hm. by apply stays_on_peer, stays_on_orchestrator. Qed.

Lemma stays_on_transport {B} (m : PyM T B) : stays on_engine (on_transport m).
Proof. intros p Hp. unfold on_transport, zoom. by destruct (m (hp_transport p)). Qed.

Lemma stays_get_record iid : stays I (get_record iid).
Proof. unfold get_record. keep. Qed.
Lemma stays_state iid : stays I (state iid).
Proof. unfold state, get_record. keep. Qed.
Lemma stays_get_intent iid : stays I (get_intent iid).
Proof. unfold get_intent. keep. Qed.
End Lifting.
End Process.

#[export] Hint Resolve stays_on_orch stays_on_peer stays_on_transport stays_on_orchestrator
  stays_get_record stays_state stays_get_intent ei_submit ei_receive_quote ei_prepare ei_approve
  ei_receive_receipt ei_reconcile ei_now ei_audit ei_verify_receipt : keeping.
#[export] Hint Extern 1 (stays _ (modify _)) => apply stays_modify; intros ? Hstays; exact Hstays : keeping.

(** ** The commands other than [execute] and [recover] *)

Section Commands.
Context `{Host} {T W : Type} `{PeerTransport T} (A : SettlementAdapter W).
Variable config : ProcessConfig.

#[local] Existing Instance engine_adapter.
Abbreviation World := (W * list call)%type.
Abbreviation Orch := (Orchestrator World).
Abbreviation Proc := (HermesProcess T World).
Context (I : Orch → Prop) (HI : EngineInv A I).
Context (K : list bool → Prop) (HK : ∀ l, K l → K (tail l)).
Abbreviation holds := (held (T:=T) I K).

Lemma stays_snapshot : stays holds snapshot_state.
Proof.
  unfold snapshot_state, state_save. keep. apply stays_modify. intros p [Hi Hk]. split; [exact Hi|by apply HK].
Qed.
Lemma stays_note_message m : stays holds (note_message m).
Proof. unfold note_message. keep. Qed.
Lemma stays_note_messages l : stays holds (note_messages l).
Proof. induction l as [|m l IH]; cbn [note_messages]; keep; apply stays_note_message. Qed.
Lemma stays_find_inbox j : stays holds (find_inbox_message j).
Proof. unfold find_inbox_message. keep. Qed.

#[local] Hint Resolve stays_note_message stays_note_messages stays_find_inbox : keeping.

Ltac handler :=
  unfold arg, jstate, clock_reading; keep; try (apply stays_on_peer);
  unfold peer_receive, submit_intent, accept_intent, publish_quote, accept_quote,
    publish_receipt, peer_send, accept_receipt, require_local_author, require_local_recipient; keep.

Lemma stays_status : stays holds (handle_status config).
Proof. unfold handle_status. handler. Qed.
Lemma stays_receive args : stays holds (handle_receive args).
Proof. unfold handle_receive. handler. Qed.
Lemma stays_submit_intent args : stays holds (handle_submit_intent config args).
Proof. unfold handle_submit_intent. handler. Qed.
Lemma stays_accept_intent args : stays holds (handle_accept_intent config args).
Proof. unfold handle_accept_intent. handler. Qed.
Lemma stays_publish_quote args : stays holds (handle_publish_quote config args).
Proof. unfold handle_publish_quote. handler. Qed.
Lemma stays_accept_quote args : stays holds (handle_accept_quote args).
Proof. unfold handle_accept_quote. handler. Qed.
Lemma stays_submit_quote_local args : stays holds (handle_submit_quote_local args).
Proof. unfold handle_submit_quote_local. handler. Qed.
Lemma stays_handle_prepare : stays holds handle_prepare.
Proof. unfold handle_prepare. handler. Qed.
Lemma stays_handle_approve args : stays holds (handle_approve config args).
Proof. unfold handle_approve. handler. Qed.
Lemma stays_publish_receipt args : stays holds (handle_publish_receipt config args).
Proof. unfold handle_publish_receipt. handler. Qed.
Lemma stays_verify_publish_receipt args : stays holds (handle_verify_publish_receipt config args).
Proof. unfold handle_verify_publish_receipt. handler. Qed.
Lemma stays_accept_receipt args : stays holds (handle_accept_receipt args).
Proof. unfold handle_accept_receipt. handler. Qed.

#[local] Hint Resolve stays_status stays_receive stays_submit_intent stays_accept_intent
  stays_publish_quote stays_accept_quote stays_submit_quote_local stays_handle_prepare
  stays_handle_approve stays_publish_receipt stays_verify_publish_receipt stays_accept_receipt
  : keeping.

Lemma stays_command n c :
  jc_name c ≠ "execute" → jc_name c ≠ "recover" → stays holds (run_command config n c).
Proof.
  intros Hne Hnr. unfold run_command.
  assert (Forall (λ q, q.1 = "execute" ∨ q.1 = "recover" ∨ ∀ args, stays holds (q.2 args))
            (handlers config n)) as Hall.
  { unfold handlers. repeat (apply Forall_cons; split); [..|by apply Forall_nil]; cbn [fst snd];
      first [left; reflexivity|right; left; reflexivity|right; right; intros args; unfold finished].
    all: apply stays_bind; [auto with keeping|intros; apply stays_ret]. }
  destruct (dget _ _) as [f|] eqn:Hf; [|apply stays_raise].
  apply dget_Some_elem in Hf. rewrite Forall_forall in Hall.
  destruct (Hall _ Hf) as [|[|Hst]]; [done|done|]. apply Hst.
Qed.
End Commands.

(** ** Recovery *)

Section Recovery.
Context `{h0 : Host} {hl : HostLaws h0} {T W : Type} `{PeerTransport T} (A : SettlementAdapter W).
Variable config : ProcessConfig.

#[local] Existing Instance engine_adapter.
Abbreviation World := (W * list call)%type.
Abbreviation Orch := (Orchestrator World).
Abbreviation Proc := (HermesProcess T World).
Abbreviation P := (PyM Proc).
Abbreviation path := (Some (cf_store_path config)).
Abbreviation Inv := (Inv None None path).
Abbreviation SInv := (SInv (W:=W) None None path).
Abbreviation record_ok := (record_ok None None path).
Abbreviation PInv := (PInv (T:=T) (W:=W) config).
Implicit Types (h : list Execution) (p : Proc) (s : Orch) (f : document) (st : IdempotencyStore)
  (src d : list (string * IntentRecord)) (r : IntentRecord).

(** A record that may be tracked under a key without hiding a dispatch. *)
Definition safe_record h f st iid r : Prop :=
  record_ok f st iid r ∧ (∀ x, x ∈ h → ex_iid x = iid → ir_state r ∈ dispatched_states).

Lemma inv_put h c f st d iid r : Inv h c f st d → safe_record h f st iid r → Inv h c f st (dset d iid r).
Proof.
  intros [Hp Hf Hk Hr Hh Ho Hc] [Hok Hst]. split; try done.
  - by apply dset_NoDup.
  - intros iid2 r2. rewrite dget_dset. case_decide as Heq; [by intros [= <-]; subst|apply Hr].
  - intros x Hx. destruct (Hh x Hx) as ((? & ? & ? & ? & ? & Hex) & ? & ?).
    split; [|done]. split_and!; try done. intros r2. rewrite dget_dset.
    case_decide as Heq; [|apply Hex]. intros [= <-]. by apply (Hst x).
Qed.

Lemma inv_safe h c f st d iid r : Inv h c f st d → dget d iid = Some r → safe_record h f st iid r.
Proof.
  intros Hinv Hd. split; [by apply (inv_records _ _ _ _ _ _ _ _ Hinv)|]. intros x Hx <-.
  destruct (inv_history _ _ _ _ _ _ _ _ Hinv x Hx) as ((_ & _ & _ & _ & _ & Hex) & _). by apply Hex.
Qed.

Lemma safe_restored h f st iid r : safe_record h f st iid r → safe_record h f st iid (restored r).
Proof. done. Qed.

(** EXECUTING becomes RECONCILIATION_REQUIRED. *)
Lemma safe_recovered h f st iid r :
  safe_record h f st iid r → ir_state r = EXECUTING →
  safe_record h f st iid (with_state RECONCILIATION_REQUIRED r).
Proof.
  intros [(Hid & Hin & Hrec & _ & _ & Happ) _] He. split.
  - split_and!; try done; [cbn; decide_now|]. intros _. apply Happ. rewrite He. decide_now.
  - intros x _ _. cbn. decide_now.
Qed.

(** The store and its file stay what they are. *)
Definition files_are f st s : Prop := store_file (o_env s) = f ∧ o_store s = st.

Lemma quiet_audit f st event kwargs : stays (files_are f st) (audit event kwargs : PyM Orch unit).
Proof.
  intros s [Hf Hs]. apply (wp_audit event kwargs (λ _ s', files_are f st s') s). intros o e a He _.
  split; cbn; congruence.
Qed.

Lemma quiet_mutate f st iid g : stays (files_are f st) (mutate iid g : PyM Orch unit).
Proof. by intros s. Qed.

Lemma quiet_world f st {B} (m : PyM World B) : stays (files_are f st) (on_world m).
Proof. intros s Hs. unfold on_world, zoom. by destruct (m (o_world s)). Qed.

#[local] Hint Resolve quiet_audit quiet_mutate quiet_world : keeping.

Lemma quiet_reconcile f st iid : stays (files_are f st) (reconcile_settlement iid : PyM Orch _).
Proof. unfold reconcile_settlement, get_record. keep. intros e k [= <-]. keep. Qed.

(** The state during a recovery. *)
Definition recovering h f st p : Prop := PInv h p ∧ files_are f st (hr_orchestrator p).

Lemma recovering_on_orch h f st {B} (m : PyM Orch B) :
  stays (SInv h) m → stays (files_are f st) m → stays (recovering h f st) (on_orch m).
Proof.
  intros Hi Hj. unfold on_orch, on_peer, on_orchestrator. apply stays_zoom. intros p [Hp Hq].
  unfold recovering, ProcessInv.PInv, hr_orchestrator, zoom in *.
  specialize (Hi _ Hp). specialize (Hj _ Hq). by destruct (m (hp_orchestrator (hr_peer p))).
Qed.

Lemma recovering_put h f st iid r {B} (rest : P B) :
  safe_record h f st iid r → stays (recovering h f st) rest →
  stays (recovering h f st)
    (intents ← on_orch (gets o_intents); on_orch (set_intents (dset intents iid r)) ;; rest).
Proof.
  intros Hsafe Hrest p [Hp [Hf Hs]]. apply Hrest. destruct p as [[t [w e st' a d]] ? ? ? ? ? ? ?].
  cbn in *. subst. split; [|done]. unfold ProcessInv.PInv, PolicyFacts.SInv in *. cbn in *. by apply inv_put.
Qed.

Lemma recover_one_keeps h f st reconcile iid r :
  safe_record h f st iid r →
  stays (recovering h f st) (recover_one reconcile (iid, sort_json (dump_record r))).
Proof.
  intros Hsafe. rewrite dump_record_fields. cbn [sort_json recover_one]. fold (sort_args (record_fields r)).
  case_match; [|apply stays_ret].
  apply (stays_bind_with _ (λ r', r' = restored r)); [apply stays_lift| |].
  { intros s a Ha. by apply (restore_record_inv iid). }
  intros ? ->. apply (stays_bind_with _ (safe_record h f st iid)).
  - case_bool_decide; [|apply stays_ret]. apply stays_bind; [|intros; apply stays_ret].
    apply recovering_on_orch; [apply (ei_audit A)|apply quiet_audit].
  - intros s a. case_bool_decide as He; [|intros [= <-]; by apply safe_restored].
    unfold mbind, py_bind. destruct (on_orch _ s) as [[]]; [|done]. intros [= <-].
    by apply safe_recovered; [apply safe_restored|].
  - intros r' Hr'. apply recovering_put; [done|]. case_match; [|apply stays_ret].
    apply stays_bind; [|intros; apply stays_ret].
    apply recovering_on_orch; [apply (ei_reconcile A)|apply quiet_reconcile].
Qed.
(** The snapshot file holds these records. *)
Definition snapshot_of (file : document) src : Prop :=
  (file = Missing ∧ src = []) ∨ ∃ inbox, file = Doc (sort_json (snapshot_json src inbox)).

(** The store file holds the store. *)
Definition store_saved f st : Prop :=
  file_sets f = Some (st_intents st, st_approvals st) ∨
  (f = Missing ∧ st_intents st = ∅ ∧ st_approvals st = ∅).

(** Both files are current. *)
Definition files_current p : Prop :=
  snapshot_of (hr_file p) (o_intents (hr_orchestrator p)) ∧
  store_saved (store_file (o_env (hr_orchestrator p))) (o_store (hr_orchestrator p)).

Lemma recovering_message h f st item : stays (recovering h f st) (recover_message item : P unit).
Proof. unfold recover_message, note_message. keep. Qed.

Lemma recovering_snapshot h f st : stays (recovering h f st) (snapshot_state : P unit).
Proof. unfold snapshot_state, state_save. keep. Qed.

Lemma sort_args_elem src iid j :
  (iid, j) ∈ sort_args (snapshot_records src) → ∃ r, (iid, r) ∈ src ∧ j = sort_json (dump_record r).
Proof.
  unfold sort_args, snapshot_records. rewrite sort_items_perm. intros ([k j'] & Heq & Hin)%list_elem_of_fmap.
  apply list_elem_of_fmap in Hin as ([k' r] & Heq' & Hin). cbn in *. simplify_eq. by exists r.
Qed.

Lemma snapshot_written h f st p :
  recovering h f st p → store_saved f st →
  ∀ o p', snapshot_state p = (o, p') → recovering h f st p' ∧ (is_ok o = true → files_current p').
Proof.
  intros Hr Hsaved o p' Heq. split.
  - pose proof (recovering_snapshot h f st p Hr) as Hs. by rewrite Heq in Hs.
  - revert Heq. unfold snapshot_state, state_save, mbind, py_bind, gets, modify, raise_if.
    destruct (default false _); intros [= <- <-]; [done|]. intros _. destruct Hr as [_ [Hf Hst]].
    split; [by right; eexists|].
    change (store_saved (store_file (o_env (hr_orchestrator p))) (o_store (hr_orchestrator p))).
    by rewrite Hf, Hst.
Qed.

Lemma recover_messages_only l F d :
  stays (λ p, hr_file p = F ∧ o_intents (hr_orchestrator p) = d) (py_for l recover_message : P unit).
Proof. unfold recover_message, note_message. keep. Qed.

(** Recovery from a snapshot of records that are safe to track keeps the
    invariant, whether it returns or raises, and leaves current files when it
    returns. *)
Lemma maybe_recover_keeps h f st src reconcile p :
  recovering h f st p → store_saved f st → snapshot_of (hr_file p) src →
  (∀ iid r, (iid, r) ∈ src → safe_record h f st iid r) →
  (src = [] → o_intents (hr_orchestrator p) = []) →
  ∀ o p', maybe_recover reconcile p = (o, p') →
    recovering h f st p' ∧ (is_ok o = true → files_current p').
Proof.
  intros Hr Hsaved Hsnap Hsafe Hnil o p' Heq. destruct Hsnap as [[Hm ->]|[inbox Hdoc]].
  { revert Heq. unfold maybe_recover, state_load, mbind, py_bind, gets. rewrite Hm. cbn.
    intros [= <- <-]. split; [done|]. intros _. split; [left; auto|]. destruct Hr as [_ [-> ->]]. done. }
  rewrite (maybe_recover_doc src inbox) in Heq by done. revert Heq.
  assert (stays (recovering h f st)
            (py_for (sort_args (snapshot_records src)) (recover_one reconcile))) as Hrec.
  { apply stays_py_for_in. intros [iid j] Hin. apply sort_args_elem in Hin as (r & Hin & ->).
    apply recover_one_keeps. by apply Hsafe. }
  unfold mbind at 1, py_bind at 1. destruct (py_for _ (recover_one reconcile) p) as [[[]|e] p1] eqn:E1.
  2: { intros [= <- <-]. split; [|done]. specialize (Hrec p Hr). by rewrite E1 in Hrec. }
  specialize (Hrec p Hr). rewrite E1 in Hrec. cbn [snd] in Hrec.
  unfold mbind at 1, py_bind at 1. destruct (py_for _ recover_message p1) as [[[]|e] p2] eqn:E2.
  2: { intros [= <- <-]. split; [|done].
       pose proof (stays_py_for (recovering h f st) (map sort_json (dump_peer_message <$> inbox))
         recover_message (recovering_message h f st) p1 Hrec) as Hs. by rewrite E2 in Hs. }
  assert (recovering h f st p2) as Hr2.
  { pose proof (stays_py_for (recovering h f st) (map sort_json (dump_peer_message <$> inbox))
         recover_message (recovering_message h f st) p1 Hrec) as Hs. by rewrite E2 in Hs. }
  destruct src as [|q src].
  - cbn in E1. injection E1 as <-. cbn. intros [= <- <-]. split; [done|]. intros _.
    destruct (recover_messages_only (map sort_json (dump_peer_message <$> inbox)) (hr_file p) []
                p (conj eq_refl (Hnil eq_refl))) as [Hf2 Hd2].
    rewrite E2 in Hf2, Hd2. cbn [snd] in Hf2, Hd2. split; [|by destruct Hr2 as [_ [-> ->]]].
    right. exists inbox. by rewrite Hf2, Hd2.
  - rewrite truthy_sorted by done. by apply snapshot_written.
Qed.

(** Records an intact process has in memory are safe to restore. *)
Lemma safe_in_memory h f st s : SInv h s → files_are f st s →
  ∀ iid r, (iid, r) ∈ o_intents s → safe_record h f st iid r.
Proof.
  intros Hs [<- <-] iid r Hin. apply (inv_safe _ _ _ _ _ _ _ Hs). apply elem_dget; [apply Hs|done].
Qed.

Lemma recover_current h f st p :
  recovering h f st p → files_current p →
  ∀ o p', maybe_recover true p = (o, p') → recovering h f st p' ∧ (is_ok o = true → files_current p').
Proof.
  intros Hr [Hsnap Hsaved] o p' Heq. pose proof Hr as [Hp Hq].
  assert (store_saved f st) as Hsaved' by (destruct Hq as [<- <-]; done).
  by apply (maybe_recover_keeps h f st (o_intents (hr_orchestrator p)) true p);
    [| |exact Hsnap|apply safe_in_memory| |].
Qed.

Lemma recover_loop_keeps h f st n started max_wait poll p :
  recovering h f st p → files_current p →
  recovering h f st (recover_loop n started max_wait poll p).2.
Proof.
  revert p. induction n as [|n IH]; intros p Hr Hc; [done|]. cbn [recover_loop].
  unfold mbind at 1, py_bind at 1. destruct (maybe_recover true p) as [[[]|e] p1] eqn:E1;
    destruct (recover_current h f st p Hr Hc _ _ E1) as [Hr1 Hc1]; [|done].
  specialize (Hc1 eq_refl).
  unfold monotonic, sleep, raise_if, mbind, py_bind, gets, modify, mret, py_ret. cbn beta iota.
  repeat match goal with |- context [if ?b then _ else _] => destruct b; [done|] end.
  by apply IH.
Qed.
(** ** Starting on current files *)

Lemma store_loaded f st0 e :
  path_set path = true → file_ok path f st0 → store_saved f st0 → store_file e = f →
  ∃ st, store_load path e = (Ok st, e) ∧ st_path st = path ∧ file_ok path f st ∧
    st_intents st = st_intents st0 ∧ st_approvals st = st_approvals st0 ∧ store_saved f st.
Proof.
  intros Hset Hok Hsaved He. destruct (Hok Hset) as [Hm|(st1 & Hdoc & _)].
  - exists {| st_path := path; st_intents := ∅; st_approvals := ∅; st_receipts := [] |}.
    split; [apply store_load_missing; congruence|]. destruct Hsaved as [Hs|(_ & Hi & Ha)].
    + by rewrite Hm in Hs.
    + cbn. split_and!; try done; [by left|by right].
  - eexists. split; [apply store_load_saved; [by rewrite He|done]|]. cbn.
    destruct Hsaved as [Hs|[Hm _]]; [|congruence]. rewrite Hdoc, file_sets_doc in Hs.
    injection Hs as Hi Ha. split_and!; try done.
    + right. exists st1. split_and!; [done|reflexivity..].
    + left. by rewrite Hdoc, file_sets_doc.
Qed.

Lemma init_recovering h calls f st0 src clk (t : T) (w : World) e file faults mono p :
  path_set path = true → Inv h calls f st0 src → store_saved f st0 → w.2 = calls → store_file e = f →
  process_init config clk t w e file faults mono = Ok p →
  ∃ st, recovering h f st p ∧ store_saved f st ∧ hr_file p = file ∧
    o_intents (hr_orchestrator p) = [] ∧ st_intents st = st_intents st0.
Proof.
  intros Hset [Hp Hf Hk Hr Hh Ho Hc] Hsaved Hw He. unfold process_init.
  destruct (store_loaded f st0 (set_clock (default (λ _, 0) clk) e) Hset Hf Hsaved He)
    as (st & Hload & Hp' & Hf' & Hi & Ha & Hs').
  destruct (orchestrator_init _ _ _ _) as [o|x] eqn:Hinit; [|done]. intros [= <-].
  destruct (init_inv path _ _ _ _ _ Hload Hinit) as (Hw' & He' & Hst & Hd).
  exists st. split_and!; try done. split; [|split; cbn; [by rewrite He'|done]].
  unfold ProcessInv.PInv, PolicyFacts.SInv, hr_orchestrator. cbn. rewrite Hw', He', Hst, Hd. cbn.
  split; try done; [by rewrite He|constructor| |by rewrite Hw].
  intros x Hx. destruct (Hh x Hx) as ((? & ? & ? & ? & ? & _) & ? & Hin). rewrite He.
  split; [by split_and!|]. split; [done|]. by rewrite Hi.
Qed.

(** A new process over the files of an intact one. *)
Lemma start_keeps h calls f st0 src clk (t : T) (w : World) e file faults mono p :
  path_set path = true → Inv h calls f st0 src → store_saved f st0 → w.2 = calls → store_file e = f →
  snapshot_of file src →
  process_start config clk t w e file faults mono = Ok p → PInv h p ∧ files_current p.
Proof.
  intros Hset Hinv Hsaved Hw He Hsnap. unfold process_start.
  destruct (process_init _ _ _ _ _ _ _ _) as [p0|x] eqn:Hinit; [|done]. cbn [mbind outcome_bind].
  destruct (init_recovering _ _ _ _ _ _ _ _ _ _ _ _ _ Hset Hinv Hsaved Hw He Hinit)
    as (st & Hrec & Hs & Hfile & Hnil & Hi).
  destruct (maybe_recover true p0) as [[[]|x] p'] eqn:E; [|done]. intros [= <-].
  destruct (maybe_recover_keeps h f st src true p0 Hrec Hs ltac:(by rewrite Hfile)) with (2 := λ _ : src = [], Hnil) (3 := E)
    as [[Hp _] Hc]; [|by split; [|apply Hc]].
  intros iid r Hin. assert (dget src iid = Some r) as Hd by (apply elem_dget; [apply Hinv|done]).
  destruct (inv_safe _ _ _ _ _ _ _ Hinv Hd) as [(? & Hst & ?) ?]. split; [|done].
  split; [done|]. by rewrite Hi.
Qed.
End Recovery.

(** ** Properties that every command keeps *)

Section Closed.
Context `{Host} {T W : Type} `{PeerTransport T} (A : SettlementAdapter W).
Variable config : ProcessConfig.

#[local] Existing Instance engine_adapter.
Abbreviation World := (W * list call)%type.
Abbreviation Orch := (Orchestrator World).
Abbreviation P := (PyM (HermesProcess T World)).
Abbreviation path := (Some (cf_store_path config)).
Context (I : Orch → Prop) (HI : EngineClosed A I).
Context (K : list bool → Prop) (HK : ∀ l, K l → K (tail l)).
Abbreviation holds := (held (T:=T) I K).

Lemma closed_maybe_recover b : stays holds (maybe_recover b : P unit).
Proof.
  pose proof (closed_engine A I HI) as He.
  assert (∀ item, stays holds (recover_one b item)) as Hone.
  { pose proof HI as [Haudit _ _ Hset _ _ _ _ _ _ _ _]. intros [iid j]. unfold recover_one.
    keep; apply stays_on_orch; auto using stays_gets with keeping. }
  assert (∀ item, stays holds (recover_message item : P unit)) as Hmsg
    by (intros item; unfold recover_message, note_message; keep).
  unfold maybe_recover, state_load. keep; auto using stays_snapshot.
Qed.

Lemma closed_loop n started max_wait poll : stays holds (recover_loop n started max_wait poll : P _).
Proof.
  induction n as [|n IH]; cbn [recover_loop]; unfold monotonic, sleep; keep.
  apply closed_maybe_recover.
Qed.

Lemma closed_command n c : stays holds (run_command config n c : P _).
Proof.
  destruct (String.eqb_spec (jc_name c) "execute") as [He|He];
    [|destruct (String.eqb_spec (jc_name c) "recover") as [Hr|Hr]].
  - unfold run_command. rewrite He. cbn. unfold finished, handle_execute, jstate. keep.
    by apply stays_on_orch, (closed_execute A).
  - unfold run_command. rewrite Hr. cbn. unfold handle_recover, monotonic. keep. apply closed_loop.
  - apply (stays_command A); try done. by apply (closed_engine A).
Qed.

Lemma closed_line n line : stays holds (handle_line config n line : P _).
Proof. unfold handle_line. keep; [apply closed_command|by apply stays_snapshot]. Qed.

(** What a new process finds before it recovers. *)
Lemma process_init_found clk (t : T) (w : World) e file fl mono p :
  process_init config clk t w e file fl mono = Ok p →
  o_env (hr_orchestrator p) = set_clock (default (λ _, 0) clk) e ∧ hr_faults p = fl ∧
  store_load path e = (Ok (o_store (hr_orchestrator p)), e) ∧ o_world (hr_orchestrator p) = w.
Proof.
  unfold process_init, orchestrator_init. set (e' := set_clock _ e).
  assert (∀ o e1, store_load path e' = (o, e1) → e1 = e' ∧ store_load path e = (o, e)) as Hload.
  { intros o e1. unfold store_load, mbind, py_bind, gets, lift, mret, py_ret.
    destruct (path_set path); [|by intros [= <- <-]].
    change (store_file e') with (store_file e).
    destruct (store_file e) as [| |[]]; try (by intros [= <- <-]).
    repeat match goal with |- context [match ?x with Ok _ => _ | Raise _ => _ end] => destruct x end;
      by intros [= <- <-]. }
  destruct (store_load path e') as [[st|x] e1] eqn:Hl; [|done].
  destruct (Hload _ _ eq_refl) as [-> Hl'].
  destruct (audit_load _ e') as [[a|x] e2] eqn:Ha; [|done]. apply audit_load_env in Ha as ->.
  by intros [= <-].
Qed.

Lemma closed_start clk (t : T) (w : World) e file fl mono p p0 :
  process_init config clk t w e file fl mono = Ok p0 → holds p0 →
  process_start config clk t w e file fl mono = Ok p → holds p.
Proof.
  unfold process_start. intros -> Hp. cbn [mbind outcome_bind].
  pose proof (closed_maybe_recover true p0 Hp) as Hr.
  destruct (maybe_recover true p0) as [[[]|x] p']; [|done]. by intros [= <-].
Qed.
End Closed.
