(* ===== verification/ProcessRecords.v ===== *)
(** * Properties of every record of a process

    A property of records that the engine keeps ([PolicyRecords.v]) is kept by
    every command of a process, by recovery from a current snapshot and by a
    restart; with it, what is known of the messages of the inbox and of the
    transport. *)

From S2P Require Import Prelude.
From S2P Require Import Json.
From S2P Require Import JsonText.
From S2P Require Import JsonFacts.
From S2P Require Import PyLib.
From S2P Require Import Models.
From S2P Require Import ModelsFacts.
From S2P Require Import StateMachine.
From S2P Require Import Envelope.
From S2P Require Import EnvelopeFacts.
From S2P Require Import Adapter.
From S2P Require Import Storage.
From S2P Require Import StorageFacts.
From S2P Require Import Policy.
From S2P Require Import PolicyFacts.
From S2P Require Import PolicyInv.
From S2P Require Import PolicyRecords.
From S2P Require Import PeerTransport.
From S2P Require Import Peer.
From S2P Require Import Process.
From S2P Require Import ProcessFacts.
From S2P Require Import ProcessInv.
From Stdlib Require Import Floats.SpecFloat.
Import Models StateMachine Envelope Adapter Storage Policy PeerTransport Peer Process.

(** What a transport does to a property of its state: it delivers messages of
    a kind, and keeps the property when it is given good messages to send. *)
Class TransportInv (T : Type) `{PeerTransport T} (good : PaymentMessage → Prop)
    (delivered : PeerMessage → Prop) (TI : T → Prop) : Prop := {
  ti_send m t : good m → TI t → TI (pt_send (OMessage m) t).2;
  ti_receive limit t : TI t → TI (pt_receive limit t).2;
  ti_delivers limit t l : TI t → (pt_receive limit t).1 = Ok l → Forall delivered l
}.

(** A value that is known when the invariant holds. *)
Lemma stays_bind_inv {S A B} (I : S → Prop) (Q : A → Prop) (m : PyM S A) (k : A → PyM S B) :
  stays I m → (∀ s a, I s → (m s).1 = Ok a → Q a) → (∀ a, Q a → stays I (k a)) → stays I (m ≫= k).
Proof.
  intros Hm HQ Hk s Hs. unfold mbind, py_bind. specialize (Hm s Hs).
  destruct (m s) as [[a|e] s'] eqn:E; [|done]. apply Hk; [|done].
  apply (HQ s); [done|]. by rewrite E.
Qed.

Section ProcessRecords.
Context {h0 : Host} {hl : HostLaws h0} {T W : Type} `{PeerTransport T} (A : SettlementAdapter W).
Context (good : PaymentMessage → Prop) (good_approval : PaymentApproval → Prop).
Context (R : IntentRecord → Prop) (HR : RecordInv A good good_approval R).
Context (delivered : PeerMessage → Prop) (TI : T → Prop) (HT : TransportInv T good delivered TI).
Hypothesis good_valid : ∀ m, message_ok m = true → good m.
Hypothesis good_approval_valid : ∀ a, approval_ok a = true → good_approval a.
Hypothesis good_delivered : ∀ pm, delivered pm → good (pm_message pm).
Hypothesis R_restored : ∀ r, R r → R (restored r).
Hypothesis delivered_restored : ∀ pm pm', delivered pm →
  restore_peer_message (sort_json (dump_peer_message pm)) = Ok pm' → delivered pm'.
Variable config : ProcessConfig.

#[local] Existing Instance engine_adapter.
Abbreviation World := (W * list call)%type.
Abbreviation Orch := (Orchestrator World).
Abbreviation Proc := (HermesProcess T World).
Abbreviation P := (PyM Proc).
Implicit Types (p : Proc) (s : Orch).

Abbreviation each := (each_record (W := W) R).
Definition each_peer (q : HermesPeer T World) : Prop := each (hp_orchestrator q) ∧ TI (hp_transport q).

(** A snapshot file that was written from good records and messages. *)
Definition good_file (f : document) : Prop :=
  f = Missing ∨ ∃ src inbox, f = Doc (sort_json (snapshot_json src inbox)) ∧ each_ok R src ∧
                             Forall delivered inbox.
Definition each_process p : Prop :=
  each_peer (hr_peer p) ∧ Forall delivered (hr_inbox p) ∧ good_file (hr_file p).

(** ** Lifting *)

Lemma each_stays (m : PyM Orch unit) : PolicyRecords.holds R m → stays each m.
Proof. intros Hm s Hs. exact (Hm s Hs). Qed.
Lemma each_stays_unit {B} (m : PyM Orch B) : PolicyRecords.holds R (m ;; mret tt) → stays each m.
Proof. intros Hm s Hs. rewrite <- after_unit. exact (Hm s Hs). Qed.

Lemma each_on_peer {B} (m : PyM (HermesPeer T World) B) : stays each_peer m → stays each_process (on_peer m).
Proof. intros Hm. apply stays_zoom. intros p [Hp Hi]. split; [by apply Hm|done]. Qed.
Lemma each_on_orchestrator {B} (m : PyM Orch B) : stays each m → stays each_peer (on_orchestrator m).
Proof. intros Hm. apply stays_zoom. intros q [Hq Ht]. split; [by apply Hm|done]. Qed.
Lemma each_on_orch {B} (m : PyM Orch B) : stays each m → stays each_process (on_orch m).
Proof. intros Hm. by apply each_on_peer, each_on_orchestrator. Qed.
Lemma each_send m : good m → stays each_peer (on_transport (pt_send (OMessage m))).
Proof. intros Hm. apply stays_zoom. intros q [Hq Ht]. split; [done|by apply ti_send]. Qed.

Lemma each_snapshot : stays each_process (snapshot_state : P unit).
Proof.
  intros p (Hp & Hi & Hf). unfold snapshot_state, state_save, gets, modify, raise_if, mbind, py_bind.
  destruct (default false _); [done|]. split; [exact Hp|]. split; [exact Hi|].
  right. do 2 eexists. split; [reflexivity|]. split; [apply Hp|exact Hi].
Qed.
Lemma each_note_message m : delivered m → stays each_process (note_message m : P bool).
Proof.
  intros Hm. unfold note_message. keep. apply stays_modify. intros p (Hp & Hi & Hf).
  split; [exact Hp|]. split; [|exact Hf]. cbn. apply Forall_app. split; [done|by apply Forall_singleton].
Qed.
Lemma each_note_messages l : Forall delivered l → stays each_process (note_messages l : P _).
Proof.
  induction 1 as [|m l Hm _ IH]; cbn [note_messages]; keep; by apply each_note_message.
Qed.

(** ** The engine's operations, called on the process *)

Lemma each_audit event kwargs : stays each (audit event kwargs : PyM Orch unit).
Proof. intros s Hs. apply (wp_audit event kwargs (λ _ s', each s') s). intros o e a _ _. exact Hs. Qed.
Lemma each_now : stays each (now : PyM Orch Z).
Proof. by intros s. Qed.
Lemma each_world {B} (m : PyM World B) : stays each (on_world m).
Proof. intros s Hs. unfold on_world, zoom. by destruct (m (o_world s)). Qed.

#[local] Hint Resolve each_audit each_now each_world each_on_orch each_on_orchestrator each_send
  each_snapshot each_note_message each_note_messages : keeping.
#[local] Hint Extern 2 (stays each (submit _ _)) =>
  apply each_stays; eapply submit_each; [eassumption|] : keeping.
#[local] Hint Extern 2 (stays each (receive_quote _)) =>
  apply each_stays; eapply receive_quote_each; [eassumption|] : keeping.
#[local] Hint Extern 2 (stays each (prepare _)) => apply each_stays_unit; by eapply prepare_each : keeping.
#[local] Hint Extern 2 (stays each execute) => apply each_stays_unit; by eapply execute_each : keeping.
#[local] Hint Extern 2 (stays each (approve _)) =>
  apply each_stays; eapply approve_each; [eassumption|] : keeping.
#[local] Hint Extern 2 (stays each (receive_receipt _)) =>
  apply each_stays_unit; eapply receive_receipt_each; [eassumption|] : keeping.
#[local] Hint Extern 2 (stays each (reconcile_settlement _)) =>
  apply each_stays_unit; by eapply reconcile_each : keeping.

(** Messages that were validated, built or received are good. *)
Lemma validated_good {M} (name : string) (validate : json → option M) (mk : M → PaymentMessage) kind j m :
  (∀ j m, validate j = Some m → validate_message kind j = Some (mk m)) →
  validated name validate j = Ok m → good (mk m).
Proof.
  intros Hkind. unfold validated. destruct (validate j) as [m'|] eqn:Hv; [|done].
  intros [= ->]. apply good_valid. by apply (validate_message_ok kind j), Hkind.
Qed.

Lemma stays_validated {M B} name (validate : json → option M) (mk : M → PaymentMessage) kind j
    (k : M → P B) :
  (∀ j m, validate j = Some m → validate_message kind j = Some (mk m)) →
  (∀ m, good (mk m) → stays each_process (k m)) →
  stays each_process (lift (validated name validate j) ≫= k).
Proof.
  intros Hkind Hk. apply (stays_bind_with _ (λ m, good (mk m))); [apply stays_lift| |done].
  intros s m. exact (validated_good name validate mk kind j m Hkind).
Qed.

Lemma stays_found {B} j (k : PeerMessage → P B) :
  (∀ pm, good (pm_message pm) → stays each_process (k pm)) →
  stays each_process (find_inbox_message j ≫= k).
Proof.
  intros Hk. apply (stays_bind_inv _ (λ pm, good (pm_message pm))); [|intros p pm (_ & Hin & _)|done].
  { unfold find_inbox_message. keep. }
  unfold find_inbox_message, mbind, py_bind, gets.
  destruct (List.filter _ (hr_inbox p)) as [|m l] eqn:Hf; [done|]. intros [= <-].
  apply good_delivered. rewrite Forall_forall in Hin. apply Hin, list_elem_of_In.
  refine (proj1 (proj1 (List.filter_In _ _ _) _)). rewrite Hf. by left.
Qed.

Ltac peer_call :=
  apply each_on_peer; unfold Peer.submit_intent, accept_intent, publish_quote, accept_quote,
    publish_receipt, peer_send, accept_receipt, require_local_author, require_local_recipient;
  keep; auto with keeping.
Ltac handler := unfold arg, jstate, clock_reading; keep; auto with keeping.

Lemma each_receive args : stays each_process (handle_receive args : P _).
Proof.
  unfold handle_receive. apply stays_bind; [keep|intros limit].
  apply (stays_bind_inv _ (Forall delivered)).
  - apply each_on_peer, stays_zoom. intros q [Hq Ht]. split; [done|by eapply ti_receive].
  - intros p l ([_ Ht] & _). unfold on_peer, peer_receive, on_transport, zoom. cbn.
    destruct (pt_receive limit _) as [o t] eqn:E. cbn. intros ->.
    apply (ti_delivers limit (hp_transport (hr_peer p)) l Ht). by rewrite E.
  - intros l Hl. keep.
Qed.

Lemma each_submit_intent args : stays each_process (handle_submit_intent config args : P _).
Proof.
  unfold handle_submit_intent. apply stays_bind; [handler|intros j].
  apply (stays_validated _ _ MIntent INTENT); [by intros j' m Hv; cbn; rewrite Hv|intros i Hi].
  apply stays_bind; [peer_call|handler].
Qed.
Lemma each_accept_intent args : stays each_process (handle_accept_intent config args : P _).
Proof.
  unfold handle_accept_intent. apply stays_bind; [handler|intros j].
  apply stays_found. intros pm Hpm. destruct (pm_message pm); [|handler..].
  apply stays_bind; [peer_call|handler].
Qed.

Lemma each_publish_quote args : stays each_process (handle_publish_quote config args : P _).
Proof.
  unfold handle_publish_quote. apply stays_bind; [handler|intros j].
  apply (stays_validated _ _ MQuote QUOTE); [by intros j' m Hv; cbn; rewrite Hv|intros q Hq].
  apply stays_bind; [peer_call|handler].
Qed.

Lemma each_accept_quote args : stays each_process (handle_accept_quote args : P _).
Proof.
  unfold handle_accept_quote. apply stays_bind; [handler|intros j].
  apply stays_found. intros pm Hpm. destruct (pm_message pm); [handler| |handler].
  apply stays_bind; [peer_call|handler].
Qed.

Lemma each_submit_quote_local args : stays each_process (handle_submit_quote_local args : P _).
Proof.
  unfold handle_submit_quote_local. apply stays_bind; [handler|intros j].
  apply (stays_validated _ _ MQuote QUOTE); [by intros j' m Hv; cbn; rewrite Hv|intros q Hq]. handler.
Qed.

Lemma each_prepare : stays each_process (handle_prepare : P _).
Proof. unfold handle_prepare. handler. Qed.

Lemma each_execute : stays each_process (handle_execute : P _).
Proof. unfold handle_execute. handler. Qed.

(** A constructed message stays valid under its computed identifier. *)
Lemma constructed_ok {M} `{Validated M} (m m' : M) v :
  construct m = Ok m' → model_ok (set_id v m') = true.
Proof. unfold construct. destruct (model_ok m) eqn:Hok; [intros [= <-]|done]. by rewrite set_id_ok. Qed.

Ltac built_ok :=
  match goal with Hc : construct _ = Ok ?c |- _ => exact (constructed_ok _ _ (compute_id c) Hc) end.

Lemma build_approval_ok iid qid hash approver t a :
  build_approval iid qid hash approver t = Ok a → approval_ok a = true.
Proof.
  unfold build_approval. intros Hb. bind_inv Hb. injection Hb as <-.
  built_ok.
Qed.

Lemma each_approve args : stays each_process (handle_approve config args : P _).
Proof.
  unfold handle_approve, arg, clock_reading. destruct (cf_approver config) as [approver|]; [|handler].
  do 5 (apply stays_bind; [handler|intros ?]). apply stays_bind; [handler|intros t].
  apply (stays_bind_with _ good_approval); [apply stays_lift|intros s b Hb|intros b Hb; handler].
  eapply good_approval_valid, build_approval_ok. exact Hb.
Qed.

Lemma each_publish_receipt args : stays each_process (handle_publish_receipt config args : P _).
Proof.
  unfold handle_publish_receipt. apply stays_bind; [handler|intros j].
  apply (stays_validated _ _ MReceipt RECEIPT); [by intros j' m Hv; cbn; rewrite Hv|intros c Hc].
  apply stays_bind; [peer_call|handler].
Qed.

Lemma each_verify_publish_receipt args : stays each_process (handle_verify_publish_receipt config args : P _).
Proof.
  unfold handle_verify_publish_receipt, arg, clock_reading.
  do 5 (apply stays_bind; [handler|intros ?]).
  destruct a3 as [r|]; [|handler]. destruct a as [| | | |iid| |];
    [handler|handler|handler|handler| |handler|handler].
  do 7 (apply stays_bind; [handler|intros ?]).
  apply stays_bind; [handler|intros ?].
  apply (stays_bind_with _ (λ c, good (MReceipt c))); [apply stays_lift| |].
  - intros s c Hc. apply good_valid. cbn in Hc |- *. revert Hc. unfold build_verified_receipt. intros Hb.
    bind_inv Hb. injection Hb as <-. built_ok.
  - intros c Hc. apply stays_bind; [peer_call|handler].
Qed.

Lemma each_accept_receipt args : stays each_process (handle_accept_receipt args : P _).
Proof.
  unfold handle_accept_receipt. apply stays_bind; [handler|intros j].
  apply stays_found. intros pm Hpm. destruct (pm_message pm); [handler..|].
  apply stays_bind; [peer_call|handler].
Qed.

Lemma each_status : stays each_process (handle_status config : P _).
Proof. unfold handle_status. handler. Qed.

(** ** Recovery *)

Lemma each_put iid r {B} (rest : P B) :
  R r → stays each_process rest →
  stays each_process
    (intents ← on_orch (gets o_intents); on_orch (set_intents (dset intents iid r)) ;; rest).
Proof.
  intros Hr Hrest p [[He Ht] Hp]. apply Hrest. split; [|exact Hp]. split; [|exact Ht].
  by apply each_dset.
Qed.

Lemma each_recover_one b iid r :
  R r → stays each_process (recover_one b (iid, sort_json (dump_record r)) : P unit).
Proof.
  intros Hr. rewrite dump_record_fields. cbn [sort_json recover_one]. fold (sort_args (record_fields r)).
  case_match; [|apply stays_ret].
  apply (stays_bind_with _ R); [apply stays_lift| |].
  { intros s a Ha. rewrite (restore_record_inv iid r a Ha). by apply R_restored. }
  intros r1 Hr1. apply (stays_bind_with _ R).
  - case_bool_decide; handler.
  - intros s a. case_bool_decide as He; [|by intros [= <-]].
    unfold mbind, py_bind. destruct (on_orch _ s) as [[]]; [|done]. intros [= <-]. by eapply ri_state.
  - intros r2 Hr2. apply each_put; [done|]. case_match; handler.
Qed.

Lemma each_recover_message pm :
  delivered pm → stays each_process (recover_message (sort_json (dump_peer_message pm)) : P unit).
Proof.
  intros Hm. unfold recover_message. apply (stays_bind_with _ delivered); [apply stays_lift| |].
  - intros s m. by apply delivered_restored.
  - intros m Hm'. keep; auto with keeping.
Qed.

Lemma each_maybe_recover b : stays each_process (maybe_recover b : P unit).
Proof.
  intros p Hp. pose proof Hp as (_ & _ & [Hmiss|(src & inbox & Hdoc & [Hnd Hsrc] & Hinbox)]).
  { unfold maybe_recover, state_load, mbind, py_bind, gets. rewrite Hmiss. exact Hp. }
  rewrite (maybe_recover_doc src inbox) by done. revert p Hp Hdoc.
  assert (stays each_process
    (py_for (sort_args (snapshot_records src)) (recover_one b) ;;
     py_for (map sort_json (dump_peer_message <$> inbox)) recover_message ;;
     (if truthy (JObj (sort_args (snapshot_records src))) then snapshot_state else mret tt) : P unit))
    as Hall; [|intros p Hp _; by apply Hall].
  apply stays_bind; [|intros _; apply stays_bind; [|intros _; keep; auto with keeping]].
  - apply stays_py_for_in. intros [iid j] (r & Hin & ->)%sort_args_elem.
    apply each_recover_one, (Hsrc iid), elem_dget; done.
  - apply stays_py_for_in. intros j Hj. apply list_elem_of_In, List.in_map_iff in Hj as (j' & <- & Hj).
    apply list_elem_of_In, list_elem_of_fmap in Hj as (pm & -> & Hpm).
    apply each_recover_message. rewrite Forall_forall in Hinbox. by apply Hinbox.
Qed.

Lemma each_loop n started max_wait poll : stays each_process (recover_loop n started max_wait poll : P _).
Proof.
  induction n as [|n IH]; cbn [recover_loop]; unfold monotonic, sleep; keep.
  apply each_maybe_recover.
Qed.

(** ** Every command, every line *)

Lemma each_command n c : stays each_process (run_command config n c : P _).
Proof.
  unfold run_command.
  assert (Forall (λ q, ∀ args, stays each_process (q.2 args : P _)) (handlers config n)) as Hall.
  { unfold handlers. repeat (apply Forall_cons; split); [..|by apply Forall_nil]; cbn [snd];
      intros args; try (unfold finished; apply stays_bind; [|intros; apply stays_ret]).
    all: auto using each_status, each_receive, each_submit_intent, each_accept_intent, each_publish_quote,
      each_accept_quote, each_submit_quote_local, each_prepare, each_approve, each_execute,
      each_publish_receipt, each_verify_publish_receipt, each_accept_receipt.
    unfold handle_recover, monotonic. keep. apply each_loop. }
  destruct (dget _ _) as [f|] eqn:Hf; [|apply stays_raise].
  apply dget_Some_elem in Hf. rewrite Forall_forall in Hall. apply (Hall _ Hf).
Qed.

Lemma each_line n line : stays each_process (handle_line config n line : P _).
Proof. unfold handle_line. keep. apply each_command. Qed.

(** ** Starting *)

Lemma each_start clk (t : T) (w : World) e file fl mono p :
  TI t → good_file file → process_start config clk t w e file fl mono = Ok p → each_process p.
Proof.
  intros Ht Hf. unfold process_start, process_init.
  destruct (orchestrator_init _ _ _ _) as [o|x] eqn:Ho; [|done]. cbn [mbind outcome_bind].
  set (p0 := {| hr_peer := _ |}). assert (each_process p0) as Hp0.
  { split; [split; [|exact Ht]|split; [by apply Forall_nil|exact Hf]].
    unfold PolicyRecords.each_record. replace (o_intents (hp_orchestrator (hr_peer p0))) with (@nil (string * IntentRecord)).
    - split; [apply NoDup_nil_2|done].
    - revert Ho. unfold orchestrator_init. repeat (case_match; try done). by intros [= <-]. }
  pose proof (each_maybe_recover true p0 Hp0) as Hr.
  destruct (maybe_recover true p0) as [[[]|x] p']; [|done]. by intros [= <-].
Qed.

(** Every run: a start without a snapshot, any command lines, and restarts on
    the snapshot that was left, whatever became of the other files, the
    adapter's world, the clock and the writes. *)
Inductive any_runs : Proc → Prop :=
  | any_start clk t w e fl mono p :
      TI t → process_start config clk t w e Missing fl mono = Ok p → any_runs p
  | any_line p n line : any_runs p → any_runs (handle_line config n line p).2
  | any_restart p clk t w e fl mono p' :
      any_runs p → TI t → process_start config clk t w e (hr_file p) fl mono = Ok p' → any_runs p'.

Lemma any_runs_each p : any_runs p → each_process p.
Proof.
  induction 1 as [clk t w e fl mono p Ht Hs|p n line _ IH|p clk t w e fl mono p' _ IH Ht Hs].
  - eapply each_start; [exact Ht|by left|exact Hs].
  - by apply each_line.
  - eapply each_start; [exact Ht|apply IH|exact Hs].
Qed.
End ProcessRecords.
