(* ===== verification/ProcessDisk.v ===== *)
(** * The files of a process are current when no write fails

    The invariants of a process none of whose writes fails: the store file
    holds the store after every operation of the engine, and the snapshot file
    holds the tracked records after every command. *)

From S2P Require Import Prelude.
From S2P Require Import Json.
From S2P Require Import Models.
From S2P Require Import ModelsFacts.
From S2P Require Import StateMachine.
From S2P Require Import Adapter.
From S2P Require Import Storage.
From S2P Require Import StorageFacts.
From S2P Require Import Policy.
From S2P Require Import PolicyFacts.
From S2P Require Import PolicyInv.
From S2P Require Import PeerTransport.
From S2P Require Import Peer.
From S2P Require Import Process.
From S2P Require Import ProcessFacts.
From S2P Require Import ProcessInv.
Import Models StateMachine Adapter Storage Policy PeerTransport Peer Process.

Section Clean.
Context {h0 : Host} {hl : HostLaws h0} {T W : Type} `{PeerTransport T} (A : SettlementAdapter W).
Variable config : ProcessConfig.
Hypothesis store_set : cf_store_path config ≠ "".

#[local] Existing Instance engine_adapter.
Abbreviation World := (W * list call)%type.
Abbreviation Orch := (Orchestrator World).
Abbreviation Proc := (HermesProcess T World).
Abbreviation P := (PyM Proc).
Abbreviation path := (Some (cf_store_path config)).
Implicit Types (p : Proc) (s : Orch).

Lemma path_is_set : path_set path = true.
Proof. cbn. by destruct (String.eqb_spec (cf_store_path config) ""). Qed.

(** ** The engine *)

Definition clean s : Prop :=
  no_faults (faults (o_env s)) ∧ st_path (o_store s) = path ∧
  store_saved (store_file (o_env s)) (o_store s).

Lemma clean_audit event kwargs : stays clean (audit event kwargs).
Proof.
  intros s (Hf & Hp & Hs). pose proof (no_faults_head _ Hf) as Hh.
  unfold audit, append, read_wall, guarded_write, zoom, gets, modify, raise_if, mbind, py_bind, mret, py_ret.
  cbn. destruct (path_set (au_path (o_audit s))); cbn; rewrite ?Hh; cbn.
  - split; [by apply no_faults_tail|done].
  - split; done.
Qed.

Lemma clean_now : stays clean now.
Proof. intros s Hs. exact Hs. Qed.
Lemma clean_mutate iid g : stays clean (mutate iid g).
Proof. intros s Hs. exact Hs. Qed.
Lemma clean_set_intents d : stays clean (set_intents d).
Proof. intros s Hs. exact Hs. Qed.
Lemma clean_world {B} (m : PyM World B) : stays clean (on_world m).
Proof. intros s Hs. unfold on_world, zoom. by destruct (m (o_world s)). Qed.

Lemma clean_store g :
  (∀ st, st_path (g st) = st_path st) → stays clean (on_store (update_store g ;; store_save)).
Proof.
  intros Hg s (Hf & Hp & Hs). pose proof (no_faults_head _ Hf) as Hh.
  unfold on_store, update_store, store_save, guarded_write, zoom, gets, modify, raise_if, mbind, py_bind.
  cbn. rewrite Hg, Hp, path_is_set. cbn. rewrite Hh. cbn. split; [by apply no_faults_tail|].
  split; [cbn; by rewrite Hg|]. left. apply file_sets_doc.
Qed.

#[local] Instance clean_closed : EngineClosed A clean.
Proof.
  split; [apply clean_audit|apply clean_now|apply clean_mutate|apply clean_set_intents
         |intros; apply clean_world..| | |].
  - intros iid. by apply clean_store.
  - intros [[a b] c]. by apply clean_store.
  - intros iid ref. by apply clean_store.
Qed.

(** ** The process *)

Abbreviation intact := (held (T:=T) clean no_faults).

(** The snapshot that ends a command succeeds, and both files are current. *)
Lemma intact_written p :
  intact p → ∃ p', snapshot_state p = (Ok tt, p') ∧ intact p' ∧ files_current p'.
Proof.
  intros [Hc Hf]. pose proof (no_faults_head _ Hf) as Hh. pose proof (stays_snapshot _ _ no_faults_tail p (conj Hc Hf)) as Hi.
  revert Hi. unfold snapshot_state, state_save, gets, modify, raise_if, mbind, py_bind.
  rewrite Hh. cbn. intros Hi. eexists. split; [reflexivity|]. split; [exact Hi|].
  split; [by right; eexists|]. apply Hc.
Qed.

Lemma intact_line n line p :
  intact p → files_current p →
  let p' := (handle_line config n line p).2 in intact p' ∧ files_current p'.
Proof.
  intros Hi Hc. cbn zeta. unfold handle_line, mbind, py_bind, lift, try_finally.
  destruct (parse_command line) as [c|e]; [|done].
  pose proof (closed_command A config _ clean_closed _ no_faults_tail n c p Hi) as Hi'. destruct (run_command config n c p) as [o q].
  destruct (intact_written q Hi') as (q' & -> & Hq & Hcur). by destruct o.
Qed.

Lemma intact_start clk (t : T) (w : World) e file fl mono p :
  no_faults (faults e) → no_faults fl →
  (∀ st, store_load path e = (Ok st, e) → st_path st = path ∧ store_saved (store_file e) st) →
  process_start config clk t w e file fl mono = Ok p → intact p.
Proof.
  intros He Hf Hst Hstart.
  destruct (process_init config clk t w e file fl mono) as [p0|x] eqn:Hinit.
  - refine (closed_start A config _ clean_closed _ no_faults_tail _ _ _ _ _ _ _ _ _ Hinit _ Hstart).
    destruct (process_init_found _ _ _ _ _ _ _ _ _ Hinit) as (Henv & Hfl & Hload & _).
    destruct (Hst _ Hload) as [Hp Hs]. unfold held, clean. by rewrite Henv, Hfl.
  - unfold process_start in Hstart. by rewrite Hinit in Hstart.
Qed.
End Clean.
