(* ===== verification/ProcessProps.v ===== *)
(** * Properties of the process's commands: texts, inbox, polling, receipts *)

From S2P Require Import Prelude.
From S2P Require Import Json.
From S2P Require Import JsonText.
From S2P Require Import JsonFacts.
From S2P Require Import PyLib.
From S2P Require Import Models.
From S2P Require Import ModelsFacts.
From S2P Require Import StateMachine.
From S2P Require Import Adapter.
From S2P Require Import Envelope.
From S2P Require Import Storage.
From S2P Require Import StorageFacts.
From S2P Require Import Policy.
From S2P Require Import PolicyFacts.
From S2P Require Import PeerTransport.
From S2P Require Import Peer.
From S2P Require Import Process.
From S2P Require Import ProcessFacts.
From S2P Require Import ProcessInv.
From Stdlib Require Import Floats.SpecFloat.
Import Models StateMachine Adapter Storage Policy PeerTransport Peer Process.

(** ** Commands as text *)

(** A command survives its text: printing a command that was accepted,
    or any command of a known name whose arguments do not hold the key
    [command], and parsing the line gives the same name and the same
    arguments with their keys sorted, so every argument reads the same. *)
Theorem command_roundtrip `{Host} (c : JsonlCommand)
    (Hc : (∃ line, parse_command line = Ok c) ∨ command_ok c)
    (Hwf : wf_json jsonl_opts (JObj (jc_arguments c)) = true) :
  ∃ args, parse_command (to_json c) = Ok {| jc_name := jc_name c; jc_arguments := args |} ∧
    ∀ k, dget args k = sort_json <$> dget (jc_arguments c) k.
Proof.
  assert (command_ok c) as Hok by (destruct Hc as [[line Hl]|]; [by eapply parse_command_ok|done]).
  exists (sort_args (jc_arguments c)). split; [by apply parse_to_json|].
  intros k. apply dget_sorted. by eapply wf_NoDup.
Qed.

Definition sample_command : JsonlCommand :=
  {| jc_name := "approve";
     jc_arguments := [("quote_id", JStr "quote-1"); ("intent_id", JStr "intent-1");
                      ("prepared_hash", JStr "656c2134...")] |}.

Lemma command_roundtrip_witness :
  ∃ args, parse_command (to_json (H := ref_host) sample_command)
            = Ok {| jc_name := "approve"; jc_arguments := args |} ∧
    dget args "intent_id" = Some (JStr "intent-1").
Proof.
  destruct (command_roundtrip (H := ref_host) sample_command) as (args & Hp & Hget).
  - right. split; [decide_now|]. intros Hin. apply (bool_decide_eq_true_2 _) in Hin.
    vm_compute in Hin. discriminate.
  - vm_compute. reflexivity.
  - exists args. split; [exact Hp|]. rewrite Hget. reflexivity.
Defined.

Lemma redacted_length v : py_len (redacted_identifier v) ≤ 11.
Proof.
  unfold redacted_identifier. destruct (Z.leb_spec (py_len v) 8) as [Hle|Hgt]; [lia|].
  pose proof (py_len_take 8 v). rewrite py_len_app. change (py_len "...") with 3. lia.
Qed.

(** What the operator sees of an identifier: a value of at most eight
    characters is shown as it is; a longer one as its first eight characters
    and three dots, at most eleven characters, so two long identifiers that
    share their first eight characters cannot be told apart. *)
Theorem redacted_identifier_bound (v : string) :
  py_len (redacted_identifier v) ≤ 11 ∧
  (py_len v ≤ 8 → redacted_identifier v = v) ∧
  (8 < py_len v →
     ∃ p r, v = p +:+ r ∧ py_len p = 8 ∧ redacted_identifier v = p +:+ "..." ∧
       ∀ v', 8 < py_len v' → py_take 8 v' = p → redacted_identifier v' = redacted_identifier v).
Proof.
  split; [apply redacted_length|]. pose proof (py_len_take 8 v) as Ht.
  unfold redacted_identifier. destruct (Z.leb_spec (py_len v) 8) as [Hle|Hgt].
  - split; [done|lia].
  - split; [lia|].
    + intros _. destruct (py_take_prefix 8 v) as [r Hr]. exists (py_take 8 v), r.
      split_and!; [done|lia|done|]. intros v' Hv' <-. by rewrite (proj2 (Z.leb_gt _ _) Hv').
Qed.

(** ** The inbox *)

Section Inbox.
Context `{Host} {T W : Type} `{PeerTransport T} `{SettlementAdapter W}.
Variable config : ProcessConfig.
Abbreviation Proc := (HermesProcess T W).
Abbreviation P := (PyM Proc).
Implicit Types (p : Proc).

(** Distinct identifiers, and the set of them. *)
Definition inbox_ok p : Prop :=
  NoDup (pm_message_id <$> hr_inbox p) ∧
  hr_inbox_ids p = list_to_set (pm_message_id <$> hr_inbox p).

(** Nothing that was in the inbox is lost. *)
Definition inbox_grows (l : list PeerMessage) p : Prop :=
  inbox_ok p ∧ ∃ l', hr_inbox p = (l ++ l')%list.

Lemma note_message_spec m p :
  inbox_ok p →
  ∃ b p', note_message m p = (Ok b, p') ∧ inbox_ok p' ∧
    b = negb (bool_decide (pm_message_id m ∈ pm_message_id <$> hr_inbox p)) ∧
    hr_inbox p' = (hr_inbox p ++ if (b : bool) then [m] else [])%list.
Proof.
  intros [Hnd Hids]. unfold note_message, mbind, py_bind, gets, modify, mret, py_ret. cbn beta iota.
  case_bool_decide as Hin; rewrite Hids, elem_of_list_to_set in Hin; do 2 eexists;
    (split; [reflexivity|]).
  - split; [by split|]. rewrite bool_decide_eq_true_2 by done. cbn. by rewrite app_nil_r.
  - split; [|by rewrite bool_decide_eq_false_2 by done]. split; cbn; rewrite fmap_app; cbn.
    + apply NoDup_app. split; [done|]. split; [|apply NoDup_singleton].
      intros x Hx Hx'%list_elem_of_singleton. by subst.
    + rewrite list_to_set_app_L, Hids. cbn. set_solver.
Qed.

Lemma grows_note l m : stays (inbox_grows l) (note_message m : P bool).
Proof.
  intros p [Hok [l' Hl]]. destruct (note_message_spec m p Hok) as (b & p' & Heq & Hok' & _ & Hin).
  rewrite Heq. split; [exact Hok'|]. cbn. rewrite Hin, Hl. eexists. by rewrite <- app_assoc.
Qed.

Lemma grows_notes l ms : stays (inbox_grows l) (note_messages ms : P _).
Proof. induction ms as [|m ms IH]; cbn [note_messages]; keep; apply grows_note. Qed.

Lemma grows_on_peer l {B} (m : PyM (HermesPeer T W) B) : stays (inbox_grows l) (on_peer m).
Proof. intros p Hp. unfold on_peer, zoom. by destruct (m (hr_peer p)). Qed.

Lemma grows_on_orch l {B} (m : PyM (Orchestrator W) B) : stays (inbox_grows l) (on_orch m).
Proof. apply grows_on_peer. Qed.

Lemma grows_snapshot l : stays (inbox_grows l) (snapshot_state : P unit).
Proof. unfold snapshot_state, state_save. keep. Qed.

#[local] Hint Resolve grows_note grows_notes grows_on_peer grows_on_orch grows_snapshot : keeping.

Lemma grows_maybe_recover l b : stays (inbox_grows l) (maybe_recover b : P unit).
Proof.
  assert (∀ item, stays (inbox_grows l) (recover_one b item : P unit)) as Hone
    by (intros [iid j]; unfold recover_one; keep).
  assert (∀ item, stays (inbox_grows l) (recover_message item : P unit)) as Hmsg
    by (intros item; unfold recover_message; keep).
  unfold maybe_recover, state_load. keep.
Qed.

Lemma grows_loop l n started max_wait poll :
  stays (inbox_grows l) (recover_loop n started max_wait poll : P _).
Proof.
  induction n as [|n IH]; cbn [recover_loop]; unfold monotonic, sleep; keep. apply grows_maybe_recover.
Qed.

Ltac command_keeps :=
  unfold arg, jstate, clock_reading, find_inbox_message, monotonic; keep.

Lemma grows_command l n c : stays (inbox_grows l) (run_command config n c : P _).
Proof.
  unfold run_command.
  assert (Forall (λ q, ∀ args, stays (inbox_grows l) (q.2 args)) (handlers (T:=T) (W:=W) config n)) as Hall.
  { unfold handlers. repeat (apply Forall_cons; split); [..|by apply Forall_nil]; cbn [snd]; intros args;
      unfold finished.
    - unfold handle_status. command_keeps.
    - unfold handle_receive. command_keeps.
    - unfold handle_submit_intent. command_keeps.
    - unfold handle_accept_intent. command_keeps.
    - unfold handle_publish_quote. command_keeps.
    - unfold handle_accept_quote. command_keeps.
    - unfold handle_submit_quote_local. command_keeps.
    - unfold handle_prepare. command_keeps.
    - unfold handle_approve. command_keeps.
    - unfold handle_execute. command_keeps.
    - unfold handle_publish_receipt. command_keeps.
    - unfold handle_verify_publish_receipt. command_keeps.
    - unfold handle_accept_receipt. command_keeps.
    - unfold handle_recover. command_keeps. apply grows_loop. }
  destruct (dget _ _) as [f|] eqn:Hf; [|apply stays_raise].
  apply dget_Some_elem in Hf. rewrite Forall_forall in Hall. apply (Hall _ Hf).
Qed.

Lemma grows_line l n line : stays (inbox_grows l) (handle_line config n line : P _).
Proof.
  unfold handle_line. apply stays_bind; [apply stays_lift|]. intros c. apply stays_bind.
  - apply stays_try_finally; [apply grows_command|apply grows_snapshot].
  - intros r. apply stays_ret.
Qed.

(** The new messages among the received ones, each once. *)
Fixpoint fresh (known : list string) (l : list PeerMessage) : list PeerMessage :=
  match l with
  | [] => []
  | m :: l' =>
      if bool_decide (pm_message_id m ∈ known) then fresh known l'
      else m :: fresh (known ++ [pm_message_id m]) l'
  end.

Lemma note_messages_spec l p :
  inbox_ok p →
  ∃ p', note_messages l p = (Ok (fresh (pm_message_id <$> hr_inbox p) l), p') ∧
    hr_inbox p' = (hr_inbox p ++ fresh (pm_message_id <$> hr_inbox p) l)%list.
Proof.
  revert p. induction l as [|m l IH]; intros p Hok; cbn [note_messages fresh].
  - exists p. by rewrite app_nil_r.
  - destruct (note_message_spec m p Hok) as (b & p1 & Heq & Hok1 & Hb & Hin).
    destruct (IH p1 Hok1) as (p2 & Heq2 & Hin2). exists p2.
    unfold mbind, py_bind. rewrite Heq, Heq2. unfold mret, py_ret. rewrite Hin2, Hin.
    rewrite Hb. destruct (bool_decide _); cbn [negb].
    + by rewrite app_nil_r.
    + rewrite fmap_app. by rewrite <- app_assoc.
Qed.

(** C39. The inbox holds every message once: a started process and every
    command keep its identifiers distinct and never drop a message, whatever
    the transport delivers again and whatever a restart reads back; [receive]
    appends exactly the received messages with new identifiers. *)
Theorem inbox_once :
  (∀ clk t w e file faults mono p,
     process_start config clk t w e file faults mono = Ok p → inbox_ok p) ∧
  (∀ n line p, inbox_ok p →
     let p' := (handle_line config n line p).2 in
     inbox_ok p' ∧ ∃ l, hr_inbox p' = (hr_inbox p ++ l)%list) ∧
  (∀ args p o p', inbox_ok p → handle_receive args p = (Ok o, p') →
     ∃ limit l t, pt_receive limit (hp_transport (hr_peer p)) = (Ok l, t) ∧
       hr_inbox p' = (hr_inbox p ++ fresh (pm_message_id <$> hr_inbox p) l)%list).
Proof.
  split_and!.
  - intros clk t w e file fl mono p. unfold process_start.
    destruct (process_init config clk t w e file fl mono) as [p0|x] eqn:Hi; [|done]. cbn [mbind outcome_bind].
    assert (inbox_grows [] p0) as Hok.
    { revert Hi. unfold process_init. destruct (orchestrator_init _ _ _ _); [|done]. intros [= <-].
      split; [split; [apply NoDup_nil_2|done]|by exists []]. }
    pose proof (grows_maybe_recover [] true p0 Hok) as Hr.
    destruct (maybe_recover true p0) as [[[]|x] p']; [|done]. intros [= <-]. apply Hr.
  - intros n line p Hok. cbn zeta.
    destruct (grows_line (hr_inbox p) n line p) as [Hok' Hl]; [|by split].
    split; [done|]. exists []. by rewrite app_nil_r.
  - intros args p o p' Hok. unfold handle_receive.
    match goal with |- context [mbind _ ?m p] => set (lim := m) end.
    assert (lim p = ((lim p).1, p)) as Hlim by (unfold lim; by destruct (jget args "limit" JNull)).
    unfold mbind at 1, py_bind at 1. rewrite Hlim. destruct (lim p).1 as [limit|]; [|done].
    unfold on_peer at 1, peer_receive, on_transport, zoom, mbind at 1, py_bind at 1.
    destruct (pt_receive limit (hp_transport (hr_peer p))) as [[l|x] t] eqn:Ht; [|done].
    set (p1 := with_peer _ p). assert (inbox_ok p1) as Hok1 by exact Hok.
    destruct (note_messages_spec l p1 Hok1) as (p2 & Heq & Hin).
    unfold mbind at 1, py_bind at 1. rewrite Heq. intros [= <- <-]. exists limit, l, t. done.
Qed.
End Inbox.

(** ** The polling of [recover] *)

Lemma SFleb_refl_le a b : SFleb a b = true → SFleb b b = true.
Proof.
  destruct a as [| | |sa ma ea], b as [|sb| |sb mb eb]; unfold SFleb; cbn; try done; try (by destruct sb).
  all: intros _; destruct sb; by rewrite ?Z.compare_refl, ?Pos.compare_cont_refl.
Qed.

Lemma SFltb_leb a b : SFltb a b = true → SFleb a b = true.
Proof. unfold SFltb, SFleb. by destruct (SFcompare a b) as [[]|]. Qed.

Lemma fmin_le a b : SFleb a a = true → SFleb (fmin a b) a = true.
Proof. intros Ha. unfold fmin. destruct (SFltb b a) eqn:E; [by apply SFltb_leb|done]. Qed.

Section Polling.
Context `{Host} {T W : Type} `{PeerTransport T} `{SettlementAdapter W}.
Variable config : ProcessConfig.
Abbreviation Proc := (HermesProcess T W).
Abbreviation P := (PyM Proc).
Implicit Types (p : Proc).

(** The clock and the sleeps, which only the loop touches. *)
Definition timing p : (nat → spec_float) * nat * list spec_float := (hr_mono p, hr_reads p, hr_sleeps p).

Lemma timing_on_peer tm {B} (m : PyM (HermesPeer T W) B) : stays (λ p, timing p = tm) (on_peer m).
Proof. intros p Hp. unfold on_peer, zoom. by destruct (m (hr_peer p)). Qed.

Lemma timing_on_orch tm {B} (m : PyM (Orchestrator W) B) : stays (λ p, timing p = tm) (on_orch m).
Proof. apply timing_on_peer. Qed.

#[local] Hint Resolve timing_on_peer timing_on_orch : keeping.

Lemma timing_maybe_recover tm b : stays (λ p, timing p = tm) (maybe_recover b : P unit).
Proof.
  assert (∀ item, stays (λ p, timing p = tm) (recover_one b item : P unit)) as Hone
    by (intros [iid j]; unfold recover_one; keep).
  assert (∀ item, stays (λ p, timing p = tm) (recover_message item : P unit)) as Hmsg
    by (intros item; unfold recover_message, note_message; keep).
  assert (stays (λ p, timing p = tm) (snapshot_state : P unit)) as Hsnap
    by (unfold snapshot_state, state_save; keep).
  unfold maybe_recover, state_load. keep.
Qed.

(** The loop ends when the clock says so, after at most [k] sleeps of at most
    the polling interval. *)
Lemma recover_loop_ends n k started max_wait poll p :
  SFleb poll poll = true → (k < n)%nat →
  SFleb max_wait (fsub (hr_mono p (hr_reads p + k)) started) = true →
  (recover_loop n started max_wait poll p).1 ≠ Ok None ∧
  ∃ sl, hr_sleeps (recover_loop n started max_wait poll p).2 = (hr_sleeps p ++ sl)%list ∧
    (List.length sl ≤ k)%nat ∧ Forall (λ t, SFleb t poll = true ∧ SFltb t (S754_zero false) = false) sl.
Proof.
  intros Hpoll. revert k p. induction n as [|n IH]; intros k p Hk Hel; [lia|]. cbn [recover_loop].
  pose proof (timing_maybe_recover (timing p) true p eq_refl) as Ht.
  unfold monotonic, sleep, raise_if, mbind, py_bind, gets, modify, mret, py_ret.
  destruct (maybe_recover true p) as [[[]|e] p1]; cbn [snd] in Ht; injection Ht as Hm Hr Hs.
  2: { split; [done|]. exists []. rewrite app_nil_r. split_and!; [done|cbn; lia|constructor]. }
  cbn beta iota. rewrite Hm, Hr. destruct (existsb is_pending _); cbn [negb orb].
  2: { split; [done|]. exists []. cbn. rewrite app_nil_r. split_and!; [done|lia|constructor]. }
  destruct (SFleb max_wait (fsub (hr_mono p (hr_reads p)) started)) eqn:Hle.
  { split; [done|]. exists []. cbn. rewrite app_nil_r. split_and!; [done|lia|constructor]. }
  destruct k as [|k]; [rewrite Nat.add_0_r in Hel; congruence|].
  set (t := fmin poll _). destruct (SFltb t (S754_zero false)) eqn:Hneg.
  { split; [done|]. exists []. cbn. rewrite app_nil_r. split_and!; [done|lia|constructor]. }
  destruct (IH k (add_sleep t (tick_mono p1))) as (Hne & sl & Hsl & Hlen & Hall);
    [lia|cbn; rewrite Hm, Hr; by rewrite <- Nat.add_succ_comm in Hel|].
  split; [exact Hne|]. exists (t :: sl). split_and!.
  - rewrite Hsl. cbn. rewrite Hs. by rewrite <- app_assoc.
  - cbn. lia.
  - constructor; [|done]. split; [by apply fmin_le|done].
Qed.

(** C36. The polling of [recover] ends and is bounded.  With numbers it
    accepts, and a clock that shows the waiting time elapsed at its reading
    [k], it makes at most [k + 1] passes (so [n > k] passes are enough) and at
    most [k] sleeps, each of at least zero and at most the polling interval;
    with other numbers it raises before it reads the snapshot or the wallet. *)
Theorem recover_polling_bounded n args p :
  match recover_number args "max_wait_seconds" 0, recover_number args "poll_interval_seconds" 1 with
  | Ok max_wait, Ok poll =>
      if SFleb (S754_zero false) max_wait && SFleb max_wait MAX_WAIT
         && (SFleb MIN_POLL poll && SFleb poll MAX_POLL)
      then ∀ k, (k < n)%nat →
        SFleb max_wait (fsub (hr_mono p (hr_reads p + 1 + k)) (hr_mono p (hr_reads p))) = true →
        (handle_recover n args p).1 ≠ Ok None ∧
        ∃ sl, hr_sleeps (handle_recover n args p).2 = (hr_sleeps p ++ sl)%list ∧
          (List.length sl ≤ k)%nat ∧
          Forall (λ t, SFleb t poll = true ∧ SFltb t (S754_zero false) = false) sl
      else ∃ msg, handle_recover n args p = (fail CProcessProtocolError msg, p)
  | Raise e, _ | _, Raise e => handle_recover n args p = (Raise e, p)
  end.
Proof.
  unfold handle_recover, raise_if, lift, mbind, py_bind.
  destruct (recover_number args "max_wait_seconds" 0) as [mw|e]; [|done].
  destruct (recover_number args "poll_interval_seconds" 1) as [po|e]; [|done]. cbn beta iota.
  destruct (SFleb (S754_zero false) mw && SFleb mw MAX_WAIT); cbn [negb andb]; [|by eexists].
  destruct (SFleb MIN_POLL po && SFleb po MAX_POLL) eqn:Hpo; cbn [negb]; [|by eexists].
  apply andb_true_iff in Hpo as [Hpo _]. apply SFleb_refl_le in Hpo. intros k Hk Hel.
  unfold monotonic, mbind, py_bind, gets, modify, mret, py_ret. cbn beta iota.
  destruct (recover_loop_ends n k (hr_mono p (hr_reads p)) mw po (tick_mono p) Hpo Hk) as (Hne & sl & Hsl & Hrest).
  { cbn. by rewrite Nat.add_1_r in Hel. }
  destruct (recover_loop n (hr_mono p (hr_reads p)) mw po (tick_mono p)) as [[[u|]|e] p']; cbn in *;
    [|done|]; (split; [done|]); by exists sl.
Qed.
End Polling.

(** ** The recipient's receipt *)

Section Receipts.
Context `{Host} {T W : Type} `{PeerTransport T} `{SettlementAdapter W}.
Variable config : ProcessConfig.
Abbreviation Proc := (HermesProcess T W).
Implicit Types (p q : Proc).

Definition hr_transport p : T := hp_transport (hr_peer p).

(** A receipt [c] that the named intent, reference and verification justify. *)
Definition justified (args : list (string * json)) p (c : PaymentReceipt) : Prop :=
  ∃ iid rec ref v,
    dget args "intent_id" = Some (JStr iid) ∧ dget (o_intents (hr_orchestrator p)) iid = Some rec ∧
    dget args "settlement_ref" = Some (JStr ref) ∧
    (ad_verify_receipt ref (pi_amount_sat (ir_intent rec)) (o_world (hr_orchestrator p))).1 = Ok v ∧
    rv_verified v = true ∧ rv_settlement_ref v = ref ∧
    pr_intent_id c = iid ∧ pr_recipient c = cf_identity config ∧ pr_settlement_ref c = ref ∧
    pr_amount_sat c = rv_amount_sat v ∧ pr_fee_sat c = rv_fee_sat v ∧ pr_rail c = ad_rail ∧
    receipt_ok c = true ∧ pr_id c = compute_id c.

Definition published_or_not args p (o : outcome (list (string * json))) q : Prop :=
  o_intents (hr_orchestrator q) = o_intents (hr_orchestrator p) ∧
  (is_ok o = false ∧ hr_transport q = hr_transport p ∨
   ∃ c, justified args p c ∧
     hr_transport q = (pt_send (OMessage (MReceipt c)) (hr_transport p)).2).

Lemma build_verified_inv iid qid ref v t t' c :
  build_verified_receipt config iid qid ref v t t' = Ok c →
  pr_intent_id c = iid ∧ pr_recipient c = cf_identity config ∧ pr_settlement_ref c = ref ∧
  pr_amount_sat c = rv_amount_sat v ∧ pr_fee_sat c = rv_fee_sat v ∧ pr_rail c = ad_rail ∧
  receipt_ok c = true ∧ pr_id c = compute_id c.
Proof.
  unfold build_verified_receipt. intros Hb. bind_inv Hb. injection Hb as <-.
  unfold construct in *. match goal with Hc : (if ?b then _ else _) = Ok _ |- _ =>
    destruct b eqn:Hok; [injection Hc as <-|done] end.
  split_and!; done.
Qed.

Ltac steps := repeat (wp_step; cbn beta iota).

(** The end of the handler: publishing a justified receipt. *)
Lemma publish_wp args p0 c (k : json → list (string * json)) q :
  justified args p0 c → pr_recipient c = cf_identity config →
  o_intents (hr_orchestrator q) = o_intents (hr_orchestrator p0) → hr_transport q = hr_transport p0 →
  wp (message_id ← on_peer (publish_receipt (cf_identity config) c);
      mid ← lift (redacted_value message_id); mret (k mid)) (published_or_not args p0) q.
Proof.
  intros Hc Hrcp Hi Ht. unfold on_peer, publish_receipt, peer_send, require_local_author, on_transport.
  steps. cbn [message_author author_of]. steps. rewrite Hrcp, String.eqb_refl. cbn [negb]. steps.
  unfold wp at 1. change (hp_transport (hr_peer q)) with (hr_transport q). rewrite Ht.
  destruct (pt_send (OMessage (MReceipt c)) (hr_transport p0)) as [o' t'] eqn:Hsend. cbn [fst snd].
  assert (∀ o q', hr_transport q' = t' → o_intents (hr_orchestrator q') = o_intents (hr_orchestrator q) →
    published_or_not args p0 o q') as Hyes.
  { intros o q' Htq Hq. split; [congruence|]. right. exists c. split; [done|by rewrite Hsend]. }
  destruct o' as [j|x]; cbn beta iota; [|by apply Hyes]. steps.
  destruct (redacted_value j); [|by apply Hyes]. steps. by apply Hyes.
Qed.

(** C20. A recipient publishes only receipts of settlements its wallet
    confirmed: [verify_publish_receipt] sends nothing, or exactly one receipt,
    for a tracked intent, from the process's own identity, whose reference is
    the operator's, which the adapter verified for exactly the intent's amount
    and returned unchanged, with the amount and fee the adapter reported and
    its computed identifier; no tracked record changes. *)
Theorem published_receipt_was_verified args p :
  wp (handle_verify_publish_receipt config args) (published_or_not args p) p.
Proof.
  enough (∀ p0, p0 = p →
    wp (handle_verify_publish_receipt config args) (published_or_not args p0) p) as Hall by (by apply Hall).
  intros p0 Hp0. unfold handle_verify_publish_receipt, arg. steps.
  assert (∀ e q, o_intents (hr_orchestrator q) = o_intents (hr_orchestrator p0) →
    hr_transport q = hr_transport p0 → published_or_not args p0 (Raise e) q) as Hno
    by (intros e q Hi Ht; split; [done|by left]).
  destruct p as [[t [w e st a d]] inbox ids file fl mono reads sleeps].
  assert (o_intents (hr_orchestrator p0) = d ∧ hr_transport p0 = t ∧ o_world (hr_orchestrator p0) = w)
    as (Hd & Ht & Hw) by (by rewrite Hp0).
  clear Hp0. rewrite Hd, Ht in Hno.
  destruct (dget args "intent_id") as [ji|] eqn:Hji; cbn [of_opt fail]; [|by apply Hno].
  steps. destruct (dget args "quote_id") as [jq|]; cbn [of_opt fail]; [|by apply Hno].
  steps. destruct (dget args "settlement_ref") as [jr|] eqn:Hjr; cbn [of_opt fail]; [|by apply Hno].
  unfold on_orch, on_peer, on_orchestrator. steps.
  cbn [hp_orchestrator hr_peer o_intents with_peer].
  destruct (dict_get d ji) as [record|x] eqn:Hrec; [|by apply Hno].
  match goal with |- wp (match record with _ => _ end) _ ?q =>
    assert (wp (shown ← lift (redacted_value ji);
        raise CProcessProtocolError ("unknown intent " +:+ py_str shown)) (published_or_not args p0) q) as Hunknown
    end.
  { steps. destruct (redacted_value ji); [|by apply Hno].
    wp_step. by apply Hno. }
  destruct record as [record|]; [|exact Hunknown].
  destruct ji as [| | | |iid| |]; try exact Hunknown. clear Hunknown. cbn in Hrec. injection Hrec as Hrec.
  steps. destruct (py_int _) as [amount|]; [|by apply Hno].
  steps. destruct (Z.eqb_spec amount (pi_amount_sat (ir_intent record))) as [->|];
    cbn [negb]; [|by apply Hno].
  steps. destruct jr as [| | | |ref| |]; cbn [as_text as_str of_opt fail]; try by apply Hno.
  unfold on_world. steps.
  cbn [hp_orchestrator hr_peer o_world with_peer]. unfold wp at 1.
  destruct (ad_verify_receipt ref _ w) as [[v|x] w'] eqn:Hv; cbn [fst snd]; [|by apply Hno].
  steps. destruct (rv_verified v) eqn:Hver; cbn [negb]; [|by apply Hno].
  steps. destruct (String.eqb_spec (rv_settlement_ref v) ref) as [Href|]; cbn [negb]; [|by apply Hno].
  unfold clock_reading, now, on_env, read_clock, on_orch, on_peer, on_orchestrator.
  steps. destruct (build_verified_receipt _ _ _ _ _ _ _) as [c|x] eqn:Hb;
    [|by apply Hno].
  apply build_verified_inv in Hb as (Hiid & Hrcp & Hcref & Hamt & Hfee & Hrail & Hok & Hid).
  cbn beta iota. apply publish_wp; [|done|by rewrite Hd|by rewrite Ht].
  exists iid, record, ref, v. rewrite Hd, Hw, Hv. split_and!; done.
Qed.
End Receipts.
