(* ===== verification/ProcessThms.v ===== *)
(** * Properties of the two-peer process *)

From S2P Require Import Prelude.
From S2P Require Import Json.
From S2P Require Import JsonText.
From S2P Require Import JsonFacts.
From S2P Require Import PyLib.
From S2P Require Import Models.
From S2P Require Import ModelsFacts.
From S2P Require Import StateMachine.
From S2P Require Import Adapter.
From S2P Require Import Wavelength.
From S2P Require Import WavelengthThms.
From S2P Require Import Storage.
From S2P Require Import StorageFacts.
From S2P Require Import Policy.
From S2P Require Import PolicyFacts.
From S2P Require Import PolicyInv.
From S2P Require Import PolicyThms.
From S2P Require Import PeerTransport.
From S2P Require Import Peer.
From S2P Require Import Process.
From S2P Require Import ProcessFacts.
From S2P Require Import ProcessInv.
From S2P Require Import ProcessDisk.
From Stdlib Require Import Floats.SpecFloat.
Import Models StateMachine Adapter Storage Policy PeerTransport Peer Process.

(** ** Runs of a process *)

Definition command_name `{Host} (line : string) : string :=
  match parse_command line with Ok c => jc_name c | Raise _ => "" end.

Section Runs.
Context {h0 : Host} {hl : HostLaws h0} {T W : Type} `{PeerTransport T} (A : SettlementAdapter W).
Variable config : ProcessConfig.

#[local] Existing Instance engine_adapter.
Abbreviation World := (W * list call)%type.
Abbreviation Orch := (Orchestrator World).
Abbreviation Proc := (HermesProcess T World).
Abbreviation path := (Some (cf_store_path config)).
Abbreviation SInv := (SInv (W:=W) None None path).
Abbreviation PInv := (PInv (T:=T) (W:=W) config).
Implicit Types (h : list Execution) (p : Proc) (s : Orch).

(** The dispatches a command made: only [execute] makes any. *)
Definition line_dispatches (line : string) p p' : list Execution :=
  if String.eqb (command_name line) "execute"
  then attributed OpExecute (hr_orchestrator p) (hr_orchestrator p') else [].

(** A process on no files; command lines it handles, whether they succeed or
    raise; new processes on the files, over any transport, clock and coming
    write failures.  Records are read back by [recover] and by a new process:
    both happen on current files. *)
Inductive process_runs : list Execution → Proc → Prop :=
  | process_runs_start clk t w e faults mono p :
      store_file e = Missing →
      process_start config clk t (w, []) e Missing faults mono = Ok p → process_runs [] p
  | process_runs_line h p n line :
      process_runs h p → (command_name line = "recover" → files_current p) →
      let p' := (handle_line config n line p).2 in
      process_runs (h ++ line_dispatches line p p') p'
  | process_runs_restart h p clk t e faults mono p' :
      process_runs h p → files_current p → store_file e = store_file (o_env (hr_orchestrator p)) →
      process_start config clk t (o_world (hr_orchestrator p)) e (hr_file p) faults mono = Ok p' →
      process_runs h p'.

Lemma attributed_world op s s1 s2 :
  (o_world s1).2 = (o_world s2).2 → attributed op s s1 = attributed op s s2.
Proof. unfold attributed. by intros ->. Qed.

Lemma keeps_calls h s s' : SInv h s → SInv h s' → (o_world s).2 = (o_world s').2.
Proof.
  intros Hs Hs'. by rewrite (inv_calls _ _ _ _ _ _ _ _ Hs), (inv_calls _ _ _ _ _ _ _ _ Hs').
Qed.

(** The command [execute] and what follows it. *)
Lemma execute_line h {B C} (k : PaymentReceipt → PyM Proc B) (fin : PyM Proc unit)
    (post : option B → PyM Proc C) p :
  (∀ h' r, stays (PInv h') (k r)) → (∀ h', stays (PInv h') fin) → (∀ h' o, stays (PInv h') (post o)) →
  PInv h p →
  let p' := ((r ← try_finally (finished (receipt ← on_orch execute; k receipt)) fin; post r) p).2 in
  PInv (h ++ attributed OpExecute (hr_orchestrator p) (hr_orchestrator p')) p'.
Proof.
  intros Hk Hfin Hpost Hp. cbn zeta.
  pose proof (op_keeps A None None path h OpExecute (hr_orchestrator p) Hp) as Hop.
  cbn [run_op] in Hop. rewrite after_unit in Hop.
  set (p1 := (on_orch (execute : PyM Orch _) p).2).
  assert (hr_orchestrator p1 = (execute (hr_orchestrator p)).2) as Horch.
  { unfold p1, on_orch, on_peer, on_orchestrator, zoom, hr_orchestrator.
    by destruct (execute (hp_orchestrator (hr_peer p))). }
  rewrite <- Horch in Hop. set (h' := (h ++ attributed OpExecute (hr_orchestrator p) (hr_orchestrator p1))%list) in *.
  set (p' := (_ : outcome C * Proc).2).
  assert (PInv h' p') as Hp'.
  { unfold p', finished. revert Hop. fold (PInv h' p1). unfold p1.
    unfold mbind, py_bind, try_finally, mret, py_ret. intros Hop.
    destruct (on_orch execute p) as [[receipt|e] q]; cbn [snd] in Hop.
    - specialize (Hk h' receipt q Hop). destruct (k receipt q) as [[b|e] q1]; cbn [snd] in Hk;
        specialize (Hfin h' q1 Hk); destruct (fin q1) as [[[]|e'] q2];
        first [exact Hfin|exact (Hpost h' (Some b) q2 Hfin)].
    - specialize (Hfin h' q Hop). by destruct (fin q) as [[[]|e'] q2]. }
  rewrite (attributed_world OpExecute (hr_orchestrator p) (hr_orchestrator p') (hr_orchestrator p1)).
  - exact Hp'.
  - by apply (keeps_calls h').
Qed.
Lemma stays_recover h n args p :
  PInv h p → files_current p → PInv h (handle_recover n args p).2.
Proof.
  intros Hp Hc. unfold handle_recover, monotonic, raise_if, mbind, py_bind, lift, gets, modify, mret, py_ret.
  destruct (recover_number args "max_wait_seconds" 0) as [mw|]; [|done].
  destruct (recover_number args "poll_interval_seconds" 1) as [po|]; [|done]. cbn beta iota.
  do 2 (destruct (negb _); [done|]). cbn beta iota.
  match goal with |- context [recover_loop n ?a ?b ?c ?q] =>
    pose proof (recover_loop_keeps A config h _ _ n a b c q (conj Hp (conj eq_refl eq_refl)) Hc)
      as [Hl _]; destruct (recover_loop n a b c q) as [[[[]|]|e] q'] end; done.
Qed.

Lemma stays_snapshot_inv h : stays (PInv h) snapshot_state.
Proof. by apply stays_pinv, stays_snapshot. Qed.

(** What [execute] answers for a receipt. *)
Definition execute_answer (receipt : PaymentReceipt) : PyM Proc (list (string * json)) :=
  st ← jstate (pr_intent_id receipt);
  mret [ ("state", st); ("settlement_ref", jred (pr_settlement_ref receipt));
         ("amount_sat", JInt (pr_amount_sat receipt)); ("fee_sat", JInt (pr_fee_sat receipt)) ].

Definition answer (c : JsonlCommand) (result : option (list (string * json))) : PyM Proc (option string) :=
  mret (jsonl_event (jc_name c) <$> result).

Lemma handle_line_eq n line c p :
  parse_command line = Ok c →
  handle_line config n line p =
  (result ← try_finally (run_command config n c) snapshot_state; answer c result) p.
Proof. intros Hc. unfold handle_line. by rewrite Hc. Qed.

Lemma run_execute n c :
  jc_name c = "execute" →
  run_command config n c = finished (receipt ← on_orch execute; execute_answer receipt).
Proof. intros He. unfold run_command. by rewrite He. Qed.

Lemma run_recover n c :
  jc_name c = "recover" → run_command config n c = (handle_recover n (jc_arguments c) : PyM Proc _).
Proof. intros He. unfold run_command. by rewrite He. Qed.

Lemma handle_line_inv h n line p :
  PInv h p → (command_name line = "recover" → files_current p) →
  let p' := (handle_line config n line p).2 in PInv (h ++ line_dispatches line p p') p'.
Proof.
  intros Hp Hrec. cbn zeta. unfold line_dispatches, command_name in *.
  destruct (parse_command line) as [c|e] eqn:Hparse.
  2: { unfold handle_line. rewrite Hparse. cbn. by rewrite app_nil_r. }
  rewrite (handle_line_eq _ _ _ _ Hparse).
  assert (∀ h' o, stays (PInv h') (answer c o)) as Hans by (intros; apply stays_ret).
  destruct (String.eqb_spec (jc_name c) "execute") as [He|He].
  - rewrite (run_execute _ _ He). apply (execute_line h execute_answer); [|intros; apply stays_snapshot_inv|done..].
    intros h' r. apply stays_pinv. unfold execute_answer, jstate. keep.
  - rewrite app_nil_r. destruct (String.eqb_spec (jc_name c) "recover") as [Hr|Hr].
    + rewrite (run_recover _ _ Hr). unfold mbind, py_bind, try_finally.
      pose proof (stays_recover h n (jc_arguments c) p Hp (Hrec Hr)) as Hh.
      destruct (handle_recover n (jc_arguments c) p) as [o q]. cbn [snd] in Hh.
      pose proof (stays_snapshot_inv h q Hh) as Hs.
      destruct (snapshot_state q) as [[[]|e] q']; [by destruct o|done].
    + apply stays_bind; [|done|done]. apply stays_try_finally; [|apply stays_snapshot_inv].
      apply stays_pinv, (stays_command A); [apply (sinv_engine A config)|done..].
Qed.

Lemma process_runs_inv h p :
  cf_store_path config ≠ "" → process_runs h p → PInv h p.
Proof.
  intros Hpath. assert (path_set path = true) as Hset.
  { cbn. by destruct (String.eqb_spec (cf_store_path config) ""). }
  assert (Inv None None path [] [] Missing
            {| st_path := path; st_intents := ∅; st_approvals := ∅; st_receipts := [] |} []) as H0.
  { split; try done; [by left|constructor|intros x Hx; by apply elem_of_nil in Hx|constructor]. }
  induction 1 as [clk t w e fl mono p Hm Hs|h p n line Hr IH Hc|h p clk t e fl mono p' Hr IH Hc He Hs].
  - eapply (start_keeps A config _ _ _ _ _ clk t (w, []) e Missing fl mono) in Hs as [Hp _];
      [exact Hp|done|exact H0|by right|done|done|by left].
  - by apply handle_line_inv.
  - destruct Hc as [Hsnap Hsaved].
    eapply (start_keeps A config _ _ _ _ _ clk t _ e (hr_file p) fl mono) in Hs as [Hp _];
      [exact Hp|done|exact IH|exact Hsaved|done|done|exact Hsnap].
Qed.
(** The execution was approved: its call is the prepared payment of its
    record, and the record's approval names the intent and that hash. *)
Definition approved_execution (x : Execution) : Prop :=
  ∃ prep a,
    ir_prepared (ex_record x) = Some prep ∧ ir_approval (ex_record x) = Some a ∧
    ex_call x = (pp_prepared_payload prep, pp_prepared_hash prep) ∧
    pa_intent_id a = ex_iid x ∧ pa_prepared_hash a = pp_prepared_hash prep ∧
    pp_fee_sat prep ≤ pi_max_fee_sat (ir_intent (ex_record x)).

Lemma runs_approved h p :
  configured config → process_runs h p →
  (o_world (hr_orchestrator p)).2 = ex_call <$> h ∧ NoDup (ex_iid <$> h) ∧
  ∀ x, x ∈ h → approved_execution x.
Proof.
  intros Hconf Hrun. pose proof (process_runs_inv h p (configured_store config Hconf) Hrun) as Hinv.
  split_and!; [apply Hinv|apply Hinv|]. intros x Hx.
  destruct (inv_history _ _ _ _ _ _ _ _ Hinv x Hx)
    as ((_ & _ & _ & (pr & a & (Hp & Hfee & _) & Ha & Hid & Hh & _) & (pr' & Hp' & Hcall) & _) & _).
  rewrite Hp in Hp'. simplify_eq. by exists pr', a.
Qed.


(** Runs in which no write fails, restarted at will between the commands. *)
Inductive faultless_runs : list Execution → Proc → Prop :=
  | faultless_start clk t w e faults mono p :
      store_file e = Missing → no_faults (Storage.faults e) → no_faults faults →
      process_start config clk t (w, []) e Missing faults mono = Ok p → faultless_runs [] p
  | faultless_line h p n line :
      faultless_runs h p →
      let p' := (handle_line config n line p).2 in
      faultless_runs (h ++ line_dispatches line p p') p'
  | faultless_restart h p clk t e faults mono p' :
      faultless_runs h p → store_file e = store_file (o_env (hr_orchestrator p)) →
      no_faults (Storage.faults e) → no_faults faults →
      process_start config clk t (o_world (hr_orchestrator p)) e (hr_file p) faults mono = Ok p' →
      faultless_runs h p'.

Lemma faultless_inv h p :
  configured config → faultless_runs h p →
  process_runs h p ∧ held (clean config) no_faults p ∧ files_current p.
Proof.
  intros Hconf. pose proof (configured_store config Hconf) as Hpath.
  pose proof (path_is_set config Hpath) as Hset.
  induction 1 as [clk t w e fl mono p Hm He Hf Hs|h p n line Hr (IH & Hi & Hc)
                 |h p clk t e fl mono p' Hr (IH & Hi & Hc) Hfile He Hf Hs].
  - split; [by apply (process_runs_start clk t w e fl mono)|]. split.
    + eapply (intact_start A config Hpath clk t (w, []) e); [done|done| |exact Hs].
      intros st. rewrite store_load_missing by done. intros [= <-]. split; [done|by right].
    + eapply (start_keeps A config [] [] Missing
        {| st_path := path; st_intents := ∅; st_approvals := ∅; st_receipts := [] |} []
        clk t (w, []) e Missing fl mono) in Hs as [_ Hc]; [exact Hc|done| |by right|done|done|by left].
      split; try done; [by left|constructor|intros x Hx; by apply elem_of_nil in Hx|constructor].
  - split; [by apply process_runs_line|]. by apply (intact_line A config Hpath).
  - split; [by eapply process_runs_restart|]. destruct Hc as [Hsnap Hsaved].
    pose proof (process_runs_inv h p Hpath IH) as Hinv. split.
    + eapply (intact_start A config Hpath clk t _ e); [done|done| |exact Hs].
      destruct (store_loaded config (store_file (o_env (hr_orchestrator p))) (o_store (hr_orchestrator p)) e Hset
                  (inv_file _ _ _ _ _ _ _ _ Hinv) Hsaved Hfile) as (st & Hl & Hp & _ & _ & _ & Hs').
      intros st'. rewrite Hl. intros [= <-]. by rewrite Hfile.
    + eapply (start_keeps A config _ _ _ _ _ clk t _ e (hr_file p) fl mono) in Hs as [_ Hc];
        [exact Hc|done|exact Hinv|exact Hsaved|done|done|exact Hsnap].
Qed.

(** C21. When no write fails, the files are current after every command and
    every start: the snapshot file holds exactly the tracked records, the store
    file the accepted intents and approvals.  So such a run, restarted at will
    between commands, is one of the runs that dispatch at most once. *)
Theorem files_stay_current (Hconf : configured config) h p (Hrun : faultless_runs h p) :
  process_runs h p ∧
  (∃ inbox, hr_file p = Doc (sort_json (snapshot_json (o_intents (hr_orchestrator p)) inbox)) ∨
            (hr_file p = Missing ∧ o_intents (hr_orchestrator p) = [])) ∧
  store_saved (store_file (o_env (hr_orchestrator p))) (o_store (hr_orchestrator p)).
Proof.
  destruct (faultless_inv h p Hconf Hrun) as (Hr & _ & [[[? ?]|[inbox ?]] Hsaved]); split; try done.
  - split; [|done]. exists []. by right.
  - split; [|done]. exists inbox. by left.
Qed.
End Runs.

(** ** A concrete process *)

#[local] Existing Instance ref_host.
#[local] Existing Instance engine_adapter.
#[local] Existing Instance sample_adapter.

Abbreviation SampleWorld := (FakeWavecli * list call)%type.
Abbreviation SampleProcess := (HermesProcess Hub SampleWorld).

Definition alice_config : ProcessConfig :=
  {| cf_role := "alice"; cf_identity := alice; cf_channel := "payments"; cf_state_root := "/tmp/alice";
     cf_network := "regtest"; cf_buzz_bin := "buzz"; cf_audit_path := "/tmp/alice/audit.jsonl";
     cf_store_path := "/tmp/alice/store.json"; cf_approver := Some alice |}.

Lemma alice_configured : configured alice_config.
Proof.
  exists "alice", alice, "payments", (Some "/tmp/alice"), "regtest", "buzz", None, None, (Some alice).
  vm_compute. reflexivity.
Qed.

Definition alice_hub : Hub := (connect "bob" bob (connect "alice" alice (hub_init (λ _, 100))).2).2.
#[local] Instance alice_transport : PeerTransport Hub := InMemoryPeerTransport "alice" alice.

Definition seconds (n : nat) : spec_float := float_of_dec false (Z.of_nat n) 0.

(** The daemon answers two payments. *)
Definition sample_world : SampleWorld :=
  (daemon [preview_json; complete_json; complete_json], []).

Definition sample_process (faults : list bool) : outcome SampleProcess :=
  process_start alice_config None alice_hub sample_world sample_env Missing faults seconds.

(** A new process on the files of an old one. *)
Definition restart_of (p : SampleProcess) : outcome SampleProcess :=
  process_start alice_config None alice_hub (o_world (hr_orchestrator p)) (o_env (hr_orchestrator p))
    (hr_file p) [] seconds.

Definition command_line (name : string) (args : list (string * json)) : string :=
  to_json {| jc_name := name; jc_arguments := args |}.

(** A payment, approved by the display prefix of its prepared hash. *)
Definition payment_lines : list string :=
  [ command_line "submit_intent" [("intent", JObj (dump_intent sample_intent))];
    command_line "submit_quote_local" [("quote", JObj (dump_quote sample_quote))];
    command_line "prepare" [];
    command_line "approve" [("intent_id", JStr "intent-1"); ("quote_id", JStr "quote-1");
      ("prepared_hash", JStr (redacted_identifier (pp_prepared_hash sample_prepared)))];
    command_line "execute" [] ].

Fixpoint run_lines (lines : list string) (hp : list Execution * SampleProcess)
    : list Execution * SampleProcess :=
  match lines with
  | [] => hp
  | line :: rest =>
      let p' := (handle_line alice_config 9 line hp.2).2 in
      run_lines rest (hp.1 ++ line_dispatches line hp.2 p', p')
  end.

Lemma run_lines_faultless lines hp :
  faultless_runs sample_adapter alice_config hp.1 hp.2 →
  faultless_runs sample_adapter alice_config (run_lines lines hp).1 (run_lines lines hp).2.
Proof.
  revert hp. induction lines as [|line lines IH]; intros hp Hr; cbn [run_lines]; [done|].
  apply IH. cbn [fst snd]. by apply faultless_line.
Qed.

Definition the_process (o : outcome SampleProcess) (dflt : SampleProcess) : SampleProcess :=
  match o with Ok p => p | Raise _ => dflt end.

Definition idle_process : SampleProcess :=
  {| hr_peer := {| hp_transport := alice_hub; hp_orchestrator :=
       {| o_world := sample_world; o_env := set_clock (λ _, 0) sample_env;
          o_store := {| st_path := Some "/tmp/alice/store.json"; st_intents := ∅;
                        st_approvals := ∅; st_receipts := [] |};
          o_audit := {| au_path := Some "/tmp/alice/audit.jsonl"; au_seq := 0 |}; o_intents := [] |} |};
     hr_inbox := []; hr_inbox_ids := ∅; hr_file := Missing; hr_faults := []; hr_mono := seconds;
     hr_reads := 0; hr_sleeps := [] |}.

Lemma sample_process_starts : sample_process [] = Ok idle_process.
Proof. reflexivity. Qed.

Lemma sample_faultless lines :
  faultless_runs sample_adapter alice_config (run_lines lines ([], idle_process)).1
    (run_lines lines ([], idle_process)).2.
Proof.
  apply run_lines_faultless. cbn [fst snd].
  apply (faultless_start sample_adapter alice_config None alice_hub
           (daemon [preview_json; complete_json; complete_json]) sample_env [] seconds idle_process);
    [reflexivity|constructor|constructor|exact sample_process_starts].
Qed.

Lemma files_stay_current_witness :
  process_runs sample_adapter alice_config (run_lines payment_lines ([], idle_process)).1
    (run_lines payment_lines ([], idle_process)).2.
Proof. exact (proj1 (files_stay_current _ _ alice_configured _ _ (sample_faultless payment_lines))). Defined.

Lemma sample_process_runs lines :
  process_runs sample_adapter alice_config (run_lines lines ([], idle_process)).1
    (run_lines lines ([], idle_process)).2.
Proof. exact (proj1 (faultless_inv _ _ _ _ alice_configured (sample_faultless lines))). Qed.


