(* ===== verification/ProcessRestart.v ===== *)
(** * What a restart restores

    From a snapshot and without a failing write, recovery succeeds and brings
    back every record, with EXECUTING turned into RECONCILIATION_REQUIRED, and
    the inbox. *)

From S2P Require Import Prelude.
From S2P Require Import Json.
From S2P Require Import JsonText.
From S2P Require Import JsonFacts.
From S2P Require Import PyLib.
From S2P Require Import Models.
From S2P Require Import ModelsFacts.
From S2P Require Import StateMachine.
From S2P Require Import Adapter.
From S2P Require Import Envelope.
From S2P Require Import Storage.
From S2P Require Import StorageFacts.
From S2P Require Import Policy.
From S2P Require Import PolicyFacts.
From S2P Require Import PolicyInv.
From S2P Require Import PeerTransport.
From S2P Require Import Peer.
From S2P Require Import Process.
From S2P Require Import ProcessFacts.
From S2P Require Import ProcessInv.
From S2P Require Import ProcessDisk.
From S2P Require Import ProcessProps.
From S2P Require Import WavelengthThms.
From S2P Require Import PolicyThms.
From S2P Require Import ProcessThms.
Import Models StateMachine Adapter Envelope Storage Policy PeerTransport Peer Process.

(** ** The inbox *)

Section Messages.
Context {h : Host} {hl : HostLaws h}.

(** A message that its snapshot entry restores: valid, from its author, with
    an integer time. *)
Definition message_valid (pm : PeerMessage) : Prop :=
  message_ok (pm_message pm) = true ∧ identity_ok (pm_author pm) = true ∧
  ∃ z, pm_published_at pm = JInt z.

Lemma restore_dump_message m :
  message_ok m = true →
  restore_message (JStr (message_class m)) (sort_json (dump_message m)) = Ok m.
Proof.
  destruct m as [i|q|c]; intros Hok; cbn -[sort_json].
  - change (sort_json (dump_model i)) with (sort_json (dump_message (MIntent i))).
    unfold restore_message. cbn -[sort_json].
    replace (validated "PaymentIntent" validate_intent (sort_json (dump_model i))) with (Ok i); [done|].
    symmetry. exact (proj1 (restore_model "PaymentIntent" i) Hok).
  - unfold restore_message. cbn -[sort_json].
    replace (validated "PaymentQuote" validate_quote (sort_json (dump_model q))) with (Ok q); [done|].
    symmetry. exact (proj1 (restore_model "PaymentQuote" q) Hok).
  - unfold restore_message. cbn -[sort_json].
    replace (validated "PaymentReceipt" validate_receipt (sort_json (dump_model c))) with (Ok c); [done|].
    symmetry. exact (proj1 (restore_model "PaymentReceipt" c) Hok).
Qed.

Lemma message_class_known m :
  bool_decide (message_class m ∈ ["PaymentIntent"; "PaymentQuote"; "PaymentReceipt"]) = true.
Proof. by destruct m. Qed.

Lemma restore_dump_peer_message pm :
  message_valid pm → restore_peer_message (sort_json (dump_peer_message pm)) = Ok pm.
Proof.
  intros (Hok & Hauthor & z & Hz). unfold restore_peer_message, dump_peer_message.
  rewrite !subscript_sorted by decide_now. destruct pm as [id m author at_]. cbn [pm_message pm_author pm_published_at pm_message_id] in *.
  subst at_. cbn -[dump_message dump_identity restore_message validated bool_decide].
  rewrite message_class_known. cbn -[dump_message dump_identity restore_message validated].
  rewrite restore_dump_message by done. cbn -[dump_identity validated].
  unfold validated. rewrite (identity_keeps sort_json author (or_intror eq_refl) Hauthor). done.
Qed.
End Messages.

(** ** The records *)

(** What a restart makes of a record. *)
Definition recovered (r : IntentRecord) : IntentRecord :=
  if bool_decide (ir_state r = EXECUTING) then with_state RECONCILIATION_REQUIRED (restored r)
  else restored r.

(** Recovery may add new evidence of the settlement. *)
Definition up_to_evidence (r r' : IntentRecord) : Prop :=
  r' = r ∨ ∃ c, ir_state r = RECONCILIATION_REQUIRED ∧ r' = with_reconciliation c r.

(** Valid messages, and a preparation where one is needed to reconcile. *)
Definition can_restore (r : IntentRecord) : Prop :=
  record_valid r ∧ (ir_state r ∈ [EXECUTING; RECONCILIATION_REQUIRED] → ∃ p, ir_prepared r = Some p).

Section Records.
Context {h0 : Host} {hl : HostLaws h0} {T W : Type} `{PeerTransport T} `{SettlementAdapter W}.
Abbreviation Orch := (Orchestrator W).
Abbreviation Proc := (HermesProcess T W).
Abbreviation P := (PyM Proc).
Implicit Types (p : Proc) (s : Orch) (r : IntentRecord) (d src : list (string * IntentRecord)).

Definition healthy s : Prop := no_faults (faults (o_env s)).

Lemma audit_ok event kwargs s :
  healthy s → ∃ s', audit event kwargs s = (Ok tt, s') ∧ healthy s' ∧ o_intents s' = o_intents s.
Proof.
  intros Hf. pose proof (no_faults_head _ Hf) as Hh. unfold healthy.
  unfold audit, append, read_wall, guarded_write, zoom, gets, modify, raise_if, mbind, py_bind, mret, py_ret.
  cbn. destruct (path_set (au_path (o_audit s))); cbn; rewrite ?Hh; cbn; eexists; (split; [reflexivity|]).
  - split; [by apply no_faults_tail|done].
  - by split.
Qed.

Lemma reconcile_ok iid r pr s :
  healthy s → dget (o_intents s) iid = Some r → ir_state r = RECONCILIATION_REQUIRED →
  ir_prepared r = Some pr →
  ∃ c s', reconcile_settlement iid s = (Ok c, s') ∧ healthy s' ∧
    o_intents s' = dset (o_intents s) iid (with_reconciliation c r).
Proof.
  intros Hf Hd Hst Hp. unfold reconcile_settlement, get_record, on_world, mutate, zoom, gets, modify, raise_if,
    lift, try_except, mbind, py_bind, mret, py_ret.
  rewrite Hd. cbn [of_opt]. rewrite Hst, Hp, bool_decide_eq_true_2 by done. cbn [negb of_opt].
  destruct (ad_reconcile_settlement _ _ _ (o_world s)) as [[c|e] w]; cbn [o_intents];
    rewrite Hd; cbn zeta;
    match goal with |- context [audit ?ev ?kw ?s1] =>
      destruct (audit_ok ev kw s1) as (s' & -> & Hf' & Hd'); [exact Hf|] end;
    do 2 eexists; (split; [reflexivity|]); by split.
Qed.

Lemma recovered_prepared r : ir_prepared (recovered r) = ir_prepared r.
Proof. unfold recovered. by case_bool_decide. Qed.

Lemma recovered_state r :
  ir_state (recovered r) = RECONCILIATION_REQUIRED → ir_state r ∈ [EXECUTING; RECONCILIATION_REQUIRED].
Proof.
  unfold recovered. case_bool_decide as He; [rewrite He; by left|]. cbn. intros ->. right. by left.
Qed.

(** The record to store, after the audit entry of an interrupted execution. *)
Lemma mark_recovered_ok iid r p :
  healthy (hr_orchestrator p) →
  ∃ p1, (if bool_decide (ir_state (restored r) = EXECUTING)
      then on_orch (audit "recovered_executing"
             [kv_str "intent_id" iid; kv_state RECONCILIATION_REQUIRED]) ;;
           mret (with_state RECONCILIATION_REQUIRED (restored r))
      else mret (restored r)) p = (Ok (recovered r), p1) ∧
    healthy (hr_orchestrator p1) ∧ o_intents (hr_orchestrator p1) = o_intents (hr_orchestrator p) ∧
    hr_inbox p1 = hr_inbox p ∧ hr_inbox_ids p1 = hr_inbox_ids p ∧ hr_faults p1 = hr_faults p.
Proof.
  intros Hf. unfold recovered. change (ir_state (restored r)) with (ir_state r).
  destruct (bool_decide _); [|by exists p].
  unfold on_orch, on_peer, on_orchestrator, zoom, mbind, py_bind, mret, py_ret.
  match goal with |- context [audit ?ev ?kw ?s1] =>
    destruct (audit_ok ev kw s1 Hf) as (s' & -> & Hf' & Hd') end.
  eexists. split; [reflexivity|]. done.
Qed.

Lemma recover_one_restores b iid r p :
  can_restore r → healthy (hr_orchestrator p) →
  ∃ p' r', recover_one b (iid, sort_json (dump_record r)) p = (Ok tt, p') ∧
    up_to_evidence (recovered r) r' ∧
    o_intents (hr_orchestrator p') = dset (o_intents (hr_orchestrator p)) iid r' ∧
    healthy (hr_orchestrator p') ∧
    hr_inbox p' = hr_inbox p ∧ hr_inbox_ids p' = hr_inbox_ids p ∧ hr_faults p' = hr_faults p.
Proof.
  intros [Hvalid Hprep] Hf. rewrite dump_record_fields. cbn [sort_json recover_one].
  fold (sort_args (record_fields r)).
  assert (truthy (jget (sort_args (record_fields r)) "intent" JNull) = true) as ->.
  { rewrite jget_sorted by apply record_fields_NoDup.
    change (dget (record_fields r) "intent") with (Some (dump_model (ir_intent r))). apply dump_model_truthy. }
  rewrite restore_dump_record by done. unfold mbind at 1, py_bind at 1, lift. cbn beta iota.
  destruct (mark_recovered_ok iid r p Hf) as (p1 & Heq & Hf1 & Hd1 & Hin1 & Hids1 & Hfl1).
  unfold mbind at 1, py_bind at 1. rewrite Heq.
  set (p2 := with_peer {| hp_transport := hp_transport (hr_peer p1);
    hp_orchestrator := {| o_world := o_world (hr_orchestrator p1); o_env := o_env (hr_orchestrator p1);
      o_store := o_store (hr_orchestrator p1); o_audit := o_audit (hr_orchestrator p1);
      o_intents := dset (o_intents (hr_orchestrator p1)) iid (recovered r) |} |} p1).
  assert (∀ (k : P unit), (intents ← on_orch (gets o_intents);
    on_orch (set_intents (dset intents iid (recovered r))) ;; k) p1 = k p2) as ->.
  { intros k. unfold p2. destruct p1 as [[t [w e st a d]] ? ? ? ? ? ? ?]. reflexivity. }
  assert (o_intents (hr_orchestrator p2) = dset (o_intents (hr_orchestrator p)) iid (recovered r)) as Hd2
    by (cbn; by rewrite <- Hd1).
  destruct (b && bool_decide (ir_state (recovered r) = RECONCILIATION_REQUIRED)) eqn:Hb.
  2: { exists p2, (recovered r). split; [done|]. split; [by left|]. done. }
  apply andb_true_iff in Hb as [_ Hb]. apply bool_decide_eq_true in Hb.
  destruct (Hprep (recovered_state r Hb)) as [pr Hpr]. rewrite <- recovered_prepared in Hpr.
  destruct (reconcile_ok iid (recovered r) pr (hr_orchestrator p2)) as (c & s' & Hrec & Hf' & Hd');
    [exact Hf1|rewrite Hd2; apply dget_dset_eq|done|done|].
  unfold on_orch, on_peer, on_orchestrator, zoom, mbind, py_bind, mret, py_ret.
  change (hp_orchestrator (hr_peer p2)) with (hr_orchestrator p2). rewrite Hrec.
  do 2 eexists. split; [reflexivity|]. split; [right; by exists c|]. split; [|done].
  cbn. change (o_intents s' = dset (o_intents (hr_orchestrator p)) iid (with_reconciliation c (recovered r))).
  rewrite Hd', Hd2. apply dset_dset.
Qed.
(** The loop over the records of a snapshot. *)
Lemma recover_records_restore b L p :
  Forall (λ q, can_restore q.2) L → NoDup (dkeys L) → healthy (hr_orchestrator p) →
  ∃ p', py_for ((λ q, (q.1, sort_json (dump_record q.2))) <$> L) (recover_one b) p = (Ok tt, p') ∧
    healthy (hr_orchestrator p') ∧
    hr_inbox p' = hr_inbox p ∧ hr_inbox_ids p' = hr_inbox_ids p ∧ hr_faults p' = hr_faults p ∧
    ∀ iid, match dget L iid with
           | Some r => ∃ r', dget (o_intents (hr_orchestrator p')) iid = Some r' ∧
                             up_to_evidence (recovered r) r'
           | None => dget (o_intents (hr_orchestrator p')) iid = dget (o_intents (hr_orchestrator p)) iid
           end.
Proof.
  revert p. induction L as [|[k r] L IH]; intros p Hall Hnd Hf; cbn [fmap list_fmap py_for].
  { exists p. done. }
  apply Forall_cons in Hall as [Hr Hall]. unfold dkeys in Hnd. apply NoDup_cons in Hnd as [Hk Hnd].
  destruct (recover_one_restores b k r p Hr Hf) as (p1 & r1 & Heq & Hev & Hd1 & Hf1 & Hin1 & Hids1 & Hfl1).
  destruct (IH p1 Hall Hnd Hf1) as (p' & Heq' & Hf' & Hin' & Hids' & Hfl' & Hget).
  exists p'. unfold mbind, py_bind. cbn [fst snd] in *. rewrite Heq, Heq'.
  split; [done|]. split; [done|]. split_and!; [congruence..|].
  intros iid. cbn [dget]. specialize (Hget iid). destruct (String.eqb_spec iid k) as [->|Hne].
  - apply dget_None in Hk. unfold dkeys in Hget. rewrite Hk, Hd1, dget_dset_eq in Hget. by exists r1.
  - destruct (dget L iid); [done|]. rewrite Hget, Hd1. by apply dget_dset_ne.
Qed.

Lemma insert_item_map {B C} (f : B → C) q (d : list (string * B)) :
  insert_item (q.1, f q.2) (map (λ q, (q.1, f q.2)) d) = map (λ q, (q.1, f q.2)) (insert_item q d).
Proof. induction d as [|q' d IH]; [done|]. cbn. case_match; [done|]. cbn. by rewrite IH. Qed.

Lemma sort_items_map {B C} (f : B → C) (d : list (string * B)) :
  sort_items (map (λ q, (q.1, f q.2)) d) = map (λ q, (q.1, f q.2)) (sort_items d).
Proof. induction d as [|q d IH]; [done|]. cbn [map]. rewrite !sort_items_cons, IH. apply insert_item_map. Qed.

Lemma sort_snapshot_records src :
  sort_args (snapshot_records src) = (λ q, (q.1, sort_json (dump_record q.2))) <$> sort_items src.
Proof.
  unfold sort_args, snapshot_records. rewrite <- (sort_items_map (λ r, sort_json (dump_record r))).
  f_equal. induction src as [|q src IH]; [done|]. cbn. by rewrite IH.
Qed.

(** The loop over the messages of a snapshot, into an inbox without them. *)
Lemma recover_messages_restore L p :
  Forall message_valid L → inbox_ok p → NoDup (pm_message_id <$> (hr_inbox p ++ L)%list) →
  ∃ p', py_for (map sort_json (dump_peer_message <$> L)) recover_message p = (Ok tt, p') ∧
    hr_peer p' = hr_peer p ∧ hr_faults p' = hr_faults p ∧ inbox_ok p' ∧
    hr_inbox p' = (hr_inbox p ++ L)%list.
Proof.
  revert p. induction L as [|m L IH]; intros p Hall Hok Hnd; cbn [fmap list_fmap map py_for].
  { exists p. by rewrite app_nil_r. }
  apply Forall_cons in Hall as [Hm Hall].
  destruct (note_message_spec m p Hok) as (b & p1 & Heq & Hok1 & Hb & Hin).
  assert (b = true) as ->.
  { rewrite Hb, bool_decide_eq_false_2; [done|]. rewrite fmap_app in Hnd.
    apply NoDup_app in Hnd as (_ & Hdis & _). intros Hin'. apply (Hdis _ Hin'). cbn. by left. }
  assert (hr_peer p1 = hr_peer p ∧ hr_faults p1 = hr_faults p) as [Hp1 Hf1].
  { revert Heq. clear. unfold note_message, mbind, py_bind, gets, modify, mret, py_ret. cbn beta iota.
    case_bool_decide; intros [= <-]; done. }
  destruct (IH p1 Hall Hok1) as (p' & Heq' & Hp' & Hf' & Hok' & Hin').
  { rewrite Hin. by rewrite <- app_assoc. }
  assert (recover_message (sort_json (dump_peer_message m)) p = (Ok tt, p1)) as Hone.
  { unfold recover_message, lift, mbind, py_bind. rewrite restore_dump_peer_message by done. by rewrite Heq. }
  exists p'. unfold mbind at 1, py_bind at 1. rewrite Hone, Heq'.
  split_and!; [done|congruence..|done|]. rewrite Hin', Hin. by rewrite <- app_assoc.
Qed.

(** C7. A restart restores what the process remembered: from the snapshot of
    any valid records and inbox, and with no failing write, recovery succeeds
    and brings back exactly those records, with EXECUTING turned into
    RECONCILIATION_REQUIRED and at most new evidence added to a record that is
    being reconciled, and exactly that inbox; a record that was not tracked
    stays untracked. *)
Theorem restart_restores reconcile src inbox p
    (Hfile : hr_file p = Doc (sort_json (snapshot_json src inbox)))
    (Hrecords : Forall (λ q, can_restore q.2) src) (Hkeys : NoDup (dkeys src))
    (Hinbox : Forall message_valid inbox) (Hids : NoDup (pm_message_id <$> inbox))
    (Hfresh : hr_inbox p = [] ∧ hr_inbox_ids p = ∅ ∧ o_intents (hr_orchestrator p) = [])
    (Hfaults : healthy (hr_orchestrator p) ∧ no_faults (hr_faults p)) :
  ∃ p', maybe_recover reconcile p = (Ok tt, p') ∧
    hr_inbox p' = inbox ∧ hr_inbox_ids p' = list_to_set (pm_message_id <$> inbox) ∧
    ∀ iid, match dget src iid with
           | Some r => ∃ r', dget (o_intents (hr_orchestrator p')) iid = Some r' ∧
                             up_to_evidence (recovered r) r'
           | None => dget (o_intents (hr_orchestrator p')) iid = None
           end.
Proof.
  destruct Hfresh as (Hib & Hidset & Hnil), Hfaults as [Hf Hfl].
  rewrite (maybe_recover_doc src inbox) by done. rewrite sort_snapshot_records.
  destruct (recover_records_restore reconcile (sort_items src) p) as (p1 & Heq1 & Hf1 & Hin1 & Hids1 & Hfl1 & Hget);
    [by rewrite sort_items_perm|unfold dkeys in *; by rewrite sort_items_perm|done|].
  destruct (recover_messages_restore inbox p1) as (p2 & Heq2 & Hp2 & Hfl2 & Hok2 & Hin2);
    [done|split; [rewrite Hin1, Hib; apply NoDup_nil_2|by rewrite Hids1, Hidset, Hin1, Hib]|by rewrite Hin1, Hib|].
  unfold mbind, py_bind. rewrite Heq1, Heq2. rewrite Hin1, Hib in Hin2. cbn [app] in Hin2.
  assert (∀ p', hr_peer p' = hr_peer p2 → ∀ iid, match dget src iid with
    | Some r => ∃ r', dget (o_intents (hr_orchestrator p')) iid = Some r' ∧ up_to_evidence (recovered r) r'
    | None => dget (o_intents (hr_orchestrator p')) iid = None end) as Hrec.
  { intros p' Hp' iid. specialize (Hget iid). unfold hr_orchestrator in *. rewrite Hp', Hp2.
    rewrite <- (dget_perm src (sort_items src)) in Hget by (done || by rewrite sort_items_perm).
    destruct (dget src iid); [done|]. by rewrite Hget, Hnil. }
  destruct Hok2 as [_ Hids2]. rewrite Hin2 in Hids2. destruct (truthy _).
  - unfold snapshot_state, state_save, mbind, py_bind, gets, modify, raise_if.
    rewrite no_faults_head by (by rewrite Hfl2, Hfl1). eexists. split; [reflexivity|]. cbn.
    split_and!; [done|done|]. by apply Hrec.
  - exists p2. split_and!; [done..|by apply Hrec].
Qed.
End Records.

(** ** A payment interrupted while it was executing *)

#[local] Existing Instance ref_host.
#[local] Existing Instance engine_adapter.
#[local] Existing Instance sample_adapter.
#[local] Existing Instance alice_transport.

Definition interrupted_record : IntentRecord :=
  {| ir_intent := sample_intent; ir_state := EXECUTING; ir_quote := Some sample_quote;
     ir_prepared := Some sample_prepared; ir_approval := Some sample_approval; ir_receipt := None;
     ir_reconciliation := None; ir_quote_expires_at := 4000; ir_expires_at := 5000 |}.

Definition interrupted_inbox : list PeerMessage :=
  [ {| pm_message_id := "event-1"; pm_message := MQuote sample_quote; pm_author := bob;
       pm_published_at := JInt 7 |} ].

Definition interrupted_process : SampleProcess :=
  with_file (Doc (sort_json (snapshot_json [("intent-1", interrupted_record)] interrupted_inbox)))
    idle_process.

Lemma restart_restores_witness :
  ∃ p', maybe_recover true interrupted_process = (Ok tt, p') ∧ hr_inbox p' = interrupted_inbox ∧
    ∃ r, dget (o_intents (hr_orchestrator p')) "intent-1" = Some r ∧
         ir_state r = RECONCILIATION_REQUIRED.
Proof.
  destruct (restart_restores (T:=Hub) (W:=SampleWorld) true [("intent-1", interrupted_record)]
              interrupted_inbox interrupted_process) as (p' & Heq & Hin & _ & Hget).
  - reflexivity.
  - apply Forall_singleton. split; [|intros _; by eexists].
    split_and!; [vm_compute; reflexivity|intros m [= <-]; vm_compute; reflexivity
                |intros m [= <-]; vm_compute; reflexivity|discriminate].
  - apply NoDup_singleton.
  - apply Forall_singleton. split_and!; [vm_compute; reflexivity..|by eexists].
  - apply NoDup_singleton.
  - done.
  - split; constructor.
  - exists p'. split; [exact Heq|]. split; [exact Hin|].
    destruct (Hget "intent-1") as (r & Hr & Hev). exists r. split; [exact Hr|].
    destruct Hev as [->|(c & Hst & ->)]; [reflexivity|exact Hst].
Defined.
