(* ===== verification/ProcessClock.v ===== *)
(** * A process without a clock never sees anything expire

    The constructor takes [lambda: 0] when it is given no clock, and the
    runner gives it none. *)

From S2P Require Import Prelude.
From S2P Require Import Json.
From S2P Require Import Models.
From S2P Require Import StateMachine.
From S2P Require Import ModelsFacts.
From S2P Require Import Adapter.
From S2P Require Import Storage.
From S2P Require Import StorageFacts.
From S2P Require Import Policy.
From S2P Require Import PolicyFacts.
From S2P Require Import PolicyThms.
From S2P Require Import PeerTransport.
From S2P Require Import Peer.
From S2P Require Import Process.
From S2P Require Import ProcessInv.
From S2P Require Import ProcessThms.
From Stdlib Require Import Floats.SpecFloat.
Import Models StateMachine Adapter Storage Policy PeerTransport Peer Process.

Section Clock.
Context {h0 : Host} {T W : Type} `{PeerTransport T} (A : SettlementAdapter W).
Variable config : ProcessConfig.

#[local] Existing Instance engine_adapter.
Abbreviation World := (W * list call)%type.
Abbreviation Orch := (Orchestrator World).
Abbreviation Proc := (HermesProcess T World).
Implicit Types (p : Proc) (s : Orch).

Definition clock_is (clk : nat → Z) s : Prop := clock (o_env s) = clk.

Lemma clock_audit clk event kwargs : stays (clock_is clk) (audit event kwargs).
Proof.
  intros s Hs. unfold clock_is in *.
  unfold audit, append, read_wall, guarded_write, zoom, gets, modify, raise_if, mbind, py_bind, mret, py_ret.
  cbn. destruct (path_set (au_path (o_audit s))); cbn; [|done].
  by destruct (default false (head (faults (o_env s)))).
Qed.

Lemma clock_store clk g : stays (clock_is clk) (on_store (update_store g ;; store_save)).
Proof.
  intros s Hs. unfold clock_is in *.
  unfold on_store, update_store, store_save, guarded_write, zoom, gets, modify, raise_if, mbind, py_bind.
  cbn. destruct (path_set (st_path (g (o_store s)))); cbn; [|done].
  by destruct (default false (head (faults (o_env s)))).
Qed.

#[local] Instance clock_closed clk : EngineClosed A (clock_is clk).
Proof.
  assert (∀ B (m : PyM World B), stays (clock_is clk) (on_world m)) as Hworld.
  { intros B m s Hs. unfold on_world, zoom. by destruct (m (o_world s)). }
  split; try (by intros; intros s); try (intros; apply Hworld).
  - apply clock_audit.
  - intros iid. apply clock_store.
  - intros [[a b] c]. apply clock_store.
  - intros iid ref. apply clock_store.
Qed.

(** A process started without a clock, and what its command lines make of it. *)
Inductive unclocked : Proc → Prop :=
  | unclocked_start t w e file fl mono p :
      process_start config None t w e file fl mono = Ok p → unclocked p
  | unclocked_line p n line : unclocked p → unclocked (handle_line config n line p).2.

Lemma unclocked_inv p : unclocked p → held (clock_is (λ _, 0)) (λ _, True) p.
Proof.
  induction 1 as [t w e file fl mono p Hs|p n line _ IH].
  - destruct (process_init config None t w e file fl mono) as [p0|x] eqn:Hinit.
    + refine (closed_start A config _ (clock_closed _) (λ _, True) (λ _ _, I) _ _ _ _ _ _ _ _ _ Hinit _ Hs).
      destruct (process_init_found _ _ _ _ _ _ _ _ _ Hinit) as (Henv & _).
      split; [|done]. unfold clock_is. by rewrite Henv.
    + unfold process_start in Hs. by rewrite Hinit in Hs.
  - exact (closed_line A config _ (clock_closed _) (λ _, True) (λ _ _, I) n line p IH).
Qed.

(** C40. The runner's processes enforce no expiry: a process that is given no
    clock reads the time 0 in every state its commands lead to, so neither the
    check of an intent's expiry nor that of a quote's ever fails and no
    executing intent is reported as expired, for any expiry time
    that is not negative, however late it is. *)
Theorem unclocked_never_expires p (Hp : unclocked p) :
  let s := hr_orchestrator p in
  (now s).1 = Ok 0 ∧
  ∀ r, 0 ≤ ir_expires_at r → 0 ≤ ir_quote_expires_at r →
    (check_intent_expired r s).1 = Ok tt ∧ (check_quote_expired r s).1 = Ok tt ∧
    ∀ to_check iid, is_expired 0 to_check (iid, r) = false.
Proof.
  cbv zeta. destruct (unclocked_inv p Hp) as [Hc _]. unfold clock_is in Hc.
  assert (∀ t, 0 ≤ t → passed 0 t = false) as Hpass.
  { intros t Ht. unfold passed. rewrite (proj2 (Z.ltb_ge t 0)) by lia. apply andb_false_r. }
  assert (∃ s', now (hr_orchestrator p) = (Ok 0, s')) as [s' Hnow].
  { unfold now, on_env, read_clock, zoom, gets, modify, mbind, py_bind, mret, py_ret.
    rewrite Hc. by eexists. }
  rewrite Hnow. split; [done|]. intros r Hi Hq.
  unfold check_intent_expired, check_quote_expired, is_expired, mbind, py_bind. rewrite Hnow, !Hpass by done.
  split; [done|]. split; [done|]. intros to_check iid. cbn. rewrite Hpass by done.
  by rewrite !andb_false_r.
Qed.
End Clock.

(** A process whose wall clock says 2033: intent and quote expired long ago. *)
#[local] Existing Instance ref_host.
#[local] Existing Instance engine_adapter.
#[local] Existing Instance sample_adapter.
#[local] Existing Instance alice_transport.

Definition late_env : Env :=
  {| store_file := Missing; audit_file := None; faults := []; clock := λ _, 2000000000;
     wall := λ _, float_of_dec false 2000000000 0; ticks := 0 |}.

Definition late_process : SampleProcess :=
  the_process (process_start alice_config None alice_hub sample_world late_env Missing [] seconds) idle_process.

Lemma unclocked_lines lines hp :
  unclocked sample_adapter alice_config hp.2 →
  unclocked sample_adapter alice_config (run_lines lines hp).2.
Proof.
  revert hp. induction lines as [|line lines IH]; intros hp Hp; [done|].
  apply IH. by apply unclocked_line.
Qed.

Lemma unclocked_never_expires_witness :
  let p := (run_lines payment_lines ([], late_process)).2 in
  (ir_state <$> dget (o_intents (hr_orchestrator p)) "intent-1") = Some SETTLED ∧
  (now (hr_orchestrator p)).1 = Ok 0.
Proof.
  split; [vm_compute; reflexivity|].
  apply (unclocked_never_expires sample_adapter alice_config).
  apply unclocked_lines.
  exact (unclocked_start sample_adapter alice_config alice_hub sample_world late_env Missing [] seconds
           late_process eq_refl).
Defined.
