(* ===== verification/EndToEnd.v ===== *)
(** * The process over the Wavelength adapter

    The components together: command lines drive the process, the process its
    engine, the engine the adapter, and the adapter gives commands to the
    wallet's tool.  The tool is observed by [logged_executor], the engine's
    calls by [logged_adapter]. *)

From S2P Require Import Prelude.
From S2P Require Import Json.
From S2P Require Import Models.
From S2P Require Import ModelsFacts.
From S2P Require Import StateMachine.
From S2P Require Import Adapter.
From S2P Require Import Wavelength.
From S2P Require Import WavelengthFacts.
From S2P Require Import WavelengthThms.
From S2P Require Import Storage.
From S2P Require Import StorageFacts.
From S2P Require Import Policy.
From S2P Require Import PolicyFacts.
From S2P Require Import PolicyThms.
From S2P Require Import PeerTransport.
From S2P Require Import Peer.
From S2P Require Import Process.
From S2P Require Import ProcessFacts.
From S2P Require Import ProcessInv.
From S2P Require Import ProcessThms.
From Stdlib Require Import Floats.SpecFloat.
Import Models StateMachine Adapter Wavelength Storage Policy PeerTransport Peer Process.

(** ** Commands that move funds *)

(** A command of the wallet's tool that dispatches a payment: a raw request of
    the method [Send]. *)
Definition is_send (cmd : list string) : bool :=
  match reverse cmd with
  | _ :: flag :: method :: _ => String.eqb flag "--request-json" && String.eqb method "Send"
  | _ => false
  end.

Lemma is_send_rpc o j t service method request :
  is_send (build_raw_rpc_cmd o j t service method request) = String.eqb method "Send".
Proof.
  unfold is_send, build_raw_rpc_cmd. rewrite !app_assoc.
  change ["dev"; service; method; "--request-json"; request]
    with (["dev"; service] ++ [method; "--request-json"; request])%list.
  rewrite app_assoc, reverse_app. reflexivity.
Qed.

Lemma is_send_activity o kind : is_send (activity_cmd o kind) = false.
Proof.
  unfold is_send, activity_cmd, build_wavecli_activity_cmd. rewrite !app_assoc, reverse_app. reflexivity.
Qed.

Lemma sublist_fmap_inv {A B} (f : A → B) l h :
  l `sublist_of` f <$> h → ∃ h', h' `sublist_of` h ∧ l = f <$> h'.
Proof.
  revert l. induction h as [|x h IH]; intros l; csimpl.
  - intros ->%sublist_nil_r. by exists [].
  - intros [Hl|(l' & -> & Hl)]%sublist_cons_r; destruct (IH _ Hl) as (h' & Hs & ->).
    + exists h'. split; [by constructor|done].
    + exists (x :: h'). split; [by constructor|done].
Qed.

Section EndToEnd.
Context {h0 : Host} {hl : HostLaws h0} {T X : Type} `{PeerTransport T}.
Context {E : WavecliExecutor X} {C : WallClock X}.
Variable config : ProcessConfig.
Variable opts : CliOptions.

Abbreviation Tool := (X * list (list string))%type.
#[local] Instance wavelength : SettlementAdapter Tool := WavelengthAdapter opts.

#[local] Existing Instance engine_adapter.
Abbreviation World := (Tool * list call)%type.
Abbreviation Orch := (Orchestrator World).
Abbreviation Proc := (HermesProcess T World).
Implicit Types (w : World) (s : Orch) (p : Proc) (h : list Execution).

(** The command is the Send of the payload of the call. *)
Definition sends (c : call) (cmd : list string) : Prop :=
  ∃ d, compute_prepared_hash c.1 = c.2 ∧ decode_payload c.1 = Some (JObj d) ∧ cmd = send_cmd opts d.

(** The Sends that were issued belong to different calls, in their order; no
    command reaches a production network. *)
Definition issued w : Prop :=
  Forall on_test_network w.1.2 ∧
  ∃ calls, calls `sublist_of` w.2 ∧ Forall2 sends calls (List.filter is_send w.1.2).
Hypothesis network : cli_network opts = "regtest" ∨ cli_network opts = "signet".

(** An operation that issues no command or one that is no Send. *)
Definition harmless {B} (m : PyM Tool B) : Prop :=
  ∀ x l, wp m (λ _ t, t.2 = l ∨
    ∃ cmd, t.2 = (l ++ [cmd])%list ∧ on_test_network cmd ∧ is_send cmd = false) (x, l).

Lemma issued_harmless {B} (m : PyM Tool B) w : harmless m → issued w → issued (inner m w).2.
Proof.
  destruct w as [[x l] calls]. intros Hm [Hnet Hsent]. specialize (Hm x l).
  unfold wp, inner, zoom, issued in *. cbn [fst snd] in *. destruct (m (x, l)) as [o [x' l']]. cbn in *.
  destruct Hm as [->|(cmd & -> & Hcmd & Hno)]; [done|]. split.
  - apply Forall_app. split; [done|by apply Forall_singleton].
  - rewrite List.filter_app. cbn. rewrite Hno, app_nil_r. done.
Qed.

Lemma prepare_harmless ri amount fee : harmless (Wavelength.prepare opts ri amount fee).
Proof.
  intros x l. eapply wp_mono; [apply prepare_wp|]. intros [pr|e] s'; cbn beta iota.
  - intros (invoice & ? & ? & ? & ? & _ & _ & Hl & _). right. exists (prepare_cmd opts invoice fee).
    split; [exact Hl|]. split; [by apply rpc_on_test_network|apply is_send_rpc].
  - intros [Hl|[invoice Hl]]; [by left|right]. exists (prepare_cmd opts invoice fee).
    split; [exact Hl|]. split; [by apply rpc_on_test_network|apply is_send_rpc].
Qed.

Lemma verify_harmless ref amount kind : harmless (verify_activity opts ref amount kind).
Proof.
  intros x l. eapply wp_mono; [apply verify_wp|]. intros o s' [Hl _]. right. exists (activity_cmd opts kind).
  split; [exact Hl|]. split; [by apply activity_on_test_network|apply is_send_activity].
Qed.

Lemma reconcile_harmless payload hash amount : harmless (Wavelength.reconcile_settlement opts payload hash amount).
Proof.
  intros x l. eapply wp_mono; [apply reconcile_wp|]. intros o s' [[Hl|Hl] _]; [by left|right].
  exists (activity_cmd opts "send").
  split; [exact Hl|]. split; [by apply activity_on_test_network|apply is_send_activity].
Qed.

Lemma issued_execute payload hash w :
  issued w → issued (ad_execute (SettlementAdapter := engine_adapter wavelength) payload hash w).2.
Proof.
  destruct w as [[x l] calls]. intros [Hnet (sent & Hsub & Hsent)]. cbn [fst snd] in *.
  pose proof (execute_wp opts payload hash x l) as Hex. unfold wp in Hex.
  change (issued (inner (Wavelength.execute opts payload hash) ((x, l), (calls ++ [(payload, hash)])%list)).2).
  unfold inner, zoom, issued. cbn [fst snd].
  destruct (Wavelength.execute opts payload hash (x, l)) as [o [x' l']]. cbn [fst snd] in *.
  destruct Hex as [(-> & _)|(d & now & w1 & _ & (Hh & Hd & _) & -> & _)].
  - split; [done|]. exists sent. split; [by apply sublist_inserts_r|done].
  - split; [apply Forall_app; split; [done|]; apply Forall_singleton;
      exact (rpc_on_test_network opts _ _ _ _ _ network)|].
    exists (sent ++ [(payload, hash)])%list. split; [by apply sublist_app|].
    rewrite List.filter_app. apply Forall2_app; [done|]. cbn [List.filter]. unfold send_cmd at 1.
    rewrite is_send_rpc. constructor; [by exists d|constructor].
Qed.

Definition issuing s : Prop := issued (o_world s).

Lemma stays_issuing {B} (m : PyM World B) : (∀ w, issued w → issued (m w).2) → stays issuing (on_world m).
Proof. intros Hm. apply stays_zoom. intros s Hs. by apply Hm. Qed.

Lemma stays_store (m : PyM (Env * IdempotencyStore) unit) : stays issuing (on_store m).
Proof. apply stays_zoom. intros s Hs. by destruct (m _) as [o [e st]]. Qed.

#[local] Instance issuing_closed : EngineClosed wavelength issuing.
Proof.
  split; try (by intros; intros s); try (intros; apply stays_issuing; intros w).
  - intros event kwargs s Hs. apply (wp_audit event kwargs (λ _ s', issuing s') s).
    intros o e a _ _. exact Hs.
  - apply issued_harmless, prepare_harmless.
  - apply issued_execute.
  - apply issued_harmless, verify_harmless.
  - apply issued_harmless, verify_harmless.
  - apply issued_harmless, reconcile_harmless.
  - intros iid. apply stays_store.
  - intros t. apply stays_store.
  - intros iid ref. apply stays_store.
Qed.

Lemma issuing_start clk t w e file faults mono p :
  issued w → process_start config clk t w e file faults mono = Ok p → issuing (hr_orchestrator p).
Proof.
  intros Hw Hs. destruct (process_init config clk t w e file faults mono) as [p0|x] eqn:Hinit.
  - refine (proj1 (closed_start wavelength config _ issuing_closed (λ _, True) (λ _ _, I)
                     _ _ _ _ _ _ _ _ _ Hinit _ Hs)).
    destruct (process_init_found _ _ _ _ _ _ _ _ _ Hinit) as (_ & _ & _ & Hworld).
    split; [|done]. unfold issuing. by rewrite Hworld.
  - unfold process_start in Hs. by rewrite Hinit in Hs.
Qed.

(** The runs of [process_runs] that start with a tool no command was given. *)
Inductive wavelength_runs : list Execution → Proc → Prop :=
  | wavelength_start clk t x e faults mono p :
      store_file e = Missing →
      process_start config clk t ((x, []), []) e Missing faults mono = Ok p → wavelength_runs [] p
  | wavelength_line h p n line :
      wavelength_runs h p → (command_name line = "recover" → files_current p) →
      let p' := (handle_line config n line p).2 in
      wavelength_runs (h ++ line_dispatches line p p') p'
  | wavelength_restart h p clk t e faults mono p' :
      wavelength_runs h p → files_current p → store_file e = store_file (o_env (hr_orchestrator p)) →
      process_start config clk t (o_world (hr_orchestrator p)) e (hr_file p) faults mono = Ok p' →
      wavelength_runs h p'.

Lemma wavelength_runs_inv h p :
  wavelength_runs h p → process_runs wavelength config h p ∧ issuing (hr_orchestrator p).
Proof.
  induction 1 as [clk t x e fl mono p Hm Hs|h p n line Hr [IH Hi] Hc|h p clk t e fl mono p' Hr [IH Hi] Hc He Hs].
  - split; [by eapply process_runs_start|]. eapply issuing_start; [|exact Hs].
    split; [constructor|]. by exists [].
  - split; [by apply process_runs_line|].
    exact (proj1 (closed_line wavelength config _ issuing_closed (λ _, True) (λ _ _, I) n line p (conj Hi I))).
  - split; [by eapply process_runs_restart|]. by eapply issuing_start.
Qed.

(** The Sends belong to executions that were approved. *)
Lemma sent_executions h p :
  configured config → process_runs wavelength config h p → issuing (hr_orchestrator p) →
  ∃ sent, sent `sublist_of` h ∧ NoDup (ex_iid <$> sent) ∧ Forall approved_execution sent ∧
    Forall2 (λ x cmd, sends (ex_call x) cmd) sent
      (List.filter is_send (o_world (hr_orchestrator p)).1.2).
Proof.
  intros Hconf Hruns [_ (calls & Hsub & Hsends)].
  destruct (runs_approved _ _ _ _ Hconf Hruns) as (Hcalls & Hdup & Happ). rewrite Hcalls in Hsub.
  destruct (sublist_fmap_inv _ _ _ Hsub) as (sent & Hsent & ->). exists sent. split; [done|]. split_and!.
  - eapply sublist_NoDup; [exact Hdup|]. by apply fmap_sublist.
  - apply Forall_forall. intros x Hx. apply Happ. by eapply elem_of_sublist.
  - exact (proj1 (Forall2_fmap_l _ _ _ _) Hsends).
Qed.
End EndToEnd.

Section Property.
Context {h0 : Host} {hl : HostLaws h0} {T X : Type} `{PeerTransport T}.
Context {E : WavecliExecutor X} {C : WallClock X}.

End Property.

(** ** A concrete run *)

#[local] Existing Instance ref_host.
#[local] Existing Instance engine_adapter.
#[local] Existing Instance alice_transport.

Abbreviation ToolProcess := (HermesProcess Hub ((FakeWavecli * list (list string)) * list call)).
#[local] Instance tool_adapter : SettlementAdapter (FakeWavecli * list (list string)) :=
  wavelength default_options.

Definition tool_process : outcome ToolProcess :=
  process_start alice_config None alice_hub
    ((daemon [preview_json; complete_json; complete_json], []), []) sample_env Missing [] seconds.

Fixpoint tool_lines (lines : list string) (hp : list Execution * ToolProcess)
    : list Execution * ToolProcess :=
  match lines with
  | [] => hp
  | line :: rest =>
      let p' := (handle_line alice_config 9 line hp.2).2 in
      tool_lines rest (hp.1 ++ line_dispatches line hp.2 p', p')
  end.

Lemma tool_lines_runs lines hp :
  Forall (λ line, command_name line ≠ "recover") lines →
  wavelength_runs alice_config default_options hp.1 hp.2 →
  wavelength_runs alice_config default_options (tool_lines lines hp).1 (tool_lines lines hp).2.
Proof.
  intros Hl. revert hp. induction Hl as [|line lines Hn _ IH]; intros hp Hr; [done|].
  apply IH. cbn [fst snd]. by apply wavelength_line.
Qed.

(** The process before its first command, as [idle_process]. *)
Definition idle_tool_process : ToolProcess :=
  {| hr_peer := {| hp_transport := alice_hub; hp_orchestrator :=
       {| o_world := ((daemon [preview_json; complete_json; complete_json], []), []);
          o_env := set_clock (λ _, 0) sample_env; o_store := o_store (hr_orchestrator idle_process);
          o_audit := o_audit (hr_orchestrator idle_process); o_intents := [] |} |};
     hr_inbox := []; hr_inbox_ids := ∅; hr_file := Missing; hr_faults := []; hr_mono := seconds;
     hr_reads := 0; hr_sleeps := [] |}.

Lemma tool_process_starts : tool_process = Ok idle_tool_process.
Proof. reflexivity. Qed.

Definition paid : list Execution * ToolProcess := tool_lines payment_lines ([], idle_tool_process).

Lemma paid_runs : wavelength_runs alice_config default_options paid.1 paid.2.
Proof.
  apply tool_lines_runs.
  - repeat (apply Forall_cons; split; [vm_compute; discriminate|]). by apply Forall_nil.
  - exact (wavelength_start alice_config default_options None alice_hub
             (daemon [preview_json; complete_json; complete_json]) sample_env [] seconds
             idle_tool_process eq_refl tool_process_starts).
Qed.

