(* ===== verification/Health.v ===== *)
(** * The health probe of the supervisor ([_verify_buzz_relay_health] in [run.py])

    What [urllib.parse] makes of the relay's URL, the URLs that are asked and
    the first answer that counts.  Asking one URL is an operation of the
    network ([urlopen]).  [netloc_ok] says which hosts [urlsplit] accepts (it
    checks brackets, bracketed addresses and the compatibility forms of
    characters outside ASCII); texts are lower-cased within ASCII. *)

From S2P Require Import Prelude.

Module Health.

(** [s.partition(c)]: what is before [c], and what is after it. *)
Fixpoint partition_at (c : ascii) (l : list ascii) : list ascii * option (list ascii) :=
  match l with
  | [] => ([], None)
  | c' :: l' =>
      if Ascii.eqb c c' then ([], Some l')
      else let '(a, b) := partition_at c l' in (c' :: a, b)
  end.

(** [s.rpartition(c)[2]] *)
Fixpoint after_last (c : ascii) (l : list ascii) : list ascii :=
  match partition_at c l with
  | (_, Some _) => match l with _ :: l' => after_last c l' | [] => l end
  | (_, None) => l
  end.

Definition lower (l : list ascii) : list ascii := lower_char <$> l.

Fixpoint drop_control (l : list ascii) : list ascii :=
  match l with c :: l' => if (code c <=? 32)%N then drop_control l' else l | [] => [] end.

(** Leading spaces and controls go, and tabs and line ends anywhere. *)
Definition url_clean (l : list ascii) : list ascii :=
  List.filter (λ c, negb (bool_decide (code c ∈ [9; 10; 13]%N))) (drop_control l).

Definition scheme_char (c : ascii) : bool := is_alnum c || bool_decide (c ∈ chars "+-.").

(** The scheme, in lower case, and what follows it. *)
Definition split_scheme (l : list ascii) : list ascii * list ascii :=
  match partition_at ":" l with
  | (c :: s, Some rest) =>
      if (is_lower c || is_upper c) && forallb scheme_char (c :: s) then (lower (c :: s), rest)
      else ([], l)
  | _ => ([], l)
  end.

Fixpoint until_delimiter (l : list ascii) : list ascii :=
  match l with
  | c :: l' => if bool_decide (c ∈ chars "/?#") then [] else c :: until_delimiter l'
  | [] => []
  end.

Definition split_netloc (l : list ascii) : list ascii :=
  match l with
  | c1 :: c2 :: rest => if Ascii.eqb c1 "/" && Ascii.eqb c2 "/" then until_delimiter rest else []
  | _ => []
  end.

Section Url.
Variable netloc_ok : string → bool.

(** [urlsplit(url)]: its scheme and [netloc]. *)
Definition urlsplit (url : string) : outcome (list ascii * list ascii) :=
  let '(scheme, rest) := split_scheme (url_clean (chars url)) in
  let netloc := split_netloc rest in
  if netloc_ok (of_chars netloc) then Ok (scheme, netloc) else fail CValueError "invalid netloc".

(** [.hostname], empty where it is [None]. *)
Definition hostname (netloc : list ascii) : list ascii :=
  let hostinfo := after_last "@" netloc in
  let host :=
    match partition_at "[" hostinfo with
    | (_, Some bracketed) => (partition_at "]" bracketed).1
    | (_, None) => (partition_at ":" hostinfo).1
    end in
  match partition_at "%" host with
  | (name, Some zone) => lower name ++ "%"%char :: zone
  | (name, None) => lower name
  end.

Definition USES_NETLOC : list string :=
  [ "ftp"; "http"; "gopher"; "nntp"; "telnet"; "imap"; "wais"; "file"; "mms"; "https"; "shttp";
    "snews"; "prospero"; "rtsp"; "rtsps"; "rtspu"; "rsync"; "svn"; "svn+ssh"; "sftp"; "nfs"; "git";
    "git+ssh"; "ws"; "wss"; "itms-services" ].

(** [urlunsplit((scheme, netloc, "", "", ""))] *)
Definition urlunsplit (scheme netloc : list ascii) : list ascii :=
  let url :=
    match netloc with
    | [] => if bool_decide (of_chars scheme ∈ USES_NETLOC) then chars "//" else []
    | _ => chars "//" ++ netloc
    end in
  match scheme with [] => url | _ => scheme ++ ":"%char :: url end.

Fixpoint drop_slashes (l : list ascii) : list ascii :=
  match l with c :: l' => if Ascii.eqb c "/" then drop_slashes l' else l | [] => [] end.
(** [s.rstrip("/")] *)
Definition rstrip_slash (l : list ascii) : list ascii := rev (drop_slashes (rev l)).

Definition health_netloc (netloc : list ascii) : list ascii :=
  match hostname netloc with
  | [] => netloc
  | host =>
      if bool_decide (":"%char ∈ host) then "["%char :: host ++ chars "]:8080" else host ++ chars ":8080"
  end.

(** [os.environ.get(name)] where an empty text counts as none. *)
Definition environ_set (environ : list (string * string)) (name : string) : option string :=
  match dget environ name with Some s => if String.eqb s "" then None else Some s | None => None end.

(** The URLs to ask, in their order. *)
Definition probe_urls (environ : list (string * string)) : outcome (list string) :=
  let explicit := environ_set environ "BUZZ_HEALTH_URL" in
  let relay_url :=
    match explicit with
    | Some url => url
    | None => default "http://127.0.0.1:3000" (dget environ "BUZZ_RELAY_URL")
    end in
  '(scheme, netloc) ← urlsplit relay_url;
  let scheme :=
    if String.eqb (of_chars scheme) "ws" then chars "http"
    else if String.eqb (of_chars scheme) "wss" then chars "https" else scheme in
  let base := rstrip_slash (urlunsplit scheme netloc) in
  let health_base := rstrip_slash (urlunsplit scheme (health_netloc netloc)) in
  Ok match explicit with
     | Some url => [url]
     | None =>
         [ of_chars (health_base ++ chars "/_readiness"); of_chars (health_base ++ chars "/_liveness");
           of_chars (base ++ chars "/_readiness"); of_chars (base ++ chars "/_liveness") ]
     end.
End Url.

(** Asking one URL: the status of the answer, or an exception. *)
Class Network (N : Type) := { urlopen : string → PyM N Z }.

Section Probe.
Context {N : Type} `{Network N}.

(** The loop: an exception or another status goes on to the next URL. *)
Fixpoint probe (urls : list string) : PyM N bool :=
  match urls with
  | [] => mret false
  | url :: rest =>
      ok ← try_except (status ← urlopen url; mret ((200 <=? status) && (status <? 300)))
             (λ _, Some (mret false));
      if (ok : bool) then mret true else probe rest
  end.

Definition verify_buzz_relay_health (netloc_ok : string → bool) (environ : list (string * string))
    : PyM N bool :=
  urls ← lift (probe_urls netloc_ok environ);
  probe urls.
End Probe.
End Health.
