(* ===== verification/Runner.v ===== *)
(** * The drivers of the two-peer example ([run_hermes.py], [run.py])

    The runner of one process, which answers every line of its standard input,
    and the supervisor, which writes the wrapper scripts, starts both processes
    and forwards operator commands to them.

    Arguments are what [argparse] returns; a stream is the list of the lines
    [readline] gives before the end of file, where an interrupt of the runner
    at [readline] is an end of file too.  Directories and files of the
    supervisor, its children and the network are operations of one world. *)

From S2P Require Import Prelude.
From S2P Require Import Json.
From S2P Require Import JsonText.
From S2P Require Import PyLib.
From S2P Require Import Models.
From S2P Require Import Redact.
From S2P Require Import Adapter.
From S2P Require Import Wavelength.
From S2P Require Import Storage.
From S2P Require Import PeerTransport.
From S2P Require Import Transport.
From S2P Require Import Process.
From S2P Require Import Health.
From Stdlib Require Import Floats.SpecFloat.
Import Models Redact Adapter Wavelength Storage PeerTransport Transport Process Health.

Module Runner.

(** [json.dumps(x, sort_keys=True)] *)
Definition line_opts : dump_opts := {| sort_keys := true; compact := false; ensure_ascii := true |}.

(** [str(exc)]; a [KeyError] shows the [repr] of its key. *)
Definition exn_str `{Host} (e : exn) : string :=
  if bool_decide (exn_cls e = CKeyError) then py_repr (JStr (exn_msg e)) else exn_msg e.

(** ** One process ([run_hermes.py]) *)

Record HermesArgs := {
  ha_role : string;
  ha_channel : string;
  ha_pubkey : string;
  ha_approver_pubkey : string;
  ha_state_root : string;
  ha_network : string;
  ha_wave_rpc_server : option string;
  ha_buzz_bin : option string
}.

(** [x or dflt] on an optional string. *)
Definition text_or (x : option string) (dflt : string) : string :=
  match x with Some s => if String.eqb s "" then dflt else s | None => dflt end.

(** How [main] ends: an exit status with a message, an uncaught exception, or
    the lines it wrote and what it left. *)
Inductive main_result (A : Type) :=
  | Exited (status : Z) (stderr : string)
  | Crashed (e : exn)
  | Served (a : A).
Arguments Exited {A}. Arguments Crashed {A}. Arguments Served {A}.

(** What a process finds: what making its directory answers, its files, clocks,
    coming write failures and the worlds of its two command-line tools. *)
Record HermesWorld (X W : Type) := {
  hw_mkdir : string → outcome unit;
  hw_env : Env;
  hw_state_file : document;
  hw_state_faults : list bool;
  hw_mono : nat → spec_float;
  hw_cursor_file : document;
  hw_cursor_faults : list bool;
  hw_clock : nat → Z;
  hw_buzz : X;
  hw_wave : W;
  hw_buzz_bin : option string
}.
Arguments hw_mkdir {X W}. Arguments hw_env {X W}. Arguments hw_state_file {X W}. Arguments hw_state_faults {X W}.
Arguments hw_mono {X W}. Arguments hw_cursor_file {X W}. Arguments hw_cursor_faults {X W}.
Arguments hw_clock {X W}. Arguments hw_buzz {X W}. Arguments hw_wave {X W}.
Arguments hw_buzz_bin {X W}.

Definition make_identity `{Host} (key : string) : outcome AgentIdentity :=
  of_opt CValidationError (validation_text "AgentIdentity" (JStr key))
    (guard_ok identity_ok {| pubkey := key; relay_url := None |}).

Definition build_adapter (network : string) (rpc_server : option string) : outcome CliOptions :=
  wavelength_init
    {| cli_rpc_server := text_or rpc_server "localhost:10029"; cli_network := network;
       cli_no_tls := true; cli_no_macaroons := true |}.

Section Serve.
Context `{Host} {T W : Type} `{PeerTransport T} `{SettlementAdapter W}.
Variable config : ProcessConfig.
Variable n : nat.

Definition error_response (e : exn) : string :=
  dumps line_opts (JObj [("event", JStr "error"); ("error", JStr (redact_sensitive (exn_str e)))]).

(** One line: no answer to a blank one; [None]: [recover] was still polling. *)
Definition serve_line (line : string) (p : HermesProcess T W)
    : option (list string * HermesProcess T W) :=
  let line := py_strip line in
  if String.eqb line "" then Some ([], p)
  else
    match handle_line config n line p with
    | (Ok (Some response), p') => Some ([response], p')
    | (Ok None, _) => None
    | (Raise e, p') => Some ([error_response e], p')
    end.

(** The [while True] loop over the lines of the standard input. *)
Fixpoint serve (lines : list string) (p : HermesProcess T W)
    : option (list string * HermesProcess T W) :=
  match lines with
  | [] => Some ([], p)
  | line :: rest =>
      '(out, p') ← serve_line line p;
      '(outs, p'') ← serve rest p';
      Some (out ++ outs, p'')
  end.
End Serve.

Section Hermes.
Context `{Host} {X W : Type} `{Subprocess X} `{WavecliExecutor W} `{WallClock W}.
Abbreviation Proc := (HermesProcess (BuzzTransport X) W).

(** The checks before anything is built. *)
Definition hermes_checks (args : HermesArgs) : option string :=
  if negb (bool_decide (ha_network args ∈ ["regtest"; "signet"])) then
    Some "only regtest or explicitly selected signet is supported"
  else if String.eqb (ha_network args) "signet" && String.eqb (text_or (ha_wave_rpc_server args) "") "" then
    Some "signet requires --wave-rpc-server"
  else None.

Definition hermes_config (args : HermesArgs) : outcome ProcessConfig :=
  identity ← make_identity (ha_pubkey args);
  approver ← make_identity (ha_approver_pubkey args);
  process_config (ha_role args) identity (ha_channel args) (Some (path_str (ha_state_root args)))
    (ha_network args) "buzz" None None (Some approver).

Definition build_transport (args : HermesArgs) (w : HermesWorld X W) : outcome (BuzzTransport X) :=
  buzz_init (ha_channel args) (Some (path_join (ha_state_root args) "buzz_cursor.json"))
    (hw_buzz w) (hw_cursor_file w) (hw_cursor_faults w) (hw_clock w).

(** The transport and the adapter the process works with. *)
Definition hermes_transport (args : HermesArgs) (w : HermesWorld X W) : PeerTransport (BuzzTransport X) :=
  let buzz_bin := text_or (ha_buzz_bin args) (default "buzz" (hw_buzz_bin w)) in
  @BuzzPeerTransport _ X (SubprocessBuzzExecutor buzz_bin 30) (ha_channel args)
    (Some (path_join (ha_state_root args) "buzz_cursor.json")) (Some (ha_pubkey args)).

(** No clock is given to the process. *)
Definition hermes_process (args : HermesArgs) (w : HermesWorld X W) (config : ProcessConfig)
    (options : CliOptions) (transport : BuzzTransport X) : outcome Proc :=
  @process_start _ _ W (WavelengthAdapter options) config None transport (hw_wave w) (hw_env w)
    (hw_state_file w) (hw_state_faults w) (hw_mono w).

Definition ready_line (args : HermesArgs) : string :=
  dumps {| sort_keys := false; compact := false; ensure_ascii := true |}
    (JObj [("event", JStr "ready"); ("role", JStr (ha_role args))]).

(** [main]: what it writes and the process it leaves; [n] bounds the polling
    of [recover], [None] says it was still polling. *)
Definition hermes_main (n : nat) (args : HermesArgs) (w : HermesWorld X W) (stdin : list string)
    : option (main_result (list string * Proc)) :=
  match hermes_checks args with
  | Some msg => Some (Exited 1 msg)
  | None =>
      match (hw_mkdir w (path_str (ha_state_root args)) ;;
             config ← hermes_config args;
             transport ← build_transport args w;
             options ← build_adapter (ha_network args) (ha_wave_rpc_server args);
             process ← hermes_process args w config options transport;
             Ok (config, options, process)) with
      | Raise e => Some (Crashed e)
      | Ok (config, options, process) =>
          '(out, p) ← @serve _ _ W (hermes_transport args w) (WavelengthAdapter options) config n
                        stdin process;
          Some (Served (ready_line args :: out, p))
      end
  end.
End Hermes.

(** ** The wrapper script of a process ([_write_process_command]) *)

Definition nl : string := String (ascii_of_N 10) "".
Definition backslash : string := String (ascii_of_N 92) "".
Definition quoted (s : string) : string := String dquote "" +:+ s +:+ String dquote "".

(** [shlex.quote] *)
Definition sh_safe (c : ascii) : bool :=
  is_alnum c || bool_decide (c ∈ chars "_@%+=:,./-").
Definition quote_char (c : ascii) : list ascii :=
  if Ascii.eqb c "'" then chars ("'" +:+ quoted "'" +:+ "'") else [c].
Definition shlex_quote (s : string) : string :=
  if String.eqb s "" then "''"
  else if forallb sh_safe (chars s) then s
  else "'" +:+ of_chars (List.flat_map quote_char (chars s)) +:+ "'".

(** An option line of the command. *)
Definition option_line (name value : string) : string :=
  "    --" +:+ name +:+ " " +:+ value +:+ " " +:+ backslash +:+ nl.

Definition credential_line (role_prefix name : string) : string :=
  let var := "BUZZ_" +:+ role_prefix +:+ "_" +:+ name in
  "if [ -n " +:+ quoted ("${" +:+ var +:+ "+x}") +:+ " ]; then" +:+ nl
  +:+ "    export BUZZ_" +:+ name +:+ "=" +:+ quoted ("${" +:+ var +:+ "}") +:+ nl +:+ "fi" +:+ nl.

(** The text of [run.sh]; [root], [python] and [runner] are the paths of the
    repository, the interpreter and [run_hermes.py]. *)
Definition wrapper_text (root python runner : string) (state_root role channel pubkey approver_pubkey
    network : string) (buzz_bin wave_rpc_server : option string) : string :=
  let role_prefix := py_upper role in
  let quoted_option name value :=
    if String.eqb (text_or value "") "" then "" else option_line name (shlex_quote (text_or value "")) in
  "#!/bin/sh" +:+ nl
  +:+ "# Hermes Payments P6 process wrapper — auto-generated, do not edit." +:+ nl
  +:+ "export PYTHONPATH="
  +:+ quoted (root +:+ ":" +:+ path_join root "src" +:+ ":" +:+ path_join root "examples") +:+ nl
  +:+ credential_line role_prefix "PRIVATE_KEY" +:+ credential_line role_prefix "AUTH_TAG"
  +:+ "exec " +:+ shlex_quote python +:+ " " +:+ shlex_quote runner +:+ " " +:+ backslash +:+ nl
  +:+ option_line "role" (shlex_quote role)
  +:+ option_line "channel" (quoted channel)
  +:+ option_line "pubkey" (quoted pubkey)
  +:+ option_line "approver-pubkey" (quoted approver_pubkey)
  +:+ option_line "state-root" (quoted (path_str state_root))
  +:+ option_line "network" (quoted network)
  +:+ quoted_option "buzz-bin" buzz_bin +:+ quoted_option "wave-rpc-server" wave_rpc_server
  +:+ "    " +:+ quoted "$@" +:+ nl.

(** ** Redaction of what the supervisor prints *)

Definition REDACT_IDENTIFIER_KEYS : list string :=
  [ "id"; "intent_id"; "quote_id"; "message_id"; "prepared_hash"; "settlement_ref"; "payment_hash";
    "author"; "pubkey"; "channel"; "state_root" ].

(** [_redact_payload] on the value of one key. *)
Fixpoint redact_member (key : string) (value : json) : json :=
  match value with
  | JStr s =>
      if (32 <=? py_len s) && bool_decide (key ∈ REDACT_IDENTIFIER_KEYS)
      then JStr (redacted_identifier s) else value
  | JObj d => JObj (List.map (λ p, (p.1, redact_member p.1 p.2)) d)
  | JList l =>
      JList (List.map (λ item,
        match item with
        | JObj d => JObj (List.map (λ p, (p.1, redact_member p.1 p.2)) d)
        | _ => item
        end) l)
  | _ => value
  end.

Definition redact_payload (payload : json) : outcome json :=
  match payload with
  | JObj d => Ok (JObj (List.map (λ p, (p.1, redact_member p.1 p.2)) d))
  | _ => fail CAttributeError ("'" +:+ type_name payload +:+ "' object has no attribute 'items'")
  end.

(** ** The supervisor ([run.py]) *)

(** Child processes, by role, and files, by path: [poll] gives the exit status of one that ended,
    [readline] no text at its end of file, [wait] whether it ended in time. *)
Class ChildProcesses (C : Type) := {
  cp_exists : string → PyM C bool;
  cp_spawn : string → string → PyM C unit;
  cp_pid : string → PyM C Z;
  cp_poll : string → PyM C (option Z);
  cp_write : string → string → PyM C unit;
  cp_readline : string → PyM C string;
  cp_close_stdin : string → PyM C unit;
  cp_terminate : string → PyM C unit;
  cp_wait : string → PyM C bool;
  cp_kill : string → PyM C unit;
  cp_mkdir : string → PyM C unit;
  cp_write_text : string → string → PyM C unit;
  cp_chmod : string → Z → PyM C unit
}.

(** The children, what was printed, and which children were started. *)
Record Supervisor (C : Type) := {
  sv_children : C;
  sv_stdout : list string;
  sv_stderr : list string;
  sv_started : list string
}.
Arguments sv_children {C}. Arguments sv_stdout {C}. Arguments sv_stderr {C}. Arguments sv_started {C}.

Section Supervise.
Context `{Host} {C : Type} `{ChildProcesses C}.
Abbreviation V := (PyM (Supervisor C)).

Definition on_children {A} (m : PyM C A) : V A :=
  zoom sv_children (λ c s, {| sv_children := c; sv_stdout := sv_stdout s; sv_stderr := sv_stderr s;
                              sv_started := sv_started s |}) m.
Definition print_out (line : string) : V unit :=
  modify (λ s, {| sv_children := sv_children s; sv_stdout := sv_stdout s ++ [line];
                  sv_stderr := sv_stderr s; sv_started := sv_started s |}).
Definition print_err (line : string) : V unit :=
  modify (λ s, {| sv_children := sv_children s; sv_stdout := sv_stdout s;
                  sv_stderr := sv_stderr s ++ [line]; sv_started := sv_started s |}).
Definition mark_started (name : string) : V unit :=
  modify (λ s, {| sv_children := sv_children s; sv_stdout := sv_stdout s; sv_stderr := sv_stderr s;
                  sv_started := sv_started s ++ [name] |}).

Definition stop_process (name : string) : PyM C unit :=
  status ← cp_poll name;
  match status with
  | Some _ => mret tt
  | None =>
      try_except (cp_close_stdin name) (λ _, Some (mret tt)) ;;
      cp_terminate name ;;
      ended ← cp_wait name;
      if (ended : bool) then mret tt
      else
        cp_kill name ;;
        ended ← cp_wait name;
        raise_if (negb ended) CException "timed out"
  end.

Definition start_process (state_root role : string) : PyM C unit :=
  let wrapper := path_join state_root "run.sh" in
  exists_ ← cp_exists wrapper;
  raise_if (negb exists_) CRuntimeError ("process wrapper not found: " +:+ wrapper) ;;
  cp_spawn role wrapper ;;
  line ← cp_readline role;
  let ready_line := py_strip line in
  if String.eqb ready_line "" then
    stop_process role ;;
    raise CRuntimeError ("process " +:+ role +:+ " closed stdout before ready")
  else
    match loads ready_line with
    | None =>
        stop_process role ;;
        raise CRuntimeError ("process " +:+ role +:+ " emitted invalid ready JSON")
    | Some (JObj ready) =>
        if negb (py_eq (jget ready "event" JNull) (JStr "ready"))
           || negb (py_eq (jget ready "role" JNull) (JStr role)) then
          stop_process role ;;
          raise CRuntimeError ("process " +:+ role +:+ " emitted unexpected ready event")
        else mret tt
    | Some j => raise CAttributeError ("'" +:+ type_name j +:+ "' object has no attribute 'get'")
    end.

Definition send_jsonl (name : string) (payload : list (string * json)) : PyM C json :=
  cp_write name (dumps line_opts (JObj payload) +:+ nl) ;;
  line ← cp_readline name;
  let response := py_strip line in
  if String.eqb response "" then
    pid ← cp_pid name; raise CRuntimeError ("process " +:+ show_Z pid +:+ " closed stdout")
  else lift (of_opt CJSONDecodeError (json_error_text response) (loads response)).

Definition check_children (names : list string) : PyM C unit :=
  py_for names (λ name,
    status ← cp_poll name;
    match status with
    | Some code => raise CRuntimeError ("process " +:+ name +:+ " exited with " +:+ show_Z code)
    | None => mret tt
    end).

Definition children_names : list string := ["alice"; "bob"].

(** One operator line: [Some status] ends the loop. *)
Definition operator_line (line : string) : V (option Z) :=
  if String.eqb (py_strip line) "" then mret None
  else
    match loads line with
    | None => raise CRuntimeError "supervisor input must be JSON"
    | Some (JObj command) =>
        if py_eq (jget command "command" JNull) (JStr "shutdown") then mret (Some 0)
        else
          let target := jget command "target" JNull in
          match target with
          | JStr name =>
              if bool_decide (name ∈ children_names) then
                response ← on_children (send_jsonl name (dpop command "target"));
                redacted ← lift (redact_payload response);
                print_out (dumps jsonl_opts
                  (JObj [("event", JStr "response"); ("target", target); ("response", redacted)])) ;;
                mret None
              else raise CRuntimeError "supervisor command target must be alice or bob"
          | _ =>
              if hashable target then raise CRuntimeError "supervisor command target must be alice or bob"
              else raise CTypeError "unhashable type"
          end
    | Some _ => raise CRuntimeError "supervisor input must be a JSON object"
    end.

(** What happens while the loop waits: [select] returns without input or a
    line is read, or the operator interrupts. *)
Inductive operator_event := Idle | Line (line : string) | Interrupt.

(** The operator loop over what happens until the end of file; [None]: a
    [KeyboardInterrupt] left it. *)
Fixpoint run_operator_loop (input : list operator_event) : V (option Z) :=
  on_children (check_children children_names) ;;
  match input with
  | [] => mret (Some 0)
  | Idle :: rest => run_operator_loop rest
  | Interrupt :: _ => mret None
  | Line line :: rest =>
      status ← operator_line line;
      match status with Some z => mret (Some z) | None => run_operator_loop rest end
  end.

Record SupervisorArgs := {
  sa_channel : string;
  sa_alice_state_root : string;
  sa_bob_state_root : string;
  sa_alice_pubkey : string;
  sa_bob_pubkey : string;
  sa_approver_pubkey : string;
  sa_network : string;
  sa_alice_wave_rpc_server : option string;
  sa_bob_wave_rpc_server : option string;
  sa_skip_buzz_health : bool;
  sa_buzz_bin : option string
}.

(** The checks of [main] before the health probe; [environ] holds the names of
    the environment. *)
Definition supervisor_checks (a : SupervisorArgs) (environ : list string) : option string :=
  let no_server s := String.eqb (text_or s "") "" in
  let missing := List.filter (λ name, negb (bool_decide (name ∈ environ)))
                   ["BUZZ_ALICE_PRIVATE_KEY"; "BUZZ_BOB_PRIVATE_KEY"] in
  let bad_key := List.filter (λ p, negb (py_len p.2 =? 64))
                   [("alice-pubkey", sa_alice_pubkey a); ("bob-pubkey", sa_bob_pubkey a);
                    ("approver-pubkey", sa_approver_pubkey a)] in
  if negb (bool_decide (sa_network a ∈ ["regtest"; "signet"])) then
    Some "P6 supervisor supports regtest or explicitly selected signet"
  else if String.eqb (sa_network a) "signet"
          && (no_server (sa_alice_wave_rpc_server a) || no_server (sa_bob_wave_rpc_server a)) then
    Some "signet requires --alice-wave-rpc-server and --bob-wave-rpc-server"
  else
    match bad_key with
    | (name, _) :: _ => Some (name +:+ " must be a 64-character hex string")
    | [] =>
        if negb (String.eqb (sa_alice_pubkey a) (sa_bob_pubkey a)) && negb (Nat.eqb (List.length missing) 0)
        then Some ("distinct Hermes identities require external variables: "
                   +:+ String.concat ", " missing)
        else None
    end.

(** The wrapper of a role, with the default wallet endpoint. *)
Definition role_wrapper (root python runner : string) (a : SupervisorArgs) (role : string) : string :=
  let alice := String.eqb role "alice" in
  wrapper_text root python runner
    (if alice then sa_alice_state_root a else sa_bob_state_root a) role (sa_channel a)
    (if alice then sa_alice_pubkey a else sa_bob_pubkey a) (sa_approver_pubkey a) (sa_network a)
    (sa_buzz_bin a)
    (Some (text_or (if alice then sa_alice_wave_rpc_server a else sa_bob_wave_rpc_server a)
             "localhost:10029")).

Definition status_check (name : string) : V unit :=
  status ← on_children (send_jsonl name [("command", JStr "status")]);
  redacted ← lift (redact_payload status);
  print_out (dumps jsonl_opts
    (JObj [("event", JStr "status"); ("role", JStr name); ("status", redacted)])).

(** The [try] of [main], its handlers and its [finally]. *)
Definition supervise (a : SupervisorArgs) (input : list operator_event) : V Z :=
  try_finally
    (ended ←
       try_except
         (on_children (start_process (sa_alice_state_root a) "alice") ;; mark_started "alice" ;;
          on_children (start_process (sa_bob_state_root a) "bob") ;; mark_started "bob" ;;
          py_for children_names status_check ;;
          run_operator_loop input)
         (λ e, Some (print_err ("supervisor error: " +:+ exn_str e) ;; mret (Some 1)));
     match ended with
     | Some status => mret status
     | None => print_err "interrupted, stopping children" ;; mret 130
     end)
    (started ← gets sv_started;
     py_for (List.filter (λ name, bool_decide (name ∈ started)) children_names)
       (λ name, on_children (stop_process name))).

(** [_write_process_command] for a role; 448 is [0o700]. *)
Definition write_process_command (root python runner : string) (a : SupervisorArgs) (role : string)
    : PyM C unit :=
  let state_root := if String.eqb role "alice" then sa_alice_state_root a else sa_bob_state_root a in
  let cmd_path := path_join state_root "run.sh" in
  cp_mkdir (path_str state_root) ;;
  cp_write_text cmd_path (role_wrapper root python runner a role) ;;
  cp_chmod cmd_path 448.

(** [main] after [parse_args]; [root], [python] and [runner] as for
    [wrapper_text]. *)
Definition supervisor_main `{Network C} (netloc_ok : string → bool) (root python runner : string)
    (a : SupervisorArgs) (environ : list (string * string)) (input : list operator_event) : V Z :=
  match supervisor_checks a environ.*1 with
  | Some msg => print_err msg ;; mret 1
  | None =>
      healthy ← (if sa_skip_buzz_health a then mret true
                 else on_children (verify_buzz_relay_health netloc_ok environ));
      if negb healthy then print_err "Buzz relay health check failed" ;; mret 1
      else
        on_children (write_process_command root python runner a "alice") ;;
        on_children (write_process_command root python runner a "bob") ;;
        supervise a input
  end.
End Supervise.
End Runner.
