(* ===== verification/RunnerThms.v ===== *)
(** * Properties of the drivers: answers, redaction, forwarding, clock *)

From S2P Require Import Prelude.
From S2P Require Import Json.
From S2P Require Import JsonText.
From S2P Require Import JsonFacts.
From S2P Require Import Models.
From S2P Require Import ModelsFacts.
From S2P Require Import Adapter.
From S2P Require Import Storage.
From S2P Require Import Policy.
From S2P Require Import PolicyFacts.
From S2P Require Import PolicyThms.
From S2P Require Import PeerTransport.
From S2P Require Import Peer.
From S2P Require Import Process.
From S2P Require Import ProcessFacts.
From S2P Require Import ProcessInv.
From S2P Require Import ProcessProps.
From S2P Require Import ProcessThms.
From S2P Require Import Runner.
From Stdlib Require Import Floats.SpecFloat.
Import Models Adapter Storage Policy PeerTransport Peer Process Runner.

(** ** One line of printable text *)

Section Lines.
Context `{Host}.

(** Printable ASCII: no control character, so no newline. *)
Definition plain (c : ascii) : bool := (32 <=? code c)%N && (code c <=? 126)%N.
Abbreviation plains l := (forallb plain l = true).

Lemma plains_app l1 l2 : plains l1 → plains l2 → plains (l1 ++ l2).
Proof. intros H1 H2. by rewrite forallb_app, H1, H2. Qed.

Lemma plains_join sep ls : plains sep → Forall (λ l, plains l) ls → plains (join sep ls).
Proof.
  intros Hsep. induction 1 as [|l [|l' ls] Hl Hls IH]; [done|done|].
  change (plains (l ++ sep ++ join sep (l' :: ls))). by repeat apply plains_app.
Qed.

Lemma plain_hex n : (n < 16)%N → plain (hex_digit n) = true.
Proof.
  intros Hn. assert (∃ k, (k < 16)%nat ∧ n = N.of_nat k) as (k & Hk & ->)
    by (exists (N.to_nat n); lia).
  do 16 (destruct k as [|k]; [vm_compute; reflexivity|]). lia.
Qed.

Lemma plain_u_escape n : (n < 65536)%N → plains (u_escape n).
Proof.
  intros Hn. unfold u_escape. apply plains_app; [done|]. cbn [forallb].
  rewrite !plain_hex; [done|apply N.mod_lt; done..|apply N.Div0.div_lt_upper_bound; lia].
Qed.

Lemma plain_escape n : plains (escape_point n).
Proof.
  unfold escape_point. destruct (short_escape n) as [e|] eqn:He.
  - revert He. unfold short_escape. repeat case_match; intros [= <-]; done.
  - destruct ((32 <=? n)%N && (n <=? 126)%N) eqn:Hn.
    + cbn. apply andb_true_iff in Hn as [H1%N.leb_le H2%N.leb_le]. unfold plain, code.
      rewrite N_ascii_embedding by lia.
      by rewrite (proj2 (N.leb_le _ _) H1), (proj2 (N.leb_le _ _) H2).
    + destruct (N.ltb_spec n 65536); [by apply plain_u_escape|].
      assert (∀ x, (x mod 1024 < 1024)%N) as Hx by (intros; by apply N.mod_lt).
      apply plains_app; apply plain_u_escape;
        [specialize (Hx ((n - 65536) / 1024)%N)|specialize (Hx (n - 65536)%N)]; lia.
Qed.

Lemma plain_dump_str o s : ensure_ascii o = true → plains (dump_str o s).
Proof.
  intros Ho. unfold dump_str, escape_str. rewrite Ho. change (dquote :: ?l) with ([dquote] ++ l)%list.
  apply (plains_app [dquote]); [done|]. apply plains_app; [|done].
  induction (utf8_points (chars s)) as [|n l IH]; [done|]. csimpl. apply plains_app; [apply plain_escape|done].
Qed.

Lemma plain_digits l : all_digits l = true → plains l.
Proof.
  unfold all_digits. induction l as [|c l IH]; cbn; [done|]. intros [Hc Hl]%andb_true_iff.
  rewrite IH by done. revert Hc. unfold is_digit, plain.
  intros [H1%N.leb_le H2%N.leb_le]%andb_true_iff. rewrite andb_true_r.
  apply andb_true_iff. split; apply N.leb_le; lia.
Qed.

Lemma plain_show z : plains (show_digits z).
Proof.
  unfold show_digits. destruct (Z.ltb_spec z 0).
  - destruct (show_nonneg_spec (- z)) as (c & ds & -> & Hd & _); [lia|].
    change (plains (c :: ds)). by apply plain_digits.
  - destruct (show_nonneg_spec z) as (c & ds & -> & Hd & _); [lia|]. by apply plain_digits.
Qed.

Hypothesis float_repr_plain : ∀ f, plains (chars (float_repr f)).

Lemma plain_dump o j : ensure_ascii o = true → plains (dump_chars o j).
Proof.
  intros Ho. assert (plains (sep_item o) ∧ plains (sep_key o)) as [Hi Hk]
    by (unfold sep_item, sep_key; by destruct (compact o)).
  induction j as [|b|z|f|s|l IH|d IH] using json_rect'; try done.
  - by destruct b.
  - apply plain_show.
  - unfold dump_chars, dump_float. destruct f as [|[]| |]; try done; apply float_repr_plain.
  - by apply plain_dump_str.
  - cbn [dump_chars]. apply (plains_app ["["%char]); [done|]. apply plains_app; [|done].
    apply plains_join; [done|]. induction IH as [|x l Hx IH IHl]; constructor; auto.
  - cbn [dump_chars]. apply (plains_app ["{"%char]); [done|]. apply plains_app; [|done].
    apply plains_join; [done|]. induction IH as [|p d Hp IH IHd]; constructor; auto.
    apply plains_app; [by apply plain_dump_str|]. by apply plains_app.
Qed.

Lemma plain_dumps o j : ensure_ascii o = true → plains (chars (dumps o j)).
Proof. intros Ho. unfold dumps. rewrite chars_of_chars. by apply plain_dump. Qed.
End Lines.

Section Answers.
Context `{Host} {T W : Type} `{PeerTransport T} `{SettlementAdapter W}.
Variable config : ProcessConfig.
Variable n : nat.
Implicit Types (p : HermesProcess T W).

Definition blank (line : string) : bool := String.eqb (py_strip line) "".

(** What the runner answers to one line. *)
Definition answers (line : string) p (out : list string) p' : Prop :=
  if blank line then out = [] ∧ p' = p
  else ∃ response, out = [response] ∧
    ((handle_line config n (py_strip line) p = (Ok (Some response), p')) ∨
     ∃ e, handle_line config n (py_strip line) p = (Raise e, p') ∧ response = error_response e).

Inductive conversation : list string → HermesProcess T W → list string → HermesProcess T W → Prop :=
  | conversation_end p : conversation [] p [] p
  | conversation_line line lines p p1 p' out outs :
      answers line p out p1 → conversation lines p1 outs p' →
      conversation (line :: lines) p (out ++ outs) p'.

Lemma handle_line_answer line p response p' :
  handle_line config n line p = (Ok (Some response), p') → ∃ name d, response = jsonl_event name d.
Proof.
  unfold handle_line, mbind, py_bind, lift. destruct (parse_command line) as [c|e]; [|done].
  destruct (try_finally _ _ p) as [[[d|]|e] q]; cbn; intros [= <- <-]; by exists (jc_name c), d.
Qed.

End Answers.

(** The runner of [idle_process] on a status, a blank line and a command that
    does not exist. *)
Definition runner_lines : list string :=
  [command_line "status" [] +:+ nl; nl; command_line "steal" [] +:+ nl].


(** ** Redaction of what the supervisor prints *)

(** A long identifier in the clear: a text of at least 32 characters under a
    listed key, reached through objects and lists of objects. *)
Fixpoint exposed (key : string) (value : json) : bool :=
  match value with
  | JStr s => (32 <=? py_len s) && bool_decide (key ∈ REDACT_IDENTIFIER_KEYS)
  | JObj d => existsb (λ p, exposed p.1 p.2) d
  | JList l =>
      existsb (λ item, match item with JObj d => existsb (λ p, exposed p.1 p.2) d | _ => false end) l
  | _ => false
  end.

Lemma redact_members_hide d :
  Forall (λ p, ∀ key, exposed key (redact_member key p.2) = false) d →
  existsb (λ p, exposed p.1 p.2) (List.map (λ p, (p.1, redact_member p.1 p.2)) d) = false.
Proof. induction 1 as [|p d Hp _ IH]; [done|]. cbn. by rewrite Hp. Qed.

Lemma redact_hides key j : exposed key (redact_member key j) = false.
Proof.
  revert key. induction j as [|b|z|f|s|l IH|d IH] using json_rect'; intros key; try done.
  - cbn [redact_member]. destruct ((32 <=? py_len s) && _) eqn:Hs; cbn [exposed]; [|done].
    apply andb_false_iff. left. apply Z.leb_gt. pose proof (redacted_length s). lia.
  - cbn [redact_member exposed]. induction IH as [|x l Hx _ IHl]; [done|]. cbn. rewrite IHl, orb_false_r.
    specialize (Hx ""). destruct x; done.
  - cbn [redact_member exposed]. by apply redact_members_hide.
Qed.

Lemma redact_keeps key j : exposed key j = false → redact_member key j = j.
Proof.
  revert key. induction j as [|b|z|f|s|l IH|d IH] using json_rect'; intros key; try done; cbn.
  - by intros ->.
  - intros He. f_equal. revert He. induction IH as [|x l Hx _ IHl]; [done|]. cbn.
    intros [He1 He2]%orb_false_iff. rewrite (IHl He2). f_equal.
    specialize (Hx ""). destruct x; try done. by apply Hx.
  - intros He. f_equal. revert He. induction IH as [|[k v] d Hp _ IHd]; [done|]. cbn in *.
    intros [He1 He2]%orb_false_iff. by rewrite (IHd He2), Hp.
Qed.

(** C38. What the supervisor prints of a child's response: [redact_payload]
    keeps every key, leaves no text of 32 or more characters under a listed
    key, however deep in objects and lists of objects, and changes nothing
    where there is none; a response that is not an object is an error. *)
Theorem redaction_hides_identifiers (payload : json) :
  match redact_payload payload with
  | Ok j => ∃ d d', payload = JObj d ∧ j = JObj d' ∧ dkeys d' = dkeys d ∧
      (∀ key, dget d' key = redact_member key <$> dget d key) ∧
      exposed "" j = false ∧ (exposed "" payload = false → j = payload)
  | Raise e => exn_cls e = CAttributeError ∧ ∀ d, payload ≠ JObj d
  end.
Proof.
  destruct payload as [| | | | | |d]; try by split.
  exists d, (List.map (λ p, (p.1, redact_member p.1 p.2)) d). split_and!; [done|done|..].
  - unfold dkeys. induction d as [|p d IH]; [done|]. cbn. by f_equal.
  - intros key. induction d as [|[k v] d IH]; [done|]. cbn.
    by destruct (String.eqb_spec key k) as [->|].
  - apply (redact_hides "" (JObj d)).
  - apply (redact_keeps "" (JObj d)).
Qed.
