(* ===== verification/SupervisorThms.v ===== *)
(** * The supervisor writes to its children only what the operator asked

    The writes are observed by a wrapper around any children; the operator's
    input has an abstract reading ([forwards]), and the supervisor's writes are
    compared with it. *)

From S2P Require Import Prelude.
From S2P Require Import Json.
From S2P Require Import JsonText.
From S2P Require Import Models.
From S2P Require Import ModelsFacts.
From S2P Require Import Storage.
From S2P Require Import ProcessInv.
From S2P Require Import Runner.
Import Runner.

(** What one line of the operator's input means. *)
Inductive request :=
  | Nothing
  | Shutdown
  | Forward (name line : string)
  | Rejected.

Section Requests.
Context `{Host}.

Definition operator_request (line : string) : request :=
  if String.eqb (py_strip line) "" then Nothing
  else
    match loads line with
    | Some (JObj command) =>
        if py_eq (jget command "command" JNull) (JStr "shutdown") then Shutdown
        else
          match jget command "target" JNull with
          | JStr name =>
              if bool_decide (name ∈ children_names)
              then Forward name (dumps line_opts (JObj (dpop command "target")) +:+ nl)
              else Rejected
          | _ => Rejected
          end
    | _ => Rejected
    end.

(** The commands an input asks for, until it says shutdown or is rejected. *)
Fixpoint forwards (input : list operator_event) : list (string * string) :=
  match input with
  | [] | Interrupt :: _ => []
  | Idle :: rest => forwards rest
  | Line line :: rest =>
      match operator_request line with
      | Nothing => forwards rest
      | Forward name text => (name, text) :: forwards rest
      | Shutdown | Rejected => []
      end
  end.

(** What the supervisor itself asks each child at the start. *)
Definition status_request (name : string) : string * string :=
  (name, dumps line_opts (JObj [("command", JStr "status")]) +:+ nl).
End Requests.

(** Children that keep a record of what is written to them. *)
Section Logged.
Context {C : Type} (CP : ChildProcesses C).
Abbreviation L := (C * list (string * string))%type.

Definition unlogged {A} (m : PyM C A) : PyM L A := zoom fst (λ c s, (c, s.2)) m.

Definition logged_children : ChildProcesses L := {|
  cp_exists path := unlogged (cp_exists path);
  cp_spawn role wrapper := unlogged (cp_spawn role wrapper);
  cp_pid name := unlogged (cp_pid name);
  cp_poll name := unlogged (cp_poll name);
  cp_write name line := modify (λ s, (s.1, s.2 ++ [(name, line)])) ;; unlogged (cp_write name line);
  cp_readline name := unlogged (cp_readline name);
  cp_close_stdin name := unlogged (cp_close_stdin name);
  cp_terminate name := unlogged (cp_terminate name);
  cp_wait name := unlogged (cp_wait name);
  cp_kill name := unlogged (cp_kill name);
  cp_mkdir path := unlogged (cp_mkdir path);
  cp_write_text path text := unlogged (cp_write_text path text);
  cp_chmod path mode := unlogged (cp_chmod path mode)
|}.
End Logged.

Section Writes.
Context `{Host} {C : Type} (CP : ChildProcesses C).
#[local] Existing Instance logged_children.
Abbreviation L := (C * list (string * string))%type.
Abbreviation S := (Supervisor L).
Implicit Types (log : list (string * string)).

Definition written (s : S) : list (string * string) := (sv_children s).2.

(** [m] writes nothing. *)
Definition quiet {A} (m : PyM L A) : Prop := ∀ log, stays (λ s, s.2 = log) m.
Definition silent {A} (m : PyM S A) : Prop := ∀ log, stays (λ s, written s = log) m.

Lemma quiet_unlogged {A} (m : PyM C A) : quiet (unlogged m).
Proof. intros log. apply stays_zoom. by intros s <-. Qed.

Ltac hush := repeat first [apply quiet_unlogged|keep_step|intros ? ? [= <-]]; cbn beta iota zeta.

Lemma quiet_stop name : quiet (stop_process name).
Proof. intros log. unfold stop_process. hush. Qed.

Lemma quiet_start state_root role : quiet (start_process state_root role).
Proof. intros log. unfold start_process. hush; apply quiet_stop. Qed.

Lemma quiet_check names : quiet (check_children names).
Proof. intros log. unfold check_children. hush. Qed.

(** One command sends one line, whether or not an answer comes. *)
Lemma send_writes name payload c :
  (send_jsonl name payload c).2.2 = c.2 ++ [(name, dumps line_opts (JObj payload) +:+ nl)].
Proof.
  unfold send_jsonl. cbn [cp_write cp_readline cp_pid logged_children].
  set (text := dumps _ _ +:+ _).
  match goal with |- (mbind ?k (mbind ?k1 ?m) c).2.2 = _ =>
    assert (∀ log, stays (λ s, s.2 = log) (mbind k (unlogged (cp_write name text)))) as Hrest end.
  { intros log. hush. }
  apply (Hrest (c.2 ++ [(name, text)]) (c.1, c.2 ++ [(name, text)])). done.
Qed.

Lemma silent_children {A} (m : PyM L A) : quiet m → silent (on_children m).
Proof. intros Hm log. apply stays_zoom. intros s Hs. by apply Hm. Qed.
Lemma silent_out line : silent (print_out line).
Proof. intros log. by apply stays_modify. Qed.
Lemma silent_err line : silent (print_err line).
Proof. intros log. by apply stays_modify. Qed.
Lemma silent_started name : silent (mark_started name).
Proof. intros log. by apply stays_modify. Qed.

(** [m] writes a prefix of [ws], and all of it unless it raises. *)
Definition writes {A} (ws : list (string * string)) (m : PyM S A) : Prop :=
  ∀ s, ∃ sent, written (m s).2 = written s ++ sent ∧ sent `prefix_of` ws ∧
    (∀ a, (m s).1 = Ok a → sent = ws).

Lemma writes_silent {A} (m : PyM S A) : silent m → writes [] m.
Proof. intros Hm s. exists []. rewrite app_nil_r. by split_and!; [apply Hm|..]. Qed.

Lemma writes_prefix {A} ws (m : PyM S A) :
  writes ws m → ∀ s, ∃ sent, written (m s).2 = written s ++ sent ∧ sent `prefix_of` ws.
Proof. intros Hm s. destruct (Hm s) as (sent & H1 & H2 & _). by exists sent. Qed.

Lemma writes_bind {A B} ws1 ws2 (m : PyM S A) (k : A → PyM S B) :
  writes ws1 m → (∀ a, writes ws2 (k a)) → writes (ws1 ++ ws2) (m ≫= k).
Proof.
  intros Hm Hk s. destruct (Hm s) as (sent1 & Hw1 & Hp1 & Ho1). unfold mbind, py_bind.
  destruct (m s) as [[a|e] s1]; cbn [fst snd] in *.
  - destruct (Hk a s1) as (sent2 & Hw2 & Hp2 & Ho2). rewrite (Ho1 a eq_refl) in *.
    exists (ws1 ++ sent2). rewrite Hw2, Hw1, app_assoc. split_and!; [done|by apply prefix_app|].
    intros b Hb. by rewrite (Ho2 b Hb).
  - exists sent1. split_and!; [done| |done]. by apply prefix_app_r.
Qed.

Lemma writes_after {A B} ws (m : PyM S A) (k : A → PyM S B) :
  silent m → (∀ a, writes ws (k a)) → writes ws (m ≫= k).
Proof. intros Hm. apply (writes_bind [] ws). by apply writes_silent. Qed.

(** ** The operator's commands *)

Lemma operator_line_writes line s :
  match operator_request line with
  | Nothing => operator_line line s = (Ok None, s)
  | Shutdown => operator_line line s = (Ok (Some 0), s)
  | Rejected => ∃ e, operator_line line s = (Raise e, s)
  | Forward name text =>
      written (operator_line line s).2 = written s ++ [(name, text)] ∧
      ∀ a, (operator_line line s).1 = Ok a → a = None
  end.
Proof.
  unfold operator_request, operator_line. destruct (String.eqb (py_strip line) ""); [done|].
  destruct (loads line) as [[| | | | | |command]|]; try by eexists.
  destruct (py_eq _ _); [done|].
  destruct (jget command "target" JNull) as [| | | |name| |]; try by eexists.
  destruct (bool_decide _); [|by eexists]. cbv zeta.
  set (payload := dpop command "target"). unfold mbind, py_bind, on_children, zoom.
  pose proof (send_writes name payload (sv_children s)) as Hsend.
  destruct (send_jsonl name payload (sv_children s)) as [[response|e] c]; cbn [fst snd] in *; [|by split].
  destruct (redact_payload response) as [j|e]; cbn; (split; [exact Hsend|congruence]).
Qed.

Lemma loop_writes input : writes (forwards input) (run_operator_loop input).
Proof.
  induction input as [|[|line|] input IH]; cbn [run_operator_loop forwards];
    apply writes_after; try (apply silent_children, quiet_check); intros _; try done;
    try (apply writes_silent; intros log; apply stays_ret).
  intros s. pose proof (operator_line_writes line s) as Hline. unfold mbind, py_bind.
  destruct (operator_request line) as [| |name text|].
  - rewrite Hline. apply IH.
  - rewrite Hline. exists []. by rewrite app_nil_r.
  - destruct Hline as [Hw Hnone]. destruct (operator_line line s) as [[a|e] s1]; cbn [fst snd] in *.
    + rewrite (Hnone a eq_refl). destruct (IH s1) as (sent & Hw1 & Hp & Ho).
      exists ((name, text) :: sent). rewrite Hw1, Hw, <- app_assoc. split_and!; [done|by apply prefix_cons|].
      intros b Hb. by rewrite (Ho b Hb).
    + exists [(name, text)]. split_and!; [done|apply prefix_cons, prefix_nil|done].
  - destruct Hline as [e ->]. exists []. by rewrite app_nil_r.
Qed.

(** The loop ends with status 0, or is interrupted, or with an error. *)
Lemma loop_status input (s : S) z : (run_operator_loop input s).1 = Ok (Some z) → z = 0.
Proof.
  revert s. induction input as [|[|line|] input IH]; intros s; cbn [run_operator_loop];
    unfold mbind at 1, py_bind at 1; destruct (on_children _ s) as [[[]|e] s1]; try done.
  - by intros [= <-].
  - apply IH.
  - unfold mbind, py_bind. pose proof (operator_line_writes line s1) as Hline.
    destruct (operator_request line) as [| |name text|].
    + rewrite Hline. apply IH.
    + rewrite Hline. by intros [= <-].
    + destruct Hline as [_ Hnone]. destruct (operator_line line s1) as [[a|e] s2]; [|done].
      rewrite (Hnone a eq_refl). apply IH.
    + by destruct Hline as [e ->].
Qed.

Lemma forwards_asked input name text :
  (name, text) ∈ forwards input → ∃ line, Line line ∈ input ∧ operator_request line = Forward name text.
Proof.
  induction input as [|[|line|] input IH]; cbn; [by intros ?%elem_of_nil| | |by intros ?%elem_of_nil].
  { intros Hin. destruct (IH Hin) as (l & Hl & Hr). exists l. split; [by right|done]. }
  - assert (∀ P : list (string * string), P = forwards input → (name, text) ∈ P →
      ∃ l, Line l ∈ Line line :: input ∧ operator_request l = Forward name text) as Hrest.
    { intros P -> Hin. destruct (IH Hin) as (l & Hl & Hr). exists l. split; [by right|done]. }
    destruct (operator_request line) as [| |n t|] eqn:Hline; try by intros ?%elem_of_nil.
    + by apply Hrest.
    + intros [[= -> ->]|Hin]%elem_of_cons; [exists line; split; [by left|done]|by apply (Hrest _ eq_refl)].
Qed.

(** ** The whole supervisor *)

Lemma status_writes name : writes [status_request name] (status_check name).
Proof.
  intros s. exists [status_request name]. unfold status_check, status_request.
  unfold mbind, py_bind, on_children, zoom.
  pose proof (send_writes name [("command", JStr "status")] (sv_children s)) as Hsend.
  destruct (send_jsonl name _ (sv_children s)) as [[response|e] c]; cbn [fst snd] in *; [|by split].
  by destruct (redact_payload response) as [j|e].
Qed.

Lemma writes_for {A} (f : A → list (string * string)) l (body : A → PyM S unit) :
  (∀ a, writes (f a) (body a)) → writes (List.flat_map f l) (py_for l body).
Proof.
  intros Hb. induction l as [|a l IH]; [apply writes_silent; intros log; apply stays_ret|].
  cbn [py_for List.flat_map]. by apply writes_bind.
Qed.

Lemma body_writes a input :
  writes (List.map status_request children_names ++ forwards input)
    (on_children (start_process (sa_alice_state_root a) "alice") ;; mark_started "alice" ;;
     on_children (start_process (sa_bob_state_root a) "bob") ;; mark_started "bob" ;;
     py_for children_names status_check ;; run_operator_loop input).
Proof.
  do 4 (apply writes_after; [first [apply silent_children, quiet_start|apply silent_started]|intros []]).
  apply writes_bind; [|intros []; apply loop_writes].
  apply (writes_for (λ name, [status_request name])), status_writes.
Qed.
(** C18. The supervisor never acts on its own: what it writes to its children,
    whatever they answer and however it ends, is a prefix of a [status] to each
    of them followed by the commands of the operator's lines, in their order,
    each to its target and without the [target] member; all of them when it
    ends with status 0.  So an [approve] reaches a child only when a line of
    the operator's input says so. *)
Theorem supervisor_forwards_only (a : SupervisorArgs) (input : list operator_event) (s : Supervisor L) :
  let '(o, s') := supervise a input s in
  ∃ sent, written s' = written s ++ sent ∧
    sent `prefix_of` List.map status_request children_names ++ forwards input ∧
    (o = Ok 0 → sent = List.map status_request children_names ++ forwards input) ∧
    ∀ name text, (name, text) ∈ sent →
      text = (status_request name).2 ∨
      ∃ line, Line line ∈ input ∧ operator_request line = Forward name text.
Proof.
  pose proof (body_writes a input s) as (sent & Hw & Hp & Ho).
  set (stop := (gets sv_started ≫= λ started,
    py_for (List.filter (λ name, bool_decide (name ∈ started)) children_names)
      (λ name, on_children (stop_process name))) : PyM S unit).
  assert (∀ o s1 log, written s1 = log → ∃ o2 s2,
    match stop s1 with (Ok _, s2) => (o, s2) | (Raise x, s2) => (Raise x, s2) end = (o2, s2) ∧
    written s2 = log ∧ (o2 = Ok 0 → o = Ok 0)) as Hstop.
  { intros o s1 log Hlog. assert (stays (λ s, written s = log) stop) as Hquiet.
    { unfold stop. repeat first [apply silent_children, quiet_stop|keep_step]. }
    specialize (Hquiet s1 Hlog). destruct (stop s1) as [[[]|x] s2]; do 2 eexists; (split; [reflexivity|]);
      by split. }
  assert (∀ name text, (name, text) ∈ sent → text = (status_request name).2 ∨
      ∃ line, Line line ∈ input ∧ operator_request line = Forward name text) as Hasked.
  { intros name text Hin. destruct Hp as [rest Hp].
    assert ((name, text) ∈ List.map status_request children_names ++ forwards input) as Hin'
      by (rewrite Hp; apply elem_of_app; by left).
    apply elem_of_app in Hin' as [Hin'|Hin']; [left|right; by apply forwards_asked].
    apply list_elem_of_In, in_map_iff in Hin' as (n & Heq & _). by injection Heq as -> <-. }
  unfold supervise, try_finally. fold stop. clearbody stop. unfold mbind at 1, py_bind at 1, try_except.
  set (body := on_children _ ;; _) in *. destruct (body s) as [[[z|]|e] s1]; cbn [fst snd] in *.
  - unfold mret at 1, py_ret at 1. destruct (Hstop (Ok z) s1 _ Hw) as (o & s2 & -> & Hw2 & Hz).
    exists sent. split_and!; try done. intros _. by apply (Ho (Some z)).
  - unfold print_err, modify, mbind, py_bind, mret, py_ret. cbn beta iota.
    match goal with |- context [stop ?st] =>
      destruct (Hstop (Ok 130) st _ Hw) as (o & s2 & -> & Hw2 & Hz) end.
    exists sent. split_and!; try done. intros Ho0. by specialize (Hz Ho0).
  - unfold print_err, modify, mbind, py_bind, mret, py_ret. cbn beta iota.
    match goal with |- context [stop ?st] =>
      destruct (Hstop (Ok 1) st _ Hw) as (o & s2 & -> & Hw2 & Hz) end.
    exists sent. split_and!; try done. intros Ho0. by specialize (Hz Ho0).
Qed.
End Writes.
