(* ===== verification/HealthThms.v ===== *)
(** * The supervisor starts nothing for a relay that is not healthy

    What the health probe answers, which host it asks, and what the supervisor
    does before it has passed its checks. *)

From S2P Require Import Prelude.
From S2P Require Import Json.
From S2P Require Import Storage.
From S2P Require Import ProcessInv.
From S2P Require Import Health.
From S2P Require Import Runner.
Import Health Runner.

(** ** The host that is asked *)

Lemma partition_at_spec c l :
  (c ∉ (partition_at c l).1) ∧
  (match (partition_at c l).2 with
   | Some after => l = ((partition_at c l).1 ++ c :: after)%list
   | None => l = (partition_at c l).1
   end).
Proof.
  induction l as [|c' l IH]; cbn; [split; [apply not_elem_of_nil|done]|].
  destruct (Ascii.eqb_spec c c') as [->|Hne]; [split; [apply not_elem_of_nil|done]|].
  destruct (partition_at c l) as [before after]. cbn in *. destruct IH as [Hnot IH]. split.
  - apply not_elem_of_cons. by split.
  - destruct after; by rewrite IH at 1.
Qed.

Lemma partition_at_app c before after :
  c ∉ before → partition_at c (before ++ c :: after) = (before, Some after).
Proof.
  induction before as [|c' before IH]; cbn; intros Hnot.
  - by rewrite Ascii.eqb_refl.
  - apply not_elem_of_cons in Hnot as [Hne Hnot]. rewrite IH by done.
    by destruct (Ascii.eqb_spec c c').
Qed.

Lemma partition_at_none c l : c ∉ l → partition_at c l = (l, None).
Proof.
  induction l as [|c' l IH]; cbn; intros Hnot; [done|].
  apply not_elem_of_cons in Hnot as [Hne Hnot]. rewrite IH by done. by destruct (Ascii.eqb_spec c c').
Qed.

Lemma after_last_without c l : c ∉ after_last c l.
Proof.
  induction l as [|c' l IH]; cbn; [apply not_elem_of_nil|].
  destruct (Ascii.eqb_spec c c') as [->|Hne]; [done|].
  pose proof (partition_at_spec c l) as [Hnot Hl]. destruct (partition_at c l) as [before [after|]]; [done|].
  cbn in *. subst. apply not_elem_of_cons. by split.
Qed.

Lemma after_last_none c l : c ∉ l → after_last c l = l.
Proof. intros Hnot. destruct l as [|c' l]; [done|]. cbn [after_last]. by rewrite partition_at_none. Qed.

Lemma lower_char_idem c : lower_char (lower_char c) = lower_char c.
Proof. destruct c as [[] [] [] [] [] [] [] []]; vm_compute; reflexivity. Qed.

(** Letters in lower case are none of the characters that separate parts. *)
Lemma lower_separator sep l : is_lower sep = false → is_upper sep = false → sep ∈ lower l → sep ∈ l.
Proof.
  intros Hl Hu (c & Heq & Hin)%list_elem_of_fmap. unfold lower_char in Heq.
  destruct (is_upper c) eqn:Hc; [|by subst]. exfalso. subst.
  assert (is_lower (ascii_of_N (code c + 32)) = true) as Hlow; [|congruence].
  revert Hc. clear. destruct c as [[] [] [] [] [] [] [] []]; vm_compute; done.
Qed.

(** What [hostname] does to the name of the host. *)
Definition lower_name (host : list ascii) : list ascii :=
  match partition_at "%" host with
  | (name, Some zone) => lower name ++ "%"%char :: zone
  | (name, None) => lower name
  end.

Lemma lower_idem l : lower (lower l) = lower l.
Proof. unfold lower. rewrite <- list_fmap_compose. apply list_fmap_ext. intros i c _. apply lower_char_idem. Qed.

Lemma lower_name_idem host : lower_name (lower_name host) = lower_name host.
Proof.
  unfold lower_name. pose proof (partition_at_spec "%" host) as [Hnot _].
  assert ("%"%char ∉ lower (partition_at "%" host).1) as Hlow
    by (intros Hin; apply Hnot; by eapply lower_separator).
  destruct (partition_at "%" host) as [name [zone|]]; cbn [fst] in *.
  - rewrite partition_at_app by done. by rewrite lower_idem.
  - rewrite partition_at_none by done. apply lower_idem.
Qed.

Lemma lower_name_elem sep host :
  is_lower sep = false → is_upper sep = false → sep ∈ lower_name host → sep ∈ host.
Proof.
  intros Hl Hu. unfold lower_name. pose proof (partition_at_spec "%" host) as [_ Hhost].
  destruct (partition_at "%" host) as [name [zone|]]; cbn [fst snd] in Hhost; rewrite Hhost.
  - rewrite !elem_of_app. intros [Hin|Hin]; [left|by right]. by eapply lower_separator.
  - by apply lower_separator.
Qed.

(** The name before the port or between the brackets. *)
Definition raw_host (hostinfo : list ascii) : list ascii :=
  match partition_at "[" hostinfo with
  | (_, Some bracketed) => (partition_at "]" bracketed).1
  | (_, None) => (partition_at ":" hostinfo).1
  end.

Lemma hostname_lower netloc : hostname netloc = lower_name (raw_host (after_last "@" netloc)).
Proof. done. Qed.

Lemma raw_host_elem sep hostinfo : sep ∈ raw_host hostinfo → sep ∈ hostinfo.
Proof.
  unfold raw_host. pose proof (partition_at_spec "[" hostinfo) as [_ H1].
  destruct (partition_at "[" hostinfo) as [before [after|]]; cbn [fst snd] in H1; rewrite H1; intros Hin.
  - pose proof (partition_at_spec "]" after) as [_ H2]. apply elem_of_app. right. right.
    destruct (partition_at "]" after) as [b [a|]]; cbn [fst snd] in *; rewrite H2; [|done].
    apply elem_of_app. by left.
  - pose proof (partition_at_spec ":" before) as [_ H2].
    destruct (partition_at ":" before) as [b [a|]]; cbn [fst snd] in *; rewrite H2; [|done].
    apply elem_of_app. by left.
Qed.

(** A closed membership that does not hold. *)
Ltac not_here :=
  match goal with |- ?x ∈ ?l → False => exact (bool_decide_eq_false_1 (x ∈ l) eq_refl) end.

(** The health listener is asked on the relay's own host. *)
Lemma health_hostname netloc :
  "["%char ∉ hostname netloc → "]"%char ∉ hostname netloc → hostname (health_netloc netloc) = hostname netloc.
Proof.
  intros Hopen Hclose. unfold health_netloc. destruct (hostname netloc) as [|c host'] eqn:Hhost; [exact Hhost|].
  set (host := c :: host') in *. assert ("@"%char ∉ host) as Hat.
  { rewrite <- Hhost, hostname_lower. intros Hin%lower_name_elem; [|done..].
    by apply (after_last_without "@" netloc), raw_host_elem. }
  assert (lower_name host = host) as Hidem by (rewrite <- Hhost, hostname_lower; apply lower_name_idem).
  case_bool_decide as Hcolon; rewrite hostname_lower.
  - rewrite after_last_none.
    2: { rewrite app_comm_cons, elem_of_app, elem_of_cons. intros [[?|?]|Hin]; [done|done|].
         revert Hin. not_here. }
    unfold raw_host. assert (∀ l, partition_at "[" ("["%char :: l) = ([], Some l)) as -> by done.
    change (host ++ chars "]:8080") with (host ++ "]"%char :: chars ":8080").
    rewrite partition_at_app by done. exact Hidem.
  - rewrite after_last_none.
    2: { rewrite elem_of_app. intros [?|Hin]; [done|]. revert Hin. not_here. }
    unfold raw_host. rewrite partition_at_none.
    2: { rewrite elem_of_app. intros [?|Hin]; [done|]. revert Hin. not_here. }
    change (host ++ chars ":8080") with (host ++ ":"%char :: chars "8080").
    rewrite partition_at_app by done. exact Hidem.
Qed.

(** ** The answer of the probe *)

Section Probe.
Context {N : Type} `{Network N}.

Definition good_status (z : Z) : bool := (200 <=? z) && (z <? 300).

(** URLs asked in their order, none with a good answer. *)
Inductive refused : list string → N → N → Prop :=
  | refused_none n : refused [] n n
  | refused_error url urls n n1 n2 e :
      urlopen url n = (Raise e, n1) → refused urls n1 n2 → refused (url :: urls) n n2
  | refused_status url urls n n1 n2 z :
      urlopen url n = (Ok z, n1) → good_status z = false → refused urls n1 n2 → refused (url :: urls) n n2.

Lemma probe_spec urls n :
  (∃ pre url post n1 n2 z, urls = (pre ++ url :: post)%list ∧ refused pre n n1 ∧
     urlopen url n1 = (Ok z, n2) ∧ good_status z = true ∧ probe urls n = (Ok true, n2)) ∨
  (∃ n2, refused urls n n2 ∧ probe urls n = (Ok false, n2)).
Proof.
  revert n. induction urls as [|url urls IH]; intros n; cbn [probe].
  { right. exists n. split; [constructor|done]. }
  unfold try_except, mbind, py_bind, mret, py_ret. fold (good_status 0).
  destruct (urlopen url n) as [[z|e] n1] eqn:Hopen; cbn beta iota.
  - fold (good_status z). destruct (good_status z) eqn:Hz.
    + left. exists [], url, urls, n, n1, z. split_and!; try done. constructor.
    + destruct (IH n1) as [(pre & u & post & m1 & m2 & z' & -> & Hr & Ho & Hz' & ->)|(n2 & Hr & ->)].
      * left. exists (url :: pre), u, post, m1, m2, z'. split_and!; try done. by eapply refused_status.
      * right. exists n2. split; [by eapply refused_status|done].
  - destruct (IH n1) as [(pre & u & post & m1 & m2 & z' & -> & Hr & Ho & Hz' & ->)|(n2 & Hr & ->)].
    + left. exists (url :: pre), u, post, m1, m2, z'. split_and!; try done. by eapply refused_error.
    + right. exists n2. split; [by eapply refused_error|done].
Qed.
End Probe.

(** ** What the supervisor may start *)

Section Gate.
Context `{Host} {C : Type} `{ChildProcesses C} `{Network C}.
Variable netloc_ok : string → bool.

(** The URL is on this host, on whatever port. *)
Definition on_host (host : list ascii) (url : string) : Prop :=
  ∃ scheme netloc path,
    url = of_chars (rstrip_slash (urlunsplit scheme netloc) ++ chars path) ∧ hostname netloc = host.

(** The relay's URL in the environment. *)
Definition relay_of (environ : list (string * string)) : string :=
  match environ_set environ "BUZZ_HEALTH_URL" with
  | Some url => url
  | None => default "http://127.0.0.1:3000" (dget environ "BUZZ_RELAY_URL")
  end.

(** Only the operator's own health URL or the relay's host is asked. *)
Definition asks_relay (environ : list (string * string)) (url : string) : Prop :=
  environ_set environ "BUZZ_HEALTH_URL" = Some url ∨
  environ_set environ "BUZZ_HEALTH_URL" = None ∧
  ∃ scheme netloc, urlsplit netloc_ok (relay_of environ) = Ok (scheme, netloc) ∧
    ("["%char ∉ hostname netloc → "]"%char ∉ hostname netloc → on_host (hostname netloc) url).

Lemma probe_urls_ask environ urls : probe_urls netloc_ok environ = Ok urls → Forall (asks_relay environ) urls.
Proof.
  unfold probe_urls, asks_relay. fold (relay_of environ).
  destruct (urlsplit netloc_ok (relay_of environ)) as [[scheme netloc]|e]; [|done]. cbn [mbind outcome_bind].
  destruct (environ_set environ "BUZZ_HEALTH_URL") as [url|].
  - intros [= <-]. apply Forall_singleton. by left.
  - set (sch := if String.eqb (of_chars scheme) "ws" then _ else _). intros [= <-].
    repeat (apply Forall_cons; split); [..|by apply Forall_nil]; right; (split; [done|]);
      exists scheme, netloc; (split; [done|]); intros Hopen Hclose.
    + exists sch, (health_netloc netloc), "/_readiness". split; [done|by apply health_hostname].
    + exists sch, (health_netloc netloc), "/_liveness". split; [done|by apply health_hostname].
    + by exists sch, netloc, "/_readiness".
    + by exists sch, netloc, "/_liveness".
Qed.

(** The probe found the relay healthy, from the world [c] on. *)
Definition relay_answered (environ : list (string * string)) (c : C) : Prop :=
  ∃ pre url c1 c2 z, refused pre c c1 ∧ urlopen url c1 = (Ok z, c2) ∧ 200 ≤ z < 300 ∧
    asks_relay environ url.

Lemma health_answer environ (c : C) :
  (verify_buzz_relay_health netloc_ok environ c).1 = Ok true → relay_answered environ c.
Proof.
  unfold verify_buzz_relay_health, lift, mbind, py_bind.
  destruct (probe_urls netloc_ok environ) as [urls|e] eqn:Hurls; [|done].
  destruct (probe_spec urls c) as [(pre & url & post & c1 & c2 & z & -> & Hr & Ho & Hz & ->)|(c2 & _ & ->)];
    [|done]. intros _. exists pre, url, c1, c2, z. split_and!; try done.
  1,2: unfold good_status in Hz; apply andb_true_iff in Hz as [?%Z.leb_le ?%Z.ltb_lt]; lia.
  apply probe_urls_ask in Hurls. apply Forall_app in Hurls as [_ Hurls]. by apply Forall_cons in Hurls as [].
Qed.

Lemma checks_pass (a : SupervisorArgs) (names : list string) :
  supervisor_checks a names = None →
  sa_network a ∈ ["regtest"; "signet"] ∧
  (sa_network a = "signet" → text_or (sa_alice_wave_rpc_server a) "" ≠ "" ∧
                             text_or (sa_bob_wave_rpc_server a) "" ≠ "") ∧
  (py_len (sa_alice_pubkey a) = 64 ∧ py_len (sa_bob_pubkey a) = 64 ∧ py_len (sa_approver_pubkey a) = 64) ∧
  (sa_alice_pubkey a ≠ sa_bob_pubkey a →
     "BUZZ_ALICE_PRIVATE_KEY" ∈ names ∧ "BUZZ_BOB_PRIVATE_KEY" ∈ names).
Proof.
  unfold supervisor_checks. cbn [List.filter snd].
  destruct (bool_decide_reflect (sa_network a ∈ ["regtest"; "signet"])) as [Hnet|]; [|done]. cbn [negb].
  destruct (String.eqb_spec (sa_network a) "signet") as [Hsig|Hsig];
    destruct (String.eqb_spec (text_or (sa_alice_wave_rpc_server a) "") ""),
      (String.eqb_spec (text_or (sa_bob_wave_rpc_server a) "") ""); cbn [andb orb]; try done.
  all: destruct (Z.eqb_spec (py_len (sa_alice_pubkey a)) 64), (Z.eqb_spec (py_len (sa_bob_pubkey a)) 64),
    (Z.eqb_spec (py_len (sa_approver_pubkey a)) 64); cbn [negb]; try done.
  all: destruct (String.eqb_spec (sa_alice_pubkey a) (sa_bob_pubkey a)); cbn [negb andb]; try done.
  all: repeat case_bool_decide; cbn; done.
Qed.

(** C19. The supervisor fails closed before it starts anything: it goes on to
    write wrappers and to start processes only on a test network, with a
    wallet endpoint for each peer on signet, with keys of 64 characters, with
    a signing key in the environment for each of two different identities,
    and, unless the operator skips the probe, after an answer 2xx from the
    operator's health URL or from the relay's own host; otherwise it does not
    end with status 0, prints nothing, has started nothing and has touched
    nothing but the network, by the probe. *)
Theorem supervisor_gate root python runner (a : SupervisorArgs) environ input (s : Supervisor C) :
  let '(o, s') := supervisor_main netloc_ok root python runner a environ input s in
  (sa_network a ∈ ["regtest"; "signet"] ∧
   (sa_network a = "signet" → text_or (sa_alice_wave_rpc_server a) "" ≠ "" ∧
                              text_or (sa_bob_wave_rpc_server a) "" ≠ "") ∧
   (py_len (sa_alice_pubkey a) = 64 ∧ py_len (sa_bob_pubkey a) = 64 ∧ py_len (sa_approver_pubkey a) = 64) ∧
   (sa_alice_pubkey a ≠ sa_bob_pubkey a →
      "BUZZ_ALICE_PRIVATE_KEY" ∈ environ.*1 ∧ "BUZZ_BOB_PRIVATE_KEY" ∈ environ.*1) ∧
   (sa_skip_buzz_health a = true ∨ relay_answered environ (sv_children s))) ∨
  (o ≠ Ok 0 ∧ sv_stdout s' = sv_stdout s ∧ sv_started s' = sv_started s ∧
   (sv_children s' = sv_children s ∨
    sv_children s' = (verify_buzz_relay_health netloc_ok environ (sv_children s)).2)).
Proof.
  destruct (supervisor_main netloc_ok root python runner a environ input s) as [o s'] eqn:Hmain.
  revert Hmain. unfold supervisor_main.
  destruct (supervisor_checks a environ.*1) as [msg|] eqn:Hchecks.
  { intros [= <- <-]. right. split_and!; try done. by left. }
  apply checks_pass in Hchecks as (Hnet & Hsig & Hkeys & Hids).
  destruct (sa_skip_buzz_health a); [intros _; left; exact (conj Hnet (conj Hsig (conj Hkeys (conj Hids (or_introl eq_refl)))))|].
  unfold mbind at 1, py_bind at 1, on_children at 1, zoom at 1.
  pose proof (health_answer environ (sv_children s)) as Hans.
  destruct (verify_buzz_relay_health netloc_ok environ (sv_children s)) as [[[]|e] c]; cbn [fst snd] in *.
  - intros _. left. exact (conj Hnet (conj Hsig (conj Hkeys (conj Hids (or_intror (Hans eq_refl)))))).
  - intros [= <- <-]. right. split_and!; try done. by right.
  - intros [= <- <-]. right. split_and!; try done. by right.
Qed.
End Gate.
