(* ===== verification/TransportThms.v ===== *)
(** * Properties of the transports and of the peer endpoint *)

From S2P Require Import Prelude.
From S2P Require Import Json.
From S2P Require Import JsonText.
From S2P Require Import Models.
From S2P Require Import ModelsFacts.
From S2P Require Import Envelope.
From S2P Require Import EnvelopeFacts.
From S2P Require Import Adapter.
From S2P Require Import Wavelength.
From S2P Require Import Storage.
From S2P Require Import Policy.
From S2P Require Import PeerTransport.
From S2P Require Import Transport.
From S2P Require Import Peer.
Import Models Envelope Adapter Storage Policy PeerTransport Transport Peer.

(** ** Approvals stay local *)

(** A human approval never leaves the process: sending an approval, or
    any object that is not an intent, quote or receipt, through the peer
    endpoint, the Buzz transport over any executor or the in-memory hub raises
    and leaves the whole state, the executor's world included, as it was. *)
Theorem approvals_stay_local `{Host} {T W X : Type} `{PeerTransport T} `{SettlementAdapter W}
    `{BuzzExecutor X} (o : py_object) (Ho : ∀ m, o ≠ OMessage m) :
  (∀ channel (t : BuzzTransport X), ∃ e, buzz_send channel o t = (Raise e, t)) ∧
  (∀ peer_id identity (h : Hub), ∃ e, hub_send peer_id identity o h = (Raise e, h)) ∧
  (∀ identity (p : HermesPeer T W), ∃ e, peer_send identity o p = (Raise e, p)).
Proof.
  destruct o as [m| |]; [by destruct (Ho m)| |]; split_and!; intros; eexists; reflexivity.
Qed.

Lemma approvals_stay_local_witness :
  ∃ e, buzz_send (H := ref_host) (W := FakeBuzz) (H0 := FakeBuzzExecutor) "channel-1"
         (OApproval {| pa_id := ""; pa_intent_id := ""; pa_quote_id := ""; pa_prepared_hash := "";
                       pa_approver := alice; pa_created_at := 0 |})
         {| bt_world := {| fb_sent := []; fb_events := []; fb_next_id := 0; fb_time := 0 |};
            bt_cursor_file := Missing; bt_faults := []; bt_clock := λ _, 0; bt_ticks := 0;
            bt_seen := ∅ |} =
       (Raise e, {| bt_world := {| fb_sent := []; fb_events := []; fb_next_id := 0; fb_time := 0 |};
            bt_cursor_file := Missing; bt_faults := []; bt_clock := λ _, 0; bt_ticks := 0;
            bt_seen := ∅ |}).
Proof.
  refine (proj1 (approvals_stay_local (H := ref_host) (T := Hub) (W := FakeWavecli) (X := FakeBuzz)
    (H0 := InMemoryPeerTransport (H := ref_host) "p" alice)
    (H1 := Wavelength.WavelengthAdapter (H := ref_host) Wavelength.default_options)
    (H2 := FakeBuzzExecutor) (OApproval _) _) "channel-1" _).
  intros m. discriminate.
Defined.

(** ** The in-memory hub *)

Inductive HubOp :=
  | HConnect (peer_id : string) (identity : AgentIdentity)
  | HSend (peer_id : string) (identity : AgentIdentity) (o : py_object)
  | HReceive (peer_id : string) (limit : option Z).

Section Hub.
Context `{Host}.

(** The messages one operation hands to its caller, and the one it posts. *)
Definition received_by (op : HubOp) (p : string) (h : Hub) : list PeerMessage :=
  match op with
  | HReceive q limit =>
      if String.eqb p q then match (hub_receive q limit h).1 with Ok l => l | Raise _ => [] end else []
  | _ => []
  end.

Definition posted_by (op : HubOp) (h : Hub) : option (string * PeerMessage) :=
  match op with
  | HSend q identity (OMessage m) =>
      match (hub_send q identity (OMessage m) h).1 with
      | Ok (JStr id) => Some (q, {| pm_message_id := id; pm_message := m; pm_author := author_of m;
                                    pm_published_at := JInt (hub_clock h (hub_ticks h)) |})
      | _ => None
      end
  | _ => None
  end.

Definition hub_step (op : HubOp) (h : Hub) : Hub :=
  match op with
  | HConnect p i => (connect p i h).2
  | HSend p i o => (hub_send p i o h).2
  | HReceive p l => (hub_receive p l h).2
  end.

(** A run of the hub, with what peer [p] received and what others posted
    while it was connected, each in order. *)
Fixpoint hub_run (p : string) (ops : list HubOp) (h : Hub) (got posted : list PeerMessage)
    : Hub * list PeerMessage * list PeerMessage :=
  match ops with
  | [] => (h, got, posted)
  | op :: ops' =>
      let posted' :=
        match posted_by op h, dget (hub_inboxes h) p with
        | Some (q, m), Some _ => if String.eqb p q then posted else posted ++ [m]
        | _, _ => posted
        end in
      hub_run p ops' (hub_step op h) (got ++ received_by op p h) posted'
  end.

Lemma dget_deliver q m d p :
  dget (deliver q m d) p =
  (λ inbox, if String.eqb p q then inbox else inbox ++ [m]) <$> dget d p.
Proof.
  unfold deliver. induction d as [|[k inbox] d IH]; csimpl; [done|].
  destruct (String.eqb_spec k q) as [->|Hkq]; csimpl.
  - destruct (String.eqb_spec p q); [by destruct (String.eqb_spec p q)|done].
  - destruct (String.eqb_spec p k) as [->|]; [|done]. by destruct (String.eqb_spec k q).
Qed.

Definition inbox_of (p : string) (h : Hub) : list PeerMessage := default [] (dget (hub_inboxes h) p).

Lemma hub_step_inbox p op h :
  received_by op p h ++ inbox_of p (hub_step op h) =
  inbox_of p h ++
    match posted_by op h, dget (hub_inboxes h) p with
    | Some (q, m), Some _ => if String.eqb p q then [] else [m]
    | _, _ => []
    end.
Proof.
  unfold inbox_of. destruct op as [q i|q i o|q limit]; cbn [received_by posted_by hub_step app].
  - rewrite app_nil_r. unfold connect, mbind, py_bind, raise_if, gets, modify.
    destruct (String.eqb q ""); [done|]. unfold dmem.
    destruct (dget (hub_inboxes h) q) eqn:Hq; [done|]. cbn. rewrite dget_dset.
    case_decide; subst; [by rewrite Hq|done].
  - destruct o as [m| |]; cbn; [|by rewrite app_nil_r..].
    unfold hub_send, mbind, py_bind, raise_if, gets, modify, lift. cbn.
    destruct (negb _); cbn; [by rewrite app_nil_r|]. rewrite dget_deliver.
    destruct (dget (hub_inboxes h) p); cbn; [|done]. destruct (String.eqb p q); [by rewrite app_nil_r|done].
  - rewrite app_nil_r. unfold hub_receive, mbind, py_bind, raise_if, gets, modify.
    destruct (match limit with Some n => n <? 0 | None => false end); cbn; [by destruct (String.eqb p q)|].
    destruct (String.eqb_spec p q) as [->|Hne].
    + destruct (dget (hub_inboxes h) q) as [inbox|] eqn:Hq; cbn; [|by rewrite Hq].
      rewrite dget_dset_eq. apply take_drop.
    + destruct (dget (hub_inboxes h) q) as [inbox|] eqn:Hq; cbn; [|done].
      by rewrite dget_dset_ne by done.
Qed.
End Hub.

(** C34. The hub delivers exactly once and in order: in any run of any number
    of endpoints connecting, sending and receiving with any limits and any
    failures, what a peer has received so far, followed by what waits in its
    inbox, is exactly the sequence of messages the other peers posted since it
    connected. *)
Theorem hub_exactly_once_fifo `{Host} (p : string) (clock : nat → Z) (ops : list HubOp) :
  let '(h, got, posted) := hub_run p ops (hub_init clock) [] [] in
  got ++ inbox_of p h = posted.
Proof.
  assert (∀ h got posted, got ++ inbox_of p h = posted →
    let '(h', got', posted') := hub_run p ops h got posted in got' ++ inbox_of p h' = posted') as Hrun;
    [|by apply Hrun].
  induction ops as [|op ops IH]; intros h got posted Hinv; cbn [hub_run]; [done|].
  apply IH. rewrite <- app_assoc, hub_step_inbox, app_assoc, Hinv.
  destruct (posted_by op h) as [[q m]|]; [|by rewrite app_nil_r].
  destruct (dget (hub_inboxes h) p); [|by rewrite app_nil_r].
  by destruct (String.eqb p q); rewrite ?app_nil_r.
Qed.

(** ** Untrusted events *)

(** C25. What the validation of an untrusted event lets through: exactly the
    events of kind 9 whose first channel tag names the expected channel, whose
    content decodes to a message that has not expired, and whose public key is
    the key of that message's author: the sender of an intent, the recipient
    of a quote or receipt. *)
Theorem validated_events `{Host} (ev : RawBuzzEvent) (channel : string) (now : Z) (m : PaymentMessage) :
  validate_received_event ev channel now = Ok m ↔
  py_eq (ev_kind ev) (JInt WIRE_KIND) = true ∧
  (∃ ch, channel_from_tags (ev_tags ev) = Ok ch ∧ py_eq ch (JStr channel) = true) ∧
  (∃ text, ev_content ev = JStr text ∧ decode_content text = Ok m) ∧
  (∀ t, message_expires_at m = Some t → t = 0 ∨ now ≤ t) ∧
  py_eq (ev_pubkey ev) (JStr (pubkey (author_of m))) = true.
Proof.
  unfold validate_received_event. destruct (py_eq (ev_kind ev) (JInt WIRE_KIND)); cbn [negb];
    [|by split; [done|intros [? _]]].
  destruct (channel_from_tags (ev_tags ev)) as [ch|e]; cbn;
    [|by split; [done|intros (_ & (ch & ? & _) & _)]].
  destruct (py_eq ch (JStr channel)) eqn:Hch; cbn [negb];
    [|split; [done|intros (_ & (ch' & Heq & Hch') & _); simplify_eq; congruence]].
  assert (∀ m', decode_event_content (ev_content ev) = Ok m' ↔
    ∃ text, ev_content ev = JStr text ∧ decode_content text = Ok m') as Hdec.
  { intros m'. unfold decode_event_content. destruct (ev_content ev); naive_solver. }
  rewrite <- Hdec. destruct (decode_event_content (ev_content ev)) as [m'|e].
  - assert (match message_expires_at m' with
            | Some t => negb (t =? 0) && (t <? now) | None => false end = true ↔
            ¬ ∀ t, message_expires_at m' = Some t → t = 0 ∨ now ≤ t) as Hexp.
    { destruct (message_expires_at m') as [t|]; [|naive_solver].
      rewrite andb_true_iff, negb_true_iff, Z.eqb_neq, Z.ltb_lt. split.
      - intros [Hz Ht] Hall. destruct (Hall t eq_refl); lia.
      - intros Hall. split.
        + intros ->. apply Hall. intros t [= <-]. by left.
        + apply Z.nle_gt. intros Hle. apply Hall. intros t' [= <-]. by right. }
    destruct (match message_expires_at m' with Some t => _ | None => _ end).
    + split; [done|]. intros (_ & _ & [= ->] & Hall & _). by destruct (proj1 Hexp eq_refl).
    + assert (∀ t, message_expires_at m' = Some t → t = 0 ∨ now ≤ t) as Hall.
      { destruct (message_expires_at m') as [t|]; [|done]. intros t' [= <-].
        destruct (decide (t = 0)); [by left|right]. apply Z.nlt_ge. intros Hlt.
        assert (false = true); [|done]. apply Hexp. intros Hall. destruct (Hall t eq_refl); lia. }
      destruct (py_eq (ev_pubkey ev) (JStr (pubkey (author_of m')))) eqn:Hpk; cbn [negb].
      * split; [intros [= ->]|intros (_ & _ & [= ->] & _)]; [|done]. by split_and!; [|exists ch|..].
      * split; [done|]. intros (_ & _ & [= ->] & _ & Hpk'). congruence.
  - case_match; (split; [done|]); by intros (_ & _ & ? & _).
Qed.

(** ** Receiving from Buzz *)

Section Receive.
Context `{Host} {W : Type} `{BuzzExecutor W}.
Variable channel : string.
Variable cursor_path local_pubkey : option string.
Abbreviation T := (BuzzTransport W).
Abbreviation is_own := (is_own local_pubkey).
Implicit Types (t : T) (events : list RawBuzzEvent) (l : list PeerMessage).

(** A peer message is a fetched event that is not ours and was validated. *)
Definition from_event events (pm : PeerMessage) : Prop :=
  ∃ ev now, ev ∈ events ∧ is_own ev = false ∧
    validate_received_event ev channel now = Ok (pm_message pm) ∧
    pm_message_id pm = ev_id ev ∧ pm_author pm = author_of (pm_message pm) ∧
    pm_published_at pm = ev_created_at ev.

Definition new_ids t t' l : Prop :=
  NoDup (pm_message_id <$> l) ∧
  Forall (λ pm, (pm_message_id pm ∉ bt_seen t) ∧ pm_message_id pm ∈ bt_seen t') l.

Definition loop_post limit events l0 t (o : outcome (list PeerMessage * bool)) t' : Prop :=
  bt_seen t ⊆ bt_seen t' ∧
  ∀ res c, o = Ok (res, c) →
    ∃ l, res = l0 ++ l ∧ new_ids t t' l ∧ Forall (from_event events) l ∧
         (∀ n, limit = Some n → Z.of_nat (List.length l0) < n → Z.of_nat (List.length res) ≤ n).

(** One more event in front, whose id was just marked. *)
Lemma loop_post_mark limit ev events l0 t t1 o t' :
  bt_seen t1 = {[ev_id ev]} ∪ bt_seen t → ev_id ev ∉ bt_seen t →
  loop_post limit events l0 t1 o t' → loop_post limit (ev :: events) l0 t o t'.
Proof.
  intros Hs Hnew [Hsub Hpost]. split; [set_solver|]. intros res c Ho.
  destruct (Hpost res c Ho) as (l & -> & [Hnd Hids] & Hfrom & Hlim). exists l.
  split_and!; [done| |eapply Forall_impl; [exact Hfrom|]|done].
  - split; [done|]. eapply Forall_impl; [exact Hids|]. cbn. intros pm [? ?]. split; set_solver.
  - intros pm (ev' & now & Hin & ?). exists ev', now. split; [by right|done].
Qed.

Lemma receive_loop_wp limit events l0 ch t :
  wp (receive_loop channel local_pubkey limit events l0 ch) (loop_post limit events l0 t) t.
Proof.
  revert l0 ch t. induction events as [|ev events IH]; intros l0 ch t; cbn [receive_loop].
  - wp_step. split; [done|]. intros res c [= <- <-]. exists []. rewrite app_nil_r.
    split_and!; [done|split; constructor|constructor|lia].
  - repeat (wp_step; cbn beta iota). case_bool_decide as Hseen.
    { eapply wp_mono; [apply IH|]. intros o t' [Hsub Hpost]. split; [done|]. intros res c Ho.
      destruct (Hpost res c Ho) as (l & ? & ? & Hfrom & ?). exists l. split_and!; try done.
      eapply Forall_impl; [exact Hfrom|]. intros pm (ev' & now & Hin & ?).
      exists ev', now. split; [by right|done]. }
    unfold mark_seen. repeat (wp_step; cbn beta iota). destruct (is_own ev) eqn:Hown.
    { eapply wp_mono; [apply IH|]. intros o t'. by apply loop_post_mark. }
    unfold transport_now. repeat (wp_step; cbn beta iota).
    destruct (validate_received_event _ _ _) as [m|e] eqn:Hv.
    2:{ destruct (isinstance_exn e CEnvelopeValidationError).
        - eapply wp_mono; [apply IH|]. intros o t'. by apply loop_post_mark.
        - wp_step. split; [cbn; set_solver|done]. }
    set (pm := {| pm_message_id := ev_id ev; pm_message := m; pm_author := author_of m;
                  pm_published_at := ev_created_at ev |}).
    assert (from_event (ev :: events) pm) as Hpm.
    { exists ev. eexists. split; [by left|]. by split_and!. }
    destruct (full limit (l0 ++ [pm])) eqn:Hfull.
    + wp_step. split; [cbn; set_solver|]. intros res c [= <- <-]. exists [pm].
      split_and!; [done| |by apply Forall_singleton|].
      * split; [apply NoDup_singleton|]. apply Forall_singleton. cbn. set_solver.
      * intros n -> Hn. rewrite length_app. cbn. lia.
    + eapply wp_mono; [apply IH|]. intros o t' [Hsub Hpost]. cbn [bt_seen] in Hsub.
      split; [set_solver|]. intros res c Ho.
      destruct (Hpost res c Ho) as (l & -> & [Hnd Hids] & Hfrom & Hlim).
      exists (pm :: l). rewrite <- app_assoc. split_and!; [done| | |].
      * split; csimpl.
        -- apply NoDup_cons. split; [|done]. intros (pm' & Heq & Hin)%list_elem_of_fmap.
           rewrite Forall_forall in Hids. destruct (Hids pm' Hin) as [Hno _]. apply Hno.
           rewrite <- Heq. cbn. set_solver.
        -- constructor; [cbn; set_solver|]. eapply Forall_impl; [exact Hids|].
           cbn. intros pm' [? ?]. split; set_solver.
      * constructor; [done|]. eapply Forall_impl; [exact Hfrom|].
        intros pm' (ev' & now & Hin & ?). exists ev', now. split; [by right|done].
      * intros n -> Hn. rewrite <- app_assoc in Hlim. apply Hlim; [done|].
        cbn [full] in Hfull. apply Z.leb_gt in Hfull. exact Hfull.
Qed.

Lemma receive_wp since limit t :
  wp (receive_peer_messages channel cursor_path local_pubkey since limit) (λ o t',
    bt_seen t ⊆ bt_seen t' ∧
    ∀ l, o = Ok l → new_ids t t' l ∧
      (∀ n, limit = Some n → Z.of_nat (List.length l) ≤ n) ∧
      (l = [] ∨ ∃ events, (bx_get channel [WIRE_KIND] since None (bt_world t)).1 = Ok events ∧
                          Forall (from_event events) l)) t.
Proof.
  unfold receive_peer_messages. wp_step. wp_step.
  destruct (match limit with Some n => n <? 0 | None => false end) eqn:Hneg; [by split|].
  case_bool_decide as Hz.
  { wp_step. split; [done|]. intros l [= <-]. subst.
    split; [by split; constructor|]. split; [intros n [= <-]; cbn; lia|by left]. }
  wp_step. unfold on_executor. wp_step. unfold wp at 1.
  destruct (bx_get channel [WIRE_KIND] since None (bt_world t)) as [[events|e] w]; cbn; [|done].
  wp_step. eapply wp_mono; [apply receive_loop_wp|]. intros [[l c]|e] t' [Hsub Hpost]; [|done].
  destruct (Hpost l c eq_refl) as (l' & -> & Hids & Hfrom & Hlim). cbn [app].
  assert (∀ t'', bt_seen t'' = bt_seen t' → bt_seen t ⊆ bt_seen t'' ∧
    (new_ids t t'' l' ∧ (∀ n, limit = Some n → Z.of_nat (List.length l') ≤ n) ∧
     (l' = [] ∨ ∃ ev, Ok events = Ok ev ∧ Forall (from_event ev) l'))) as Hdone.
  { intros t'' Hs. unfold new_ids in *. rewrite Hs. split; [done|]. split; [done|]. split.
    - intros n ->. apply Hlim; [done|]. cbn in *.
      apply Z.ltb_ge in Hneg. destruct (decide (n = 0)) as [->|]; [done|lia].
    - right. by exists events. }
  wp_step. destruct c.
  - unfold save_cursor. destruct cursor_path; [|by repeat wp_step; split; [|intros l [= <-]; apply Hdone]].
    repeat (wp_step; cbn beta iota). cbn [bt_seen].
    destruct (default false _); (split; [done|]); intros l; [done|intros [= <-]]. by apply (Hdone _ eq_refl).
  - repeat wp_step. split; [done|]. intros l [= <-]. by apply Hdone.
Qed.

(** The ids handed out by a sequence of receives, each returning or raising. *)
Fixpoint delivered (limits : list (option Z)) t : list string :=
  match limits with
  | [] => []
  | limit :: rest =>
      let '(o, t') := buzz_receive channel cursor_path local_pubkey limit t in
      match o with Ok l => pm_message_id <$> l | Raise _ => [] end ++ delivered rest t'
  end.

(** What is delivered was not seen before. *)
Lemma delivered_new limits t :
  NoDup (delivered limits t) ∧ ∀ id, id ∈ delivered limits t → id ∉ bt_seen t.
Proof.
  revert t. induction limits as [|lim limits IH]; intros t; cbn [delivered].
  - split; [constructor|]. intros id Hid. by apply elem_of_nil in Hid.
  - pose proof (receive_wp None lim t) as Hwp. unfold wp, buzz_receive in *.
    destruct (receive_peer_messages _ _ _ _ _ t) as [o t']. cbn in Hwp. destruct Hwp as [Hsub Hl].
    destruct (IH t') as [Hnd Hnew]. destruct o as [l|e]; cbn.
    + destruct (Hl l eq_refl) as ([Hnd' Hids] & _). rewrite Forall_forall in Hids.
      assert (∀ id, id ∈ pm_message_id <$> l → (id ∉ bt_seen t) ∧ id ∈ bt_seen t') as Hids'.
      { intros id (pm & -> & Hin)%list_elem_of_fmap. by apply Hids. }
      split.
      * apply NoDup_app. split_and!; [done| |done]. intros id Hid Hid'.
        destruct (Hids' id Hid) as [_ Hin]. by apply (Hnew id Hid').
      * intros id [Hid|Hid]%elem_of_app; [by apply Hids'|]. intros Hin. by apply (Hnew id Hid), Hsub.
    + split; [done|]. intros id Hid Hin. by apply (Hnew id Hid), Hsub.
Qed.

(** C26. No event is delivered twice, and nothing is delivered that was not
    validated: one receive hands out at most [limit] messages, each a fetched
    event that is not the endpoint's own, was validated for this channel and is
    attributed to its author, with distinct ids that were unseen before and are
    seen after; and over any sequence of receives, with any answers of the
    executor and any of them raising, all delivered ids are distinct. *)
Theorem buzz_delivers_once limit limits t :
  wp (buzz_receive channel cursor_path local_pubkey limit) (λ o t',
    ∀ l, o = Ok l → new_ids t t' l ∧ (∀ n, limit = Some n → Z.of_nat (List.length l) ≤ n) ∧
      (l = [] ∨ ∃ events, (bx_get channel [WIRE_KIND] None None (bt_world t)).1 = Ok events ∧
                          Forall (from_event events) l)) t ∧
  NoDup (delivered limits t).
Proof.
  split; [eapply wp_mono; [apply receive_wp|]; cbn; intros o t' [_ Hl]; exact Hl|].
  apply delivered_new.
Qed.

(** ** A poisoned channel *)

(** Whatever the time, the event validates or is skipped. *)
Definition harmless (ev : RawBuzzEvent) : Prop :=
  ∀ now, match validate_received_event ev channel now with
         | Ok _ => True
         | Raise e => isinstance_exn e CEnvelopeValidationError = true
         end.

(** Whatever the time, its validation raises what [receive] does not catch. *)
Definition poisonous (ev : RawBuzzEvent) : Prop :=
  ∀ now, match validate_received_event ev channel now with
         | Ok _ => False
         | Raise e => isinstance_exn e CEnvelopeValidationError = false
         end.

Lemma poison_loop ev post pre l0 ch t :
  poisonous ev → is_own ev = false → Forall harmless pre →
  ev_id ev ∉ bt_seen t → ev_id ev ∉ ev_id <$> pre →
  wp (receive_loop channel local_pubkey None (pre ++ ev :: post) l0 ch) (λ o t',
    (∃ e, o = Raise e ∧ isinstance_exn e CEnvelopeValidationError = false) ∧
    bt_seen t ⊆ bt_seen t' ∧ ∀ id, id ∈ ev_id <$> pre → id ∈ bt_seen t') t.
Proof.
  intros Hbad Hown Hpre. revert l0 ch t. induction Hpre as [|ev' pre Hev' Hpre IH]; intros l0 ch t Hnew Hne.
  - cbn [app receive_loop]. repeat (wp_step; cbn beta iota). rewrite bool_decide_eq_false_2 by done.
    unfold mark_seen. repeat (wp_step; cbn beta iota). rewrite Hown.
    unfold transport_now. repeat (wp_step; cbn beta iota).
    match goal with |- context [validate_received_event ev channel ?now] => specialize (Hbad now) end.
    destruct (validate_received_event _ _ _) as [m|e]; [done|]. rewrite Hbad. wp_step.
    split; [by exists e|]. cbn [bt_seen]. split; [set_solver|]. intros id Hid. by apply elem_of_nil in Hid.
  - rewrite fmap_cons in Hne. apply not_elem_of_cons in Hne as [Hne1 Hne].
    assert (∀ l1 ch1 t1, bt_seen t1 = {[ev_id ev']} ∪ bt_seen t →
      wp (receive_loop channel local_pubkey None (pre ++ ev :: post) l1 ch1) (λ o t',
        (∃ e, o = Raise e ∧ isinstance_exn e CEnvelopeValidationError = false) ∧
        bt_seen t ⊆ bt_seen t' ∧ ∀ id, id ∈ ev_id <$> ev' :: pre → id ∈ bt_seen t') t1) as Hrec.
    { intros l1 ch1 t1 Hs. eapply wp_mono; [apply IH; [|done]|].
      - rewrite Hs. set_solver.
      - intros o t' (Ho & Hsub & Hids). split; [done|]. split; [set_solver|].
        intros id. rewrite fmap_cons. intros [->|Hid]%elem_of_cons; [set_solver|by apply Hids]. }
    cbn [app receive_loop]. repeat (wp_step; cbn beta iota). case_bool_decide as Hseen.
    { apply Hrec. set_solver. }
    unfold mark_seen. repeat (wp_step; cbn beta iota). destruct (is_own ev'); [by apply Hrec|].
    unfold transport_now. repeat (wp_step; cbn beta iota).
    match goal with |- context [validate_received_event ev' channel ?now] => specialize (Hev' now) end.
    destruct (validate_received_event _ _ _) as [m|e]; [by apply Hrec|]. rewrite Hev'. by apply Hrec.
Qed.

(** C29. One malformed event loses the valid messages of its batch: when an
    unseen event of another key makes the validation raise an error that
    [receive] does not catch, the whole call raises it; every event fetched
    before it is marked seen, and no later receive, whatever its limit and the
    answers of the executor, ever delivers one of them. *)
Theorem poison_event_loses_batch pre ev post w t :
  (bx_get channel [WIRE_KIND] None None (bt_world t)) = (Ok (pre ++ ev :: post), w) →
  poisonous ev → is_own ev = false → Forall harmless pre →
  ev_id ev ∉ bt_seen t → ev_id ev ∉ ev_id <$> pre →
  ∃ e t', buzz_receive channel cursor_path local_pubkey None t = (Raise e, t') ∧
    isinstance_exn e CEnvelopeValidationError = false ∧
    ∀ id, id ∈ ev_id <$> pre → id ∈ bt_seen t' ∧ ∀ limits, id ∉ delivered limits t'.
Proof.
  intros Hget Hbad Hown Hpre Hnew Hne.
  assert (wp (buzz_receive channel cursor_path local_pubkey None) (λ o t',
    (∃ e, o = Raise e ∧ isinstance_exn e CEnvelopeValidationError = false) ∧
    ∀ id, id ∈ ev_id <$> pre → id ∈ bt_seen t') t) as Hwp.
  { unfold buzz_receive, receive_peer_messages. wp_step. wp_step. cbn beta iota.
    rewrite bool_decide_eq_false_2 by done. wp_step. unfold on_executor. wp_step. unfold wp at 1.
    rewrite Hget. cbn. wp_step. eapply wp_mono; [by apply poison_loop|].
    intros o t' ((e & -> & He) & _ & Hids). split; [by exists e|done]. }
  unfold wp in Hwp. destruct (buzz_receive _ _ _ _ t) as [o t']. cbn [fst snd] in Hwp. destruct Hwp as [(e & -> & He) Hids].
  exists e, t'. split; [done|]. split; [done|]. intros id Hid. split; [by apply Hids|].
  intros limits Hin. by apply (proj2 (delivered_new limits t') id Hin), Hids.
Qed.
End Receive.

#[local] Existing Instance ref_host.

(** An event whose decoding is known is harmless. *)
Lemma harmless_decoded channel ev m :
  (∃ ch, channel_from_tags (ev_tags ev) = Ok ch) → decode_event_content (ev_content ev) = Ok m →
  harmless channel ev.
Proof.
  intros (ch & Hch) Hm now. unfold validate_received_event. rewrite Hm.
  destruct (negb _); [done|]. rewrite Hch. cbn [mbind outcome_bind].
  destruct (negb _); [done|]. cbn zeta. destruct (match message_expires_at m with Some _ => _ | None => _ end); [done|].
  by destruct (negb _).
Qed.

Definition event_with (id : string) (author : AgentIdentity) (content : string) : RawBuzzEvent :=
  {| ev_id := id; ev_pubkey := JStr (pubkey author); ev_kind := JInt 9; ev_content := JStr content;
     ev_tags := JList [JList [JStr "h"; JStr "channel-1"]]; ev_created_at := JInt 50 |}.

Definition intent_event : RawBuzzEvent :=
  event_with "event-1" alice (model_dump_json (envelope_json INTENT (model_dump sample_intent))).
Definition hostile_event : RawBuzzEvent := event_with "event-2" alice hostile_content.

Definition channel_of (events : list RawBuzzEvent) : BuzzTransport FakeBuzz :=
  {| bt_world := {| fb_sent := []; fb_events := events; fb_next_id := 0; fb_time := 60 |};
     bt_cursor_file := Missing; bt_faults := []; bt_clock := λ _, 100; bt_ticks := 0; bt_seen := ∅ |}.

(** An envelope whose [type] is a list, after a valid intent. *)
Lemma poison_event_loses_batch_witness :
  ∃ e t', buzz_receive (W := FakeBuzz) "channel-1" (Some "cursor.json") None None
            (channel_of [intent_event; hostile_event]) = (Raise e, t') ∧
    isinstance_exn e CEnvelopeValidationError = false ∧
    ∀ id, id ∈ ev_id <$> [intent_event] → id ∈ bt_seen t' ∧
      ∀ limits, id ∉ delivered "channel-1" (Some "cursor.json") None limits t'.
Proof.
  eapply (poison_event_loses_batch (W := FakeBuzz) "channel-1" (Some "cursor.json") None
            [intent_event] hostile_event []).
  - vm_compute. reflexivity.
  - intros now. vm_compute. reflexivity.
  - reflexivity.
  - apply Forall_singleton. eapply (harmless_decoded _ _ (MIntent sample_intent)).
    + eexists. vm_compute. reflexivity.
    + vm_compute. reflexivity.
  - apply not_elem_of_empty.
  - intros Hin%list_elem_of_singleton. revert Hin. decide_now.
Defined.

(** ** Roles *)

(** C35. A peer acts only in its role: it publishes only messages it authored;
    an intent is accepted only by its recipient; a quote or a receipt for a
    tracked intent is accepted only from that intent's recipient; otherwise
    the call raises [PeerProtocolError] with nothing changed and nothing sent;
    and an intent the policy engine refuses is not published. *)
Theorem peers_keep_their_roles `{Host} {T W : Type} `{PeerTransport T} `{SettlementAdapter W}
    (me : AgentIdentity) (allow : option (string → bool)) (p : HermesPeer T W) :
  let refused {A} (m : PyM (HermesPeer T W) A) :=
    ∃ e, m p = (Raise e, p) ∧ exn_cls e = CPeerProtocolError in
  (∀ m, pubkey (author_of m) ≠ pubkey me → refused (peer_send me (OMessage m))) ∧
  (∀ i, pubkey (pi_sender i) ≠ pubkey me → refused (submit_intent me allow i)) ∧
  (∀ i, pubkey (pi_recipient i) ≠ pubkey me → refused (accept_intent me allow i)) ∧
  (∀ q r, dget (o_intents (hp_orchestrator p)) (pq_intent_id q) = Some r →
     pubkey (pq_recipient q) ≠ pubkey (pi_recipient (ir_intent r)) → refused (accept_quote q)) ∧
  (∀ c r, dget (o_intents (hp_orchestrator p)) (pr_intent_id c) = Some r →
     pubkey (pr_recipient c) ≠ pubkey (pi_recipient (ir_intent r)) → refused (accept_receipt c)) ∧
  (∀ i e o, submit allow i (hp_orchestrator p) = (Raise e, o) →
     is_ok (submit_intent me allow i p).1 = false ∧
     hp_transport (submit_intent me allow i p).2 = hp_transport p).
Proof.
  cbn zeta. split_and!.
  - intros m Hne. unfold peer_send, require_local_author, mbind, py_bind, lift, raise_if. cbn.
    rewrite (proj2 (String.eqb_neq _ _) Hne). by eexists.
  - intros i Hne. unfold submit_intent, require_local_author, mbind, py_bind, lift, raise_if. cbn.
    rewrite (proj2 (String.eqb_neq _ _) Hne). by eexists.
  - intros i Hne. unfold accept_intent, require_local_recipient, mbind, py_bind, raise_if.
    rewrite (proj2 (String.eqb_neq _ _) Hne). by eexists.
  - intros q r Hr Hne. unfold accept_quote, on_orchestrator, zoom, get_intent, mbind, py_bind, gets, mret, py_ret, raise_if.
    rewrite Hr. cbn. rewrite (proj2 (String.eqb_neq _ _) Hne). eexists. split; [by destruct p|done].
  - intros c r Hr Hne. unfold accept_receipt, on_orchestrator, zoom, get_intent, mbind, py_bind, gets, mret, py_ret, raise_if.
    rewrite Hr. cbn. rewrite (proj2 (String.eqb_neq _ _) Hne). eexists. split; [by destruct p|done].
  - intros i e o Hs. unfold submit_intent, require_local_author, mbind, py_bind, lift, raise_if. cbn.
    destruct (negb _); [by destruct p|]. unfold on_orchestrator, zoom. by rewrite Hs.
Qed.
