(* ===== verification/DeliveryThms.v ===== *)
(** * Delivery over Buzz, to the end and across restarts

    What the Buzz transport delivers beyond one receive: a message that was
    published arrives as it was sent, and with the cursor file no event is
    delivered twice even when the transport is created anew. *)

From S2P Require Import Prelude.
From S2P Require Import Json.
From S2P Require Import Models.
From S2P Require Import ModelsFacts.
From S2P Require Import Envelope.
From S2P Require Import EnvelopeFacts.
From S2P Require Import Storage.
From S2P Require Import StorageFacts.
From S2P Require Import PeerTransport.
From S2P Require Import Transport.
From S2P Require Import TransportThms.
Import Models Envelope Storage PeerTransport Transport.

Section Delivery.
Context {h0 : Host} {hl : HostLaws h0} {W : Type} `{BuzzExecutor W}.
Variable channel : string.
Variable cursor_path local_pubkey : option string.
Abbreviation T := (BuzzTransport W).
Abbreviation is_own := (is_own local_pubkey).
Abbreviation loop := (receive_loop channel local_pubkey None).
Abbreviation receive := (buzz_receive channel cursor_path local_pubkey).
Implicit Types (t : T) (events : list RawBuzzEvent) (l : list PeerMessage) (ev : RawBuzzEvent).

(** ** What a receive leaves alone *)

(** The executor, the clock, the file and the coming failures. *)
Definition same_files t t' : Prop :=
  bt_world t' = bt_world t ∧ bt_clock t' = bt_clock t ∧ bt_cursor_file t' = bt_cursor_file t ∧ bt_faults t' = bt_faults t.

Lemma same_files_trans t1 t2 t3 : same_files t1 t2 → same_files t2 t3 → same_files t1 t3.
Proof. unfold same_files. intros (? & ? & ? & ?) (? & ? & ? & ?). split_and!; congruence. Qed.

(** Only ids of fetched events are marked; without one that is new, nothing is. *)
Definition marks events t t' : Prop :=
  bt_seen t ⊆ bt_seen t' ∧ ∀ id, id ∈ bt_seen t' → id ∈ bt_seen t ∨ id ∈ ev_id <$> events.

Lemma loop_frame limit events l0 ch t :
  wp (receive_loop channel local_pubkey limit events l0 ch) (λ o t',
    same_files t t' ∧ marks events t t' ∧
    ∀ l c, o = Ok (l, c) → c = true ∨ c = ch ∧ l = l0 ∧ bt_seen t' = bt_seen t) t.
Proof.
  revert l0 ch t. induction events as [|ev events IH]; intros l0 ch t; cbn [receive_loop].
  - wp_step. split; [done|]. split; [split; [done|by left]|]. intros l c [= <- <-]. by right.
  - assert (∀ l1 t1, same_files t t1 → bt_seen t1 = {[ev_id ev]} ∪ bt_seen t →
      wp (receive_loop channel local_pubkey limit events l1 true) (λ o t',
        same_files t t' ∧ marks (ev :: events) t t' ∧
        ∀ l c, o = Ok (l, c) → c = true ∨ c = ch ∧ l = l0 ∧ bt_seen t' = bt_seen t) t1) as Hrec.
    { intros l1 t1 Hf Hs. eapply wp_mono; [apply IH|]. intros o t' (Hf' & [Hsub Hids] & Hc).
      split; [by eapply same_files_trans|]. split.
      - rewrite Hs in Hsub, Hids. split; [set_solver|]. intros id Hid. rewrite fmap_cons, elem_of_cons.
        destruct (Hids id Hid) as [[->%elem_of_singleton|]%elem_of_union|]; tauto.
      - intros l c Ho. left. destruct (Hc l c Ho) as [|(? & _)]; done. }
    repeat (wp_step; cbn beta iota). case_bool_decide as Hseen.
    { eapply wp_mono; [apply IH|]. intros o t' (Hf & [Hsub Hids] & Hc). split; [done|]. split; [|done].
      split; [done|]. intros id Hid. rewrite fmap_cons, elem_of_cons. destruct (Hids id Hid); tauto. }
    unfold mark_seen. repeat (wp_step; cbn beta iota). destruct (is_own ev); [by apply Hrec|].
    unfold transport_now. repeat (wp_step; cbn beta iota).
    assert (∀ t1, same_files t t1 → bt_seen t1 = {[ev_id ev]} ∪ bt_seen t → marks (ev :: events) t t1) as Hone.
    { intros t1 _ Hs. unfold marks. rewrite Hs, fmap_cons. set_solver. }
    destruct (validate_received_event _ _ _) as [m|e].
    + destruct (full _ _); [|by apply Hrec]. wp_step. split; [done|]. split; [by apply Hone|].
      intros l c [= _ <-]. by left.
    + destruct (isinstance_exn _ _); [by apply Hrec|]. wp_step. split; [done|]. split; [by apply Hone|done].
Qed.

(** ** Arrival *)

(** Events that validate or are skipped let the loop run to its end. *)
Lemma loop_returns events l0 ch t :
  Forall (harmless channel) events → wp (loop events l0 ch) (λ o _, ∃ l c, o = Ok (l0 ++ l, c)) t.
Proof.
  intros Hall. revert l0 ch t. induction Hall as [|ev events Hev Hall IH]; intros l0 ch t; cbn [receive_loop].
  - wp_step. exists [], ch. by rewrite app_nil_r.
  - repeat (wp_step; cbn beta iota). case_bool_decide; [apply IH|].
    unfold mark_seen. repeat (wp_step; cbn beta iota). destruct (is_own ev); [apply IH|].
    unfold transport_now. repeat (wp_step; cbn beta iota).
    match goal with |- context [validate_received_event ev channel ?now] => specialize (Hev now) end.
    destruct (validate_received_event _ _ _) as [m|e]; cbn [full].
    + eapply wp_mono; [apply IH|]. intros o t' (l & c & ->). rewrite <- app_assoc. by eexists _, _.
    + rewrite Hev. apply IH.
Qed.

Definition message_of ev (m : PaymentMessage) : PeerMessage :=
  {| pm_message_id := ev_id ev; pm_message := m; pm_author := author_of m;
     pm_published_at := ev_created_at ev |}.

Lemma loop_delivers ev m post pre l0 ch t :
  (∀ n, validate_received_event ev channel (bt_clock t n) = Ok m) → is_own ev = false →
  Forall (harmless channel) pre → Forall (harmless channel) post →
  ev_id ev ∉ bt_seen t → ev_id ev ∉ ev_id <$> pre →
  wp (loop (pre ++ ev :: post) l0 ch) (λ o _, ∃ l1 l2, o = Ok (l0 ++ l1 ++ message_of ev m :: l2, true)) t.
Proof.
  intros Hev Hown Hpre Hpost. revert l0 ch t Hev.
  induction Hpre as [|ev' pre Hev' Hpre IH]; intros l0 ch t Hev Hnew Hne; cbn [app receive_loop].
  - repeat (wp_step; cbn beta iota). rewrite bool_decide_eq_false_2 by done.
    unfold mark_seen. repeat (wp_step; cbn beta iota). rewrite Hown.
    unfold transport_now. repeat (wp_step; cbn beta iota). cbn [bt_clock bt_ticks]. rewrite Hev. cbn [full].
    eapply wp_mono; [apply wp_conj; [by apply loop_returns|apply (loop_frame None)]|].
    intros o t' [(l & c & ->) (_ & _ & Hc)]. destruct (Hc _ _ eq_refl) as [->|(-> & _)];
      exists [], l; by rewrite <- app_assoc.
  - rewrite fmap_cons in Hne. apply not_elem_of_cons in Hne as [Hne1 Hne].
    assert (∀ l1 ch1 t1, bt_clock t1 = bt_clock t → bt_seen t1 = {[ev_id ev']} ∪ bt_seen t →
      wp (loop (pre ++ ev :: post) l1 ch1)
        (λ o _, ∃ l2 l3, o = Ok (l1 ++ l2 ++ message_of ev m :: l3, true)) t1) as Hrec.
    { intros l1 ch1 t1 Hclock Hs. apply IH; [by rewrite Hclock|rewrite Hs; set_solver|done]. }
    repeat (wp_step; cbn beta iota). case_bool_decide as Hseen.
    { apply IH; [done|done|done]. }
    unfold mark_seen. repeat (wp_step; cbn beta iota). destruct (is_own ev'); [by apply Hrec|].
    unfold transport_now. repeat (wp_step; cbn beta iota).
    match goal with |- context [validate_received_event ev' channel ?now] => specialize (Hev' now) end.
    destruct (validate_received_event _ _ _) as [m'|e]; cbn [full].
    + eapply wp_mono; [by apply Hrec|]. intros o t' (l2 & l3 & ->). rewrite <- app_assoc.
      by eexists (_ :: l2), l3.
    + rewrite Hev'. by apply Hrec.
Qed.

(** The event a relay makes of [content] signed with the key of the author. *)
Definition carries ev (m : PaymentMessage) (content : string) : Prop :=
  ev_kind ev = JInt WIRE_KIND ∧ channel_from_tags (ev_tags ev) = Ok (JStr channel) ∧
  ev_content ev = JStr content ∧ ev_pubkey ev = JStr (pubkey (author_of m)).

Definition unexpired (m : PaymentMessage) (clock : nat → Z) : Prop :=
  ∀ n e, message_expires_at m = Some e → e = 0 ∨ clock n ≤ e.

Lemma carried_validates ev m content clock n :
  carries ev m content → decode_content content = Ok m → unexpired m clock →
  validate_received_event ev channel (clock n) = Ok m.
Proof.
  intros (Hk & Hch & Hc & Hpk) Hdec Hexp. unfold validate_received_event. rewrite Hk, Hch, Hc, Hpk.
  cbn [py_eq as_int WIRE_KIND Z.eqb Pos.eqb negb mbind outcome_bind decode_event_content].
  rewrite !String.eqb_refl, Hdec. cbn [negb].
  assert (match message_expires_at m with
          | Some e => negb (e =? 0) && (e <? clock n) | None => false end = false) as ->;
    [|by rewrite String.eqb_refl].
  specialize (Hexp n). destruct (message_expires_at m) as [e|]; [|done].
  destruct (Hexp e eq_refl) as [->|Hle]; [done|].
  apply andb_false_intro2, Z.ltb_ge. exact Hle.
Qed.

(** A receive whose fetch carries a new message hands it out. *)
Lemma receive_delivers m content pre ev post w t :
  decode_content content = Ok m →
  (bx_get channel [WIRE_KIND] None None (bt_world t)) = (Ok (pre ++ ev :: post), w) →
  carries ev m content → unexpired m (bt_clock t) → is_own ev = false →
  Forall (harmless channel) pre → Forall (harmless channel) post →
  ev_id ev ∉ bt_seen t → ev_id ev ∉ ev_id <$> pre → default false (head (bt_faults t)) = false →
  wp (receive None) (λ o t', ∃ l1 l2, o = Ok (l1 ++ message_of ev m :: l2) ∧ ev_id ev ∈ bt_seen t') t.
Proof.
  intros Hdec Hget Hev Hexp Hown Hpre Hpost Hnew Hne Hfault.
  assert (wp (receive None) (λ o t', ∃ l1 l2, o = Ok (l1 ++ message_of ev m :: l2)) t) as Hwp.
  { unfold buzz_receive, receive_peer_messages. wp_step. wp_step. cbn beta iota.
    rewrite bool_decide_eq_false_2 by done. wp_step. unfold on_executor. wp_step. unfold wp at 1.
    rewrite Hget. cbn. wp_step. eapply wp_mono.
    { apply wp_conj; [apply loop_delivers; try done; intros n; by eapply (carried_validates _ _ content)|].
      apply (loop_frame None). }
    intros o t' [(l1 & l2 & ->) ((_ & _ & _ & Hf) & _)]. cbn in Hf. wp_step.
    unfold save_cursor. destruct cursor_path; [|repeat wp_step; by eexists _, _].
    repeat (wp_step; cbn beta iota). rewrite Hf, Hfault. cbn. repeat wp_step. by eexists _, _. }
  eapply wp_mono; [exact (wp_conj _ _ _ _ Hwp (receive_wp channel cursor_path local_pubkey None None t))|].
  cbn beta. intros o t' [(l1 & l2 & ->) [_ Hl]]. exists l1, l2. split; [done|].
  destruct (Hl _ eq_refl) as ([_ Hall] & _). apply Forall_app in Hall as [_ [Hin _]%Forall_cons]. by apply Hin.
Qed.

(** ** The cursor file *)

Implicit Types (X U : gset string).

Lemma cursor_ids_elem X id : id ∈ cursor_ids X → id ∈ X.
Proof.
  unfold cursor_ids. intros Hin. apply elem_of_elements. rewrite <- sort_strings_perm.
  rewrite <- (take_drop (List.length (sort_strings (elements X)) - cursor_limit)). apply elem_of_app. by right.
Qed.

Lemma load_saved_cursor p X : load_cursor (Some p) (Doc (cursor_doc X)) = Ok (list_to_set (cursor_ids X)).
Proof.
  cbn -[cursor_ids]. f_equal. f_equal. unfold str_members. induction (cursor_ids X) as [|id l IH]; [done|].
  cbn. by rewrite IH.
Qed.

Lemma sorted_length X : List.length (sort_strings (elements X)) = size X.
Proof. by rewrite sort_strings_perm. Qed.

(** A cursor within the limit is kept whole. *)
Lemma cursor_within X : (size X ≤ cursor_limit)%nat → list_to_set (cursor_ids X) = X.
Proof.
  intros Hsize. unfold cursor_ids. rewrite sorted_length.
  replace (size X - cursor_limit)%nat with 0%nat by lia. rewrite drop_0. apply leibniz_equiv. intros id.
  by rewrite elem_of_list_to_set, sort_strings_perm, elem_of_elements.
Qed.

(** Beyond the limit ids are forgotten. *)
Lemma cursor_beyond X : (cursor_limit < size X)%nat → ∃ id, id ∈ X ∧ id ∉ cursor_ids X.
Proof.
  intros Hsize. unfold cursor_ids. rewrite sorted_length.
  assert (NoDup (sort_strings (elements X))) as Hnd by (rewrite sort_strings_perm; apply NoDup_elements).
  assert (∀ id, id ∈ sort_strings (elements X) → id ∈ X) as Hin
    by (intros id; by rewrite sort_strings_perm, elem_of_elements).
  pose proof (sorted_length X) as Hlen. destruct (sort_strings (elements X)) as [|id l]; [cbn in Hlen; lia|].
  exists id. split; [apply Hin; by left|]. apply NoDup_cons in Hnd as [Hid _].
  destruct (size X - cursor_limit)%nat as [|n] eqn:Hn; [lia|]. cbn [drop]. intros Hd.
  apply Hid. rewrite <- (take_drop n l). apply elem_of_app. by right.
Qed.

Hypothesis with_cursor : is_Some cursor_path.

(** A receive that hands out messages has written the cursor. *)
Lemma receive_files limit t :
  wp (receive limit) (λ o t',
    (bt_cursor_file t' = bt_cursor_file t ∧ ∀ l, o = Ok l → l = []) ∨
    bt_cursor_file t' = Doc (cursor_doc (bt_seen t'))) t.
Proof.
  destruct with_cursor as [p Hp]. unfold buzz_receive, receive_peer_messages. wp_step. wp_step.
  destruct (match limit with Some n => n <? 0 | None => false end); [by left|].
  case_bool_decide as Hz.
  { wp_step. left. split; [done|]. by intros l [= <-]. }
  wp_step. unfold on_executor. wp_step. unfold wp at 1.
  destruct (bx_get channel [WIRE_KIND] None None (bt_world t)) as [[events|e] w]; cbn; [|by left].
  wp_step. eapply wp_mono; [apply loop_frame|]. intros [[l c]|e] t' ((_ & _ & Hfile & _) & _ & Hc); [|by left].
  wp_step. destruct (Hc l c eq_refl) as [->|(-> & -> & _)].
  - unfold save_cursor. rewrite Hp. repeat (wp_step; cbn beta iota).
    destruct (default false _); [by left|]. cbn. repeat wp_step. by right.
  - repeat wp_step. left. split; [done|]. by intros l [= <-].
Qed.

(** ** A life of the endpoint *)

(** A receive; the world changing by itself, as when others publish; a new
    transport on the cursor file as it is. *)
Inductive LifeAct :=
  | LReceive (limit : option Z)
  | LWorld (w : W)
  | LRestart (faults : list bool) (clock : nat → Z).

Definition in_world (w : W) t : T :=
  {| bt_world := w; bt_cursor_file := bt_cursor_file t; bt_faults := bt_faults t; bt_clock := bt_clock t;
     bt_ticks := bt_ticks t; bt_seen := bt_seen t |}.

(** The ids handed out, in order. *)
Fixpoint life (acts : list LifeAct) t : list string :=
  match acts with
  | [] => []
  | LReceive limit :: rest =>
      let '(o, t') := receive limit t in
      match o with Ok l => pm_message_id <$> l | Raise _ => [] end ++ life rest t'
  | LWorld w :: rest => life rest (in_world w t)
  | LRestart faults clock :: rest =>
      match buzz_init channel cursor_path (bt_world t) (bt_cursor_file t) faults clock with
      | Ok t' => life rest t'
      | Raise _ => []
      end
  end.

(** In every world that is met the channel has only events with ids in [U]. *)
Definition channel_ids (good : W → Prop) U : Prop :=
  ∀ w, good w → good (bx_get channel [WIRE_KIND] None None w).2 ∧
    ∀ events, (bx_get channel [WIRE_KIND] None None w).1 = Ok events → Forall (λ ev, ev_id ev ∈ U) events.

Section Life.
Context (good : W → Prop) (U : gset string) (HU : channel_ids good U).

Lemma receive_within limit t :
  good (bt_world t) → bt_seen t ⊆ U →
  wp (receive limit) (λ _ t', good (bt_world t') ∧ bt_seen t' ⊆ U) t.
Proof.
  intros Hgood Hseen. unfold buzz_receive, receive_peer_messages. wp_step. wp_step.
  destruct (match limit with Some n => n <? 0 | None => false end); [done|].
  case_bool_decide as Hz; [by wp_step|]. wp_step. unfold on_executor. wp_step. unfold wp at 1.
  destruct (HU _ Hgood) as [Hgood' Hevents].
  destruct (bx_get channel [WIRE_KIND] None None (bt_world t)) as [[events|e] w]; cbn in *; [|done].
  specialize (Hevents events eq_refl). rewrite Forall_forall in Hevents. wp_step.
  eapply wp_mono; [apply loop_frame|]. intros o t' ((Hw & _) & [_ Hids] & _). cbn in Hw, Hids.
  assert (good (bt_world t') ∧ bt_seen t' ⊆ U) as Hdone.
  { rewrite Hw. split; [done|]. intros id Hid. destruct (Hids id Hid) as [|Hin]; [by apply Hseen|].
    apply list_elem_of_fmap in Hin as (ev & -> & Hin). by apply Hevents. }
  destruct o as [[l c]|e]; [|done]. wp_step. destruct c; [|by repeat wp_step].
  unfold save_cursor. destruct cursor_path; [|by repeat wp_step].
  repeat (wp_step; cbn beta iota). destruct (default false _); [done|]. cbn. by repeat wp_step.
Qed.

(** What was handed out is seen and in the cursor. *)
Record LifeInv (D : gset string) t : Prop := {
  li_world : good (bt_world t);
  li_seen : D ⊆ bt_seen t ∧ bt_seen t ⊆ U;
  li_file : ∀ Y, load_cursor cursor_path (bt_cursor_file t) = Ok Y → D ⊆ Y ∧ Y ⊆ U
}.

Hypothesis small : (size U ≤ cursor_limit)%nat.

Lemma receive_life limit D t :
  LifeInv D t →
  wp (receive limit) (λ o t', match o with
    | Ok l => NoDup (pm_message_id <$> l) ∧ (∀ id, id ∈ pm_message_id <$> l → id ∉ D) ∧
              LifeInv (D ∪ list_to_set (pm_message_id <$> l)) t'
    | Raise _ => LifeInv D t'
    end) t.
Proof.
  intros [Hw [HD Hseen] Hfile]. destruct with_cursor as [p Hp].
  pose proof (wp_conj _ _ _ _ (receive_files limit t)
    (wp_conj _ _ _ _ (receive_within limit t Hw Hseen)
       (receive_wp channel cursor_path local_pubkey None limit t))) as Hwp.
  eapply wp_mono; [exact Hwp|]. cbn beta. clear Hwp.
  intros o t' (Hf & (Hw' & Hseen') & Hsub & Hids).
  assert (∀ E, E ⊆ bt_seen t' → (E ⊆ D ∨ bt_cursor_file t' = Doc (cursor_doc (bt_seen t'))) → D ⊆ E →
    LifeInv E t') as Hinv.
  { intros E HE Hor HDE. split; [done|done|]. intros Y HY.
    destruct Hf as [[Heq _]|Heq].
    - rewrite Heq in HY. destruct Hor as [HED|Hdoc].
      + destruct (Hfile Y HY). split; [set_solver|done].
      + rewrite Hdoc in Heq. rewrite <- Heq, Hp, load_saved_cursor in HY. injection HY as <-.
        rewrite cursor_within; [done|]. pose proof (subseteq_size _ _ Hseen'). lia.
    - rewrite Heq, Hp, load_saved_cursor in HY. injection HY as <-.
      rewrite cursor_within; [done|]. pose proof (subseteq_size _ _ Hseen'). lia. }
  destruct o as [l|e].
  - destruct (Hids l eq_refl) as ([Hnd Hall] & _). rewrite Forall_forall in Hall. split; [done|].
    assert (∀ id, id ∈ pm_message_id <$> l → (id ∉ bt_seen t) ∧ id ∈ bt_seen t') as Hl.
    { intros id (pm & -> & Hin)%list_elem_of_fmap. by apply Hall. }
    split; [intros id Hid Hin; by apply (proj1 (Hl id Hid)), HD|]. apply Hinv.
    + intros id [Hid|Hid%elem_of_list_to_set]%elem_of_union; [by apply Hsub, HD|by apply Hl].
    + destruct Hf as [[_ Hnil]|Hdoc]; [|by right]. left. rewrite (Hnil l eq_refl). set_solver.
    + set_solver.
  - apply Hinv; [set_solver|by left|done].
Qed.

Lemma life_inv acts D t :
  LifeInv D t → (∀ w, LWorld w ∈ acts → good w) →
  NoDup (life acts t) ∧ ∀ id, id ∈ life acts t → id ∉ D.
Proof.
  revert D t. induction acts as [|[limit|w|faults clock] acts IH]; intros D t Hinv Hacts; cbn [life].
  - split; [constructor|]. by intros id ?%elem_of_nil.
  - assert (∀ w, LWorld w ∈ acts → good w) as Hrest by (intros w Hin; apply Hacts; by right).
    pose proof (receive_life limit D t Hinv) as Hwp. unfold wp in Hwp.
    destruct (receive limit t) as [[l|e] t']; cbn [fst snd] in Hwp.
    + destruct Hwp as (Hnd & Hnew & Hinv'). destruct (IH _ _ Hinv' Hrest) as [Hnd' Hnew'].
      split.
      * apply NoDup_app. split_and!; [done| |done]. intros id Hid Hid'. apply (Hnew' id Hid'). set_solver.
      * intros id [Hid|Hid]%elem_of_app; [by apply Hnew|]. specialize (Hnew' id Hid). set_solver.
    + by apply IH.
  - apply IH; [|intros w' Hin; apply Hacts; by right]. destruct Hinv as [_ ? ?].
    split; [apply Hacts; by left|done|done].
  - unfold buzz_init. destruct (String.eqb channel ""); [split; [constructor|by intros id ?%elem_of_nil]|].
    destruct Hinv as [Hw Hs Hfile]. destruct (load_cursor cursor_path (bt_cursor_file t)) as [Y|e] eqn:HY; cbn.
    + apply IH; [|intros w' Hin; apply Hacts; by right].
      destruct (Hfile Y eq_refl) as [? ?]. split; [done|done|]. intros Y' HY'. cbn in HY'. rewrite HY in HY'.
      by injection HY' as <-.
    + split; [constructor|by intros id ?%elem_of_nil].
Qed.
End Life.


(** C28. With a cursor file no event is delivered twice, restarts included: on
    a channel of at most 10000 events, over any sequence of receives with any
    limits, changes of the world, failing writes of the cursor and new
    transports on the cursor file, starting with an endpoint and a cursor that
    know only events of the channel, all ids handed out are distinct.  The
    bound is needed: with more ids seen, the cursor forgets one of them, and
    when a new transport fetches that event it hands it out again. *)
Theorem deliveries_survive_restarts (good : W → Prop) U acts t :
  channel_ids good U → Z.of_nat (size U) ≤ 10000 → (∀ w, LWorld w ∈ acts → good w) →
  good (bt_world t) → bt_seen t ⊆ U →
  (∀ Y, load_cursor cursor_path (bt_cursor_file t) = Ok Y → Y ⊆ U) →
  NoDup (life acts t) ∧
  ∀ t2, bt_cursor_file t2 = Doc (cursor_doc (bt_seen t2)) → 10000 < Z.of_nat (size (bt_seen t2)) →
    channel ≠ "" →
    ∃ id, id ∈ bt_seen t2 ∧ ∀ w w' pre ev post m content faults clock, ev_id ev = id →
      (bx_get channel [WIRE_KIND] None None w) = (Ok (pre ++ ev :: post), w') →
      Forall (harmless channel) pre → Forall (harmless channel) post → id ∉ ev_id <$> pre →
      carries ev m content → decode_content content = Ok m → unexpired m clock → is_own ev = false →
      default false (head faults) = false →
      id ∈ life [LWorld w; LRestart faults clock; LReceive None] t2.
Proof.
  intros HU Hsmall Hacts Hw Hseen Hfile. split.
  - assert (size U ≤ cursor_limit)%nat as Hlimit by (unfold cursor_limit; lia).
    eapply (life_inv good U HU Hlimit acts ∅); [|done]. split; [done|split; [set_solver|done]|].
    intros Y HY. split; [set_solver|by apply Hfile].
  - clear t Hw Hseen Hfile. intros t Hfile Hsize Hch.
    destruct (cursor_beyond (bt_seen t)) as (id & Hid & Hforgotten); [unfold cursor_limit; lia|]. exists id. split; [done|].
    intros w w' pre ev post m content faults clock <- Hget Hpre Hpost Hne Hev Hdec Hexp Hown Hfault.
    cbn [life in_world bt_world bt_cursor_file]. destruct with_cursor as [p Hp].
    unfold buzz_init. rewrite (proj2 (String.eqb_neq _ _) Hch), Hfile, Hp, load_saved_cursor.
    cbn [mbind outcome_bind]. rewrite <- Hp.
    match goal with |- context [receive None ?t0] =>
      assert (wp (receive None) (λ o t', ∃ l1 l2, o = Ok (l1 ++ message_of ev m :: l2) ∧
        ev_id ev ∈ bt_seen t') t0) as Hwp end.
    { eapply receive_delivers; try done. cbn. by rewrite elem_of_list_to_set. }
    unfold wp in Hwp. destruct (receive None _) as [o t']. cbn [fst snd] in Hwp.
    destruct Hwp as (l1 & l2 & -> & _). rewrite app_nil_r, fmap_app, fmap_cons. apply elem_of_app. right. by left.
Qed.

End Delivery.

(** ** A concrete channel *)

#[local] Existing Instance ref_host.


(** The intent is received once, though the transport is created anew between
    two receives. *)
Lemma deliveries_survive_restarts_witness :
  let acts := [LReceive None; LRestart [] (λ _, 100); LReceive None] in
  life (W := FakeBuzz) "channel-1" (Some "cursor.json") None acts (channel_of [intent_event]) = ["event-1"] ∧
  NoDup (life (W := FakeBuzz) "channel-1" (Some "cursor.json") None acts (channel_of [intent_event])).
Proof.
  cbn zeta. split; [vm_compute; reflexivity|].
  refine (proj1 (deliveries_survive_restarts (W := FakeBuzz) "channel-1" (Some "cursor.json") None _
    (λ w, fb_events w = [intent_event]) {["event-1"]} _ _ _ _ _ _ _ _)).
  - by eexists.
  - intros [sent events next time] Hw. cbn in Hw. subst events. split; [reflexivity|].
    intros events [= <-]. apply Forall_singleton. cbn. by apply elem_of_singleton.
  - rewrite size_singleton. lia.
  - intros w Hin. revert Hin. rewrite !elem_of_cons, elem_of_nil. naive_solver.
  - reflexivity.
  - apply empty_subseteq.
  - intros Y. cbn. intros [= <-]. apply empty_subseteq.
Defined.
