(* ===== verification/ProcessTyped.v ===== *)
(** * What a process holds is well typed

    [PolicyRecords.v] and [ProcessRecords.v] for the constraints of the
    message classes: every record and every message of the inbox that a
    process holds or wrote is valid, over every transport that delivers valid
    messages ([TransportInv]), as the hub and Buzz do.  With it a process can
    be started again on its own files, unless an event with a malformed time
    is in its inbox. *)

From S2P Require Import Prelude.
From S2P Require Import Json.
From S2P Require Import JsonText.
From S2P Require Import JsonFacts.
From S2P Require Import PyLib.
From S2P Require Import Models.
From S2P Require Import ModelsFacts.
From S2P Require Import StateMachine.
From S2P Require Import Envelope.
From S2P Require Import EnvelopeFacts.
From S2P Require Import Adapter.
From S2P Require Import Storage.
From S2P Require Import StorageFacts.
From S2P Require Import Policy.
From S2P Require Import PolicyFacts.
From S2P Require Import PolicyInv.
From S2P Require Import PolicyRecords.
From S2P Require Import PeerTransport.
From S2P Require Import Transport.
From S2P Require Import Peer.
From S2P Require Import Process.
From S2P Require Import ProcessFacts.
From S2P Require Import ProcessInv.
From S2P Require Import ProcessRecords.
From S2P Require Import PolicyThms.
From S2P Require Import ProcessDisk.
From S2P Require Import ProcessThms.
From S2P Require Import ProcessRestart.
From S2P Require Import TransportThms.
From Stdlib Require Import Floats.SpecFloat.
Import Models StateMachine Envelope Adapter Storage Policy PeerTransport Transport Peer Process.

(** ** The constraints of the classes *)

Definition good_message (m : PaymentMessage) : Prop := message_ok m = true.
Definition good_approval (a : PaymentApproval) : Prop := approval_ok a = true.

(** A delivered message is valid, and so is its author. *)
Definition peer_message_ok (pm : PeerMessage) : Prop :=
  message_ok (pm_message pm) = true ∧ identity_ok (pm_author pm) = true.

Lemma author_ok m : message_ok m = true → identity_ok (author_of m) = true.
Proof.
  destruct m as [i|q|c]; cbn [message_ok author_of]; unfold intent_ok, quote_ok, receipt_ok;
    rewrite ?andb_true_iff; tauto.
Qed.

Lemma opt_ok_Some {M} `{BaseModel M} (m : M) : model_ok m = true → opt_ok (Some m).
Proof. by intros Hm m' [= <-]. Qed.

#[export] Instance record_valid_inv {h : Host} {hl : HostLaws h} {W} (A : SettlementAdapter W) :
  RecordInv A good_message good_approval record_valid.
Proof.
  split.
  - intros i Hi. by split_and!.
  - by intros st r Hr.
  - intros q r Hq (? & ? & ? & ?). split_and!; try done. by apply opt_ok_Some.
  - by intros p r _ Hr.
  - intros a r Ha (? & ? & ? & ?). split_and!; try done. by apply opt_ok_Some.
  - intros c r Hc (? & ? & ? & ?). split_and!; try done. by apply opt_ok_Some.
  - intros r res t c _. unfold build_receipt. intros Hb. bind_inv Hb. injection Hb as <-.
    match goal with Hc : construct _ = Ok ?m |- _ =>
      exact (constructed_ok (M:=PaymentReceipt) _ _ (compute_id m) Hc) end.
  - by intros c r Hr.
Qed.

Lemma fmap_Ok {A B} (f : A → B) (o : outcome A) b : f <$> o = Ok b → ∃ a, o = Ok a ∧ b = f a.
Proof. destruct o as [a|e]; [|done]. intros [= <-]. by exists a. Qed.

(** What the snapshot brings back was validated again. *)
Lemma validated_Ok `{Host} {A} name (validate : json → option A) j a :
  validated name validate j = Ok a → validate j = Some a.
Proof. unfold validated. apply of_opt_Ok. Qed.

Lemma reraise_as_Ok {A} msg (o : outcome A) a : reraise_as msg o = Ok a → o = Ok a.
Proof. destruct o as [b|e]; [done|]. cbn. by destruct (_ || _). Qed.

Lemma restore_message_ok `{Host} type j m : restore_message type j = Ok m → message_ok m = true.
Proof.
  unfold restore_message.
  assert (∀ k, kind_of m = k ∧ message_ok m = true → message_ok m = true) as Hk by tauto.
  assert (∀ s, restore_message (JStr s) j = Ok m → message_ok m = true) as Hs.
  { intros s. unfold restore_message.
    repeat match goal with
    | |- match ?x with _ => _ end = _ → _ => destruct x; try discriminate
    end.
    all: intros (x & Hx%validated_Ok & ->)%fmap_Ok.
    - apply (Hk INTENT), (validate_message_ok INTENT j). cbn. by rewrite Hx.
    - apply (Hk QUOTE), (validate_message_ok QUOTE j). cbn. by rewrite Hx.
    - apply (Hk RECEIPT), (validate_message_ok RECEIPT j). cbn. by rewrite Hx. }
  destruct type; [..|apply Hs| |]; try (unfold restore_message; by case_match).
Qed.

Lemma restore_peer_message_ok `{Host} item pm : restore_peer_message item = Ok pm → message_valid pm.
Proof.
  unfold restore_peer_message. intros Hr%reraise_as_Ok. bind_inv Hr. injection Hr as <-.
  apply bind_Ok in H4 as (j & _ & Hid%validated_Ok). split_and!; [|cbn|by eexists].
  - by eapply restore_message_ok.
  - unfold validate_identity in Hid. destruct j; try done.
    repeat (apply bind_Some in Hid as (? & _ & Hid)). by apply guard_ok_inv in Hid as [_ ?].
Qed.

(** ** The two transports *)

Definition hub_valid (t : Hub) : Prop := Forall (λ q, Forall message_valid q.2) (hub_inboxes t).

Lemma deliver_valid peer pm d :
  message_valid pm → Forall (λ q : string * list PeerMessage, Forall message_valid q.2) d →
  Forall (λ q, Forall message_valid q.2) (deliver peer pm d).
Proof.
  intros Hm Hd. unfold deliver. apply Forall_fmap. eapply Forall_impl; [exact Hd|]. cbn.
  intros q Hq. case_match; [done|]. apply Forall_app. split; [done|by apply Forall_singleton].
Qed.

Lemma dset_valid (d : list (string * list PeerMessage)) k l :
  Forall message_valid l → Forall (λ q, Forall message_valid q.2) d →
  Forall (λ q, Forall message_valid q.2) (dset d k l).
Proof.
  intros Hl. induction 1 as [|[k' l'] d Hq Hd IH]; cbn; [by apply Forall_singleton|].
  case_match; by constructor.
Qed.

(** The hub hands on what it was given, with its own clock's time. *)
#[export] Instance hub_transport_inv `{Host} (peer : string) (identity : AgentIdentity) :
  TransportInv Hub (H := InMemoryPeerTransport peer identity) good_message message_valid hub_valid.
Proof.
  split.
  - intros m t Hm Ht. cbn. unfold hub_send, message_author, raise_if, gets, modify, lift, mbind, py_bind,
      mret, py_ret. cbn. destruct (negb _); [done|]. cbn. apply deliver_valid; [|done].
    split_and!; [done|by apply author_ok|by eexists].
  - intros limit t Ht. cbn. unfold hub_receive, raise_if, gets, modify, mbind, py_bind, mret, py_ret.
    destruct (match limit with Some n => _ | None => _ end); [done|]. cbn.
    destruct (dget (hub_inboxes t) peer) as [l|] eqn:Hd; [|done]. cbn. apply dset_valid; [|done].
    apply Forall_drop. apply dget_Some_elem in Hd. unfold hub_valid in Ht. rewrite Forall_forall in Ht.
    exact (Ht _ Hd).
  - intros limit t l Ht. cbn. unfold hub_receive, raise_if, gets, modify, mbind, py_bind, mret, py_ret.
    destruct (match limit with Some n => _ | None => _ end); [done|]. cbn.
    destruct (dget (hub_inboxes t) peer) as [l'|] eqn:Hd; [|done]. cbn. intros [= <-].
    apply Forall_take. apply dget_Some_elem in Hd. unfold hub_valid in Ht. rewrite Forall_forall in Ht.
    exact (Ht _ Hd).
Qed.

Lemma transport_weaken {T} `{PeerTransport T} good (P Q : PeerMessage → Prop) TI :
  (∀ pm, P pm → Q pm) → TransportInv T good P TI → TransportInv T good Q TI.
Proof.
  intros Hpq [Hs Hr Hd]. split; [done..|]. intros limit t l Ht Ho. eapply Forall_impl; [by eapply Hd|done].
Qed.

Lemma decoded_ok `{Host} content m : decode_content content = Ok m → message_ok m = true.
Proof.
  assert (∀ v text (k : MessageKind), of_opt CValueError text (validate_message k v) = Ok m →
    message_ok m = true) as Hv by (intros v text k Hm%of_opt_Ok; by apply (validate_message_ok k v)).
  unfold decode_content. destruct (loads content) as [[| | | | | |d]|]; [done..| |done].
  do 2 (destruct (is_str _ _); [cbn [negb]|done]).
  destruct (get_or_none d "type"); [done|..]; intros Hb; apply bind_Ok in Hb as ([k|] & _ & Hb); try done.
  all: destruct (get_or_none d "payload"); [done..|]; by eapply Hv.
Qed.

Lemma received_ok `{Host} ev channel t m : validate_received_event ev channel t = Ok m → message_ok m = true.
Proof.
  unfold validate_received_event, decode_event_content. destruct (negb _); [done|].
  intros (ch & _ & Hv)%bind_Ok. destruct (negb _); [done|].
  destruct (ev_content ev) as [| | | |text| |]; try (by revert Hv; repeat case_match).
  destruct (decode_content text) as [m'|x] eqn:Hm; [|by revert Hv; case_match].
  apply decoded_ok in Hm. revert Hv. repeat (case_match; try done). all: by intros [= <-].
Qed.

(** Buzz validates what it delivers; the time is the event's. *)
#[export] Instance buzz_transport_inv `{Host} {W} `{BuzzExecutor W} channel cursor_path local_pubkey :
  TransportInv (BuzzTransport W) (H := BuzzPeerTransport channel cursor_path local_pubkey)
    good_message peer_message_ok (λ _, True).
Proof.
  split; [done..|]. intros limit t l _ Hl.
  pose proof (receive_wp channel cursor_path local_pubkey None limit t) as [_ Hpost].
  destruct (Hpost l Hl) as (_ & _ & [->|(events & _ & Hfrom)]); [by apply Forall_nil|].
  eapply Forall_impl; [exact Hfrom|]. intros pm (ev & t' & _ & _ & Hv & _ & Hauthor & _).
  assert (message_ok (pm_message pm) = true) as Hok; [|by split; [|rewrite Hauthor; apply author_ok]].
  by eapply received_ok.
Qed.

(** ** Everything is valid *)

Section Typed.
Context {h0 : Host} {hl : HostLaws h0} {T W : Type} `{PeerTransport T} (A : SettlementAdapter W).
Variable config : ProcessConfig.

#[local] Existing Instance engine_adapter.
Abbreviation World := (W * list call)%type.
Abbreviation Proc := (HermesProcess T World).
Implicit Types (p : Proc) (r : IntentRecord).

(** Good records and messages in memory and in the snapshot file. *)
Definition well_typed p : Prop :=
  NoDup (dkeys (o_intents (hr_orchestrator p))) ∧
  (∀ iid r, dget (o_intents (hr_orchestrator p)) iid = Some r → record_valid r) ∧
  Forall peer_message_ok (hr_inbox p) ∧
  (hr_file p = Missing ∨
   ∃ src inbox, hr_file p = Doc (sort_json (snapshot_json src inbox)) ∧ NoDup (dkeys src) ∧
     (∀ iid r, dget src iid = Some r → record_valid r) ∧ Forall peer_message_ok inbox).

Lemma each_any_runs delivered TI (HT : TransportInv T good_message delivered TI) p :
  (∀ pm, delivered pm → message_ok (pm_message pm) = true) →
  (∀ pm pm', delivered pm → restore_peer_message (sort_json (dump_peer_message pm)) = Ok pm' →
     delivered pm') →
  any_runs A TI config p → each_process record_valid delivered TI p.
Proof.
  intros Hok Hrest. by apply (any_runs_each A good_message good_approval record_valid _ delivered TI HT).
Qed.

(** C8. What a process holds is typed: whatever its adapter answers, its
    command lines say, its peers send, its writes and clocks do, over every
    restart from its own snapshot, every record it tracks and every record and
    message of its inbox and of its snapshot file satisfies the constraints
    of its class: identities are 64 character keys, amounts are positive, fees
    are not negative, texts are within their bounds; and no intent is tracked
    twice.  It is enough that the transport delivers valid messages, as the
    hub and Buzz do. *)
Theorem records_stay_valid TI (HT : TransportInv T good_message peer_message_ok TI) p
    (Hrun : any_runs A TI config p) : well_typed p.
Proof.
  assert (each_process record_valid peer_message_ok TI p) as (([Hnd Hr] & _) & Hin & Hf).
  { apply (each_any_runs _ _ HT); [by intros pm []| |done].
    intros pm pm' _ (? & ? & _)%restore_peer_message_ok. done. }
  split_and!; [done..|]. destruct Hf as [Hm|(src & inbox & ? & [? ?] & ?)]; [by left|right].
  by exists src, inbox.
Qed.

(** ** Starting again *)

(** A record an intact process tracks can be restored. *)
Lemma tracked_restores h p iid r :
  PInv config h p → record_valid r → dget (o_intents (hr_orchestrator p)) iid = Some r → can_restore r.
Proof.
  intros Hp Hr Hd. split; [done|]. intros Hst.
  destruct (inv_records _ _ _ _ _ _ _ _ Hp iid r Hd) as (_ & _ & _ & _ & _ & Happ).
  destruct (Happ ltac:(set_solver)) as (pr & a & (Hpr & _) & _). by exists pr.
Qed.

(** Two descriptions of a snapshot agree on its inbox. *)
Lemma snapshot_inbox src inbox src' inbox' :
  sort_json (snapshot_json src inbox) = sort_json (snapshot_json src' inbox') →
  sort_json (snapshot_json src inbox) = sort_json (snapshot_json src inbox').
Proof. unfold snapshot_json. cbn. intros [= Hi _]. by rewrite Hi. Qed.

Lemma messages_restore (L : list PeerMessage) p :
  Forall message_valid L →
  ∃ p', py_for (map sort_json (dump_peer_message <$> L)) recover_message p = (Ok tt, p') ∧
    hr_peer p' = hr_peer p ∧ hr_faults p' = hr_faults p.
Proof.
  intros HL. revert p. induction HL as [|m L Hm _ IH]; intros p; cbn [fmap list_fmap map py_for]; [by exists p|].
  assert (∃ p1, recover_message (sort_json (dump_peer_message m)) p = (Ok tt, p1) ∧
    hr_peer p1 = hr_peer p ∧ hr_faults p1 = hr_faults p) as (p1 & Heq & Hp1 & Hf1).
  { unfold recover_message, lift, mbind, py_bind. rewrite restore_dump_peer_message by done.
    unfold note_message, gets, modify, mbind, py_bind, mret, py_ret.
    case_bool_decide; eexists; (split; [reflexivity|]); done. }
  destruct (IH p1) as (p' & Heq' & Hp' & Hf'). exists p'. unfold mbind, py_bind. rewrite Heq, Heq'.
  split; [done|]. split; congruence.
Qed.

(** The records a snapshot holds come back, whatever its inbox repeats. *)
Lemma snapshot_restarts src inbox p :
  hr_file p = Doc (sort_json (snapshot_json src inbox)) → NoDup (dkeys src) →
  Forall (λ q, can_restore q.2) src → Forall message_valid inbox →
  o_intents (hr_orchestrator p) = [] → healthy (hr_orchestrator p) → no_faults (hr_faults p) →
  ∃ p', maybe_recover true p = (Ok tt, p') ∧
    ∀ iid, match dget src iid with
           | Some r => ∃ r', dget (o_intents (hr_orchestrator p')) iid = Some r' ∧
                             up_to_evidence (recovered r) r'
           | None => dget (o_intents (hr_orchestrator p')) iid = None
           end.
Proof.
  intros Hfile Hnd Hsrc Hin Hnil Hf Hfl. rewrite (maybe_recover_doc src inbox), sort_snapshot_records by done.
  destruct (recover_records_restore true (sort_items src) p) as (p1 & Heq1 & _ & _ & _ & Hfl1 & Hget);
    [by rewrite sort_items_perm|unfold dkeys in *; by rewrite sort_items_perm|done|].
  destruct (messages_restore inbox p1 Hin) as (p2 & Heq2 & Hp2 & Hfl2).
  unfold mbind, py_bind. rewrite Heq1, Heq2.
  assert (∀ p', hr_peer p' = hr_peer p2 → ∀ iid, match dget src iid with
    | Some r => ∃ r', dget (o_intents (hr_orchestrator p')) iid = Some r' ∧ up_to_evidence (recovered r) r'
    | None => dget (o_intents (hr_orchestrator p')) iid = None end) as Hrec.
  { intros p' Hp' iid. specialize (Hget iid). unfold hr_orchestrator in *. rewrite Hp', Hp2.
    rewrite <- (dget_perm src (sort_items src)) in Hget by (done || by rewrite sort_items_perm).
    destruct (dget src iid); [done|]. by rewrite Hget, Hnil. }
  destruct (truthy _).
  - unfold snapshot_state, state_save, mbind, py_bind, gets, modify, raise_if.
    rewrite no_faults_head by (by rewrite Hfl2, Hfl1). eexists. split; [reflexivity|]. by apply Hrec.
  - exists p2. split; [done|]. by apply Hrec.
Qed.

(** The constructor on readable files. *)
Lemma process_init_ok clk (t : T) (w : World) e file fl mono st audit :
  (∀ e', store_file e' = store_file e → store_load (Some (cf_store_path config)) e' = (Ok st, e')) →
  (audit_load (Some (cf_audit_path config)) e).1 = Ok audit →
  ∃ p, process_init config clk t w e file fl mono = Ok p ∧ hr_file p = file ∧ hr_faults p = fl ∧
    o_intents (hr_orchestrator p) = [] ∧ faults (o_env (hr_orchestrator p)) = faults e.
Proof.
  intros Hst Ha. unfold process_init, orchestrator_init. set (e1 := set_clock _ e).
  rewrite (Hst e1) by done.
  assert (audit_load (Some (cf_audit_path config)) e1 = (Ok audit, e1)) as ->.
  { revert Ha. unfold audit_load, mbind, py_bind, gets, lift, mret, py_ret. cbn.
    destruct (negb _); cbn; [|by intros [= <-]].
    change (audit_file e1) with (audit_file e). destruct (load_lines _ _); cbn; by intros [= <-]. }
  eexists. split; [reflexivity|]. done.
Qed.

(** C9. A process can always be started again: after any run that left its
    files current, over a transport that delivers valid messages with an
    integer time, the constructor and recovery succeed on those files when
    the audit file is readable and no write fails, and the new process tracks
    exactly the old one's records, EXECUTING turned into
    RECONCILIATION_REQUIRED and at most new evidence added. *)
Theorem process_restarts TI (HT : TransportInv T good_message message_valid TI)
    (Hconf : configured config) h p (Hrun : process_runs A config h p)
    (Htyped : any_runs A TI config p) (Hfiles : files_current p)
    clk (t : T) e mono (Hstore : store_file e = store_file (o_env (hr_orchestrator p)))
    audit (Haudit : (audit_load (Some (cf_audit_path config)) e).1 = Ok audit)
    (Hfaults : no_faults (faults e)) :
  ∃ p', process_start config clk t (o_world (hr_orchestrator p)) e (hr_file p) [] mono = Ok p' ∧
    ∀ iid, match dget (o_intents (hr_orchestrator p)) iid with
           | Some r => ∃ r', dget (o_intents (hr_orchestrator p')) iid = Some r' ∧
                             up_to_evidence (recovered r) r'
           | None => dget (o_intents (hr_orchestrator p')) iid = None
           end.
Proof.
  pose proof (configured_store config Hconf) as Hpath. pose proof (process_runs_inv A config h p Hpath Hrun) as Hp.
  assert (path_set (Some (cf_store_path config)) = true) as Hset.
  { cbn. by destruct (String.eqb_spec (cf_store_path config) ""). }
  assert (each_process record_valid message_valid TI p) as (([Hnd Hr] & _) & _ & Hf).
  { apply (each_any_runs _ _ HT); [by intros pm []| |done]. intros pm pm' _. apply restore_peer_message_ok. }
  destruct Hfiles as [Hsnap _]. pose proof Hp as [_ Hfile _ _ _ _ _].
  assert (∃ st, ∀ e', store_file e' = store_file e →
    store_load (Some (cf_store_path config)) e' = (Ok st, e')) as [st Hload].
  { destruct (Hfile Hset) as [Hm|(st & Hdoc & _)]; eexists; intros e' He'.
    - apply store_load_missing. congruence.
    - apply store_load_saved; [by rewrite He', Hstore|done]. }
  destruct (process_init_ok clk t (o_world (hr_orchestrator p)) e (hr_file p) [] mono st audit Hload Haudit)
    as (p0 & Hinit & Hfile0 & Hfl0 & Hnil & Henv).
  assert (healthy (hr_orchestrator p0)) as Hhealthy by (unfold healthy; by rewrite Henv).
  unfold process_start. rewrite Hinit. cbn [mbind outcome_bind].
  destruct Hsnap as [[Hmiss Hnone]|[inbox Hdoc]].
  { exists p0. unfold maybe_recover, state_load, mbind, py_bind, gets. rewrite Hfile0, Hmiss. cbn.
    split; [done|]. intros iid. by rewrite Hnone, Hnil. }
  destruct Hf as [Hmiss|(src & inbox' & Hdoc' & _ & Hin)]; [congruence|].
  rewrite Hdoc in Hdoc'. assert (∀ j j', Doc j = Doc j' → j = j') as Hinj by (by intros j j' [= ->]).
  apply Hinj, snapshot_inbox in Hdoc'. rewrite Hdoc' in Hdoc.
  destruct (snapshot_restarts (o_intents (hr_orchestrator p)) inbox' p0) as (p' & Heq & Hget);
    [by rewrite Hfile0|exact Hnd| |exact Hin|exact Hnil|exact Hhealthy|by rewrite Hfl0; apply Forall_nil|].
  - apply Forall_forall. intros [iid r] Hel. apply elem_dget in Hel; [|exact Hnd].
    by eapply tracked_restores; [|eapply Hr|].
  - exists p'. by rewrite Heq.
Qed.
End Typed.

(** ** A malformed time *)

Section Malformed.
Context {h0 : Host} {hl : HostLaws h0} {T W : Type} `{PeerTransport T} `{SettlementAdapter W}.
Variable config : ProcessConfig.
Abbreviation Proc := (HermesProcess T W).
Implicit Types p : Proc.

(** A time that [int()] does not take. *)
Definition malformed_time (pm : PeerMessage) : Prop := ∃ x, py_int (pm_published_at pm) = Raise x.

Lemma malformed_sorted pm : malformed_time pm → ∃ x, py_int (sort_json (pm_published_at pm)) = Raise x.
Proof. unfold malformed_time. destruct (pm_published_at pm); try done. all: by eexists. Qed.

Lemma malformed_not_restored pm :
  malformed_time pm → ∃ x, restore_peer_message (sort_json (dump_peer_message pm)) = Raise x.
Proof.
  intros [x Hx]%malformed_sorted. destruct (restore_peer_message _) as [pm'|x'] eqn:Hr; [|by eexists].
  exfalso. revert Hr. unfold restore_peer_message. intros Hr%reraise_as_Ok. bind_inv Hr.
  match goal with Ht : subscript _ "published_at" ≫= py_int = _ |- _ => revert Ht end.
  unfold dump_peer_message. rewrite subscript_sorted by decide_now. cbn. by rewrite Hx.
Qed.

(** A loop with an element on which the body raises. *)
Lemma py_for_raises {S B} (l : list B) (body : B → PyM S unit) x s :
  x ∈ l → (∀ s', ∃ e, (body x s').1 = Raise e) → ∃ e, (py_for l body s).1 = Raise e.
Proof.
  intros Hx Hb. revert s. induction l as [|y l IH]; [by apply elem_of_nil in Hx|]. intros s. cbn.
  unfold mbind, py_bind. destruct (body y s) as [[[]|e] s'] eqn:E; [|by eexists].
  apply elem_of_cons in Hx as [->|Hx]; [|by apply IH].
  destruct (Hb s) as [e He]. by rewrite E in He.
Qed.

Lemma malformed_recovery src inbox pm b p :
  hr_file p = Doc (sort_json (snapshot_json src inbox)) → pm ∈ inbox → malformed_time pm →
  ∃ x, (maybe_recover b p).1 = Raise x.
Proof.
  intros Hfile Hin Hpm. rewrite (maybe_recover_doc src inbox) by done.
  unfold mbind, py_bind. destruct (py_for _ (recover_one b) p) as [[[]|x] p1]; [|by eexists].
  destruct (py_for_raises (map sort_json (dump_peer_message <$> inbox)) recover_message
    (sort_json (dump_peer_message pm)) p1) as [x Hx].
  - apply list_elem_of_In, List.in_map, list_elem_of_In. by apply list_elem_of_fmap_2.
  - intros p'. destruct (malformed_not_restored pm Hpm) as [x Hx]. exists x.
    unfold recover_message, lift, mbind, py_bind. by rewrite Hx.
  - destruct (py_for _ recover_message p1) as [[[]|y] p2]; [done|by eexists].
Qed.

(** An answered line leaves the snapshot of the process it leaves. *)
Lemma line_writes n line p answer p' :
  handle_line config n line p = (Ok answer, p') →
  hr_file p' = Doc (sort_json (snapshot_json (o_intents (hr_orchestrator p')) (hr_inbox p'))).
Proof.
  unfold handle_line, try_finally, lift, mbind, py_bind, mret, py_ret.
  destruct (parse_command line) as [c|x]; [|done].
  destruct (run_command config n c p) as [[o|x] p1].
  2: { by destruct (snapshot_state p1) as [[]]. }
  unfold snapshot_state, state_save, gets, modify, raise_if, mbind, py_bind.
  destruct (default false _); [done|]. by intros [= _ <-].
Qed.

(** C10. One malformed time ends a process: after any answered line, when a
    message of the inbox has a time that [int()] does not take, every later
    start on the snapshot the line left raises, with every world, clock, store
    and audit file, transport and configuration, so the records in it are out
    of reach until the file is repaired by hand.  The transports copy the time
    of an untrusted event as it is. *)
Theorem malformed_time_blocks_restart n line p answer p' pm
    (Hline : handle_line config n line p = (Ok answer, p'))
    (Hin : pm ∈ hr_inbox p') (Hpm : malformed_time pm) :
  ∀ config' clk (t : T) (w : W) e faults mono,
    ∃ x, process_start config' clk t w e (hr_file p') faults mono = Raise x.
Proof.
  intros config' clk t w e fl mono. apply line_writes in Hline. unfold process_start.
  destruct (process_init config' clk t w e (hr_file p') fl mono) as [p0|x] eqn:Hi; [|by eexists].
  cbn [mbind outcome_bind]. destruct (malformed_recovery (o_intents (hr_orchestrator p')) (hr_inbox p') pm true p0) as [x Hx];
    [|done..|].
  - rewrite <- Hline. revert Hi. unfold process_init. destruct (orchestrator_init _ _ _ _); [|done].
    by intros [= <-].
  - destruct (maybe_recover true p0) as [[[]|y] p1]; [done|by eexists].
Qed.
End Malformed.

(** ** Concrete processes *)

#[local] Existing Instance ref_host.
#[local] Existing Instance engine_adapter.
#[local] Existing Instance sample_adapter.
#[local] Existing Instance alice_transport.

Lemma idle_any_runs : any_runs sample_adapter hub_valid alice_config idle_process.
Proof.
  eapply (any_start sample_adapter hub_valid alice_config None alice_hub sample_world sample_env [] seconds);
    [|exact sample_process_starts].
  repeat constructor.
Qed.

Lemma lines_any_runs lines hp :
  any_runs sample_adapter hub_valid alice_config hp.2 →
  any_runs sample_adapter hub_valid alice_config (run_lines lines hp).2.
Proof.
  revert hp. induction lines as [|line lines IH]; intros hp Hr; cbn [run_lines]; [done|].
  apply IH. cbn [snd]. by apply any_line.
Qed.

Definition paid_process : SampleProcess := (run_lines payment_lines ([], idle_process)).2.

(** The process of one payment, settled. *)
Lemma records_stay_valid_witness :
  (∃ r, dget (o_intents (hr_orchestrator paid_process)) "intent-1" = Some r ∧ ir_state r = SETTLED) ∧
  well_typed paid_process.
Proof.
  split; [eexists; split; vm_compute; reflexivity|].
  apply (records_stay_valid sample_adapter alice_config hub_valid).
  - eapply transport_weaken; [|apply hub_transport_inv]. intros pm (? & ? & _). by split.
  - apply lines_any_runs, idle_any_runs.
Defined.

Lemma paid_files_current : files_current paid_process.
Proof. exact (proj2 (proj2 (faultless_inv _ _ _ _ alice_configured (sample_faultless payment_lines)))). Qed.

(** The process of one payment is started again on its files. *)
Lemma process_restarts_witness :
  ∃ p', process_start alice_config None alice_hub (o_world (hr_orchestrator paid_process))
          (o_env (hr_orchestrator paid_process)) (hr_file paid_process) [] seconds = Ok p' ∧
    ∃ r, dget (o_intents (hr_orchestrator p')) "intent-1" = Some r ∧ ir_state r = SETTLED.
Proof.
  destruct (process_restarts sample_adapter alice_config hub_valid (hub_transport_inv "alice" alice)
    alice_configured _ paid_process (sample_process_runs payment_lines)
    (lines_any_runs payment_lines ([], idle_process) idle_any_runs) paid_files_current
    None alice_hub (o_env (hr_orchestrator paid_process)) seconds eq_refl
    {| au_path := Some (cf_audit_path alice_config);
       au_seq := au_seq (o_audit (hr_orchestrator paid_process)) |}) as (p' & Heq & Hget).
  - vm_compute. reflexivity.
  - vm_compute. constructor.
  - exists p'. split; [exact Heq|]. specialize (Hget "intent-1").
    destruct (dget (o_intents (hr_orchestrator paid_process)) "intent-1") as [r|] eqn:Hd;
      [|vm_compute in Hd; discriminate].
    destruct Hget as (r' & Hr' & Hev). exists r'. split; [exact Hr'|].
    assert (ir_state r = SETTLED) as Hst.
    { enough (ir_state <$> dget (o_intents (hr_orchestrator paid_process)) "intent-1" = Some SETTLED) as Hs.
      - rewrite Hd in Hs. by injection Hs.
      - vm_compute. reflexivity. }
    assert (ir_state (recovered r) = SETTLED) as Hst'.
    { unfold recovered. rewrite bool_decide_eq_false_2; [exact Hst|by rewrite Hst]. }
    destruct Hev as [->|(c & Hc & _)]; [exact Hst'|]. rewrite Hst' in Hc. discriminate.
Defined.

(** Bob over Buzz, which has an intent of Alice at the time "soon". *)
Definition soon_event : RawBuzzEvent :=
  {| ev_id := ev_id intent_event; ev_pubkey := ev_pubkey intent_event; ev_kind := ev_kind intent_event;
     ev_content := ev_content intent_event; ev_tags := ev_tags intent_event;
     ev_created_at := JStr "soon" |}.

#[local] Instance bob_transport : PeerTransport (BuzzTransport FakeBuzz) :=
  BuzzPeerTransport "channel-1" (Some "cursor.json") (Some (pubkey bob)).

Definition bob_process : HermesProcess (BuzzTransport FakeBuzz) SampleWorld :=
  {| hr_peer := {| hp_transport := channel_of [soon_event];
                   hp_orchestrator := hr_orchestrator idle_process |};
     hr_inbox := []; hr_inbox_ids := ∅; hr_file := Missing; hr_faults := []; hr_mono := seconds;
     hr_reads := 0; hr_sleeps := [] |}.

Definition bob_received : outcome (option string) * HermesProcess (BuzzTransport FakeBuzz) SampleWorld :=
  handle_line alice_config 9 (command_line "receive" []) bob_process.

Lemma ok_pair {A B} (x : outcome A * B) : is_ok x.1 = true → ∃ a, x = (Ok a, x.2).
Proof. destruct x as [[a|e] b]; [by exists a|done]. Qed.

Lemma not_ok_raises {A} (o : outcome A) : negb (is_ok o) = true → ∃ x, o = Raise x.
Proof. destruct o as [a|x]; [done|by exists x]. Qed.

(** One receive, and no start succeeds any more. *)
Lemma malformed_time_blocks_restart_witness :
  is_ok bob_received.1 = true ∧
  ∃ x, process_start alice_config None (channel_of []) sample_world sample_env (hr_file bob_received.2) []
         seconds = Raise x.
Proof.
  assert (is_ok bob_received.1 = true) as Hok by (vm_compute; reflexivity).
  assert (existsb (λ pm, negb (is_ok (py_int (pm_published_at pm)))) (hr_inbox bob_received.2) = true)
    as (pm & Hin & Hpm)%List.existsb_exists by (vm_compute; reflexivity).
  split; [exact Hok|]. destruct (ok_pair bob_received Hok) as [answer Heq].
  apply (malformed_time_blocks_restart alice_config 9 (command_line "receive" []) bob_process answer
           bob_received.2 pm Heq); [by apply list_elem_of_In|].
  exact (not_ok_raises _ Hpm).
Defined.
