(* ===== verification/OutflowThms.v ===== *)
(** * What a payment may cost

    The bounds of the payments that leave a process over the Wavelength
    adapter: [PolicyRecords.v] for the preview that every prepared payment was
    made from, over the runs of [EndToEnd.v]. *)

From S2P Require Import Prelude.
From S2P Require Import Json.
From S2P Require Import JsonText.
From S2P Require Import JsonFacts.
From S2P Require Import Models.
From S2P Require Import ModelsFacts.
From S2P Require Import StateMachine.
From S2P Require Import Adapter.
From S2P Require Import Wavelength.
From S2P Require Import WavelengthFacts.
From S2P Require Import WavelengthThms.
From S2P Require Import Storage.
From S2P Require Import Policy.
From S2P Require Import PolicyFacts.
From S2P Require Import PolicyInv.
From S2P Require Import PolicyRecords.
From S2P Require Import PolicyThms.
From S2P Require Import PeerTransport.
From S2P Require Import Peer.
From S2P Require Import Process.
From S2P Require Import ProcessFacts.
From S2P Require Import ProcessInv.
From S2P Require Import ProcessRecords.
From S2P Require Import ProcessThms.
From S2P Require Import EndToEnd.
From Stdlib Require Import Floats.SpecFloat.
Import Models StateMachine Adapter Wavelength Storage Policy PeerTransport Peer Process.

(** ** Any property of records holds of the executed ones *)

Section Executed.
Context {h0 : Host} {hl : HostLaws h0} {T W : Type} `{PeerTransport T} (A : SettlementAdapter W).
Variable config : ProcessConfig.
Context (R : IntentRecord → Prop) (HR : RecordInv A (λ _, True) (λ _, True) R).
Hypothesis R_restored : ∀ r, R r → R (restored r).

#[local] Existing Instance engine_adapter.
Abbreviation Proc := (HermesProcess T (W * list call)).

#[local] Instance any_transport : TransportInv T (λ _, True) (λ _, True) (λ _, True).
Proof. split; [done..|]. intros limit t l _ _. by apply Forall_true. Qed.

Lemma process_runs_any h (p : Proc) : process_runs A config h p → any_runs A (λ _, True) config p.
Proof.
  induction 1 as [clk t w e fl mono p Hm Hs|h p n line Hr IH Hc|h p clk t e fl mono p' Hr IH Hc He Hs].
  - by eapply any_start.
  - by apply any_line.
  - by eapply any_restart.
Qed.

Lemma process_runs_each h (p : Proc) :
  process_runs A config h p → each_record R (hr_orchestrator p).
Proof.
  intros Hr%process_runs_any.
  by apply (any_runs_each A (λ _, True) (λ _, True) R HR (λ _, True) (λ _, True) any_transport) in Hr as [[? _] _].
Qed.

Lemma executed_records h (p : Proc) :
  process_runs A config h p → ∀ x, x ∈ h → R (ex_record x).
Proof.
  induction 1 as [clk t w e fl mono p Hm Hs|h p n line Hr IH Hc|h p clk t e fl mono p' Hr IH Hc He Hs];
    [by intros x Hx%elem_of_nil| |done].
  intros x [Hx|Hx]%elem_of_app; [by apply IH|]. revert Hx. unfold line_dispatches.
  destruct (String.eqb _ _); [|by intros Hx%elem_of_nil]. unfold attributed.
  destruct (process_runs_each h p Hr) as [Hnd Hrec].
  destruct (first_in APPROVED (o_intents (hr_orchestrator p))) as [[iid r]|] eqn:Hf; [|by intros Hx%elem_of_nil].
  intros (c & -> & _)%list_elem_of_fmap. cbn. apply (Hrec iid).
  by apply (first_in_Some APPROVED).
Qed.
End Executed.

(** ** The preview of a prepared payment *)

Section Outflow.
Context {h0 : Host} {hl : HostLaws h0} {T X : Type} `{PeerTransport T}.
Context {E : WavecliExecutor X} {C : WallClock X}.
Variable config : ProcessConfig.
Variable opts : CliOptions.

(** The payment was prepared from a preview that the tool gave: of the
    intent's amount, within the intent's fee limit, with the two as total. *)
Definition previewed (i : PaymentIntent) (p : PrepareResult) (sp : SendPreview) (invoice : string) : Prop :=
  (∃ (w : X) data, (wavecli_run (prepare_cmd opts invoice (pi_max_fee_sat i)) w).1 = Ok data ∧
     parse_prepare_response data = Ok sp) ∧
  pp_prepared_payload p = dumps payload_opts (JObj (payload_dict sp invoice (pi_max_fee_sat i))) ∧
  pp_fee_sat p = sp_expected_fee_sat sp ∧
  sp_amount_sat sp = pi_amount_sat i ∧ sp_expected_fee_sat sp ≤ pi_max_fee_sat i ∧
  sp_expected_total_outflow_sat sp = pi_amount_sat i + sp_expected_fee_sat sp.

Definition prepared_bounded (r : IntentRecord) : Prop :=
  ∀ p, ir_prepared r = Some p → ∃ sp invoice, previewed (ir_intent r) p sp invoice.

#[local] Instance prepared_bounded_inv :
  RecordInv (wavelength opts : SettlementAdapter (X * list (list string))) (λ _, True) (λ _, True)
    prepared_bounded.
Proof.
  split; try done. intros p r (ri & [x l] & Hp & _) _ p' [= <-]. cbn in Hp.
  pose proof (prepare_wp opts ri (pi_amount_sat (ir_intent r)) (pi_max_fee_sat (ir_intent r)) x l) as Hwp.
  unfold wp in Hwp. rewrite Hp in Hwp.
  destruct Hwp as (invoice & data & sp & now & w1 & _ & _ & _ & Hrun & Hparse & _ & _ & Ha & Hf & Ht & ->).
  exists sp, invoice. split_and!; try done. exists x, data. cbn [with_prepared ir_intent]. by rewrite Hrun.
Qed.

Lemma prepared_bounded_restored r : prepared_bounded r → prepared_bounded (restored r).
Proof. done. Qed.

(** The payload of a preview, read back for the Send. *)
Lemma sends_preview i p sp invoice hash cmd :
  previewed i p sp invoice → sends opts (pp_prepared_payload p, hash) cmd →
  wf_json payload_opts (JObj (payload_dict sp invoice (pi_max_fee_sat i))) = true →
  cmd = send_cmd opts [("send_intent_id", sort_json (sp_send_intent_id sp))].
Proof.
  intros (_ & Hp & _) (d & _ & Hd & ->) Hwf. cbn [fst] in Hd. rewrite Hp in Hd.
  destruct (payload_decodes _ _ _ Hwf) as (d' & Hd' & Hget). rewrite Hd in Hd'. injection Hd' as <-.
  unfold send_cmd. by rewrite Hget.
Qed.

(** What was previewed for an execution, with the limit of its intent. *)
Definition outflow (q : SendPreview * string) : Z := sp_expected_total_outflow_sat q.1.
Definition limit_of (x : Execution) : Z :=
  pi_amount_sat (ir_intent (ex_record x)) + pi_max_fee_sat (ir_intent (ex_record x)).
Definition total (l : list Z) : Z := foldr Z.add 0 l.

(** The Send of an execution is of the token whose preview bounds it. *)
Definition bounded_send (x : Execution) (cmd : list string) (q : SendPreview * string) : Prop :=
  ∃ p, ir_prepared (ex_record x) = Some p ∧
    ex_call x = (pp_prepared_payload p, pp_prepared_hash p) ∧
    previewed (ir_intent (ex_record x)) p q.1 q.2 ∧
    (wf_json payload_opts (JObj (payload_dict q.1 q.2 (pi_max_fee_sat (ir_intent (ex_record x))))) = true →
     cmd = send_cmd opts [("send_intent_id", sort_json (sp_send_intent_id q.1))]).

Lemma outflow_le xs cmds qs :
  Forall3 bounded_send xs cmds qs → total (outflow <$> qs) ≤ total (limit_of <$> xs).
Proof.
  induction 1 as [|x cmd q xs cmds qs (p & _ & _ & (_ & _ & _ & _ & Hf & Ht) & _) _ IH]; [done|].
  cbn. fold (total (outflow <$> qs)) (total (limit_of <$> xs)). unfold outflow, limit_of in *. lia.
Qed.

(** Every Send of an approved execution has its preview. *)
Lemma sends_bounded xs cmds :
  Forall approved_execution xs → Forall (λ x, prepared_bounded (ex_record x)) xs →
  Forall2 (λ x cmd, sends opts (ex_call x) cmd) xs cmds → ∃ qs, Forall3 bounded_send xs cmds qs.
Proof.
  intros Happ Hrec Hs. induction Hs as [|x cmd xs cmds Hx _ IH]; [by exists []; constructor|].
  apply Forall_cons in Happ as [(p & a & Hp & _ & Hcall & _) Happ]. apply Forall_cons in Hrec as [Hr Hrec].
  destruct (IH Happ Hrec) as [qs Hqs]. destruct (Hr p Hp) as (sp & invoice & Hsp).
  exists ((sp, invoice) :: qs). constructor; [|done]. exists p. split_and!; try done.
  rewrite Hcall in Hx. by eapply sends_preview.
Qed.

(** The Sends of a run, with their executions and previews. *)
Lemma sends_of_run h (p : HermesProcess T ((X * list (list string)) * list call)) :
  configured config → cli_network opts = "regtest" ∨ cli_network opts = "signet" →
  wavelength_runs config opts h p →
  ∃ sent previews, sent `sublist_of` h ∧ NoDup (ex_iid <$> sent) ∧ Forall approved_execution sent ∧
    Forall3 bounded_send sent (List.filter is_send (o_world (hr_orchestrator p)).1.2) previews.
Proof.
  intros Hconf Hnet Hrun. destruct (wavelength_runs_inv config opts Hnet h p Hrun) as [Hruns Hissued].
  destruct (sent_executions config opts h p Hconf Hruns Hissued) as (sent & Hsub & Hdup & Happ & Hsends).
  destruct (sends_bounded sent (List.filter is_send (o_world (hr_orchestrator p)).1.2) Happ)
    as [qs Hqs]; [|exact Hsends|by exists sent, qs].
  apply Forall_forall. intros x Hx.
  apply (executed_records (wavelength opts) config prepared_bounded prepared_bounded_inv
    prepared_bounded_restored h p Hruns).
  by eapply elem_of_sublist.
Qed.
End Outflow.


Lemma sublist_of_length {A} (l k : list A) : l `sublist_of` k → List.length l = List.length k → l = k.
Proof.
  induction 1 as [|x l k Hs IH|x l k Hs IH]; cbn; [done|intros [= Hl]; by rewrite IH|].
  intros Hl. apply sublist_length in Hs. lia.
Qed.

