(* ===== verification/MainThms.v ===== *)
(** * The runner's [main] is one of the observed runs

    [Erasure.v] for the worlds that record the adapter's calls and the
    tool's commands, and with it the theorems of [EndToEnd.v] and
    [OutflowThms.v] for what [run_hermes.py] does from its arguments to the end
    of its standard input, life after life. *)

From S2P Require Import Prelude.
From S2P Require Import Json.
From S2P Require Import JsonText.
From S2P Require Import PyLib.
From S2P Require Import Models.
From S2P Require Import ModelsFacts.
From S2P Require Import Adapter.
From S2P Require Import Wavelength.
From S2P Require Import WavelengthFacts.
From S2P Require Import WavelengthThms.
From S2P Require Import Storage.
From S2P Require Import StorageFacts.
From S2P Require Import Policy.
From S2P Require Import PolicyFacts.
From S2P Require Import PolicyInv.
From S2P Require Import PolicyThms.
From S2P Require Import PeerTransport.
From S2P Require Import Transport.
From S2P Require Import Peer.
From S2P Require Import Process.
From S2P Require Import Erasure.
From S2P Require Import ProcessFacts.
From S2P Require Import ProcessInv.
From S2P Require Import ProcessDisk.
From S2P Require Import ProcessThms.
From S2P Require Import EndToEnd.
From S2P Require Import OutflowThms.
From S2P Require Import Runner.
From Stdlib Require Import Floats.SpecFloat.
Import Models Adapter Wavelength Storage Policy PeerTransport Transport Peer Process Runner.

(** ** The records have no influence *)

#[export] Instance logged_adapter_map {W} (A : SettlementAdapter W) : AdapterMap (logged_adapter A) A fst.
Proof.
  assert (∀ B (m : PyM W B), agree fst (inner m) m) as Hin.
  { intros B m [w l]. unfold inner, zoom. cbn. by destruct (m w). }
  split; [done|intros; apply Hin| |intros; apply Hin..].
  intros payload hash [w l]. unfold ad_execute at 2, logged_adapter, modify, inner, zoom, mbind, py_bind. cbn.
  by destruct (ad_execute payload hash w).
Qed.

Section Tool.
Context `{Host} {X : Type} {E : WavecliExecutor X} {C : WallClock X}.
Variable opts : CliOptions.
Abbreviation Tool := (X * list (list string))%type.
Abbreviation agf := (agree (fst : Tool → X)).

Lemma agree_run cmd : agf (wavecli_run cmd) (wavecli_run cmd).
Proof. intros [x l]. cbn. by destruct (wavecli_run cmd x). Qed.
Lemma agree_time : agf time_now time_now.
Proof. intros [x l]. cbn. by destruct (time_now x). Qed.
Lemma agree_reraise {B} e : agf (reraise e : PyM Tool B) (reraise e).
Proof. done. Qed.
#[local] Hint Resolve agree_run agree_time agree_reraise : agreement.

Lemma agree_query cmd a b : agf (query cmd a b) (query cmd a b).
Proof.
  unfold query. apply agree_try; [agrees|]. intros e. cbn. apply agree_ret.
Qed.
#[local] Hint Resolve agree_query : agreement.

#[export] Instance tool_map :
  AdapterMap (WavelengthAdapter opts : SettlementAdapter Tool) (WavelengthAdapter opts) fst.
Proof.
  split; cbn [ad_rail ad_prepare ad_execute ad_verify_receipt ad_verify_sender_settlement
    ad_reconcile_settlement WavelengthAdapter]; [done|..]; intros.
  - unfold Wavelength.prepare. agrees. apply agree_try; [auto with agreement|]. intros e.
    destruct (isinstance_exn e CAdapterError); auto with agreement.
  - unfold Wavelength.execute. agrees. apply agree_try; [auto with agreement|]. intros e. auto with agreement.
  - unfold Wavelength.verify_receipt, verify_activity. agrees.
  - unfold verify_sender_settlement, verify_activity. agrees.
  - unfold Wavelength.reconcile_settlement. agrees.
Qed.
End Tool.

(** ** The loop over standard input *)

Section Serve.
Context {h0 : Host} {T W W' : Type} {HT : PeerTransport T}.
Context (A : SettlementAdapter W) (A' : SettlementAdapter W') (f : W → W') {Hf : AdapterMap A A' f}.
Variable config : ProcessConfig.
Variable n : nat.

Definition map_answer (r : list string * HermesProcess T W) : list string * HermesProcess T W' :=
  (r.1, map_process f r.2).

Lemma agree_serve_line line p :
  serve_line (H1 := A') config n line (map_process f p) =
  map_answer <$> serve_line (H1 := A) config n line p.
Proof.
  unfold serve_line. destruct (String.eqb (py_strip line) ""); [done|].
  rewrite (agree_line A A' f config n (py_strip line) p).
  by destruct (handle_line (H1 := A) config n (py_strip line) p) as [[[answer|]|e] p'].
Qed.

Lemma agree_serve lines p :
  serve (H1 := A') config n lines (map_process f p) = map_answer <$> serve (H1 := A) config n lines p.
Proof.
  revert p. induction lines as [|line lines IH]; intros p; cbn [serve]; [done|].
  rewrite agree_serve_line. destruct (serve_line config n line p) as [[out p']|]; [|done]. cbn.
  rewrite IH. by destruct (serve config n lines p') as [[outs p'']|].
Qed.

(** Where the loop over the lines gets to is reached by [handle_line]s. *)
Lemma serve_reaches (P : HermesProcess T W → Prop) lines p out p' :
  (∀ line p, P p → P (handle_line config n line p).2) → P p →
  serve config n lines p = Some (out, p') → P p'.
Proof.
  intros Hline. revert p out. induction lines as [|line lines IH]; intros p out Hp; cbn [serve].
  { by intros [= _ <-]. }
  destruct (serve_line config n line p) as [[o1 p1]|] eqn:Hone; [|done]. cbn.
  destruct (serve config n lines p1) as [[o2 p2]|] eqn:Hrest; [|done]. cbn. intros [= _ <-].
  apply (IH p1 o2); [|done]. revert Hone. unfold serve_line.
  destruct (String.eqb (py_strip line) ""); [by intros [= _ <-]|].
  pose proof (Hline (py_strip line) p Hp) as Hstep.
  destruct (handle_line config n (py_strip line) p) as [[[answer|]|e] p3]; cbn in Hstep; intros [= _ <-]; done.
Qed.
End Serve.

(** ** [main] *)

Section Main.
Context {h0 : Host} {X W : Type} {S : Subprocess X} {E : WavecliExecutor W} {C : WallClock W}.
Implicit Types (args : HermesArgs) (stdin : list string).
Abbreviation Tool := (W * list (list string))%type.

(** The world with the record of the tool's commands forgotten. *)
Definition forget_world (w : HermesWorld X Tool) : HermesWorld X W :=
  {| hw_mkdir := hw_mkdir w; hw_env := hw_env w; hw_state_file := hw_state_file w;
     hw_state_faults := hw_state_faults w; hw_mono := hw_mono w; hw_cursor_file := hw_cursor_file w;
     hw_cursor_faults := hw_cursor_faults w; hw_clock := hw_clock w; hw_buzz := hw_buzz w;
     hw_wave := (hw_wave w).1; hw_buzz_bin := hw_buzz_bin w |}.

Definition forget_result (r : main_result (list string * HermesProcess (BuzzTransport X) Tool))
    : main_result (list string * HermesProcess (BuzzTransport X) W) :=
  match r with
  | Exited z msg => Exited z msg
  | Crashed e => Crashed e
  | Served (out, p) => Served (out, map_process fst p)
  end.

(** Observing the wallet's tool changes nothing: the runner over a tool
    whose commands are recorded, from any arguments, files, clocks, failing
    writes and standard input, ends as the runner over the tool itself, with
    the same status, message or exception, the same lines written and the
    same process left.  So what is shown of the recorded commands holds of
    the commands the program gives. *)
Theorem main_unobserved n args (w : HermesWorld X Tool) stdin :
  hermes_main n args (forget_world w) stdin = forget_result <$> hermes_main n args w stdin.
Proof.
  unfold hermes_main. destruct (hermes_checks args); [done|].
  change (hw_mkdir (forget_world w)) with (hw_mkdir w).
  destruct (hw_mkdir w _) as [[]|e]; [|done]. cbn [mbind outcome_bind].
  destruct (hermes_config args) as [config|e]; [|done]. cbn [mbind outcome_bind].
  change (build_transport args (forget_world w)) with (build_transport args w).
  destruct (build_transport args w) as [t|e]; [|done]. cbn [mbind outcome_bind].
  destruct (build_adapter _ _) as [opts|e]; [|done]. cbn [mbind outcome_bind].
  change (hermes_transport args (forget_world w)) with (hermes_transport args w).
  unfold hermes_process. cbn [forget_world hw_wave hw_env hw_state_file hw_state_faults hw_mono].
  rewrite (agree_start (WavelengthAdapter opts) (WavelengthAdapter opts) fst config).
  destruct (process_start config None t (hw_wave w) _ _ _ _) as [p|e]; [|done]. cbn.
  rewrite (agree_serve (HT := hermes_transport args w) (WavelengthAdapter opts) (WavelengthAdapter opts) fst).
  by destruct (serve config n stdin p) as [[out p']|].
Qed.
End Main.

(** ** Life after life *)

Section Lives.
Context {h0 : Host} {hl : HostLaws h0} {X W : Type} {S : Subprocess X} {E : WavecliExecutor W} {C : WallClock W}.
Abbreviation Tool := (W * list (list string))%type.
Abbreviation Transport := (BuzzTransport X).
Variable args : HermesArgs.
Variable bin : option string.

(** The runner finds no failing write and the Buzz tool of the environment. *)
Definition ordinary (w : HermesWorld X Tool) : Prop :=
  no_faults (faults (hw_env w)) ∧ no_faults (hw_state_faults w) ∧ hw_buzz_bin w = bin.

(** Runs of [main] one after the other: the first finds neither a store nor a
    snapshot and a tool that was given no command; the next ones find what the
    one before left.  Everything else may differ. *)
Inductive lives : HermesProcess Transport Tool → Prop :=
  | first_life n w stdin out p :
      ordinary w → store_file (hw_env w) = Missing → hw_state_file w = Missing → (hw_wave w).2 = [] →
      hermes_main n args w stdin = Some (Served (out, p)) → lives p
  | next_life p n w stdin out p' :
      lives p → ordinary w → store_file (hw_env w) = store_file (o_env (hr_orchestrator p)) →
      hw_state_file w = hr_file p → hw_wave w = o_world (hr_orchestrator p) →
      hermes_main n args w stdin = Some (Served (out, p')) → lives p'.

(** A process that [main] built and where its loop got to. *)
Lemma main_inv n (w : HermesWorld X Tool) stdin out p :
  hw_buzz_bin w = bin → hermes_main n args w stdin = Some (Served (out, p)) →
  ∃ config opts t p0 outs,
    hermes_config args = Ok config ∧ build_adapter (ha_network args) (ha_wave_rpc_server args) = Ok opts ∧
    process_start (H1 := WavelengthAdapter opts) config None (t : Transport) (hw_wave w) (hw_env w)
      (hw_state_file w) (hw_state_faults w) (hw_mono w) = Ok p0 ∧
    serve (H0 := hermes_transport args w) (H1 := WavelengthAdapter opts) config n stdin p0 = Some (outs, p).
Proof.
  intros Hbin. unfold hermes_main. destruct (hermes_checks args); [done|].
  destruct (hw_mkdir w _) as [[]|e]; [|done]. cbn [mbind outcome_bind].
  destruct (hermes_config args) as [config|e] eqn:Hc; [|done]. cbn [mbind outcome_bind].
  destruct (build_transport args w) as [t|e]; [|done]. cbn [mbind outcome_bind].
  destruct (build_adapter _ _) as [opts|e] eqn:Ho; [|done]. cbn [mbind outcome_bind].
  destruct (hermes_process args w config opts t) as [p0|e] eqn:Hp; [|done]. cbn [mbind outcome_bind].
  destruct (serve config n stdin p0) as [[outs p1]|] eqn:Hs; [|done]. cbn. intros [= _ <-].
  by exists config, opts, t, p0, outs.
Qed.

Lemma hermes_configured config : hermes_config args = Ok config → configured config.
Proof.
  unfold hermes_config. intros Hc. bind_inv Hc. unfold configured. do 9 eexists. exact Hc.
Qed.

(** The transport of every life. *)
#[local] Instance life_transport : PeerTransport Transport :=
  @BuzzPeerTransport _ X (SubprocessBuzzExecutor (text_or (ha_buzz_bin args) (default "buzz" bin)) 30)
    (ha_channel args) (Some (path_join (ha_state_root args) "buzz_cursor.json")) (Some (ha_pubkey args)).

(** The process is what a run over recorded calls leaves. *)
Definition observed config opts (p : HermesProcess Transport Tool) : Prop :=
  ∃ h q, wavelength_runs config opts h q ∧ faultless_runs (wavelength opts) config h q ∧
    map_process fst q = p.

Lemma observed_line config opts n line q h :
  configured config → wavelength_runs config opts h q → faultless_runs (wavelength opts) config h q →
  ∃ h', wavelength_runs config opts h' (handle_line (H1 := engine_adapter (wavelength opts)) config n line q).2 ∧
    faultless_runs (wavelength opts) config h'
      (handle_line (H1 := engine_adapter (wavelength opts)) config n line q).2.
Proof.
  intros Hconf Hw Hfl. eexists. split; [|by apply faultless_line].
  apply wavelength_line; [done|]. intros _. apply (faultless_inv _ _ _ _ Hconf Hfl).
Qed.

Lemma observed_serve config opts n stdin outs q h p :
  configured config → wavelength_runs config opts h q → faultless_runs (wavelength opts) config h q →
  serve (H1 := WavelengthAdapter opts) config n stdin (map_process fst q) = Some (outs, p) →
  observed config opts p.
Proof.
  intros Hconf Hw Hfl.
  rewrite (agree_serve (engine_adapter (wavelength opts)) (WavelengthAdapter opts) fst config n stdin q).
  destruct (serve config n stdin q) as [[outs' q']|] eqn:Hserve; [|done]. intros [= _ <-].
  assert (∃ h', wavelength_runs config opts h' q' ∧ faultless_runs (wavelength opts) config h' q')
    as (h' & Hw' & Hfl').
  { refine (serve_reaches _ config n
      (λ q1, ∃ h1, wavelength_runs config opts h1 q1 ∧ faultless_runs (wavelength opts) config h1 q1)
      stdin q outs' q' _ _ Hserve); [|by exists h].
    intros line q1 (h1 & Hw1 & Hfl1). by apply (observed_line config opts n line q1 h1). }
  by exists h', q'.
Qed.

(** A start over recorded calls. *)
Lemma observed_start config opts (t : Transport) (w : Tool) calls e file fl mono p :
  process_start (H1 := WavelengthAdapter opts) config None t w e file fl mono = Ok p →
  ∃ q, process_start (H1 := engine_adapter (wavelength opts)) config None t (w, calls) e file fl mono = Ok q ∧
       map_process fst q = p.
Proof.
  change w with (fst (w, calls)) at 1.
  rewrite (agree_start (engine_adapter (wavelength opts)) (WavelengthAdapter opts) fst config).
  destruct (process_start config None t (w, calls) e file fl mono) as [q|x]; [|done].
  intros [= <-]. by exists q.
Qed.

Lemma lives_observed p :
  lives p → ∃ config opts, hermes_config args = Ok config ∧
    build_adapter (ha_network args) (ha_wave_rpc_server args) = Ok opts ∧ observed config opts p.
Proof.
  induction 1 as [n w stdin out p (He & Hf & Hbin) Hm Hs Hl Hmain
                 |p n w stdin out p' Hlives IH (He & Hf & Hbin) Hst Hfile Hw Hmain];
    destruct (main_inv n w stdin out _ Hbin Hmain) as (config & opts & t & p0 & outs & Hc & Ho & Hstart & Hserve);
    pose proof (hermes_configured config Hc) as Hconf; exists config, opts; (split; [done|]); (split; [done|]);
    unfold hermes_transport in Hserve; rewrite Hbin in Hserve.
  - destruct (hw_wave w) as [x l] eqn:Hwave. cbn [snd] in Hl. subst l.
    destruct (observed_start config opts t (x, []) [] _ _ _ _ _ Hstart) as (q & Hq & <-).
    rewrite Hs in Hq. eapply (observed_serve config opts n stdin outs q []); [done| |by eapply faultless_start|exact Hserve].
    by eapply wavelength_start.
  - destruct IH as (config' & opts' & Hc' & Ho' & h & q & Hwq & Hfq & <-).
    rewrite Hc in Hc'. injection Hc' as <-. rewrite Ho in Ho'. injection Ho' as <-.
    destruct (observed_start config opts t (hw_wave w) (o_world (hr_orchestrator q)).2 _ _ _ _ _ Hstart)
      as (q0 & Hq0 & <-).
    assert ((hw_wave w, (o_world (hr_orchestrator q)).2) = o_world (hr_orchestrator q)) as Heq.
    { rewrite Hw. symmetry. apply surjective_pairing. }
    rewrite Heq, Hfile in Hq0.
    eapply (observed_serve config opts n stdin outs q0 h); [done| | |exact Hserve].
    + eapply wavelength_restart; [exact Hwq| |exact Hst|exact Hq0].
      apply (faultless_inv _ _ _ _ Hconf Hfq).
    + by eapply faultless_restart; [exact Hfq|exact Hst|..|exact Hq0].
Qed.

End Lives.

(** ** One life *)

#[local] Existing Instance ref_host.

(** A Buzz tool that answers every command with an event id. *)
#[local] Instance buzz_tool : Subprocess unit :=
  {| subprocess_run _ _ := mret (ProcCompleted 0 (dumps line_opts (JObj [("event_id", JStr "event-1")])) "") |}.

Definition alice_args : HermesArgs :=
  {| ha_role := "alice"; ha_channel := "payments"; ha_pubkey := pubkey alice;
     ha_approver_pubkey := pubkey alice; ha_state_root := "/tmp/alice"; ha_network := "regtest";
     ha_wave_rpc_server := None; ha_buzz_bin := None |}.

Definition alice_world : HermesWorld unit (FakeWavecli * list (list string)) :=
  {| hw_mkdir _ := Ok tt; hw_env := sample_env; hw_state_file := Missing; hw_state_faults := [];
     hw_mono := seconds; hw_cursor_file := Missing; hw_cursor_faults := []; hw_clock _ := 100;
     hw_buzz := tt; hw_wave := (daemon [preview_json; complete_json; complete_json], []);
     hw_buzz_bin := None |}.

Definition alice_life := hermes_main 9 alice_args alice_world payment_lines.

Definition served_commands
    (r : option (main_result (list string * HermesProcess (BuzzTransport unit) (FakeWavecli * list (list string)))))
    : list (list string) :=
  match r with Some (Served (_, p)) => (o_world (hr_orchestrator p)).2 | _ => [] end.

Lemma served_inv r :
  served_commands r ≠ [] → ∃ out p, r = Some (Served (out, p)) ∧ served_commands r = (o_world (hr_orchestrator p)).2.
Proof. destruct r as [[| |[out p]]|]; try done. intros _. by exists out, p. Qed.

Lemma nonempty_length {B} (l : list B) k : List.length l = S k → l ≠ [].
Proof. by destruct l. Qed.

